(* ===== verification/_CoqProject ===== *)
-Q . S2P
Prelude.v
PyFloat.v
PyTime.v
PyStr.v
Domain.v
Schema.v
Migrations.v
Runtime.v
Exceptions.v
Threads.v
RefEnv.v
Protocols.v
Tables.v
SqlNodeRepository.v
SqlAlertRepository.v
SqlMetricsRepository.v
SqlActionRepository.v
Rules.v
Remediation.v
Notifications.v
Lifecycle.v
Invariants.v
Conformance.v
Races.v
Settings.v
Logging.v
NodeRegistry.v
RemediationService.v
Alerting.v
Ingestion.v
Dispatch.v
Progress.v
Reconciliation.v
Staleness.v
Interference.v
Guarantees.v
Retention.v
JobScheduler.v
Upkeep.v
SchedulerThread.v
Routes.v
Api.v
Deps.v
Frames.v
Sessions.v
ServiceThreads.v
ConcurrentPush.v
Collector.v
Keeping.v
ConcurrentOthers.v
Concurrent.v
StressLoad.v
Scenario.v
ConcurrentScenario.v
Divergences.v
Disk.v
AgentRuntime.v
Files.v
Buffer.v
Transport.v
Executor.v
AgentConfig.v
RefAgent.v
Agent.v
AgentMain.v
Delivery.v
AgentScenario.v
System.v
Settlement.v
Silence.v
Response.v
SystemScenario.v
