(* ===== verification/Prelude.v ===== *)
(** * ClusterPulse: verification library

    ClusterPulse is a fleet monitor in two programs.  The Agent ([src/agent/]) runs on every
    node: it samples the machine, pushes the samples to the Collector, buffers what it could
    not deliver, and executes the remediation actions an acknowledgement carries.  The
    Collector ([src/collector/]) stores the samples, evaluates alert rules on each push,
    escalates alerts that stay open, decides on remediation within Safety Limits, and runs
    three maintenance jobs.  Both share the wire contract and constants of [src/shared/].

    This library translates the two programs into executable Gallina and proves what makes
    them correct.  It is organised like the source: a file per component, the components
    meeting at interfaces.

    ** Foundations

    - Prelude (this file): scope, hint database and tactics.
    - PyFloat, PyTime, PyStr: Python's floats (IEEE binary64, through the standard library's
      [SpecFloat]), datetimes and timedeltas (integer microseconds, with [total_seconds] and
      [timedelta(seconds=x)] rounded as the interpreter does and the calendar's bounds), and
      the string operations used.  Strings are UTF-8 bytes.
    - Domain: enumerations, wire contract, constants ([shared/contracts/], [shared/constants.py],
      [collector/enums.py]).
    - Schema: the four tables, their foreign keys, the records handed to the services, and the
      row transformations of the repositories ([collector/db/models/]).
    - Migrations: the six Alembic revisions as DDL statements on a catalog, the class
      [DdlEngine] of what executes them, and the ORM models' own declaration of the same
      tables ([collector/db/migrations/], [db/enum_column.py], [db/models/]).
    - Runtime: exceptions, the class [Env] (database engine, clocks, Telegram), the state
      monad [M] over the [World] with exceptions as results, session primitives (SELECT, GET,
      COMMIT, bounded DELETE), and weakest preconditions with [reads] and [writes] contracts.
    - Exceptions: the classes that handlers dispatch on ([shared/exceptions/],
      [collector/exceptions.py]) and [isinstance].
    - RefEnv: a concrete [Env], used by examples and witnesses.

    ** The Collector

    - Protocols: the four repository protocols as classes ([collector/repositories/protocols.py]):
      operations with the contract the services rely on.  Tables has the lemmas on tables.
      SqlNodeRepository, SqlAlertRepository, SqlMetricsRepository, SqlActionRepository: the
      SQLAlchemy repositories, which discharge the contracts as instances.
    - Rules ([rules/]), Remediation ([remediation/]), Notifications ([notifications/]),
      Settings ([config.py]), Logging ([shared/logging/setup.py]: what the set-up decides).
    - NodeRegistry, RemediationService, Alerting, Ingestion ([services/]), and Progress, on what a
      push achieves; Reconciliation,
      Staleness, Retention, JobScheduler ([jobs/]), and Upkeep, on a pass in which all three
      run; Routes, Api ([api/]); Deps (the providers of [api/deps.py] and the orders in which they
      may run); Sessions (the database sessions of requests and job runs,
      [db/session.py] and [get_db_session]); Collector ([main.py], the providers of
      [api/deps.py], and runs of the whole program: requests, scheduler passes, and restarts,
      which keep the database and build the process anew).
    - SchedulerThread: the class [PeriodicJobScheduler] with its threads: [start], [stop],
      [run_all_once] and the loops as interleaved steps, and the lifespan of [main.py].
    - Frames: a relation between worlds that every repository call keeps is kept by every
      service operation, request, job and pass; classes say what is asked of the calls.
    - Keeping: a sample that is younger than every cutoff of the retention job stays as it is
      through any run of the Collector.
    - Dispatch: what a push may add to the database, in the form the Agent's side needs.
    - Lifecycle: the abstract specification.  A step relation on databases whose transitions
      carry the guards under which the source performs them; one transition, deciding without
      stamping the alert, exists only when the engine may fail.  Invariants proves the
      lifecycle's invariants by induction on steps; Conformance defines what it is for a
      computation to move the database by steps only, and how that composes.
    - Concurrent: the same application with its requests and sweeps on threads.  Threads has
      programs of repository calls, each call atomic, pools of them, and the rely/guarantee
      rule; ServiceThreads, the services and sweeps as such programs, equal to the operations
      in [M] when they run alone.  Races lists what interleaving adds to the lifecycle;
      Interference says which rows a thread owns, Guarantees what it may do and may count on;
      ConcurrentPush and ConcurrentOthers prove that pushes and everything else do so.
    - StressLoad: the load generator ([scripts/stress_load.py]) and the shipped rules and
      playbooks, under which its runs leave no trace once cleaned up.
    - Scenario, ConcurrentScenario and Divergences: concrete runs; the witnesses of the properties with hypotheses,
      and the runs in which behaviour departs from what is documented.

    A service's state is the database in the [World]; its configuration is a record of the
    source's private attributes; an operation is a definition with the source's name, in [M].
    Services are proved against the repository classes, never against their instances.

    ** The Agent

    - Disk: the Agent's disk, a tree of directories, files and links as a map from places (the
      names that lead from the root to a node, links followed).  AgentRuntime: the Agent's
      monad [AM] over that disk and the requests sent, and the class [AgentEnv] (psutil, which
      calls on the disk fail and what a failed write leaves, where a configured path leads,
      network, JSON codec, tenacity).  Files: the calls of [pathlib], [os] and [shutil] that
      the Agent makes, and frames on what they change.
    - Buffer ([buffer.py]), Transport ([transport/http_client.py]), Executor ([remediation/]),
      AgentConfig ([config.py]), Agent ([scheduler.py], [collectors/]), AgentMain ([main.py],
      the signal flag included), Delivery (what a run of cycles does with its payloads);
      RefAgent and AgentScenario: a concrete environment, and the witnesses.

    ** Both together

    - System: the Agent's process with the Collector behind its network.  Each request meets
      a fate: it is answered, lost before it arrives, or its answer is lost; between requests
      the Collector serves anything else.  The outcome of a request is computed from the
      requests sent so far, so the network is an instance of the Agent's class [AgentEnv]
      and every theorem on the Agent applies to it.
    - Settlement: on a network that answers, every action the Collector dispatches is
      executed and reported within the cycle that received it.
    - Response: a breach that lasts, from the samples that show it to the outcome of its
      remediation.
    - Silence: a node that is not heard of, from its last message to the scheduler's sweeps.
    - SystemScenario: concrete runs.

    ** What the theorems show

    - Whole Collector (Collector.v): every event of every run moves the database by the steps
      of the lifecycle machine only, under every pattern of database failures, row orders and
      clock readings; hence one open alert per node and rule, the hourly limit, the cooldown,
      escalation before remediation, one remediation per alert (when the database answers),
      well-formed tables, and, between any two times of a run, what may become of an alert or
      an action that is not pruned in the meantime.
    - Concurrent service (Concurrent.v): as long as the pushes of one node do not overlap, nor
      the sweeps, then whatever the interleaving, from any state of the service to any later
      one the database moves by the lifecycle machine and a few named races, and
      deduplication, the Safety Limits and the single remediation of an alert survive;
      handling one at a time is one interleaving.
    - Whole system (System.v): over any number of runs of the Agent's process, what it counts
      as delivered is stored, no action is handed to the executor twice, an acknowledged
      result is recorded; on a network that only delays, with a disk that works, nothing is
      lost, and after a partition heals the backlog is delivered within as many cycles as it
      has batches.  Settlement.v: when messages arrive, every action of the node was blocked,
      or was handed to the executor once and is no longer dispatched.  Response.v: an Agent whose
      every reading breaches the CPU rule gets its alert opened, kept open, and after the
      configured delays escalated and remediated, unless an operator acknowledged it.
      Silence.v: a node that falls silent has exactly one staleness alert from the next sweep
      on, and one that is heard of has none, through requests, jobs and restarts.
    - Resources (Sessions.v): no session stays open after a request or a job run, whatever
      is raised in between and in whichever order the providers of a request run.
    - The scheduler's threads (SchedulerThread.v): under every interleaving, at most one loop
      more than joins that timed out; [stop] ends a loop; a loop alone is the sequential
      [_run_loop] that Collector.v runs.
    - The schema (Migrations.v): the migrations build what the ORM models declare, and
      downgrades undo upgrades.
    - Lifecycle (Invariants.v): lemmas on what a transition may do to an alert or an action,
      which Collector.v carries over to the runs of the program.
    - Maintenance (Upkeep.v): one pass in which the three jobs are due ends with the
      promises of all of them holding of one database.
    - Components: the functional behaviour of each operation on every branch, errors included
      (Alerting, Remediation, Ingestion, RemediationService, NodeRegistry, Rules, Reconciliation,
      Staleness, Retention), validators accepting exactly what they should (Rules, Remediation,
      Settings), termination of the drain loop, containment of job failures, totality of
      request handling.
    - Agent: the buffer's round trip and queue behaviour, and its rewrite, which a kill at
      either of its two points leaves at the old or the new queue; delivery and redelivery
      outcomes, the bound on requests; what executing an action does, and the confinement of
      the whole process to its allowlist, its buffer and the directories above it, place by
      place; and behaviours that lose or reorder data, stated as they are.

    ** Bounds and fuel

    The drain loop of Retention takes fuel; the fuel chosen is one more than the number of
    rows, which is enough because every pass but the last deletes a row ([drain_terminates]).
    [run_passes] and [run_forever] take the finite list of answers of the stop event: every
    theorem holds for every prefix of an execution.  A loop thread that is told to stop needs
    at most [remaining_steps] steps ([stop_ends_loop]).  No other recursion needs fuel, apart from
    the decoding of UTF-8 in PyStr, whose fuel is the length of the string.

    ** Assumptions

    Datetimes are timezone-aware and stored in UTC.  Collector.v and System.v handle requests and
    scheduler passes one at a time.  Concurrent.v interleaves their repository calls, taking
    a call (the rows it reads and its commit) as atomic, the pushes of one node as following
    one another, as its Agent sends them, and the scheduler's jobs likewise; the retention
    job is left out there.  Divergences shows what overlapping pushes of one node break.
    A COMMIT is atomic, refuses dangling references and
    leaves the tables unchanged when it fails; a SELECT returns the qualifying rows in any
    order, and ties of an ORDER BY are broken arbitrarily; generated keys are unused ones.
    NaN passes or fails pydantic's bounds depending on a parameter.

    The Agent has its disk to itself, and no link on the way to a configured path, its buffer
    file or an allowed directory, changes while it runs; the temporary file is beside the buffer
    file, and neither is a link.  The theorems that follow what the buffer holds (nothing is
    lost, settlement, response) ask that the buffer file lies outside the directories the Agent
    may clear ([buffer_apart]): inside one, clearing it removes the buffer.  An action is
    executed, in [aw_executed], when it is handed to [PlaybookExecutor.execute], which may
    refuse it; what that does is in Executor.v.  A run of the Agent ends by a signal between
    two cycles, as [run_forever] has it, or by an exception anywhere; a kill inside a cycle is
    considered for the rewrite of the buffer file only.

    Silence asks that the clock's verdict on the node does not change any more: its theorem is
    about the time after a threshold was passed for good, or while it is not reached.

    Retention removes rows, so the theorems that look rows up after a run restrict it: those of
    System, about samples, ask that no retention job is scheduled or that the run is shorter
    than the time samples are retained; those of Settlement and Response, about actions and
    alerts, that no retention job is scheduled.  A crash of the Collector is a
    run of failing interactions followed by a restart.  The order in which the tokens' set is
    iterated is one argument of a whole run, restarts included.

    ** What is not modelled

    Log calls and what structlog makes of the set-up; the engine behind the session factory
    ([db/session.py]) and Alembic's [env.py]; parsing of JSON, headers and environment
    variables (values arrive validated); the [context] dictionaries of exceptions; the
    protocols [MetricCollector] and [Transport] of [shared/protocols.py], of which only the one
    implementation is modelled; uvicorn; waiting times of retries; in the load generator,
    argparse and the layout of the printed line.

    Retention is not among the concurrent jobs: with it, a row another thread has read may be
    gone and its key used again, so that what a thread has read would stay true only under
    the assumption that keys are never reused.  The closed loop and the response to a breach
    are stated for a network that answers; on one that delays, System.v has what remains. *)

From Stdlib Require Export ZArith Lia Bool.
From stdpp Require Export base tactics option list gmap fin_maps sets strings pretty.

(** ** Scope and hint databases *)

Declare Scope pulse_scope.
Delimit Scope pulse_scope with pulse.

Create HintDb pulse.

(** ** Tactics shared by the development *)

(** Turn boolean facts about [Z] and the connectives into propositions. *)
Ltac bool_props :=
  repeat match goal with
  | H : _ && _ = true |- _ => apply andb_true_iff in H; destruct H
  | H : _ || _ = false |- _ => apply orb_false_iff in H; destruct H
  | H : negb _ = true |- _ => apply negb_true_iff in H
  | H : negb _ = false |- _ => apply negb_false_iff in H
  | H : Z.leb _ _ = true |- _ => apply Z.leb_le in H
  | H : Z.leb _ _ = false |- _ => apply Z.leb_gt in H
  | H : Z.ltb _ _ = true |- _ => apply Z.ltb_lt in H
  | H : Z.ltb _ _ = false |- _ => apply Z.ltb_ge in H
  | H : Z.eqb _ _ = true |- _ => apply Z.eqb_eq in H
  | H : Z.eqb _ _ = false |- _ => apply Z.eqb_neq in H
  | H : bool_decide _ = true |- _ => apply bool_decide_eq_true in H
  | H : bool_decide _ = false |- _ => apply bool_decide_eq_false in H
  end.
