(* ===== verification/PyFloat.v ===== *)
(** * Python floats

    A Python [float] is an IEEE-754 binary64 number.  It is represented by the standard
    library's executable specification [spec_float] with 53 bits of precision, so NaN,
    the infinities and rounding behave as they do in the interpreter.  The file also holds
    the order lemmas the time-based guards need. *)

From Stdlib Require Import SpecFloat.
From S2P Require Import Prelude.

Local Open Scope Z_scope.

Abbreviation float := spec_float.

(** ** Operations *)

Definition prec : Z := 53.
Definition emax : Z := 1024.

(** [float(z)] for an integer literal [z] that fits. *)
Definition float_of_Z (z : Z) : float := binary_normalize prec emax z 0 false.

(** [x - y], [x * y]. *)
Definition fadd (x y : float) : float := SFadd prec emax x y.
Definition fsub (x y : float) : float := SFsub prec emax x y.
Definition fmul (x y : float) : float := SFmul prec emax x y.

(** [x < y], [x <= y], [x > y], [x >= y]; every comparison with NaN is false. *)
Definition flt (x y : float) : bool := SFltb x y.
Definition fle (x y : float) : bool := SFleb x y.
Definition fgt (x y : float) : bool := flt y x.
Definition fge (x y : float) : bool := fle y x.

(** [x <= y] as a proposition. *)
Notation "x <=. y" := (fle x y = true) (at level 70, no associativity) : pulse_scope.
Local Open Scope pulse_scope.

Definition is_nan (x : float) : bool :=
  match x with S754_nan => true | _ => false end.

(** ** Rounding an exact quotient to the nearest integer, ties to even *)

Definition div_half_even (num den : Z) : Z :=
  let q := num / den in
  let r := num mod den in
  match Z.compare (2 * r) den with
  | Lt => q
  | Gt => q + 1
  | Eq => if Z.even q then q else q + 1
  end.

(** The value of a finite float as [num / den]. *)
Definition float_ratio (m : positive) (e : Z) : Z * Z :=
  if 0 <=? e then (Zpos m * 2 ^ e, 1) else (Zpos m, 2 ^ (- e)).

(** [format(x, '.0f')]: the decimal digits of [x] rounded half-even to an integer. *)
Definition format_0f (x : float) : string :=
  match x with
  | S754_nan => "nan"
  | S754_infinity s => if s then "-inf" else "inf"
  | S754_zero s => if s then "-0" else "0"
  | S754_finite s m e =>
      let '(num, den) := float_ratio m e in
      String.append (if s then "-" else EmptyString) (pretty (div_half_even num den))
  end%string.

(** [int(x)] for a finite float: truncation toward zero. *)
Definition float_trunc (x : float) : option Z :=
  match x with
  | S754_nan | S754_infinity _ => None
  | S754_zero _ => Some 0
  | S754_finite s m e =>
      let '(num, den) := float_ratio m e in
      Some (if s then - (num / den) else num / den)
  end.

(** ** The order *)

#[export] Instance float_eq_dec : EqDecision float.
Proof. solve_decision. Defined.

Lemma SFcompare_refl x : is_nan x = false -> SFcompare x x = Some Eq.
Proof.
  destruct x as [| [] | | [] m e]; simpl; try done;
    rewrite Z.compare_refl; change (Pos.compare_cont Eq m m) with (Pos.compare m m);
    by rewrite Pos.compare_refl.
Qed.

Lemma fle_refl x : is_nan x = false -> x <=. x.
Proof. intros H. unfold fle, SFleb. by rewrite SFcompare_refl. Qed.

Lemma flt_fle x y : flt x y = true -> x <=. y.
Proof. unfold flt, fle, SFltb, SFleb. by destruct (SFcompare x y) as [[]|]. Qed.

Lemma Pos_compare_cont_Eq m n : Pos.compare_cont Eq m n = Pos.compare m n.
Proof. done. Qed.

(** Reduces every comparison of the context to arithmetic. *)
Ltac compare_arith :=
  repeat match goal with
  | H : context [Pos.compare_cont Eq ?m ?n] |- _ => rewrite (Pos_compare_cont_Eq m n) in H
  | |- context [Pos.compare_cont Eq ?m ?n] => rewrite (Pos_compare_cont_Eq m n)
  | H : context [Z.compare ?a ?b] |- _ => destruct (Z.compare_spec a b); simpl in H
  | |- context [Z.compare ?a ?b] => destruct (Z.compare_spec a b); simpl
  | H : context [Pos.compare ?a ?b] |- _ => destruct (Pos.compare_spec a b); simpl in H
  | |- context [Pos.compare ?a ?b] => destruct (Pos.compare_spec a b); simpl
  end; subst; try done; try lia.

Lemma fle_trans x y z : x <=. y -> y <=. z -> x <=. z.
Proof.
  unfold fle, SFleb.
  destruct x as [| [] | | [] m1 e1], y as [| [] | | [] m2 e2], z as [| [] | | [] m3 e3];
    simpl; try done; intros H1 H2; compare_arith.
Qed.

(** Without NaN the order is total: [not (x < y)] is [y <= x]. *)
Lemma flt_false_fle x y :
  is_nan x = false -> is_nan y = false -> flt x y = false -> y <=. x.
Proof.
  unfold flt, fle, SFltb, SFleb.
  destruct x as [| [] | | [] m1 e1], y as [| [] | | [] m2 e2];
    simpl; try done; intros _ _ H; compare_arith.
Qed.

Lemma fle_flt_false x y : x <=. y -> flt y x = false.
Proof.
  unfold flt, fle, SFltb, SFleb.
  destruct x as [| [] | | [] m1 e1], y as [| [] | | [] m2 e2];
    simpl; try done; intros H; compare_arith.
Qed.

(** No comparison with NaN holds. *)
Lemma flt_nan_r x y : is_nan y = true -> flt x y = false.
Proof. by destruct x as [| [] | | [] ? ?], y. Qed.

(** ** Half-even rounding is monotone and stays within its integer bounds *)

Lemma div_half_even_bounds num den :
  0 < den -> num / den <= div_half_even num den <= num / den + 1.
Proof.
  intros Hd. unfold div_half_even.
  destruct (Z.compare_spec (2 * (num mod den)) den); try destruct (Z.even _); lia.
Qed.

Lemma div_half_even_mono n1 n2 den :
  0 < den -> n1 <= n2 -> div_half_even n1 den <= div_half_even n2 den.
Proof.
  intros Hd Hle.
  assert (n1 / den <= n2 / den) as Hq by (apply Z.div_le_mono; lia).
  destruct (Z.eq_dec (n1 / den) (n2 / den)) as [Heq|Hne].
  - assert (n1 mod den <= n2 mod den) as Hr.
    { rewrite !Z.mod_eq by lia. rewrite Heq. lia. }
    unfold div_half_even. rewrite Heq.
    destruct (Z.compare_spec (2 * (n1 mod den)) den), (Z.compare_spec (2 * (n2 mod den)) den);
      try destruct (Z.even _); lia.
  - pose proof (div_half_even_bounds n1 den Hd).
    pose proof (div_half_even_bounds n2 den Hd). lia.
Qed.

(** An exact quotient below an integer [k] rounds to at most [k]. *)
Lemma div_half_even_upper num den k :
  0 < den -> num <= k * den -> div_half_even num den <= k.
Proof.
  intros Hd Hle.
  assert (div_half_even (k * den) den = k) as <-.
  { unfold div_half_even. rewrite Z.div_mul, Z.mod_mul by lia.
    by destruct (Z.compare_spec (2 * 0) den); try lia. }
  by apply div_half_even_mono.
Qed.

#[export] Hint Resolve fle_refl flt_fle : pulse.
