(* ===== verification/PyTime.v ===== *)
(** * Python datetimes and timedeltas

    A timezone-aware [datetime] is the number of microseconds since the Unix epoch (UTC),
    a [timedelta] a number of microseconds: both are exact integers in the interpreter too.
    [timedelta.total_seconds()] divides by 10^6 and rounds once to the nearest double;
    [timedelta(seconds=x)] rounds a float back to whole microseconds, half to even.
    The file proves [total_seconds] monotone, which the age, cooldown and staleness guards
    of the Collector rely on. *)

From Stdlib Require Import SpecFloat.
From S2P Require Import Prelude PyFloat.

Local Open Scope Z_scope.
Local Open Scope pulse_scope.

Abbreviation datetime := Z (only parsing).
Abbreviation timedelta := Z (only parsing).

Definition us_per_second : Z := 1000000.
Definition seconds (s : Z) : timedelta := s * us_per_second.
Definition minutes (m : Z) : timedelta := seconds (60 * m).
Definition hours (h : Z) : timedelta := seconds (3600 * h).
Definition days (d : Z) : timedelta := seconds (86400 * d).

(** ** total_seconds *)

(** Quotients are scaled by 2^80 so that every exponent below is non-negative. *)
Definition scale : Z := 2 ^ 80.

Definition quot_exp (n : Z) : Z := Z.log2 (n * scale / us_per_second) - 52.

Definition quot_mantissa (n : Z) : Z :=
  div_half_even (n * scale) (us_per_second * 2 ^ quot_exp n).

(** The double nearest to [n / 10^6], for [0 < n]: a 53-bit mantissa, or the next power of
    two when the mantissa rounds up to 2^53. *)
Definition div_million (n : Z) : positive * Z :=
  let m := quot_mantissa n in
  let e := quot_exp n in
  if m =? 2 ^ 53 then (Z.to_pos (2 ^ 52), e - 79) else (Z.to_pos m, e - 80).

Definition total_seconds (td : timedelta) : float :=
  match td with
  | Z0 => S754_zero false
  | Zpos p => let '(m, e) := div_million (Zpos p) in S754_finite false m e
  | Zneg p => let '(m, e) := div_million (Zpos p) in S754_finite true m e
  end.

(** ** timedelta(seconds=x) *)

Definition max_days : Z := 999999999.

Inductive time_error :=
| TE_nan        (* ValueError: cannot convert float NaN to integer *)
| TE_overflow.  (* OverflowError *)

Definition check_timedelta (td : timedelta) : timedelta + time_error :=
  if (days (- max_days) <=? td) && (td <? days (max_days + 1)) then inl td else inr TE_overflow.

(** The integral part goes over exactly; the fractional part is multiplied by [1e6] in
    floating point, then the sum is rounded half to even. *)
Definition timedelta_of_seconds (x : float) : timedelta + time_error :=
  match x with
  | S754_nan => inr TE_nan
  | S754_infinity _ => inr TE_overflow
  | S754_zero _ => inl 0
  | S754_finite s m e =>
      let '(num, den) := float_ratio m e in
      let whole := (num / den) * us_per_second in
      let frac := binary_normalize prec emax (num mod den) e false in
      let micros :=
        match fmul frac (float_of_Z us_per_second) with
        | S754_finite _ m' e' =>
            let '(num', den') := float_ratio m' e' in
            div_half_even (whole * den' + num') den'
        | _ => whole
        end in
      check_timedelta (if s then - micros else micros)
  end.

Definition timedelta_of_days (d : Z) : timedelta + time_error := check_timedelta (days d).

(** [datetime - timedelta], defined from year 1 to year 9999. *)
Definition min_datetime : datetime := seconds (-62135596800).
Definition max_datetime : datetime := seconds 253402300800 - 1.

Definition datetime_sub (t : datetime) (d : timedelta) : datetime + time_error :=
  let r := t - d in
  if (min_datetime <=? r) && (r <=? max_datetime) then inl r else inr TE_overflow.

Lemma datetime_sub_inv t d r : datetime_sub t d = inl r -> r = t - d.
Proof. unfold datetime_sub. case_match; congruence. Qed.

(** ** Monotonicity of total_seconds *)

Lemma quot_exp_pos n : 0 < n -> 0 <= quot_exp n.
Proof.
  intros Hn. unfold quot_exp.
  assert (2 ^ 60 <= n * scale / us_per_second) as H.
  { transitivity (1 * scale / us_per_second); [vm_compute; discriminate|].
    apply Z.div_le_mono; [unfold us_per_second; lia|].
    apply Z.mul_le_mono_nonneg_r; [unfold scale; lia|lia]. }
  apply Z.log2_le_mono in H. rewrite Z.log2_pow2 in H by lia. lia.
Qed.

Lemma quot_exp_mono n1 n2 : n1 <= n2 -> quot_exp n1 <= quot_exp n2.
Proof.
  intros Hle. unfold quot_exp. apply Z.sub_le_mono_r, Z.log2_le_mono.
  apply Z.div_le_mono; [unfold us_per_second; lia|].
  apply Z.mul_le_mono_nonneg_r; [unfold scale; lia|done].
Qed.

Lemma quot_mantissa_bounds n : 0 < n -> 2 ^ 52 <= quot_mantissa n <= 2 ^ 53.
Proof.
  intros Hn. unfold quot_mantissa.
  pose proof (quot_exp_pos n Hn) as He.
  set (e := quot_exp n) in *. set (q := n * scale / us_per_second).
  assert (0 < 2 ^ e) by (apply Z.pow_pos_nonneg; lia).
  assert (0 < q) as Hq.
  { unfold e, quot_exp in He. fold q in He.
    destruct (Z.le_gt_cases q 0) as [H0|]; [|done].
    rewrite (Z.log2_nonpos q H0) in He. lia. }
  destruct (Z.log2_spec q Hq) as [Hlo Hhi].
  assert (Z.log2 q = 52 + e) as Hlog by (unfold e, quot_exp; fold q; lia).
  rewrite Hlog in Hlo, Hhi. rewrite <- Z.add_succ_l in Hhi.
  rewrite Z.pow_add_r in Hlo, Hhi by lia.
  pose proof (Z.mul_div_le (n * scale) us_per_second ltac:(unfold us_per_second; lia)).
  pose proof (Z.mul_succ_div_gt (n * scale) us_per_second ltac:(unfold us_per_second; lia)).
  fold q in H0, H1. change (Z.succ 52) with 53 in Hhi.
  assert (0 < us_per_second * 2 ^ e) by (unfold us_per_second; lia).
  split.
  - transitivity (n * scale / (us_per_second * 2 ^ e)).
    + apply Z.div_le_lower_bound; [done|]. unfold us_per_second in *. nia.
    + by apply div_half_even_bounds.
  - apply div_half_even_upper; [done|]. unfold us_per_second in *. nia.
Qed.

Lemma quot_mantissa_mono n1 n2 :
  n1 <= n2 -> 0 < n1 -> quot_exp n1 = quot_exp n2 -> quot_mantissa n1 <= quot_mantissa n2.
Proof.
  intros Hle Hn He. unfold quot_mantissa. rewrite He.
  apply div_half_even_mono.
  - pose proof (quot_exp_pos n2 ltac:(lia)).
    assert (0 < 2 ^ quot_exp n2) by (apply Z.pow_pos_nonneg; lia).
    unfold us_per_second. lia.
  - apply Z.mul_le_mono_nonneg_r; [unfold scale; lia|done].
Qed.

Lemma div_million_mono n1 n2 m1 e1 m2 e2 :
  0 < n1 -> n1 <= n2 -> div_million n1 = (m1, e1) -> div_million n2 = (m2, e2) ->
  e1 < e2 \/ (e1 = e2 /\ (m1 <= m2)%positive).
Proof.
  intros Hn Hle H1 H2.
  pose proof (quot_exp_mono _ _ Hle).
  pose proof (quot_mantissa_bounds n1 Hn).
  pose proof (quot_mantissa_bounds n2 ltac:(lia)).
  pose proof (quot_mantissa_mono n1 n2 Hle Hn).
  revert H1 H2. unfold div_million.
  destruct (Z.eqb_spec (quot_mantissa n1) (2 ^ 53)),
    (Z.eqb_spec (quot_mantissa n2) (2 ^ 53)); intros [= <- <-] [= <- <-];
    destruct (Z.eq_dec (quot_exp n1) (quot_exp n2)) as [Heq|Hne]; try lia.
Qed.

Lemma total_seconds_mono d1 d2 : d1 <= d2 -> total_seconds d1 <=. total_seconds d2.
Proof.
  intros Hle. unfold total_seconds, fle, SFleb.
  destruct d1 as [|p1|p1], d2 as [|p2|p2]; try done;
    repeat match goal with
    | |- context [div_million ?n] => destruct (div_million n) as [? ?] eqn:?
    end; simpl; try done.
  - destruct (div_million_mono (Zpos p1) (Zpos p2) p z p0 z0) as [?|[-> ?]]; auto; try lia;
      compare_arith.
  - destruct (div_million_mono (Zpos p2) (Zpos p1) p0 z0 p z) as [?|[-> ?]]; auto; try lia;
      compare_arith.
Qed.

Lemma total_seconds_not_nan d : is_nan (total_seconds d) = false.
Proof. by destruct d; simpl; try destruct (div_million _). Qed.

#[export] Hint Resolve total_seconds_mono total_seconds_not_nan : pulse.
