(* ===== verification/PyStr.v ===== *)
(** * Python strings

    A [str] is kept as its UTF-8 bytes.  The file holds what the program asks of strings:
    [strip], [split] and [repr] (in error messages), with Python's notion of
    white space on code points. *)

From S2P Require Import Prelude.
From Stdlib Require Import Ascii.
From Stdlib Require String.

Local Open Scope string_scope.

(** ** Code points *)

(** The number of bytes of the code point a lead byte announces. *)
Definition utf8_width (lead : ascii) : nat :=
  let n := N_of_ascii lead in
  if (n <? 192)%N then 1 else if (n <? 224)%N then 2 else if (n <? 240)%N then 3 else 4.

(** The code points of a string, each as its UTF-8 bytes. *)
Fixpoint chars_fuel (fuel : nat) (s : string) : list string :=
  match fuel, s with
  | S fuel', String c rest =>
      let w := utf8_width c - 1 in
      String c (String.substring 0 w rest) ::
        chars_fuel fuel' (String.substring w (String.length rest - w) rest)
  | _, _ => []
  end.

Definition chars (s : string) : list string := chars_fuel (String.length s) s.

Definition bytes (l : list N) : string := String.string_of_list_ascii (ascii_of_N <$> l).

(** The code points for which [str.isspace()] holds. *)
Definition spaces : list string :=
  bytes <$> [[9]; [10]; [11]; [12]; [13]; [28]; [29]; [30]; [31]; [32]; [194; 133]; [194; 160];
    [225; 154; 128]; [226; 128; 128]; [226; 128; 129]; [226; 128; 130]; [226; 128; 131];
    [226; 128; 132]; [226; 128; 133]; [226; 128; 134]; [226; 128; 135]; [226; 128; 136];
    [226; 128; 137]; [226; 128; 138]; [226; 128; 168]; [226; 128; 169]; [226; 128; 175];
    [226; 129; 159]; [227; 128; 128]]%N.

Definition is_space (c : string) : bool := bool_decide (c ∈ spaces).

Fixpoint drop_while {A} (p : A -> bool) (l : list A) : list A :=
  match l with
  | [] => []
  | x :: l' => if p x then drop_while p l' else l
  end.

(** [s.strip()]. *)
Definition strip (s : string) : string :=
  String.concat EmptyString (reverse (drop_while is_space (reverse (drop_while is_space (chars s))))).

(** [s.split(sep)] for a one-byte separator. *)
Fixpoint split_on (sep : ascii) (s : string) : list string :=
  match s with
  | EmptyString => [EmptyString]
  | String c s' =>
      if Ascii.eqb c sep then EmptyString :: split_on sep s'
      else match split_on sep s' with
           | [] => [String c EmptyString]
           | p :: ps => String c p :: ps
           end
  end.

(** [s.upper()], for ASCII strings. *)
Fixpoint upper (s : string) : string :=
  match s with
  | EmptyString => EmptyString
  | String c s' =>
      let n := N_of_ascii c in
      String (if (97 <=? n)%N && (n <=? 122)%N then ascii_of_N (n - 32) else c) (upper s')
  end.

(** ** repr *)

Definition hex_digit (n : N) : ascii := ascii_of_N (if (n <? 10)%N then 48 + n else 87 + n)%N.

(** One byte of [repr(s)] between quotes [q]; printable and non-ASCII bytes are kept. *)
Definition repr_byte (q c : ascii) : string :=
  let n := N_of_ascii c in
  let bs := ascii_of_N 92 in
  if Ascii.eqb c q || Ascii.eqb c bs then String bs (String c EmptyString)
  else if (n =? 10)%N then String bs "n"
  else if (n =? 13)%N then String bs "r"
  else if (n =? 9)%N then String bs "t"
  else if (n <? 32)%N || (n =? 127)%N
  then String bs (String "x" (String (hex_digit (n / 16)) (String (hex_digit (n mod 16)) EmptyString)))
  else String c EmptyString.

Definition repr (s : string) : string :=
  let cs := String.list_ascii_of_string s in
  let single := ascii_of_N 39 in
  let double := ascii_of_N 34 in
  let q := if bool_decide (single ∈ cs) && negb (bool_decide (double ∈ cs)) then double else single in
  String q (String.concat EmptyString (repr_byte q <$> cs)) ++ String q EmptyString.
