(* ===== verification/Domain.v ===== *)
(** * Vocabulary shared by the Agent and the Collector

    The enums of [shared/constants.py], [collector/enums.py] and
    [shared/contracts/v1/remediation.py] with their wire values, and the wire contract
    models of [shared/contracts/v1/]. *)

From S2P Require Import Prelude PyFloat PyTime.

(** ** Enums *)

Inductive MetricType :=
| CPU_USAGE_PERCENT
| MEMORY_USAGE_PERCENT
| MEMORY_USED_BYTES
| MEMORY_AVAILABLE_BYTES
| DISK_USAGE_PERCENT
| DISK_USED_BYTES
| DISK_FREE_BYTES
| NETWORK_BYTES_SENT
| NETWORK_BYTES_RECV.

Inductive Severity := WARNING | CRITICAL.

Inductive RuleKind := THRESHOLD | RATE_OF_CHANGE | STALENESS.

Inductive AlertStatus := FIRING | RESOLVED.

Inductive RemediationActionStatus :=
| BLOCKED_BY_SAFETY_LIMIT
| DISPATCHED
| EXECUTED
| FAILED.

Inductive PlaybookActionType := NOOP | CLEAR_DIRECTORY | RESTART_SERVICE.

(** The Agent's report; the members are [EXECUTED] and [FAILED] in the source. *)
Inductive ActionResultStatus := RESULT_EXECUTED | RESULT_FAILED.

#[export] Instance MetricType_eq_dec : EqDecision MetricType.
Proof. solve_decision. Defined.
#[export] Instance Severity_eq_dec : EqDecision Severity.
Proof. solve_decision. Defined.
#[export] Instance RuleKind_eq_dec : EqDecision RuleKind.
Proof. solve_decision. Defined.
#[export] Instance AlertStatus_eq_dec : EqDecision AlertStatus.
Proof. solve_decision. Defined.
#[export] Instance RemediationActionStatus_eq_dec : EqDecision RemediationActionStatus.
Proof. solve_decision. Defined.
#[export] Instance PlaybookActionType_eq_dec : EqDecision PlaybookActionType.
Proof. solve_decision. Defined.
#[export] Instance ActionResultStatus_eq_dec : EqDecision ActionResultStatus.
Proof. solve_decision. Defined.

(** ** The members' [.value] *)

Local Open Scope string_scope.

Definition MetricType_value (m : MetricType) : string :=
  match m with
  | CPU_USAGE_PERCENT => "cpu.usage_percent"
  | MEMORY_USAGE_PERCENT => "memory.usage_percent"
  | MEMORY_USED_BYTES => "memory.used_bytes"
  | MEMORY_AVAILABLE_BYTES => "memory.available_bytes"
  | DISK_USAGE_PERCENT => "disk.usage_percent"
  | DISK_USED_BYTES => "disk.used_bytes"
  | DISK_FREE_BYTES => "disk.free_bytes"
  | NETWORK_BYTES_SENT => "network.bytes_sent"
  | NETWORK_BYTES_RECV => "network.bytes_recv"
  end.

(** The member's name, as Python shows it. *)
Definition MetricType_name (m : MetricType) : string :=
  match m with
  | CPU_USAGE_PERCENT => "CPU_USAGE_PERCENT"
  | MEMORY_USAGE_PERCENT => "MEMORY_USAGE_PERCENT"
  | MEMORY_USED_BYTES => "MEMORY_USED_BYTES"
  | MEMORY_AVAILABLE_BYTES => "MEMORY_AVAILABLE_BYTES"
  | DISK_USAGE_PERCENT => "DISK_USAGE_PERCENT"
  | DISK_USED_BYTES => "DISK_USED_BYTES"
  | DISK_FREE_BYTES => "DISK_FREE_BYTES"
  | NETWORK_BYTES_SENT => "NETWORK_BYTES_SENT"
  | NETWORK_BYTES_RECV => "NETWORK_BYTES_RECV"
  end.

Definition Severity_value (s : Severity) : string :=
  match s with WARNING => "warning" | CRITICAL => "critical" end.

Definition RuleKind_value (k : RuleKind) : string :=
  match k with
  | THRESHOLD => "threshold"
  | RATE_OF_CHANGE => "rate_of_change"
  | STALENESS => "staleness"
  end.

Definition AlertStatus_value (s : AlertStatus) : string :=
  match s with FIRING => "firing" | RESOLVED => "resolved" end.

Definition RemediationActionStatus_value (s : RemediationActionStatus) : string :=
  match s with
  | BLOCKED_BY_SAFETY_LIMIT => "blocked_by_safety_limit"
  | DISPATCHED => "dispatched"
  | EXECUTED => "executed"
  | FAILED => "failed"
  end.

Definition PlaybookActionType_value (t : PlaybookActionType) : string :=
  match t with
  | NOOP => "noop"
  | CLEAR_DIRECTORY => "clear_directory"
  | RESTART_SERVICE => "restart_service"
  end.

(** ** Enumerations as keys of dicts *)

Definition MetricType_all : list MetricType :=
  [CPU_USAGE_PERCENT; MEMORY_USAGE_PERCENT; MEMORY_USED_BYTES; MEMORY_AVAILABLE_BYTES;
   DISK_USAGE_PERCENT; DISK_USED_BYTES; DISK_FREE_BYTES; NETWORK_BYTES_SENT;
   NETWORK_BYTES_RECV].

(** [MetricType(value)]: look a member up by its value. *)
Definition MetricType_of_value (s : string) : option MetricType :=
  head (filter (fun m => MetricType_value m = s) MetricType_all).

Lemma MetricType_of_value_value m : MetricType_of_value (MetricType_value m) = Some m.
Proof. by destruct m. Qed.

#[export] Instance MetricType_value_inj : Inj eq eq MetricType_value.
Proof.
  intros m1 m2 H. apply (f_equal MetricType_of_value) in H.
  rewrite !MetricType_of_value_value in H. congruence.
Qed.

#[export] Instance RuleKind_value_inj : Inj eq eq RuleKind_value.
Proof. by intros [] []. Qed.

#[export] Instance MetricType_countable : Countable MetricType :=
  inj_countable MetricType_value MetricType_of_value MetricType_of_value_value.

(** ** Wire contracts *)

(** [MetricSample]. *)
Record MetricSample := {
  ms_metric_type : MetricType;
  ms_value : float;
  ms_unit : string;
  ms_labels : gmap string string;
}.

(** [NodeMetricsPayload]. *)
Record NodeMetricsPayload := {
  np_node_id : string;
  np_collected_at : datetime;
  np_samples : list MetricSample;
  np_collection_errors : list string;
}.

(** [PendingAction]. *)
Record PendingAction := {
  pa_action_id : Z;
  pa_action_type : PlaybookActionType;
  pa_parameters : gmap string string;
}.

(** [Ack]; the optional [message] is never set by the code. *)
Record Ack := {
  ack_accepted : bool;
  ack_received_at : datetime;
  ack_message : option string;
  ack_pending_actions : list PendingAction;
}.

(** [ActionResult]. *)
Record ActionResult := {
  res_status : ActionResultStatus;
  res_message : option string;
}.

(** [HeartbeatPing]. *)
Record HeartbeatPing := {
  hb_node_id : string;
  hb_sent_at : datetime;
}.

(** ** Constants of [shared/constants.py], seconds as floats *)

Definition DEFAULT_HEARTBEAT_STALE_AFTER_SECONDS : float := float_of_Z 90.
Definition DEFAULT_ESCALATION_AFTER_SECONDS : float := float_of_Z 900.
Definition DEFAULT_REMEDIATION_AFTER_SECONDS : float := float_of_Z 1800.
Definition DEFAULT_MAX_REMEDIATIONS_PER_NODE_PER_HOUR : Z := 3.
Definition DEFAULT_REMEDIATION_COOLDOWN_SECONDS : float := float_of_Z 1800.
Definition DEFAULT_STALENESS_CHECK_INTERVAL_SECONDS : float := float_of_Z 60.
Definition DEFAULT_RECONCILIATION_INTERVAL_SECONDS : float := float_of_Z 300.
Definition DEFAULT_REMEDIATION_DISPATCH_TIMEOUT_SECONDS : float := float_of_Z 1800.
Definition DEFAULT_METRICS_RETENTION_DAYS : Z := 7.
Definition DEFAULT_RESOLVED_ALERTS_RETENTION_DAYS : Z := 30.
Definition DEFAULT_REMEDIATION_ACTIONS_RETENTION_DAYS : Z := 90.
Definition DEFAULT_RETENTION_INTERVAL_SECONDS : float := float_of_Z 3600.
Definition DEFAULT_RETENTION_BATCH_SIZE : Z := 10000.
Definition DEFAULT_BUFFER_MAX_ENTRIES : Z := 1000.
Definition DEFAULT_BUFFER_DRAIN_BATCH_SIZE : Z := 50.
Definition HTTP_CLIENT_ERROR_THRESHOLD : Z := 400.
Definition HTTP_SERVER_ERROR_THRESHOLD : Z := 500.
