(* ===== verification/Schema.v ===== *)
(** * The Collector's tables and records

    The ORM models of [collector/db/models/] are the rows of four tables; a table is a
    finite map from primary key to row.  The frozen dataclasses of
    [collector/repositories/protocols.py] are the records the services work with. *)

From S2P Require Import Prelude PyFloat PyTime Domain.

(** ** ORM models (table rows) *)

(** [NodeModel], table [nodes]. *)
Record NodeModel := {
  nm_node_id : string;
  nm_first_seen_at : datetime;
  nm_last_seen_at : datetime;
}.

(** [MetricSampleModel], table [metric_samples]. *)
Record MetricSampleModel := {
  mm_id : Z;
  mm_node_id : string;
  mm_metric_type : MetricType;
  mm_value : float;
  mm_unit : string;
  mm_labels : gmap string string;
  mm_collected_at : datetime;
  mm_received_at : datetime;
}.

(** [AlertModel], table [alerts]. *)
Record AlertModel := {
  am_id : Z;
  am_node_id : string;
  am_rule_key : string;
  am_rule_kind : RuleKind;
  am_severity : Severity;
  am_status : AlertStatus;
  am_description : string;
  am_triggering_value : float;
  am_bound : float;
  am_first_fired_at : datetime;
  am_last_fired_at : datetime;
  am_resolved_at : option datetime;
  am_acknowledged_at : option datetime;
  am_acknowledged_by : option string;
  am_escalated_at : option datetime;
  am_remediated_at : option datetime;
}.

(** [RemediationActionModel], table [remediation_actions]. *)
Record RemediationActionModel := {
  rm_id : Z;
  rm_node_id : string;
  rm_alert_id : Z;
  rm_rule_key : string;
  rm_playbook_name : string;
  rm_action_type : PlaybookActionType;
  rm_parameters : gmap string string;
  rm_status : RemediationActionStatus;
  rm_reason : option string;
  rm_created_at : datetime;
  rm_completed_at : option datetime;
}.

(** ** The database *)

Record Db := {
  nodes : gmap string NodeModel;
  alerts : gmap Z AlertModel;
  remediation_actions : gmap Z RemediationActionModel;
  metric_samples : gmap Z MetricSampleModel;
}.

Definition empty_db : Db :=
  {| nodes := ∅; alerts := ∅; remediation_actions := ∅; metric_samples := ∅ |}.

Definition set_nodes (t : gmap string NodeModel) (db : Db) : Db :=
  {| nodes := t; alerts := alerts db; remediation_actions := remediation_actions db;
     metric_samples := metric_samples db |}.
Definition set_alerts (t : gmap Z AlertModel) (db : Db) : Db :=
  {| nodes := nodes db; alerts := t; remediation_actions := remediation_actions db;
     metric_samples := metric_samples db |}.
Definition set_actions (t : gmap Z RemediationActionModel) (db : Db) : Db :=
  {| nodes := nodes db; alerts := alerts db; remediation_actions := t;
     metric_samples := metric_samples db |}.
Definition set_samples (t : gmap Z MetricSampleModel) (db : Db) : Db :=
  {| nodes := nodes db; alerts := alerts db; remediation_actions := remediation_actions db;
     metric_samples := t |}.

(** The [ForeignKey] columns of the models: every reference names an existing row. *)
Definition fk_alert (db : Db) (r : AlertModel) : Prop := is_Some (nodes db !! am_node_id r).
Definition fk_action (db : Db) (r : RemediationActionModel) : Prop :=
  is_Some (nodes db !! rm_node_id r) /\ is_Some (alerts db !! rm_alert_id r).
Definition fk_sample (db : Db) (r : MetricSampleModel) : Prop :=
  is_Some (nodes db !! mm_node_id r).

Definition foreign_keys (db : Db) : Prop :=
  map_Forall (fun _ r => fk_alert db r) (alerts db) /\
  map_Forall (fun _ r => fk_action db r) (remediation_actions db) /\
  map_Forall (fun _ r => fk_sample db r) (metric_samples db).

#[export] Instance foreign_keys_dec db : Decision (foreign_keys db).
Proof.
  unfold foreign_keys, fk_alert, fk_action, fk_sample.
  repeat apply and_dec; apply map_Forall_dec; intros; apply _.
Defined.

(** ** Records handed to the services *)

(** [NodeRecord]. *)
Record NodeRecord := {
  nr_node_id : string;
  nr_first_seen_at : datetime;
  nr_last_seen_at : datetime;
}.

(** [MetricSampleRecord]. *)
Record MetricSampleRecord := {
  mr_node_id : string;
  mr_metric_type : MetricType;
  mr_value : float;
  mr_unit : string;
  mr_labels : gmap string string;
  mr_collected_at : datetime;
  mr_received_at : datetime;
}.

(** [AlertRecord]. *)
Record AlertRecord := {
  ar_id : Z;
  ar_node_id : string;
  ar_rule_key : string;
  ar_rule_kind : RuleKind;
  ar_severity : Severity;
  ar_status : AlertStatus;
  ar_description : string;
  ar_triggering_value : float;
  ar_bound : float;
  ar_first_fired_at : datetime;
  ar_last_fired_at : datetime;
  ar_resolved_at : option datetime;
  ar_acknowledged_at : option datetime;
  ar_acknowledged_by : option string;
  ar_escalated_at : option datetime;
  ar_remediated_at : option datetime;
}.

(** [RemediationActionRecord]. *)
Record RemediationActionRecord := {
  rr_id : Z;
  rr_node_id : string;
  rr_alert_id : Z;
  rr_rule_key : string;
  rr_playbook_name : string;
  rr_action_type : PlaybookActionType;
  rr_parameters : gmap string string;
  rr_status : RemediationActionStatus;
  rr_reason : option string;
  rr_created_at : datetime;
  rr_completed_at : option datetime;
}.

(** ** From rows to records (each repository's [_to_record])

    The columns are [DateTime(timezone=True)]: PostgreSQL hands back aware datetimes, for
    which [ensure_utc] of [collector/db/timeutil.py] is the identity. *)

Definition node_to_record (node : NodeModel) : NodeRecord :=
  {| nr_node_id := nm_node_id node;
     nr_first_seen_at := nm_first_seen_at node;
     nr_last_seen_at := nm_last_seen_at node |}.

Definition sample_to_record (row : MetricSampleModel) : MetricSampleRecord :=
  {| mr_node_id := mm_node_id row;
     mr_metric_type := mm_metric_type row;
     mr_value := mm_value row;
     mr_unit := mm_unit row;
     mr_labels := mm_labels row;
     mr_collected_at := mm_collected_at row;
     mr_received_at := mm_received_at row |}.

Definition alert_to_record (row : AlertModel) : AlertRecord :=
  {| ar_id := am_id row;
     ar_node_id := am_node_id row;
     ar_rule_key := am_rule_key row;
     ar_rule_kind := am_rule_kind row;
     ar_severity := am_severity row;
     ar_status := am_status row;
     ar_description := am_description row;
     ar_triggering_value := am_triggering_value row;
     ar_bound := am_bound row;
     ar_first_fired_at := am_first_fired_at row;
     ar_last_fired_at := am_last_fired_at row;
     ar_resolved_at := am_resolved_at row;
     ar_acknowledged_at := am_acknowledged_at row;
     ar_acknowledged_by := am_acknowledged_by row;
     ar_escalated_at := am_escalated_at row;
     ar_remediated_at := am_remediated_at row |}.

Definition action_to_record (row : RemediationActionModel) : RemediationActionRecord :=
  {| rr_id := rm_id row;
     rr_node_id := rm_node_id row;
     rr_alert_id := rm_alert_id row;
     rr_rule_key := rm_rule_key row;
     rr_playbook_name := rm_playbook_name row;
     rr_action_type := rm_action_type row;
     rr_parameters := rm_parameters row;
     rr_status := rm_status row;
     rr_reason := rm_reason row;
     rr_created_at := rm_created_at row;
     rr_completed_at := rm_completed_at row |}.

(** ** Rows after each operation of the repositories *)

(** The node row after a sighting: created on the first one, only [last_seen_at] moves later. *)
Definition seen_node (found : option NodeModel) (node_id : string) (seen_at : datetime)
    : NodeModel :=
  match found with
  | None => {| nm_node_id := node_id; nm_first_seen_at := seen_at; nm_last_seen_at := seen_at |}
  | Some node => {| nm_node_id := nm_node_id node;
                    nm_first_seen_at := nm_first_seen_at node;
                    nm_last_seen_at := seen_at |}
  end.

(** [AlertModel(...)] as [create_alert] builds it. *)
Definition new_alert (id : Z) (node_id rule_key : string) (rule_kind : RuleKind)
    (severity : Severity) (description : string) (triggering_value bound : float)
    (fired_at : datetime) : AlertModel :=
  {| am_id := id; am_node_id := node_id; am_rule_key := rule_key; am_rule_kind := rule_kind;
     am_severity := severity; am_status := FIRING; am_description := description;
     am_triggering_value := triggering_value; am_bound := bound;
     am_first_fired_at := fired_at; am_last_fired_at := fired_at; am_resolved_at := None;
     am_acknowledged_at := None; am_acknowledged_by := None; am_escalated_at := None;
     am_remediated_at := None |}.

(** [row.triggering_value = ...; row.last_fired_at = ...]. *)
Definition advanced (triggering_value : float) (fired_at : datetime) (r : AlertModel)
    : AlertModel :=
  {| am_id := am_id r; am_node_id := am_node_id r; am_rule_key := am_rule_key r;
     am_rule_kind := am_rule_kind r; am_severity := am_severity r; am_status := am_status r;
     am_description := am_description r; am_triggering_value := triggering_value;
     am_bound := am_bound r; am_first_fired_at := am_first_fired_at r;
     am_last_fired_at := fired_at; am_resolved_at := am_resolved_at r;
     am_acknowledged_at := am_acknowledged_at r; am_acknowledged_by := am_acknowledged_by r;
     am_escalated_at := am_escalated_at r; am_remediated_at := am_remediated_at r |}.

(** [row.status = RESOLVED; row.resolved_at = ...]. *)
Definition resolved (resolved_at : datetime) (r : AlertModel) : AlertModel :=
  {| am_id := am_id r; am_node_id := am_node_id r; am_rule_key := am_rule_key r;
     am_rule_kind := am_rule_kind r; am_severity := am_severity r; am_status := RESOLVED;
     am_description := am_description r; am_triggering_value := am_triggering_value r;
     am_bound := am_bound r; am_first_fired_at := am_first_fired_at r;
     am_last_fired_at := am_last_fired_at r; am_resolved_at := Some resolved_at;
     am_acknowledged_at := am_acknowledged_at r; am_acknowledged_by := am_acknowledged_by r;
     am_escalated_at := am_escalated_at r; am_remediated_at := am_remediated_at r |}.

(** [row.acknowledged_by = ...; row.acknowledged_at = ...]. *)
Definition acknowledged (by_ : string) (at_ : datetime) (r : AlertModel) : AlertModel :=
  {| am_id := am_id r; am_node_id := am_node_id r; am_rule_key := am_rule_key r;
     am_rule_kind := am_rule_kind r; am_severity := am_severity r; am_status := am_status r;
     am_description := am_description r; am_triggering_value := am_triggering_value r;
     am_bound := am_bound r; am_first_fired_at := am_first_fired_at r;
     am_last_fired_at := am_last_fired_at r; am_resolved_at := am_resolved_at r;
     am_acknowledged_at := Some at_; am_acknowledged_by := Some by_;
     am_escalated_at := am_escalated_at r; am_remediated_at := am_remediated_at r |}.

(** [row.escalated_at = ...]. *)
Definition escalated (at_ : datetime) (r : AlertModel) : AlertModel :=
  {| am_id := am_id r; am_node_id := am_node_id r; am_rule_key := am_rule_key r;
     am_rule_kind := am_rule_kind r; am_severity := am_severity r; am_status := am_status r;
     am_description := am_description r; am_triggering_value := am_triggering_value r;
     am_bound := am_bound r; am_first_fired_at := am_first_fired_at r;
     am_last_fired_at := am_last_fired_at r; am_resolved_at := am_resolved_at r;
     am_acknowledged_at := am_acknowledged_at r; am_acknowledged_by := am_acknowledged_by r;
     am_escalated_at := Some at_; am_remediated_at := am_remediated_at r |}.

(** [row.remediated_at = ...]. *)
Definition remediated (at_ : datetime) (r : AlertModel) : AlertModel :=
  {| am_id := am_id r; am_node_id := am_node_id r; am_rule_key := am_rule_key r;
     am_rule_kind := am_rule_kind r; am_severity := am_severity r; am_status := am_status r;
     am_description := am_description r; am_triggering_value := am_triggering_value r;
     am_bound := am_bound r; am_first_fired_at := am_first_fired_at r;
     am_last_fired_at := am_last_fired_at r; am_resolved_at := am_resolved_at r;
     am_acknowledged_at := am_acknowledged_at r; am_acknowledged_by := am_acknowledged_by r;
     am_escalated_at := am_escalated_at r; am_remediated_at := Some at_ |}.

(** [RemediationActionModel(...)] as [create_action] builds it. *)
Definition new_action (id : Z) (node_id : string) (alert_id : Z) (rule_key playbook_name : string)
    (action_type : PlaybookActionType) (parameters : gmap string string)
    (status : RemediationActionStatus) (reason : option string) (created_at : datetime)
    : RemediationActionModel :=
  {| rm_id := id; rm_node_id := node_id; rm_alert_id := alert_id; rm_rule_key := rule_key;
     rm_playbook_name := playbook_name; rm_action_type := action_type;
     rm_parameters := parameters; rm_status := status; rm_reason := reason;
     rm_created_at := created_at; rm_completed_at := None |}.

(** [row.status = ...; row.reason = ...; row.completed_at = ...]. *)
Definition completed (status : RemediationActionStatus) (reason : option string)
    (completed_at : datetime) (r : RemediationActionModel) : RemediationActionModel :=
  {| rm_id := rm_id r; rm_node_id := rm_node_id r; rm_alert_id := rm_alert_id r;
     rm_rule_key := rm_rule_key r; rm_playbook_name := rm_playbook_name r;
     rm_action_type := rm_action_type r; rm_parameters := rm_parameters r;
     rm_status := status; rm_reason := reason; rm_created_at := rm_created_at r;
     rm_completed_at := Some completed_at |}.

(** One row of [bulk_insert]. *)
Definition new_sample (node_id : string) (collected_at received_at : datetime) (id : Z)
    (sample : MetricSample) : MetricSampleModel :=
  {| mm_id := id; mm_node_id := node_id; mm_metric_type := ms_metric_type sample;
     mm_value := ms_value sample; mm_unit := ms_unit sample; mm_labels := ms_labels sample;
     mm_collected_at := collected_at; mm_received_at := received_at |}.

(** The rows [bulk_insert] adds, under the keys the engine chose. *)
Definition new_samples (node_id : string) (collected_at received_at : datetime) (ids : list Z)
    (samples : list MetricSample) : list (Z * MetricSampleModel) :=
  zip_with (fun id s => (id, new_sample node_id collected_at received_at id s)) ids samples.
