(* ===== verification/Migrations.v ===== *)
(** * The storage schema: ORM metadata and Alembic migrations

    The tables twice over, as the source has them: the declarative models of
    [collector/db/models/] (with [collector/db/enum_column.py]) and the revisions of
    [collector/db/migrations/versions/].  A revision is a list of DDL statements; the
    database that runs them is the class [DdlEngine], of which only the documented effect
    of each statement on the catalog is assumed ([effect]), and SQLAlchemy's reading of a
    mapped annotation is the class [Declarative].  The theorems relate the two: upgrading
    an empty database gives the tables and enum types the models describe, and downgrades
    undo upgrades. *)

From S2P Require Import Prelude Domain Schema.

Local Open Scope string_scope.

(** ** Columns, tables and statements *)

(** The SQLAlchemy types the source uses. *)
Inductive SqlType :=
| String_
| Integer_
| Float_
| JSON_
| DateTime_ (timezone : bool)
| Enum_ (labels : list string) (name : string).

Record Column := {
  c_name : string;
  c_type : SqlType;
  c_foreign_key : option (string * string);
  c_primary_key : bool;
  c_autoincrement : bool;
  c_nullable : bool;
}.

(** [sa.Column(name, type)]: nullable unless told otherwise or a primary key. *)
Definition sa_column (name : string) (type : SqlType) : Column :=
  {| c_name := name; c_type := type; c_foreign_key := None; c_primary_key := false;
     c_autoincrement := false; c_nullable := true |}.

Definition primary_key (c : Column) : Column :=
  {| c_name := c_name c; c_type := c_type c; c_foreign_key := c_foreign_key c;
     c_primary_key := true; c_autoincrement := c_autoincrement c; c_nullable := false |}.

Definition autoincrement (c : Column) : Column :=
  {| c_name := c_name c; c_type := c_type c; c_foreign_key := c_foreign_key c;
     c_primary_key := c_primary_key c; c_autoincrement := true; c_nullable := c_nullable c |}.

Definition not_null (c : Column) : Column :=
  {| c_name := c_name c; c_type := c_type c; c_foreign_key := c_foreign_key c;
     c_primary_key := c_primary_key c; c_autoincrement := c_autoincrement c;
     c_nullable := false |}.

Definition ForeignKey (table column : string) (c : Column) : Column :=
  {| c_name := c_name c; c_type := c_type c; c_foreign_key := Some (table, column);
     c_primary_key := c_primary_key c; c_autoincrement := c_autoincrement c;
     c_nullable := c_nullable c |}.

Record Index := { ix_name : string; ix_table : string; ix_columns : list string }.

(** The calls on [op], the [drop] of an [sa.Enum], and the [ALTER TYPE] of 0006. *)
Inductive DdlStatement :=
| create_table (table : string) (columns : list Column)
| drop_table (table : string)
| add_column (table : string) (column : Column)
| drop_column (table column : string)
| create_index (ix : Index)
| drop_index (name table : string)
| drop_enum_checkfirst (name : string)
| add_value_if_not_exists (name value : string).

#[export] Instance SqlType_eq_dec : EqDecision SqlType.
Proof. solve_decision. Defined.
#[export] Instance Column_eq_dec : EqDecision Column.
Proof. solve_decision. Defined.
#[export] Instance Index_eq_dec : EqDecision Index.
Proof. solve_decision. Defined.

(** ** The database's catalog *)

(** An enum is a type of its own in PostgreSQL: a column refers to it by name and its
    labels are kept with the type. *)
Record Catalog := {
  cat_tables : gmap string (list Column);
  cat_enums : gmap string (list string);
  cat_indexes : gmap string Index;
}.

Definition empty_catalog : Catalog :=
  {| cat_tables := ∅; cat_enums := ∅; cat_indexes := ∅ |}.

#[export] Instance Catalog_eq_dec : EqDecision Catalog.
Proof. solve_decision. Defined.

Definition column_enum (c : Column) : option (string * list string) :=
  match c_type c with Enum_ labels name => Some (name, labels) | _ => None end.

(** What the catalog keeps of a column: an enum by its name only. *)
Definition stored_column (c : Column) : Column :=
  match c_type c with
  | Enum_ _ name =>
      {| c_name := c_name c; c_type := Enum_ [] name; c_foreign_key := c_foreign_key c;
         c_primary_key := c_primary_key c; c_autoincrement := c_autoincrement c;
         c_nullable := c_nullable c |}
  | _ => c
  end.

Definition enums_of (columns : list Column) : list (string * list string) :=
  omap column_enum columns.

(** Some column of the catalog has the enum type [name]. *)
Definition enum_used (cat : Catalog) (name : string) : bool :=
  existsb (fun t => existsb (fun e => bool_decide (e.1 = name)) (enums_of t.2))
    (map_to_list (cat_tables cat)).

(** Some other table has a foreign key to [table]. *)
Definition table_referenced (cat : Catalog) (table : string) : bool :=
  existsb (fun t => negb (bool_decide (t.1 = table)) &&
      existsb (fun c => bool_decide (fst <$> c_foreign_key c = Some table)) t.2)
    (map_to_list (cat_tables cat)).

Definition column_names (columns : list Column) : list string := c_name <$> columns.

(** The foreign keys of a column point at an existing column. *)
Definition reference_exists (cat : Catalog) (c : Column) : bool :=
  match c_foreign_key c with
  | None => true
  | Some (table, column) =>
      match cat_tables cat !! table with
      | Some columns => bool_decide (column ∈ column_names columns)
      | None => false
      end
  end.

(** When PostgreSQL accepts a statement (the part of its documentation the migrations
    rely on: nothing is said of the statements it refuses). *)
Definition legal (s : DdlStatement) (cat : Catalog) : bool :=
  match s with
  | create_table table columns =>
      bool_decide (cat_tables cat !! table = None) && bool_decide (cat_indexes cat !! table = None) &&
      bool_decide (NoDup (column_names columns)) && bool_decide (NoDup (enums_of columns).*1) &&
      forallb (fun e => bool_decide (cat_enums cat !! e.1 = None)) (enums_of columns) &&
      forallb (reference_exists cat) columns
  | drop_table table =>
      bool_decide (is_Some (cat_tables cat !! table)) && negb (table_referenced cat table)
  | add_column table column =>
      match cat_tables cat !! table with
      | Some columns =>
          bool_decide (c_name column ∉ column_names columns) && c_nullable column &&
          negb (c_primary_key column) && bool_decide (column_enum column = None) &&
          reference_exists cat column
      | None => false
      end
  | drop_column table column =>
      match cat_tables cat !! table with
      | Some columns =>
          bool_decide (column ∈ column_names columns) &&
          forallb (fun ix => negb (bool_decide (ix_table ix.2 = table) &&
                                   bool_decide (column ∈ ix_columns ix.2)))
            (map_to_list (cat_indexes cat))
      | None => false
      end
  | create_index ix =>
      match cat_tables cat !! ix_table ix with
      | Some columns =>
          bool_decide (cat_indexes cat !! ix_name ix = None) &&
          bool_decide (cat_tables cat !! ix_name ix = None) &&
          forallb (fun c => bool_decide (c ∈ column_names columns)) (ix_columns ix)
      | None => false
      end
  | drop_index name table => bool_decide (ix_table <$> cat_indexes cat !! name = Some table)
  | drop_enum_checkfirst name => negb (enum_used cat name)
  | add_value_if_not_exists name _ => bool_decide (is_Some (cat_enums cat !! name))
  end.

(** The catalog after a legal statement. *)
Definition apply_ddl (s : DdlStatement) (cat : Catalog) : Catalog :=
  match s with
  | create_table table columns =>
      {| cat_tables := <[table := stored_column <$> columns]> (cat_tables cat);
         cat_enums := list_to_map (enums_of columns) ∪ cat_enums cat;
         cat_indexes := cat_indexes cat |}
  | drop_table table =>
      {| cat_tables := delete table (cat_tables cat); cat_enums := cat_enums cat;
         cat_indexes := filter (fun ix => ix_table ix.2 <> table) (cat_indexes cat) |}
  | add_column table column =>
      {| cat_tables := alter (fun columns => (columns ++ [stored_column column])%list) table
           (cat_tables cat);
         cat_enums := cat_enums cat; cat_indexes := cat_indexes cat |}
  | drop_column table column =>
      {| cat_tables := alter (filter (fun c => c_name c <> column)) table (cat_tables cat);
         cat_enums := cat_enums cat; cat_indexes := cat_indexes cat |}
  | create_index ix =>
      {| cat_tables := cat_tables cat; cat_enums := cat_enums cat;
         cat_indexes := <[ix_name ix := ix]> (cat_indexes cat) |}
  | drop_index name _ =>
      {| cat_tables := cat_tables cat; cat_enums := cat_enums cat;
         cat_indexes := delete name (cat_indexes cat) |}
  | drop_enum_checkfirst name =>
      {| cat_tables := cat_tables cat; cat_enums := delete name (cat_enums cat);
         cat_indexes := cat_indexes cat |}
  | add_value_if_not_exists name value =>
      {| cat_tables := cat_tables cat;
         cat_enums := alter (fun labels => if bool_decide (value ∈ labels) then labels
                                           else (labels ++ [value])%list) name (cat_enums cat);
         cat_indexes := cat_indexes cat |}
  end.

(** A database that runs the statements; [None] is an error, which aborts the migration. *)
Class DdlEngine := {
  ddl : DdlStatement -> Catalog -> option Catalog;
  ddl_effect s cat : legal s cat = true -> ddl s cat = Some (apply_ddl s cat);
}.

(** The engine that accepts exactly the legal statements. *)
Definition ref_ddl (s : DdlStatement) (cat : Catalog) : option Catalog :=
  if legal s cat then Some (apply_ddl s cat) else None.

Definition ref_engine : DdlEngine.
Proof. refine {| ddl := ref_ddl |}. intros s cat H. unfold ref_ddl. by rewrite H. Defined.

(** The statements of a migration, one after the other. *)
Fixpoint run_ddl {E : DdlEngine} (statements : list DdlStatement) (cat : Catalog)
    : option Catalog :=
  match statements with
  | [] => Some cat
  | s :: rest => cat' ← ddl s cat; run_ddl rest cat'
  end.

(** ** The revisions *)

Record Revision := {
  revision : string;
  down_revision : option string;
  upgrade : list DdlStatement;
  downgrade : list DdlStatement;
}.

Definition _METRIC_TYPE_VALUES : list string :=
  ["cpu.usage_percent"; "memory.usage_percent"; "memory.used_bytes"; "memory.available_bytes";
   "disk.usage_percent"; "disk.used_bytes"; "disk.free_bytes"; "network.bytes_sent";
   "network.bytes_recv"].

Definition upgrade_0001 : list DdlStatement :=
  [ create_table "nodes"
      [ primary_key (sa_column "node_id" String_);
        not_null (sa_column "first_seen_at" (DateTime_ true));
        not_null (sa_column "last_seen_at" (DateTime_ true)) ];
    create_table "metric_samples"
      [ autoincrement (primary_key (sa_column "id" Integer_));
        not_null (ForeignKey "nodes" "node_id" (sa_column "node_id" String_));
        not_null (sa_column "metric_type" (Enum_ _METRIC_TYPE_VALUES "metrictype"));
        not_null (sa_column "value" Float_);
        not_null (sa_column "unit" String_);
        not_null (sa_column "labels" JSON_);
        not_null (sa_column "collected_at" (DateTime_ true));
        not_null (sa_column "received_at" (DateTime_ true)) ];
    create_index {| ix_name := "ix_metric_samples_node_id_collected_at";
                    ix_table := "metric_samples"; ix_columns := ["node_id"; "collected_at"] |} ].

Definition downgrade_0001 : list DdlStatement :=
  [ drop_index "ix_metric_samples_node_id_collected_at" "metric_samples";
    drop_table "metric_samples";
    drop_table "nodes";
    drop_enum_checkfirst "metrictype" ].

Definition _RULE_KIND_VALUES : list string := ["threshold"; "rate_of_change"].
Definition _SEVERITY_VALUES : list string := ["warning"; "critical"].
Definition _ALERT_STATUS_VALUES : list string := ["firing"; "resolved"].

Definition upgrade_0002 : list DdlStatement :=
  [ create_table "alerts"
      [ autoincrement (primary_key (sa_column "id" Integer_));
        not_null (ForeignKey "nodes" "node_id" (sa_column "node_id" String_));
        not_null (sa_column "rule_key" String_);
        not_null (sa_column "rule_kind" (Enum_ _RULE_KIND_VALUES "rulekind"));
        not_null (sa_column "severity" (Enum_ _SEVERITY_VALUES "severity"));
        not_null (sa_column "status" (Enum_ _ALERT_STATUS_VALUES "alertstatus"));
        not_null (sa_column "description" String_);
        not_null (sa_column "triggering_value" Float_);
        not_null (sa_column "bound" Float_);
        not_null (sa_column "first_fired_at" (DateTime_ true));
        not_null (sa_column "last_fired_at" (DateTime_ true));
        sa_column "resolved_at" (DateTime_ true) ];
    create_index {| ix_name := "ix_alerts_node_id_rule_key_status"; ix_table := "alerts";
                    ix_columns := ["node_id"; "rule_key"; "status"] |} ].

Definition downgrade_0002 : list DdlStatement :=
  [ drop_index "ix_alerts_node_id_rule_key_status" "alerts";
    drop_table "alerts";
    drop_enum_checkfirst "alertstatus";
    drop_enum_checkfirst "severity";
    drop_enum_checkfirst "rulekind" ].

Definition upgrade_0003 : list DdlStatement :=
  [ add_column "alerts" (sa_column "acknowledged_at" (DateTime_ true));
    add_column "alerts" (sa_column "acknowledged_by" String_);
    add_column "alerts" (sa_column "escalated_at" (DateTime_ true)) ].

Definition downgrade_0003 : list DdlStatement :=
  [ drop_column "alerts" "escalated_at";
    drop_column "alerts" "acknowledged_by";
    drop_column "alerts" "acknowledged_at" ].

Definition _PLAYBOOK_ACTION_TYPE_VALUES : list string :=
  ["noop"; "clear_directory"; "restart_service"].
Definition _REMEDIATION_ACTION_STATUS_VALUES : list string :=
  ["blocked_by_safety_limit"; "dispatched"; "executed"; "failed"].

Definition upgrade_0004 : list DdlStatement :=
  [ create_table "remediation_actions"
      [ autoincrement (primary_key (sa_column "id" Integer_));
        not_null (ForeignKey "nodes" "node_id" (sa_column "node_id" String_));
        not_null (ForeignKey "alerts" "id" (sa_column "alert_id" Integer_));
        not_null (sa_column "rule_key" String_);
        not_null (sa_column "playbook_name" String_);
        not_null (sa_column "action_type"
          (Enum_ _PLAYBOOK_ACTION_TYPE_VALUES "playbookactiontype"));
        not_null (sa_column "parameters" JSON_);
        not_null (sa_column "status"
          (Enum_ _REMEDIATION_ACTION_STATUS_VALUES "remediationactionstatus"));
        sa_column "reason" String_;
        not_null (sa_column "created_at" (DateTime_ true));
        sa_column "completed_at" (DateTime_ true) ];
    create_index {| ix_name := "ix_remediation_actions_node_id_playbook_name_created_at";
                    ix_table := "remediation_actions";
                    ix_columns := ["node_id"; "playbook_name"; "created_at"] |};
    add_column "alerts" (sa_column "remediated_at" (DateTime_ true)) ].

Definition downgrade_0004 : list DdlStatement :=
  [ drop_column "alerts" "remediated_at";
    drop_index "ix_remediation_actions_node_id_playbook_name_created_at" "remediation_actions";
    drop_table "remediation_actions";
    drop_enum_checkfirst "remediationactionstatus";
    drop_enum_checkfirst "playbookactiontype" ].

Definition upgrade_0005 : list DdlStatement :=
  [ create_index {| ix_name := "ix_metric_samples_received_at"; ix_table := "metric_samples";
                    ix_columns := ["received_at"] |} ].

Definition downgrade_0005 : list DdlStatement :=
  [ drop_index "ix_metric_samples_received_at" "metric_samples" ].

Definition upgrade_0006 : list DdlStatement :=
  [ add_value_if_not_exists "rulekind" "staleness" ].

(** A value cannot be removed from an enum type: the downgrade is [pass]. *)
Definition downgrade_0006 : list DdlStatement := [].

Definition revision_0001 : Revision :=
  {| revision := "0001"; down_revision := None; upgrade := upgrade_0001;
     downgrade := downgrade_0001 |}.
Definition revision_0002 : Revision :=
  {| revision := "0002"; down_revision := Some "0001"; upgrade := upgrade_0002;
     downgrade := downgrade_0002 |}.
Definition revision_0003 : Revision :=
  {| revision := "0003"; down_revision := Some "0002"; upgrade := upgrade_0003;
     downgrade := downgrade_0003 |}.
Definition revision_0004 : Revision :=
  {| revision := "0004"; down_revision := Some "0003"; upgrade := upgrade_0004;
     downgrade := downgrade_0004 |}.
Definition revision_0005 : Revision :=
  {| revision := "0005"; down_revision := Some "0004"; upgrade := upgrade_0005;
     downgrade := downgrade_0005 |}.
Definition revision_0006 : Revision :=
  {| revision := "0006"; down_revision := Some "0005"; upgrade := upgrade_0006;
     downgrade := downgrade_0006 |}.

Definition versions : list Revision :=
  [revision_0001; revision_0002; revision_0003; revision_0004; revision_0005; revision_0006].

(** ** The ORM models *)

(** What a mapped attribute is annotated with: [Mapped[t]] or [Mapped[t | None]]. *)
Inductive PyType :=
| py_int
| py_str
| py_float
| py_datetime
| py_dict
| py_enum (enum_cls : string).

(** [mapped_column(...)]: the explicit SQL type, when one is given, and its keywords.  The
    Python-side [default]s do not reach the table. *)
Record MappedColumn := {
  mc_name : string;
  mc_annotation : PyType;
  mc_optional : bool;
  mc_type : option SqlType;
  mc_foreign_key : option (string * string);
  mc_primary_key : bool;
  mc_autoincrement : bool;
}.

Definition Mapped (name : string) (annotation : PyType) (optional : bool) : MappedColumn :=
  {| mc_name := name; mc_annotation := annotation; mc_optional := optional; mc_type := None;
     mc_foreign_key := None; mc_primary_key := false; mc_autoincrement := false |}.

Definition typed (type : SqlType) (c : MappedColumn) : MappedColumn :=
  {| mc_name := mc_name c; mc_annotation := mc_annotation c; mc_optional := mc_optional c;
     mc_type := Some type; mc_foreign_key := mc_foreign_key c;
     mc_primary_key := mc_primary_key c; mc_autoincrement := mc_autoincrement c |}.

Definition references (table column : string) (c : MappedColumn) : MappedColumn :=
  {| mc_name := mc_name c; mc_annotation := mc_annotation c; mc_optional := mc_optional c;
     mc_type := mc_type c; mc_foreign_key := Some (table, column);
     mc_primary_key := mc_primary_key c; mc_autoincrement := mc_autoincrement c |}.

Definition keyed_by (autoincrement : bool) (c : MappedColumn) : MappedColumn :=
  {| mc_name := mc_name c; mc_annotation := mc_annotation c; mc_optional := mc_optional c;
     mc_type := mc_type c; mc_foreign_key := mc_foreign_key c;
     mc_primary_key := true; mc_autoincrement := autoincrement |}.

(** A declarative class: [__tablename__], its attributes and [__table_args__]. *)
Record DeclarativeModel := {
  tablename : string;
  attributes : list MappedColumn;
  table_args : list Index;
}.

(** What SQLAlchemy makes of an annotation without an explicit type, and of an enum class
    without an explicit type name. *)
Class Declarative := {
  annotation_type : PyType -> SqlType;
  enum_type_name : string -> string;
  annotation_int : annotation_type py_int = Integer_;
  annotation_str : annotation_type py_str = String_;
  annotation_float : annotation_type py_float = Float_;
  enum_name_MetricType : enum_type_name "MetricType" = "metrictype";
  enum_name_RuleKind : enum_type_name "RuleKind" = "rulekind";
  enum_name_Severity : enum_type_name "Severity" = "severity";
  enum_name_AlertStatus : enum_type_name "AlertStatus" = "alertstatus";
  enum_name_PlaybookActionType : enum_type_name "PlaybookActionType" = "playbookactiontype";
  enum_name_RemediationActionStatus :
    enum_type_name "RemediationActionStatus" = "remediationactionstatus";
}.

(** The enum classes as [str_enum_column] sees them: their name and their members, in the
    order of declaration, with [member.value]. *)
Record EnumClass := { enum_cls : string; member_values : list string }.

Definition MetricType_cls : EnumClass :=
  {| enum_cls := "MetricType"; member_values := MetricType_value <$> MetricType_all |}.
Definition RuleKind_cls : EnumClass :=
  {| enum_cls := "RuleKind";
     member_values := RuleKind_value <$> [THRESHOLD; RATE_OF_CHANGE; STALENESS] |}.
Definition Severity_cls : EnumClass :=
  {| enum_cls := "Severity"; member_values := Severity_value <$> [WARNING; CRITICAL] |}.
Definition AlertStatus_cls : EnumClass :=
  {| enum_cls := "AlertStatus"; member_values := AlertStatus_value <$> [FIRING; RESOLVED] |}.
Definition PlaybookActionType_cls : EnumClass :=
  {| enum_cls := "PlaybookActionType";
     member_values := PlaybookActionType_value <$> [NOOP; CLEAR_DIRECTORY; RESTART_SERVICE] |}.
Definition RemediationActionStatus_cls : EnumClass :=
  {| enum_cls := "RemediationActionStatus";
     member_values := RemediationActionStatus_value <$>
       [BLOCKED_BY_SAFETY_LIMIT; DISPATCHED; EXECUTED; FAILED] |}.

(** A table as SQLAlchemy's metadata describes it. *)
Record Table := { tb_name : string; tb_columns : list Column; tb_indexes : list Index }.

Section orm.
Context {D : Declarative}.

(** [str_enum_column]: the labels are the members' values, not their names. *)
Definition str_enum_column (cls : EnumClass) : SqlType :=
  Enum_ (member_values cls) (enum_type_name (enum_cls cls)).

Definition NodeModel_columns : DeclarativeModel :=
  {| tablename := "nodes";
     attributes :=
       [ keyed_by false (Mapped "node_id" py_str false);
         typed (DateTime_ true) (Mapped "first_seen_at" py_datetime false);
         typed (DateTime_ true) (Mapped "last_seen_at" py_datetime false) ];
     table_args := [] |}.

Definition MetricSampleModel_columns : DeclarativeModel :=
  {| tablename := "metric_samples";
     attributes :=
       [ keyed_by true (Mapped "id" py_int false);
         references "nodes" "node_id" (Mapped "node_id" py_str false);
         typed (str_enum_column MetricType_cls)
           (Mapped "metric_type" (py_enum "MetricType") false);
         Mapped "value" py_float false;
         Mapped "unit" py_str false;
         typed JSON_ (Mapped "labels" py_dict false);
         typed (DateTime_ true) (Mapped "collected_at" py_datetime false);
         typed (DateTime_ true) (Mapped "received_at" py_datetime false) ];
     table_args :=
       [ {| ix_name := "ix_metric_samples_node_id_collected_at";
            ix_table := "metric_samples"; ix_columns := ["node_id"; "collected_at"] |};
         {| ix_name := "ix_metric_samples_received_at"; ix_table := "metric_samples";
            ix_columns := ["received_at"] |} ] |}.

Definition AlertModel_columns : DeclarativeModel :=
  {| tablename := "alerts";
     attributes :=
       [ keyed_by true (Mapped "id" py_int false);
         references "nodes" "node_id" (Mapped "node_id" py_str false);
         Mapped "rule_key" py_str false;
         typed (str_enum_column RuleKind_cls) (Mapped "rule_kind" (py_enum "RuleKind") false);
         typed (str_enum_column Severity_cls) (Mapped "severity" (py_enum "Severity") false);
         typed (str_enum_column AlertStatus_cls)
           (Mapped "status" (py_enum "AlertStatus") false);
         Mapped "description" py_str false;
         Mapped "triggering_value" py_float false;
         Mapped "bound" py_float false;
         typed (DateTime_ true) (Mapped "first_fired_at" py_datetime false);
         typed (DateTime_ true) (Mapped "last_fired_at" py_datetime false);
         typed (DateTime_ true) (Mapped "resolved_at" py_datetime true);
         typed (DateTime_ true) (Mapped "acknowledged_at" py_datetime true);
         Mapped "acknowledged_by" py_str true;
         typed (DateTime_ true) (Mapped "escalated_at" py_datetime true);
         typed (DateTime_ true) (Mapped "remediated_at" py_datetime true) ];
     table_args := [] |}.

Definition RemediationActionModel_columns : DeclarativeModel :=
  {| tablename := "remediation_actions";
     attributes :=
       [ keyed_by true (Mapped "id" py_int false);
         references "nodes" "node_id" (Mapped "node_id" py_str false);
         references "alerts" "id" (Mapped "alert_id" py_int false);
         Mapped "rule_key" py_str false;
         Mapped "playbook_name" py_str false;
         typed (str_enum_column PlaybookActionType_cls)
           (Mapped "action_type" (py_enum "PlaybookActionType") false);
         typed JSON_ (Mapped "parameters" py_dict false);
         typed (str_enum_column RemediationActionStatus_cls)
           (Mapped "status" (py_enum "RemediationActionStatus") false);
         Mapped "reason" py_str true;
         typed (DateTime_ true) (Mapped "created_at" py_datetime false);
         typed (DateTime_ true) (Mapped "completed_at" py_datetime true) ];
     table_args := [] |}.

(** [Base.metadata], filled by the imports of [env.py]. *)
Definition Base_metadata : list DeclarativeModel :=
  [AlertModel_columns; MetricSampleModel_columns; NodeModel_columns;
   RemediationActionModel_columns].

(** The column a mapped attribute declares. *)
Definition declared_column (c : MappedColumn) : Column :=
  {| c_name := mc_name c;
     c_type := default (annotation_type (mc_annotation c)) (mc_type c);
     c_foreign_key := mc_foreign_key c; c_primary_key := mc_primary_key c;
     c_autoincrement := mc_autoincrement c;
     c_nullable := mc_optional c && negb (mc_primary_key c) |}.

Definition declared_columns (m : DeclarativeModel) : list Column :=
  declared_column <$> attributes m.

(** The [Table] SQLAlchemy builds from a model. *)
Definition declared_table (m : DeclarativeModel) : Table :=
  {| tb_name := tablename m; tb_columns := declared_column <$> attributes m;
     tb_indexes := table_args m |}.
End orm.

(** The catalog a list of tables describes. *)
Definition catalog_of (tables : list Table) : Catalog :=
  {| cat_tables :=
       list_to_map ((fun t => (tb_name t, stored_column <$> tb_columns t)) <$> tables);
     cat_enums := list_to_map (tables ≫= fun t => enums_of (tb_columns t));
     cat_indexes :=
       list_to_map (tables ≫= fun t => (fun ix => (ix_name ix, ix)) <$> tb_indexes t) |}.

(** [Base.metadata] as a catalog. *)
Definition declared_catalog {D : Declarative} : Catalog :=
  catalog_of (declared_table <$> Base_metadata).

(** A reading of the annotations that satisfies the class. *)
Definition ref_declarative : Declarative.
Proof.
  refine {| annotation_type t := match t with
              | py_int => Integer_ | py_float => Float_ | py_datetime => DateTime_ false
              | py_dict => JSON_ | _ => String_ end;
            enum_type_name s :=
              String.string_of_list_ascii ((fun a =>
                let n := Ascii.nat_of_ascii a in
                if (65 <=? n)%nat && (n <=? 90)%nat then Ascii.ascii_of_nat (n + 32) else a) <$>
                String.list_ascii_of_string s) |}; reflexivity.
Defined.

(** ** Migrating *)

(** Alembic applies a revision after the one its [down_revision] names. *)
Fixpoint down_first (applied : list string) (order : list Revision) : bool :=
  match order with
  | [] => true
  | r :: rest =>
      match down_revision r with
      | None => true
      | Some d => bool_decide (d ∈ applied)
      end && down_first (revision r :: applied) rest
  end.

(** [alembic upgrade] through the revisions [order], and [alembic downgrade] back. *)
Definition upgrades (order : list Revision) : list DdlStatement := order ≫= upgrade.
Definition downgrades (order : list Revision) : list DdlStatement := reverse order ≫= downgrade.

(** The two indexes that exist only in the migrations. *)
Definition undeclared_indexes : gmap string Index :=
  list_to_map ((fun ix => (ix_name ix, ix)) <$>
    [ {| ix_name := "ix_alerts_node_id_rule_key_status"; ix_table := "alerts";
         ix_columns := ["node_id"; "rule_key"; "status"] |};
      {| ix_name := "ix_remediation_actions_node_id_playbook_name_created_at";
         ix_table := "remediation_actions";
         ix_columns := ["node_id"; "playbook_name"; "created_at"] |} ]).

(** ** Lemmas *)

Lemma run_ddl_app {E : DdlEngine} l k c :
  run_ddl (l ++ k)%list c = c' ← run_ddl l c; run_ddl k c'.
Proof.
  revert c. induction l as [|s l IH]; intros c; [done|].
  simpl. destruct (ddl s c) as [c'|]; [apply IH|done].
Qed.

(** What the reference engine accepts, every engine does, with the same result. *)
Lemma run_ref {E : DdlEngine} l c c' :
  run_ddl (E := ref_engine) l c = Some c' -> run_ddl l c = Some c'.
Proof.
  revert c. induction l as [|s l IH]; intros c; [done|].
  simpl. unfold ref_ddl. destruct (legal s c) eqn:Hl; [|done].
  rewrite (ddl_effect s c Hl). apply IH.
Qed.

(** The revisions can be applied in one order only. *)
Lemma order_unique order : order ≡ₚ versions -> down_first [] order = true -> order = versions.
Proof.
  unfold versions. intros Hp Hd.
  repeat match goal with
  | H : ?order ≡ₚ _ :: _ |- _ =>
      destruct order as [|r order'];
      [ by apply Permutation_nil_cons in H
      | let Hr := fresh in
        assert (r ∈ r :: order') as Hr by left; rewrite H in Hr;
        repeat match goal with
        | Hr : _ ∈ _ :: _ |- _ => apply elem_of_cons in Hr as [->|Hr]; try discriminate Hd
        end;
        [ apply (inj (cons _)) in H; f_equal | by apply elem_of_nil in Hr ] ]
  end.
  by apply Permutation_nil_r in Hp.
Qed.

(** What the models declare is determined by the laws of [Declarative]. *)
Lemma declared_ref {D : Declarative} :
  declared_table <$> Base_metadata =
  declared_table (D := ref_declarative) <$> @Base_metadata ref_declarative.
Proof.
  unfold Base_metadata, AlertModel_columns, MetricSampleModel_columns, NodeModel_columns,
    RemediationActionModel_columns, declared_table, declared_column, str_enum_column.
  cbn -[ref_declarative enum_type_name annotation_type String.append].
  by rewrite !annotation_int, !annotation_str, !annotation_float, !enum_name_MetricType,
    !enum_name_RuleKind, !enum_name_Severity, !enum_name_AlertStatus,
    !enum_name_PlaybookActionType, !enum_name_RemediationActionStatus.
Qed.

(** The reference engine's catalog after the first [k] revisions. *)
Definition catalog_after (k : nat) : option Catalog :=
  run_ddl (E := ref_engine) (upgrades (take k versions)) empty_catalog.

(** The reference catalogs, evaluated: upgrading, downgrading one revision, downgrading all. *)
Definition undeclared_catalog (cat : Catalog) : Catalog :=
  {| cat_tables := cat_tables cat; cat_enums := cat_enums cat;
     cat_indexes := undeclared_indexes ∪ cat_indexes cat |}.

Lemma head_computed :
  catalog_after 6 = Some (undeclared_catalog (@declared_catalog ref_declarative)).
Proof. apply (bool_decide_unpack _). vm_compute. exact I. Qed.

Lemma undo_computed :
  Forall (fun r_k : Revision * nat =>
    catalog_after r_k.2 <> None /\
    (c ← catalog_after r_k.2;
     run_ddl (E := ref_engine) (upgrade r_k.1 ++ downgrade r_k.1)%list c) = catalog_after r_k.2)
    (zip (take 5 versions) (seq 0 5)).
Proof. apply (bool_decide_unpack _). vm_compute. exact I. Qed.

Lemma last_computed :
  (c ← catalog_after 6;
   run_ddl (E := ref_engine) (downgrade revision_0006 ++ upgrade revision_0006)%list c) =
  catalog_after 6.
Proof. apply (bool_decide_unpack _). vm_compute. exact I. Qed.

Lemma base_computed :
  (c ← catalog_after 6; run_ddl (E := ref_engine) (downgrades versions) c) = Some empty_catalog.
Proof. apply (bool_decide_unpack _). vm_compute. exact I. Qed.

(** What an engine does from an empty database is what the reference engine does. *)
Lemma after_ref {E : DdlEngine} k l c c' :
  catalog_after k = Some c -> run_ddl (E := ref_engine) l c = Some c' ->
  run_ddl (upgrades (take k versions)) empty_catalog = Some c /\
  run_ddl l c = Some c'.
Proof. split; by apply run_ref. Qed.

(** ** Properties *)

(** C24: the migrations build the schema the ORM models declare.  In whatever order Alembic
    applies the revisions, provided each comes after the one its [down_revision] names,
    upgrading an empty database succeeds and leaves exactly the tables, columns, keys,
    nullability and enum labels of [Base.metadata] (every enum stored by its members'
    values), and the declared indexes together with two that no model declares. *)
Theorem migrations_build_declared_schema {E : DdlEngine} {D : Declarative} order
    (Horder : order ≡ₚ versions) (Hdown : down_first [] order = true) :
  exists cat, run_ddl (upgrades order) empty_catalog = Some cat /\
    cat_tables cat = cat_tables declared_catalog /\
    cat_enums cat = cat_enums declared_catalog /\
    cat_indexes cat = undeclared_indexes ∪ cat_indexes declared_catalog /\
    undeclared_indexes ##ₘ cat_indexes declared_catalog.
Proof.
  apply order_unique in Horder as ->; [|done].
  eexists. split; [apply run_ref, head_computed|].
  unfold declared_catalog at 1 2 3 4. rewrite (declared_ref (D := D)).
  split_and!; [done..|]. apply (bool_decide_unpack _). vm_compute. exact I.
Qed.

(** C39: downgrades undo upgrades.  For each of the revisions 0001 to 0005, upgrading the
    schema below it and downgrading again gives that schema back; 0006, whose downgrade is
    a no-op, can be downgraded and upgraded again without changing anything; and
    downgrading from the head to the base leaves the empty database, the enum types
    included. *)
Theorem downgrade_undoes_upgrade {E : DdlEngine} :
  (forall k r, versions !! k = Some r -> (k < 5)%nat ->
     exists cat, run_ddl (upgrades (take k versions)) empty_catalog = Some cat /\
       run_ddl (upgrade r ++ downgrade r)%list cat = Some cat) /\
  exists head, run_ddl (upgrades versions) empty_catalog = Some head /\
    run_ddl (downgrade revision_0006 ++ upgrade revision_0006)%list head = Some head /\
    run_ddl (downgrades versions) head = Some empty_catalog.
Proof.
  split.
  - intros k r Hr Hk. pose proof undo_computed as H. rewrite Forall_lookup in H.
    destruct (H k (r, k)) as [Hsome Hrun].
    { rewrite lookup_zip_with, lookup_take, decide_True, Hr, lookup_seq_lt by done. done. }
    simpl in *. destruct (catalog_after k) as [c|] eqn:Hc; [|done].
    exists c. by apply after_ref.
  - pose proof last_computed as H. pose proof base_computed as H'. rewrite head_computed in *.
    eexists. split; [apply run_ref, head_computed|]. split; by apply run_ref.
Qed.

Lemma migrations_build_declared_schema_witness :
  exists cat, run_ddl (E := ref_engine) (upgrades versions) empty_catalog = Some cat /\
    cat_tables cat = cat_tables (@declared_catalog ref_declarative) /\
    cat_enums cat = cat_enums (@declared_catalog ref_declarative) /\
    cat_indexes cat = undeclared_indexes ∪ cat_indexes (@declared_catalog ref_declarative) /\
    undeclared_indexes ##ₘ cat_indexes (@declared_catalog ref_declarative).
Proof.
  apply (@migrations_build_declared_schema ref_engine ref_declarative versions);
    [reflexivity | vm_compute; reflexivity].
Defined.

Lemma downgrade_undoes_upgrade_witness :
  exists cat, run_ddl (E := ref_engine) (upgrades (take 2 versions)) empty_catalog = Some cat /\
    run_ddl (E := ref_engine) (upgrade revision_0003 ++ downgrade revision_0003)%list cat =
      Some cat.
Proof.
  apply (proj1 (@downgrade_undoes_upgrade ref_engine) 2 revision_0003); [reflexivity | lia].
Defined.
