(* ===== verification/Runtime.v ===== *)
(** * The Collector's runtime: exceptions, the state monad and the database session

    Code that talks to the database, reads the clock or posts to Telegram runs in [M]: a
    state monad over the [World] with Python exceptions as results.  State written before
    an exception stays written, as in the source.

    The database engine, the clock and the network are not code of the repository: they
    are the parameter [Env], consulted with the number of the interaction, so that every
    theorem holds for every pattern of database failures, row orders and clock readings
    the laws allow. *)

From Stdlib Require Import SpecFloat.
From S2P Require Import Prelude PyFloat PyTime Domain Schema.

(** ** Exceptions *)

Inductive Exc :=
| SQLAlchemyError
| PersistenceError (message : string)
| NodeNotFoundError (node_id : string)
| AlertNotFoundError (alert_id : Z)
| AlertAlreadyResolvedError (alert_id : Z)
| RemediationActionNotFoundError (action_id : Z)
| RemediationActionNotDispatchedError (action_id : Z) (status : RemediationActionStatus)
| AuthenticationError
| ConfigurationError (message : string)
| RemediationSafetyError (message : string)
| RetryableTransportError (message : string)
| FatalTransportError (message : string)
| ValueError (message : string)
| OverflowError
| OSError (message : string)
| OtherException (message : string).

#[export] Instance Exc_eq_dec : EqDecision Exc.
Proof. solve_decision. Defined.

Inductive Res (A : Type) :=
| Ok (a : A)
| Raise (e : Exc).
Arguments Ok {A} a.
Arguments Raise {A} e.

Definition is_ok {A} (r : Res A) : bool := match r with Ok _ => true | Raise _ => false end.

Definition of_time {A} (r : A + time_error) : Res A :=
  match r with
  | inl a => Ok a
  | inr TE_nan => Raise (ValueError "cannot convert float NaN to integer")
  | inr TE_overflow => Raise OverflowError
  end.

(** ** What the code relies on and does not define *)

(** [telegram n]: the outcome of the n-th HTTP POST, [None] for an [httpx.HTTPError]. *)
Class Env := {
  (** A SELECT returns exactly the qualifying rows, in an unspecified order, or fails. *)
  eng_select : nat -> forall A : Type, list A -> option (list A);
  eng_select_perm : forall n A (l k : list A), eng_select n A l = Some k -> k ≡ₚ l;
  (** A COMMIT applies all pending changes or fails and applies none. *)
  eng_commit : nat -> bool;
  (** The autoincrement key of an inserted row is not in use. *)
  eng_fresh : nat -> gset Z -> Z;
  eng_fresh_spec : forall n X, eng_fresh n X ∉ X;
  (** The wall clock, [datetime.now(timezone.utc)]. *)
  clock : nat -> datetime;
  (** [time.monotonic()]. *)
  monotonic : nat -> float;
  (** The status code the Telegram API answers a POST with. *)
  telegram : nat -> option Z;
  (** [repr] of a float (shortest round-trip digits), used in messages only. *)
  float_repr : float -> string;
}.

(** ** The world and the monad *)

Record World := mkWorld {
  w_db : Db;
  w_tick : nat;               (* external interactions so far *)
  w_posts : list string;      (* texts posted to Telegram, newest last *)
}.

Definition M (A : Type) : Type := World -> Res A * World.

#[export] Instance M_ret : MRet M := fun A a w => (Ok a, w).
#[export] Instance M_bind : MBind M := fun A B k m w =>
  match m w with
  | (Ok a, w') => k a w'
  | (Raise e, w') => (Raise e, w')
  end.

#[export] Instance M_fmap : FMap M := fun A B f m => m ≫= fun a => mret (f a).

Definition raise {A} (e : Exc) : M A := fun w => (Raise e, w).
Definition lift {A} (r : Res A) : M A := fun w => (r, w).

(** [try: m  except e: h e]. *)
Definition m_try {A} (m : M A) (h : Exc -> M A) : M A := fun w =>
  match m w with
  | (Ok a, w') => (Ok a, w')
  | (Raise e, w') => h e w'
  end.

(** [for x in l: f x], stopping at the first exception. *)
Fixpoint m_iter {A} (f : A -> M unit) (l : list A) : M unit :=
  match l with
  | [] => mret tt
  | x :: l' => f x ≫= fun _ => m_iter f l'
  end.

(** A loop that threads an accumulator. *)
Fixpoint m_fold {A B} (f : B -> A -> M B) (b : B) (l : list A) : M B :=
  match l with
  | [] => mret b
  | x :: l' => f b x ≫= fun b' => m_fold f b' l'
  end.

Definition bump (w : World) : World :=
  {| w_db := w_db w; w_tick := S (w_tick w); w_posts := w_posts w |}.

Definition with_db (db : Db) (w : World) : World :=
  {| w_db := db; w_tick := w_tick w; w_posts := w_posts w |}.

(** ** Session primitives *)

Section session.
Context `{Env}.

(** [datetime.now(timezone.utc)]. *)
Definition utc_now : M datetime := fun w => (Ok (clock (w_tick w)), bump w).

Definition monotonic_now : M float := fun w => (Ok (monotonic (w_tick w)), bump w).

(** [session.scalars(select(...).where(...))]: the rows of the query [q]. *)
Definition sql_select {A} (q : Db -> list A) : M (list A) := fun w =>
  match eng_select (w_tick w) A (q (w_db w)) with
  | Some l => (Ok l, bump w)
  | None => (Raise SQLAlchemyError, bump w)
  end.

(** [session.get(Model, key)]: the row as the database has it.  The session's identity map
    can only answer with an object it still holds, and it holds objects weakly: a repository
    turns each row into a record and drops it before it returns, a commit leaves no pending
    change, and [expire_on_commit=False] says only that the returned record needs no second
    query.  A later [get] in the same session reads again. *)
Definition sql_get {R} (lookup_row : Db -> option R) : M (option R) :=
  found ← sql_select (fun db => option_list (lookup_row db)); mret (head found).

(** [session.commit()] with the pending change [f]; on failure the session rolls back.
    The engine refuses a change that breaks a foreign key. *)
Definition sql_commit (f : Db -> Db) : M unit := fun w =>
  let db' := f (w_db w) in
  if eng_commit (w_tick w) && bool_decide (foreign_keys db')
  then (Ok tt, bump (with_db db' w))
  else (Raise SQLAlchemyError, bump w).

(** [session.add(row); session.commit()], the key of the new row chosen by the engine. *)
Definition sql_insert (used : Db -> gset Z) (f : Z -> Db -> Db) : M Z := fun w =>
  let id := eng_fresh (w_tick w) (used (w_db w)) in
  match sql_commit (f id) w with
  | (Ok _, w') => (Ok id, w')
  | (Raise e, w') => (Raise e, w')
  end.

(** The keys the engine gives to [n] rows inserted together. *)
Fixpoint fresh_ids (tick n : nat) (used : gset Z) : list Z :=
  match n with
  | O => []
  | S n' => let id := eng_fresh tick used in id :: fresh_ids tick n' ({[id]} ∪ used)
  end.

(** [session.add_all(rows); session.commit()], [n] rows in one transaction. *)
Definition sql_insert_many (n : nat) (used : Db -> gset Z) (f : list Z -> Db -> Db) : M unit :=
  fun w => sql_commit (f (fresh_ids (w_tick w) n (used (w_db w)))) w.

(** [DELETE ... WHERE id IN (SELECT id ... LIMIT batch_size)], then COMMIT: the keys the
    subquery [q] yields, at most [batch_size] of them, are deleted; returns [rowcount]. *)
Definition sql_delete_limit (q : Db -> list Z) (batch_size : Z) (del : list Z -> Db -> Db)
    : M Z :=
  found ← sql_select q;
  let doomed := take (Z.to_nat batch_size) found in
  _ ← sql_commit (del doomed);
  mret (Z.of_nat (length doomed)).

(** [except SQLAlchemyError as exc: raise PersistenceError(message) from exc]. *)
Definition persistence {A} (message : string) (m : M A) : M A :=
  m_try m (fun e => match e with
                    | SQLAlchemyError => raise (PersistenceError message)
                    | _ => raise e
                    end).

End session.

(** The rows of a table, and [ORDER BY key DESC] (stable on the order they came in). *)
Definition rows {K R} `{Countable K} (t : gmap K R) : list R := (map_to_list t).*2.

Fixpoint insert_desc {R} (key : R -> Z) (r : R) (l : list R) : list R :=
  match l with
  | [] => [r]
  | x :: l' => if Z.ltb (key x) (key r) then r :: l else x :: insert_desc key r l'
  end.

Definition order_by_desc {R} (key : R -> Z) (l : list R) : list R :=
  foldl (fun acc r => insert_desc key r acc) [] l.

(** ** Weakest preconditions *)

Definition wp {A} (m : M A) (Q : Res A -> World -> Prop) (w : World) : Prop :=
  Q (fst (m w)) (snd (m w)).

Lemma wp_ret {A} (a : A) Q w : Q (Ok a) w -> wp (mret a) Q w.
Proof. done. Qed.

Lemma wp_raise {A} e (Q : Res A -> World -> Prop) w : Q (Raise e) w -> wp (raise e) Q w.
Proof. done. Qed.

Lemma wp_lift {A} r (Q : Res A -> World -> Prop) w : Q r w -> wp (lift r) Q w.
Proof. done. Qed.

Lemma lift_ok_bind {A B} (a : A) (k : A -> M B) : (lift (Ok a) ≫= k) = k a.
Proof. done. Qed.

Lemma wp_bind {A B} (m : M A) (k : A -> M B) Q w :
  wp m (fun r w' => match r with Ok a => wp (k a) Q w' | Raise e => Q (Raise e) w' end) w ->
  wp (m ≫= k) Q w.
Proof. unfold wp, mbind, M_bind. by destruct (m w) as [[a|e] w']. Qed.

Lemma wp_try {A} (m : M A) h Q w :
  wp m (fun r w' => match r with Ok a => Q (Ok a) w' | Raise e => wp (h e) Q w' end) w ->
  wp (m_try m h) Q w.
Proof. unfold wp, m_try. by destruct (m w) as [[a|e] w']. Qed.

Lemma wp_mono {A} (m : M A) (Q Q' : Res A -> World -> Prop) w :
  wp m Q w -> (forall r w', Q r w' -> Q' r w') -> wp m Q' w.
Proof. unfold wp. auto. Qed.

Lemma wp_and {A} (m : M A) (Q Q' : Res A -> World -> Prop) w :
  wp m Q w -> wp m Q' w -> wp m (fun r w' => Q r w' /\ Q' r w') w.
Proof. unfold wp. auto. Qed.

Lemma wp_run {A} (m : M A) Q w r w' : m w = (r, w') -> wp m Q w -> Q r w'.
Proof. unfold wp. by intros ->. Qed.

Lemma wp_intro {A} (m : M A) (Q : Res A -> World -> Prop) w :
  (forall r w', m w = (r, w') -> Q r w') -> wp m Q w.
Proof. unfold wp. intros HQ. apply HQ. by destruct (m w). Qed.

(** Run the first operation of a bind by its specification [spec]. *)
Ltac wp_step spec := apply wp_bind; eapply wp_mono; [apply spec|].

(** ** Specifications of the session primitives *)

(** [w'] differs from [w] in the interaction counter only. *)
Definition same_state (w w' : World) : Prop := w_db w' = w_db w /\ w_posts w' = w_posts w.

Lemma same_state_refl w : same_state w w.
Proof. done. Qed.

Lemma same_state_trans w1 w2 w3 : same_state w1 w2 -> same_state w2 w3 -> same_state w1 w3.
Proof. unfold same_state. intros [] []. split; congruence. Qed.

#[export] Hint Resolve same_state_refl same_state_trans : pulse.

(** A database that answers every statement and accepts every legal commit. *)
Class Healthy `{Env} : Prop := {
  healthy_select : forall n A (l : list A), is_Some (eng_select n A l);
  healthy_commit : forall n, eng_commit n = true;
}.

Definition is_persistence (e : Exc) : Prop := exists msg, e = PersistenceError msg.

Section session_specs.
Context `{Env}.

(** [m] leaves the state alone and returns a value related to the database by [P]; it
    raises only [PersistenceError], and only when the engine fails. *)
Definition reads {A} (m : M A) (P : Db -> A -> Prop) : Prop :=
  forall w, wp m (fun r w' => same_state w w' /\
    match r with
    | Ok a => P (w_db w) a
    | Raise e => is_persistence e /\ ~ Healthy
    end) w.

(** [m] is one transaction: it moves the database as [P] says, or raises
    [PersistenceError] and leaves it unchanged, which a healthy engine does not when the
    precondition [pre] holds. *)
Definition writes {A} (m : M A) (pre : Db -> Prop) (P : Db -> A -> Db -> Prop) : Prop :=
  forall w, wp m (fun r w' => w_posts w' = w_posts w /\
    match r with
    | Ok a => P (w_db w) a (w_db w')
    | Raise e => is_persistence e /\ w_db w' = w_db w /\ ~ (Healthy /\ pre (w_db w))
    end) w.

Lemma wp_persistence_bind {A B} msg (m : M A) (k : A -> M B) Q w :
  wp (persistence msg m) (fun r w' =>
    match r with Ok a => wp (persistence msg (k a)) Q w' | Raise e => Q (Raise e) w' end) w ->
  wp (persistence msg (m ≫= k)) Q w.
Proof.
  unfold wp, persistence, m_try, mbind, M_bind.
  destruct (m w) as [[a|e] w']; [done|]. by destruct e.
Qed.

Lemma select_reads {A} msg (q : Db -> list A) :
  reads (persistence msg (sql_select q)) (fun db l => l ≡ₚ q db).
Proof.
  intros w. unfold wp, persistence, m_try, sql_select.
  destruct (eng_select _ _ _) as [l|] eqn:El; simpl; split; try done.
  - by eapply eng_select_perm.
  - split; [by eexists|]. intros Hh. destruct (healthy_select (w_tick w) A (q (w_db w))). congruence.
Qed.

Lemma head_perm_option {R} (l : list R) (o : option R) : l ≡ₚ option_list o -> head l = o.
Proof.
  destruct o; simpl; intros Hp.
  - by rewrite (Permutation_length_1_inv (Permutation_sym Hp)).
  - apply Permutation_nil_r in Hp. by subst.
Qed.

Lemma reads_ret {A} (a : A) (P : Db -> A -> Prop) : (forall db, P db a) -> reads (mret a) P.
Proof. intros HP w. split; [done|apply HP]. Qed.

(** A read followed by a pure computation. *)
Lemma reads_map {A B} (m : M A) (f : A -> B) (P : Db -> A -> Prop) (Q : Db -> B -> Prop) :
  reads m P -> (forall db a, P db a -> Q db (f a)) -> reads (x ← m; mret (f x)) Q.
Proof.
  intros Hm HQ w. apply wp_bind. eapply wp_mono; [apply Hm|].
  intros [a|e] w' [Hs Hr]; [|done]. apply wp_ret. split; [done|]. by apply HQ.
Qed.

Lemma get_row_reads {R} msg (q : Db -> option R) :
  reads (persistence msg (sql_get q)) (fun db o => o = q db).
Proof.
  intros w. unfold sql_get. apply wp_persistence_bind. eapply wp_mono; [apply select_reads|].
  intros [l|e] w' [Hs Hr]; [|done]. apply wp_ret. split; [done|]. by apply head_perm_option.
Qed.

Lemma commit_writes msg f :
  writes (persistence msg (sql_commit f)) (fun db => foreign_keys (f db))
    (fun db _ db' => db' = f db /\ foreign_keys db').
Proof.
  intros w. unfold wp, persistence, m_try, sql_commit.
  destruct (eng_commit _) eqn:Ec; simpl; [case_bool_decide; simpl|]; split; try done.
  - split; [by eexists|]. split; [done|]. by intros [_ ?].
  - split; [by eexists|]. split; [done|]. intros [Hh _]. by rewrite healthy_commit in Ec.
Qed.

Lemma insert_writes msg used f :
  writes (persistence msg (sql_insert used f))
    (fun db => forall id, id ∉ used db -> foreign_keys (f id db))
    (fun db id db' => (id ∉ used db) /\ db' = f id db /\ foreign_keys db').
Proof.
  intros w. pose proof (eng_fresh_spec (w_tick w) (used (w_db w))).
  unfold wp, persistence, m_try, sql_insert, sql_commit.
  destruct (eng_commit _) eqn:Ec; simpl; [case_bool_decide; simpl|]; split; try done.
  - split; [by eexists|]. split; [done|]. intros [_ Hfk]. auto.
  - split; [by eexists|]. split; [done|]. intros [Hh _]. by rewrite healthy_commit in Ec.
Qed.

Lemma fresh_ids_spec tick n used :
  length (fresh_ids tick n used) = n /\ NoDup (fresh_ids tick n used) /\
  forall id, id ∈ fresh_ids tick n used -> id ∉ used.
Proof.
  revert used. induction n as [|n IH]; intros used; simpl.
  - split; [done|]. split; [constructor|]. intros id Hin. by apply elem_of_nil in Hin.
  - destruct (IH ({[eng_fresh tick used]} ∪ used)) as (Hl & Hnd & Hf).
    split; [by rewrite Hl|]. split.
    + constructor; [|done]. intros Hin. by apply (Hf _ Hin), elem_of_union_l, elem_of_singleton.
    + intros id [->|Hin]%elem_of_cons; [apply eng_fresh_spec|]. intros Hu. by apply (Hf _ Hin), elem_of_union_r.
Qed.

Lemma insert_many_writes msg n used f :
  writes (persistence msg (sql_insert_many n used f))
    (fun db => forall ids, length ids = n -> foreign_keys (f ids db))
    (fun db _ db' => exists ids, length ids = n /\ NoDup ids /\
      (forall id, id ∈ ids -> id ∉ used db) /\ db' = f ids db /\ foreign_keys db').
Proof.
  intros w. destruct (fresh_ids_spec (w_tick w) n (used (w_db w))) as (Hl & Hnd & Hf).
  set (ids := fresh_ids _ _ _) in *.
  match goal with |- wp _ ?Q w => change (wp (persistence msg (sql_commit (f ids))) Q w) end.
  eapply wp_mono; [apply commit_writes|].
  intros [a|e] w' [Hp Hr]; (split; [done|]).
  - exists ids. destruct Hr as [-> ?]. done.
  - destruct Hr as (He & -> & Hn). repeat split; try done.
    intros [Hh Hfk]. apply Hn. auto.
Qed.

Lemma delete_limit_writes msg q batch_size del :
  writes (persistence msg (sql_delete_limit q batch_size del))
    (fun db => forall ids, ids ⊆ q db -> foreign_keys (del ids db))
    (fun db n db' => exists found, found ≡ₚ q db /\
      let ids := take (Z.to_nat batch_size) found in
      n = Z.of_nat (length ids) /\ db' = del ids db /\ foreign_keys db').
Proof.
  intros w. unfold sql_delete_limit. apply wp_persistence_bind.
  eapply wp_mono; [apply select_reads|].
  intros [found|e] w1 [[Hdb Hp1] Hr]; [|destruct Hr; repeat split; try done; by intros []].
  apply wp_persistence_bind. eapply wp_mono; [apply commit_writes|].
  intros [[]|e] w2 [Hp2 Hr2]; unfold wp; simpl; rewrite Hdb in Hr2;
    (split; [by rewrite Hp2|]).
  - exists found. destruct Hr2. done.
  - destruct Hr2 as (He & -> & Hn). repeat split; try done.
    intros [Hh Hfk]. apply Hn. split; [done|]. apply Hfk.
    intros id Hid. rewrite <- Hr. eapply elem_of_sublist; [done|apply sublist_take].
Qed.

Lemma writes_mono {A} (m : M A) (pre pre' : Db -> Prop) (P P' : Db -> A -> Db -> Prop) :
  writes m pre P -> (forall db, pre' db -> pre db) ->
  (forall db a db', P db a db' -> P' db a db') -> writes m pre' P'.
Proof.
  intros Hm Hpre HP w. eapply wp_mono; [apply Hm|].
  intros [a|e] w' [Hp Hr]; (split; [done|]); [by apply HP|].
  destruct Hr as (? & ? & Hn). split; [done|]. split; [done|].
  intros [? ?]. apply Hn. auto.
Qed.

End session_specs.

(** ** Rows of a table *)

Lemma elem_of_rows {K R} `{Countable K} (t : gmap K R) r :
  r ∈ rows t <-> exists k, t !! k = Some r.
Proof.
  unfold rows. rewrite list_elem_of_fmap. split.
  - intros [[k r'] [-> Hin]]. exists k. by apply elem_of_map_to_list.
  - intros [k Hk]. exists (k, r). by rewrite elem_of_map_to_list.
Qed.

Lemma insert_desc_perm {R} (key : R -> Z) r l : insert_desc key r l ≡ₚ (r :: l).
Proof.
  induction l as [|x l IH]; simpl; [done|]. destruct (Z.ltb _ _); [done|].
  rewrite IH. apply Permutation_swap.
Qed.

Lemma foldl_insert_desc_perm {R} (key : R -> Z) l acc :
  foldl (fun a r => insert_desc key r a) acc l ≡ₚ (acc ++ l).
Proof.
  revert acc. induction l as [|x l IH]; intros acc; simpl; [by rewrite app_nil_r|].
  rewrite IH, insert_desc_perm. simpl. by apply Permutation_middle.
Qed.

Lemma order_by_desc_perm {R} (key : R -> Z) l : order_by_desc key l ≡ₚ l.
Proof. unfold order_by_desc. by rewrite foldl_insert_desc_perm. Qed.

(** The head of a list sorted by [ORDER BY key DESC] is a row with the greatest key. *)
Definition is_top {R} (key : R -> Z) (l : list R) : Prop :=
  match l with [] => True | r :: _ => forall x, x ∈ l -> (key x <= key r)%Z end.

Lemma insert_desc_top {R} (key : R -> Z) r l : is_top key l -> is_top key (insert_desc key r l).
Proof.
  destruct l as [|x l]; simpl.
  - intros _ y ->%list_elem_of_singleton. lia.
  - intros Htop. destruct (Z.ltb_spec (key x) (key r)); simpl; intros y Hy.
    + apply elem_of_cons in Hy as [->|Hy]; [lia|]. specialize (Htop y Hy). lia.
    + apply elem_of_cons in Hy as [->|Hy]; [lia|].
      rewrite insert_desc_perm in Hy. apply elem_of_cons in Hy as [->|Hy]; [lia|].
      apply Htop. by right.
Qed.

Lemma order_by_desc_top {R} (key : R -> Z) l : is_top key (order_by_desc key l).
Proof.
  unfold order_by_desc.
  assert (forall acc, is_top key acc -> is_top key (foldl (fun a r => insert_desc key r a) acc l))
    as Hgen; [|by apply Hgen].
  induction l as [|x l IH]; intros acc Hacc; simpl; [done|].
  by apply IH, insert_desc_top.
Qed.

Lemma order_by_desc_head {R} (key : R -> Z) l r :
  head (order_by_desc key l) = Some r -> r ∈ l /\ forall x, x ∈ l -> (key x <= key r)%Z.
Proof.
  intros Hr. pose proof (order_by_desc_top key l) as Htop.
  pose proof (order_by_desc_perm key l) as Hp.
  destruct (order_by_desc key l) as [|r' l'] eqn:El; simpl in *; [done|]. simplify_eq.
  split.
  - rewrite <- Hp. by left.
  - intros x Hx. apply Htop. by rewrite Hp.
Qed.

Lemma order_by_desc_none {R} (key : R -> Z) l : head (order_by_desc key l) = None -> l = [].
Proof.
  intros Hr. pose proof (order_by_desc_perm key l) as Hp.
  destruct (order_by_desc key l) as [|r' l']; simpl in *; [|done].
  by apply Permutation_nil_l in Hp.
Qed.

Lemma head_perm_none {R} (l k : list R) : l ≡ₚ k -> head l = None -> k = [].
Proof. destruct l; [|done]. intros Hp _. by apply Permutation_nil_l in Hp. Qed.

Lemma head_perm_some {R} (l k : list R) r : l ≡ₚ k -> head l = Some r -> r ∈ k.
Proof.
  destruct l; [done|]. intros Hp [= ->]. rewrite <- Hp. by left.
Qed.
