(* ===== verification/Exceptions.v ===== *)
(** * The exception classes ([shared/exceptions/], [collector/exceptions.py])

    The hierarchy that handlers dispatch on: [isinstance] is membership in the chain of base
    classes.  The exceptions themselves are the values of [Runtime.Exc]. *)

From S2P Require Import Prelude Domain Runtime.

Local Open Scope string_scope.

(** The program's classes, and the built-in and library classes the model raises. *)
Inductive ExcClass :=
| C_Exception
| C_ClusterPulseError
| C_AuthenticationError
| C_ConfigurationError
| C_PersistenceError
| C_RemediationSafetyError
| C_TransportError
| C_RetryableTransportError
| C_FatalTransportError
| C_NodeNotFoundError
| C_AlertNotFoundError
| C_AlertAlreadyResolvedError
| C_RemediationActionNotFoundError
| C_RemediationActionNotDispatchedError
| C_SQLAlchemyError
| C_ValueError
| C_OverflowError
| C_OSError.

#[export] Instance ExcClass_eq_dec : EqDecision ExcClass.
Proof. solve_decision. Defined.

(** The base class each [class] statement names; for the built-in and library classes, the
    first of their bases that is listed here. *)
Definition base_class (c : ExcClass) : option ExcClass :=
  match c with
  | C_Exception => None
  | C_RetryableTransportError | C_FatalTransportError => Some C_TransportError
  | C_AuthenticationError | C_ConfigurationError | C_PersistenceError | C_RemediationSafetyError
  | C_TransportError => Some C_ClusterPulseError
  | C_NodeNotFoundError | C_AlertNotFoundError | C_AlertAlreadyResolvedError
  | C_RemediationActionNotFoundError | C_RemediationActionNotDispatchedError =>
      Some C_ClusterPulseError
  | C_ClusterPulseError | C_SQLAlchemyError | C_ValueError | C_OverflowError | C_OSError =>
      Some C_Exception
  end.

(** The chain of base classes; the hierarchy is at most four classes deep. *)
Fixpoint chain (depth : nat) (c : ExcClass) : list ExcClass :=
  c :: match depth, base_class c with
       | S depth, Some b => chain depth b
       | _, _ => []
       end.

Definition bases (c : ExcClass) : list ExcClass := chain 3 c.

(** [type(exc)]; what the model does not tell apart is an [Exception] and nothing more. *)
Definition type_of (e : Exc) : ExcClass :=
  match e with
  | SQLAlchemyError => C_SQLAlchemyError
  | PersistenceError _ => C_PersistenceError
  | NodeNotFoundError _ => C_NodeNotFoundError
  | AlertNotFoundError _ => C_AlertNotFoundError
  | AlertAlreadyResolvedError _ => C_AlertAlreadyResolvedError
  | RemediationActionNotFoundError _ => C_RemediationActionNotFoundError
  | RemediationActionNotDispatchedError _ _ => C_RemediationActionNotDispatchedError
  | AuthenticationError => C_AuthenticationError
  | ConfigurationError _ => C_ConfigurationError
  | RemediationSafetyError _ => C_RemediationSafetyError
  | RetryableTransportError _ => C_RetryableTransportError
  | FatalTransportError _ => C_FatalTransportError
  | ValueError _ => C_ValueError
  | OverflowError => C_OverflowError
  | OSError _ => C_OSError
  | OtherException _ => C_Exception
  end.

Definition isinstance (e : Exc) (c : ExcClass) : bool := bool_decide (c ∈ bases (type_of e)).

(** The chain of every class is complete: it ends in [Exception]. *)
Lemma bases_complete c : last (bases c) = Some C_Exception.
Proof. by destruct c. Qed.

(** An instance of a class is an instance of its base class. *)
Lemma isinstance_base e c b : isinstance e c = true -> base_class c = Some b -> isinstance e b = true.
Proof. destruct e, c; vm_compute; try discriminate; intros _ [= <-]; reflexivity. Qed.

(** The classes of the transport, and the errors a client may see, are kept apart. *)
Lemma transport_classes e :
  isinstance e C_TransportError =
    isinstance e C_RetryableTransportError || isinstance e C_FatalTransportError /\
  isinstance e C_RetryableTransportError && isinstance e C_FatalTransportError = false.
Proof. by destruct e. Qed.
