(* ===== verification/Threads.v ===== *)
(** * Threads over one database

    The Collector's requests run on a pool of threads, each with its own session, next to
    the scheduler's thread.  A repository call is a transaction of its own, so a request is
    here a program: a tree of calls, each one atomic, with what the code does next as a
    function of the call's result.  Run alone, a program is the computation in [M] it
    replaces; in a pool, the calls of several programs interleave.

    The proof rule is rely/guarantee: a program is [safe] when each of its calls moves the
    database as its guarantee allows, from whatever database the other threads' moves, its
    rely, have left it. *)

From S2P Require Import Prelude PyFloat PyTime Domain Schema Runtime.
From stdpp Require Export relations.

Local Open Scope Z_scope.

(** ** Programs *)

Inductive Prog (A : Type) : Type :=
| Done (r : Res A)
| Call {B : Type} (m : M B) (k : Res B -> Prog A).
Arguments Done {A} r.
Arguments Call {A B} m k.

Fixpoint prog_bind {A B} (f : A -> Prog B) (p : Prog A) : Prog B :=
  match p with
  | Done (Ok a) => f a
  | Done (Raise e) => Done (Raise e)
  | Call m k => Call m (fun r => prog_bind f (k r))
  end.

#[export] Instance Prog_ret : MRet Prog := fun A a => Done (Ok a).
#[export] Instance Prog_bind : MBind Prog := fun A B f p => prog_bind f p.
#[export] Instance Prog_fmap : FMap Prog := fun A B f p => p ≫= fun a => mret (f a).

(** One atomic call. *)
Definition call {A} (m : M A) : Prog A := Call m Done.

Definition p_raise {A} (e : Exc) : Prog A := Done (Raise e).

Definition p_lift {A} (r : Res A) : Prog A := Done r.

(** [try: p  except e: h e]. *)
Fixpoint p_try {A} (p : Prog A) (h : Exc -> Prog A) : Prog A :=
  match p with
  | Done (Ok a) => Done (Ok a)
  | Done (Raise e) => h e
  | Call m k => Call m (fun r => p_try (k r) h)
  end.

(** A loop that threads an accumulator. *)
Fixpoint p_fold {A B} (f : B -> A -> Prog B) (b : B) (l : list A) : Prog B :=
  match l with
  | [] => mret b
  | x :: l' => f b x ≫= fun b' => p_fold f b' l'
  end.

(** The program alone, its calls one after the other. *)
Fixpoint run {A} (p : Prog A) : M A := fun w =>
  match p with
  | Done r => (r, w)
  | Call m k => let '(r, w') := m w in run (k r) w'
  end.

(** ** A program alone is the computation it replaces *)

Definition implements {A} (p : Prog A) (m : M A) : Prop := forall w, run p w = m w.

Lemma implements_ret {A} (a : A) : implements (mret a) (mret a).
Proof. done. Qed.

Lemma implements_raise {A} e : implements (p_raise (A:=A) e) (raise e).
Proof. done. Qed.

Lemma implements_lift {A} (r : Res A) : implements (p_lift r) (lift r).
Proof. done. Qed.

Lemma implements_call {A} (m : M A) : implements (call m) m.
Proof. intros w. simpl. by destruct (m w). Qed.

Lemma run_bind {A B} (p : Prog A) (f : A -> Prog B) w :
  run (p ≫= f) w = match run p w with
                   | (Ok a, w') => run (f a) w'
                   | (Raise e, w') => (Raise e, w')
                   end.
Proof.
  unfold mbind, Prog_bind. revert w. induction p as [[a|e]|C m k IH]; intros w; [done..|].
  simpl. destruct (m w) as [r w']. apply IH.
Qed.

Lemma implements_bind {A B} (p : Prog A) (f : A -> Prog B) m g :
  implements p m -> (forall a, implements (f a) (g a)) -> implements (p ≫= f) (m ≫= g).
Proof.
  intros Hp Hf w. rewrite run_bind, Hp. unfold mbind, M_bind.
  destruct (m w) as [[a|e] w']; [apply Hf|done].
Qed.

Lemma implements_fmap {A B} (f : A -> B) p m : implements p m -> implements (f <$> p) (f <$> m).
Proof. intros Hp. by apply implements_bind. Qed.

Lemma run_try {A} (p : Prog A) h w :
  run (p_try p h) w = match run p w with
                      | (Ok a, w') => (Ok a, w')
                      | (Raise e, w') => run (h e) w'
                      end.
Proof.
  revert w. induction p as [[a|e]|C m k IH]; intros w; [done..|].
  simpl. destruct (m w) as [r w']. apply IH.
Qed.

Lemma implements_try {A} (p : Prog A) m h g :
  implements p m -> (forall e, implements (h e) (g e)) -> implements (p_try p h) (m_try m g).
Proof.
  intros Hp Hh w. rewrite run_try, Hp. unfold m_try.
  destruct (m w) as [[a|e] w']; [done|apply Hh].
Qed.

Lemma implements_fold {A B} (f : B -> A -> Prog B) g l b :
  (forall b x, implements (f b x) (g b x)) -> implements (p_fold f b l) (m_fold g b l).
Proof.
  intros Hf. revert b. induction l as [|x l IH]; intros b; simpl; [apply implements_ret|].
  by apply implements_bind.
Qed.

(** A branch on both sides. *)
Lemma implements_if {A} (b : bool) (p1 p2 : Prog A) m1 m2 :
  implements p1 m1 -> implements p2 m2 ->
  implements (if b then p1 else p2) (if b then m1 else m2).
Proof. by destruct b. Qed.

#[export] Hint Resolve implements_ret implements_raise implements_lift implements_call
  implements_bind
  implements_fmap implements_try implements_fold implements_if : pulse.

(** ** Rely and guarantee *)

Section safe.
Context (R G : Db -> Db -> Prop) `{!PreOrder R}.

(** Whatever the others' moves [R] do between its calls, each call of [p] moves the database
    by [G], and when it is done [Q] holds, and stays. *)
Fixpoint safe {A} (p : Prog A) (Q : Res A -> Db -> Prop) (db : Db) : Prop :=
  match p with
  | Done r => forall db', R db db' -> Q r db'
  | Call m k => forall w, R db (w_db w) ->
      G (w_db w) (w_db (snd (m w))) /\ safe (k (fst (m w))) Q (w_db (snd (m w)))
  end.

Lemma safe_rely {A} (p : Prog A) Q db db' : safe p Q db -> R db db' -> safe p Q db'.
Proof.
  destruct p as [r|B m k]; simpl; intros Hs Hr; [intros db2 H2; apply Hs|intros w Hw; apply Hs];
    by etrans.
Qed.

Lemma safe_mono {A} (p : Prog A) (Q Q' : Res A -> Db -> Prop) db :
  safe p Q db -> (forall r db', Q r db' -> Q' r db') -> safe p Q' db.
Proof.
  intros Hs HQ. revert db Hs. induction p as [r|B m k IH]; simpl; intros db Hs; [by eauto|].
  intros w Hw. destruct (Hs w Hw) as [HG Hk]. split; [done|]. by apply IH.
Qed.

Lemma safe_bind {A B} (p : Prog A) (f : A -> Prog B) Q db :
  safe p (fun r db' => match r with
                       | Ok a => safe (f a) Q db'
                       | Raise e => Q (Raise e) db'
                       end) db ->
  safe (p ≫= f) Q db.
Proof.
  unfold mbind, Prog_bind. revert db. induction p as [[a|e]|C m k IH]; simpl; intros db Hs.
  - by apply Hs.
  - done.
  - intros w Hw. destruct (Hs w Hw) as [HG Hk]. split; [done|]. by apply IH.
Qed.

Lemma safe_try {A} (p : Prog A) h Q db :
  safe p (fun r db' => match r with
                       | Ok a => Q (Ok a) db'
                       | Raise e => safe (h e) Q db'
                       end) db ->
  safe (p_try p h) Q db.
Proof.
  revert db. induction p as [[a|e]|C m k IH]; simpl; intros db Hs.
  - done.
  - by apply Hs.
  - intros w Hw. destruct (Hs w Hw) as [HG Hk]. split; [done|]. by apply IH.
Qed.

(** One call, by its weakest precondition; what it establishes must survive the others. *)
Lemma safe_call {A} (m : M A) (Q : Res A -> Db -> Prop) db :
  (forall w, R db (w_db w) -> wp m (fun r w' => G (w_db w) (w_db w') /\
     forall db', R (w_db w') db' -> Q r db') w) ->
  safe (call m) Q db.
Proof. intros Hm w Hw. destruct (Hm w Hw). by split. Qed.

(** A loop: the invariant [I] relates the accumulator to the database. *)
Lemma safe_fold {A B} (f : B -> A -> Prog B) (I : B -> Db -> Prop) (X : Exc -> Db -> Prop) l b db :
  (forall b x db, x ∈ l -> I b db -> safe (f b x) (fun r db' =>
     match r with Ok b' => I b' db' | Raise e => X e db' end) db) ->
  (forall b db db', I b db -> R db db' -> I b db') -> I b db ->
  safe (p_fold f b l) (fun r db' => match r with Ok b' => I b' db' | Raise e => X e db' end) db.
Proof.
  intros Hf HI. revert b db. induction l as [|x l IH]; intros b db Hdb; simpl.
  { intros db' Hdb'. by eapply HI. }
  apply safe_bind. eapply safe_mono; [by apply Hf; [left|]|]. intros [b'|e] db' Hdb'; [|done].
  apply IH; [|done]. intros. apply Hf; [by right|done].
Qed.

(** Run alone, a safe program moves the database by its guarantee only. *)
Lemma safe_runs `{!PreOrder G} {A} (p : Prog A) (Q : Res A -> Db -> Prop) w :
  safe p Q (w_db w) ->
  G (w_db w) (w_db (snd (run p w))) /\ Q (fst (run p w)) (w_db (snd (run p w))).
Proof.
  revert w. induction p as [r|B m k IH]; simpl; intros w Hs; [split; [done|by apply Hs]|].
  destruct (Hs w) as [HG Hk]; [done|]. destruct (m w) as [r w1]. simpl in *.
  destruct (IH r w1 Hk) as [Hm HQ]. split; [by etrans|done].
Qed.

End safe.

(** ** The pool *)

Section pool.
Context {Kind Job : Type} `{EqDecision Kind}.
Context (kind : Job -> Kind) (program : Job -> Prog unit).

Record Thread := { th_kind : Kind; th_prog : Prog unit }.
Record Pool := { pl_threads : gmap nat Thread; pl_world : World }.

(** A job arrives and gets a thread; a thread makes its next call; a thread that is done
    leaves. *)
Inductive PoolMove := Arrive (i : nat) (job : Job) | Advance (i : nat) | Leave (i : nat).

(** [admitted]: whether a job of this kind may start next to the threads there are. *)
Context (admitted : Kind -> gmap nat Thread -> bool).

Definition pool_do (mv : PoolMove) (P : Pool) : option Pool :=
  match mv with
  | Arrive i job =>
      match pl_threads P !! i with
      | Some _ => None
      | None =>
          if admitted (kind job) (pl_threads P) then
            Some {| pl_threads := <[i := {| th_kind := kind job; th_prog := program job |}]>
                      (pl_threads P);
                    pl_world := pl_world P |}
          else None
      end
  | Advance i =>
      match pl_threads P !! i with
      | Some {| th_kind := κ; th_prog := Call m k |} =>
          let '(r, w) := m (pl_world P) in
          Some {| pl_threads := <[i := {| th_kind := κ; th_prog := k r |}]> (pl_threads P);
                  pl_world := w |}
      | _ => None
      end
  | Leave i =>
      match pl_threads P !! i with
      | Some {| th_prog := Done _ |} =>
          Some {| pl_threads := delete i (pl_threads P); pl_world := pl_world P |}
      | _ => None
      end
  end.

Definition pool_step (P P' : Pool) : Prop := exists mv, pool_do mv P = Some P'.

(** A schedule: its moves one after the other, those that are not possible left out. *)
Definition pool_run (moves : list PoolMove) (P : Pool) : Pool :=
  foldl (fun P mv => default P (pool_do mv P)) P moves.

Lemma pool_run_steps moves P : rtc pool_step P (pool_run moves P).
Proof.
  revert P. induction moves as [|mv moves IH]; intros P; simpl; [done|].
  destruct (pool_do mv P) as [P'|] eqn:Em; simpl; [|apply IH].
  eapply rtc_l; [by exists mv|apply IH].
Qed.

(** *** Soundness of rely and guarantee

    [shared] kinds may have several threads at once, the others one.  [tok]: what a kind may
    assume of the database when its thread starts, and restores when it ends; nobody else
    disturbs it. *)

Context (shared : Kind -> bool).
Context (R G : Kind -> Db -> Db -> Prop) (tok : Kind -> Db -> Prop).
Context `{!forall κ, PreOrder (R κ)}.

Definition alone_of (κ : Kind) (threads : gmap nat Thread) : Prop :=
  forall i t, threads !! i = Some t -> th_kind t <> κ.

Context (admitted_alone : forall κ threads,
  admitted κ threads = true -> shared κ = false -> alone_of κ threads).
Context (others : forall κ κ' db db', κ <> κ' \/ shared κ = true -> G κ' db db' -> R κ db db').
Context (tok_stable : forall κ db db', tok κ db -> R κ db db' -> tok κ db').
Context (programs_safe : forall job db, tok (kind job) db ->
  safe (R (kind job)) (G (kind job)) (program job) (fun _ => tok (kind job)) db).

Definition guaranteed (db db' : Db) : Prop := exists κ, G κ db db'.

(** Every thread is safe from here; no two threads of an exclusive kind; and the token of a
    kind without a thread holds, as that of a shared kind always does. *)
Record sound_pool (db0 : Db) (P : Pool) : Prop := {
  sp_moves : rtc guaranteed db0 (w_db (pl_world P));
  sp_safe : forall i t, pl_threads P !! i = Some t ->
    safe (R (th_kind t)) (G (th_kind t)) (th_prog t) (fun _ => tok (th_kind t))
      (w_db (pl_world P));
  sp_once : forall i j t u, pl_threads P !! i = Some t -> pl_threads P !! j = Some u ->
    th_kind t = th_kind u -> shared (th_kind t) = false -> i = j;
  sp_tok : forall κ, alone_of κ (pl_threads P) \/ shared κ = true -> tok κ (w_db (pl_world P));
}.

Lemma sound_arrive db0 P i job P' :
  sound_pool db0 P -> pool_do (Arrive i job) P = Some P' -> sound_pool db0 P'.
Proof.
  intros [Hm Hs Ho Ht]. simpl. destruct (pl_threads P !! i) eqn:Ei; [done|].
  destruct (admitted _ _) eqn:Ea; [|done]. intros [= <-].
  assert (tok (kind job) (w_db (pl_world P))) as Htok.
  { apply Ht. destruct (shared (kind job)) eqn:Esh; [by right|left; by apply admitted_alone]. }
  split; simpl.
  - done.
  - intros j t [[<- <-]|[_ Hj]]%lookup_insert_Some; [by apply programs_safe|by eapply Hs].
  - intros j1 j2 t u [[<- <-]|[Hn1 H1]]%lookup_insert_Some [[<- <-]|[Hn2 H2]]%lookup_insert_Some;
      simpl; intros Hk Hsh; [done| | |by eapply Ho].
    + exfalso. by apply (admitted_alone _ _ Ea Hsh _ _ H2).
    + exfalso. rewrite Hk in Hsh. by apply (admitted_alone _ _ Ea Hsh _ _ H1).
  - intros κ [Hal|Hsh]; apply Ht; [left|by right]. intros j t Hj. apply (Hal j).
    rewrite lookup_insert_ne; [done|]. intros ->. congruence.
Qed.

Lemma sound_advance db0 P i P' :
  sound_pool db0 P -> pool_do (Advance i) P = Some P' -> sound_pool db0 P'.
Proof.
  intros [Hm Hs Ho Ht]. simpl. destruct (pl_threads P !! i) as [[κ [r|B m k]]|] eqn:Ei; [done| |done].
  destruct (m (pl_world P)) as [r w] eqn:Em. intros [= <-].
  pose proof (Hs _ _ Ei) as Hi. simpl in Hi. destruct (Hi (pl_world P)) as [HG Hk]; [done|].
  rewrite Em in HG, Hk. simpl in HG, Hk. split; simpl.
  - eapply rtc_r; [exact Hm|by exists κ].
  - intros j t [[<- <-]|[Hne Hj]]%lookup_insert_Some; [done|].
    eapply safe_rely; [by apply _|by eapply Hs|]. eapply others; [|exact HG].
    destruct (shared (th_kind t)) eqn:Esh; [by right|left]. intros Heq. apply Hne.
    symmetry. by eapply (Ho j i t _ Hj Ei).
  - intros j1 j2 t u [[<- <-]|[Hn1 H1]]%lookup_insert_Some [[<- <-]|[Hn2 H2]]%lookup_insert_Some;
      simpl; intros Hkd Hsh; [done| | |by eapply Ho].
    + exfalso. apply Hn2. by eapply (Ho i j2 _ _ Ei H2).
    + exfalso. apply Hn1. symmetry. by eapply (Ho j1 i _ _ H1 Ei).
  - intros κ' Hκ. eapply tok_stable.
    + apply Ht. destruct Hκ as [Hal|]; [left|by right]. intros j t Hj.
      destruct (decide (j = i)) as [->|Hne].
      * rewrite Ei in Hj. injection Hj as <-. exact (Hal i _ (lookup_insert_eq _ _ _)).
      * apply (Hal j). by rewrite lookup_insert_ne.
    + eapply others; [|exact HG]. destruct Hκ as [Hal|]; [left|by right]. intros ->.
      by apply (Hal i _ (lookup_insert_eq _ _ _)).
Qed.

Lemma sound_leave db0 P i P' :
  sound_pool db0 P -> pool_do (Leave i) P = Some P' -> sound_pool db0 P'.
Proof.
  intros [Hm Hs Ho Ht]. simpl. destruct (pl_threads P !! i) as [[κ [r|B m k]]|] eqn:Ei; [|done..].
  intros [= <-]. pose proof (Hs _ _ Ei) as Hi. simpl in Hi. split; simpl.
  - done.
  - intros j t [_ Hj]%lookup_delete_Some. by eapply Hs.
  - intros j1 j2 t u [_ H1]%lookup_delete_Some [_ H2]%lookup_delete_Some. by eapply Ho.
  - intros κ' [Hal|Hsh]; [|apply Ht; by right]. destruct (decide (κ' = κ)) as [->|Hne].
    + by apply Hi.
    + apply Ht. left. intros j t Hj. destruct (decide (j = i)) as [->|Hne'].
      * rewrite Ei in Hj. injection Hj as <-. simpl. congruence.
      * apply (Hal j). by rewrite lookup_delete_ne.
Qed.

Lemma pool_sound_steps db0 P P' :
  rtc pool_step P P' -> sound_pool db0 P -> sound_pool db0 P'.
Proof.
  induction 1 as [|P1 P2 P3 [mv Hmv] _ IH]; [done|]. intros H1. apply IH.
  destruct mv; [by eapply sound_arrive|by eapply sound_advance|by eapply sound_leave].
Qed.

Lemma pool_sound w P :
  (forall κ, tok κ (w_db w)) ->
  rtc pool_step {| pl_threads := ∅; pl_world := w |} P -> sound_pool (w_db w) P.
Proof.
  intros Ht Hr. eapply pool_sound_steps; [exact Hr|].
  split; simpl; [done|..]; try (intros *; rewrite lookup_empty; discriminate); by intros κ _.
Qed.

(** What the threads do from a sound pool on. *)
Lemma sound_moves db0 P P' :
  sound_pool db0 P -> rtc pool_step P P' -> rtc guaranteed (w_db (pl_world P)) (w_db (pl_world P')).
Proof.
  intros [_ Hs Ho Ht] Hr. apply (sp_moves (w_db (pl_world P)) P').
  eapply pool_sound_steps; [exact Hr|]. by split.
Qed.

End pool.
