(* ===== verification/RefEnv.v ===== *)
(** * A concrete environment

    A database engine that returns rows in table order, numbers new rows from the greatest
    key in use, and fails exactly at the interactions [fails] names; a clock that advances
    by one microsecond per reading, for a million readings.  The examples of the development run on it. *)

From S2P Require Import Prelude PyFloat PyTime Domain Schema Runtime.

Local Open Scope Z_scope.

Definition next_key (used : gset Z) : Z := 1 + foldr Z.max 0 (elements used).

Lemma next_key_fresh used : next_key used ∉ used.
Proof.
  unfold next_key. intros Hin. apply elem_of_elements in Hin.
  assert (forall l z, z ∈ l -> z <= foldr Z.max 0 l) as Hmax.
  { clear. induction l as [|x l IH]; intros z Hz; simpl; [by apply elem_of_nil in Hz|].
    apply elem_of_cons in Hz as [->|Hz]; [lia|]. specialize (IH z Hz). lia. }
  apply Hmax in Hin. lia.
Qed.

Section ref_env.
Context (fails : nat -> bool) (start : datetime).

Definition ref_select (n : nat) (A : Type) (l : list A) : option (list A) :=
  if fails n then None else Some l.

Lemma ref_select_perm n A l k : ref_select n A l = Some k -> k ≡ₚ l.
Proof. unfold ref_select. destruct (fails n); [done|]. by intros [= ->]. Qed.

Definition RefEnv : Env :=
  {| eng_select := ref_select;
     eng_select_perm := ref_select_perm;
     eng_commit := fun n => negb (fails n);
     eng_fresh := fun _ => next_key;
     eng_fresh_spec := fun _ => next_key_fresh;
     clock := fun n => start + Z.min (Z.of_nat n) 1000000;
     monotonic := fun n => float_of_Z (Z.of_nat n);
     telegram := fun _ => Some 200;
     float_repr := fun _ => "x" |}.

Lemma RefEnv_healthy : (forall n, fails n = false) -> @Healthy RefEnv.
Proof.
  intros Hf. split; simpl.
  - intros n A l. unfold ref_select. rewrite Hf. by eexists.
  - intros n. by rewrite Hf.
Qed.

End ref_env.

(** The environment without failures, at 2026-01-01T00:00:00Z. *)
Definition ref_start : datetime := seconds 1767225600.
Definition ref_env : Env := RefEnv (fun _ => false) ref_start.

#[export] Instance ref_env_healthy : @Healthy ref_env.
Proof. by apply RefEnv_healthy. Qed.

(** A world around a database. *)
Definition world_of (db : Db) : World := {| w_db := db; w_tick := 0; w_posts := [] |}.

(** ** Demonstration rows *)

Definition demo_node (last_seen : datetime) : NodeModel :=
  {| nm_node_id := "n1"; nm_first_seen_at := ref_start; nm_last_seen_at := last_seen |}.

Definition demo_alert (id : Z) (t : datetime) : AlertModel :=
  new_alert id "n1" "threshold:cpu.usage_percent" THRESHOLD CRITICAL "CPU high"
    (float_of_Z 95) (float_of_Z 90) t.

Definition demo_action (id alert_id : Z) (status : RemediationActionStatus) (t : datetime)
    : RemediationActionModel :=
  new_action id "n1" alert_id "threshold:cpu.usage_percent" "clear_tmp" CLEAR_DIRECTORY
    {["path" := "/tmp/cache"]} status None t.

(** One node with a firing alert, a resolved one, and a dispatched action. *)
Definition demo_db : Db :=
  {| nodes := {["n1" := demo_node ref_start]};
     alerts := <[2 := resolved (ref_start - days 40) (demo_alert 2 (ref_start - days 41))]>
                 {[1 := demo_alert 1 (ref_start - hours 2)]};
     remediation_actions := {[1 := demo_action 1 1 DISPATCHED (ref_start - hours 1)]};
     metric_samples := ∅ |}.

Definition demo_world : World := world_of demo_db.
