(* ===== verification/Protocols.v ===== *)
(** * Repository interfaces ([collector/repositories/protocols.py])

    Each [Protocol] is a class whose instances carry the operations and the contract the
    services rely on.  A contract is a [reads] or [writes] specification: the result in
    terms of the tables, the one exception type, and when failure is impossible.  The
    SQLAlchemy repositories are the instances. *)

From S2P Require Import Prelude PyFloat PyTime Domain Schema Runtime.

Local Open Scope Z_scope.

(** ** Queries of the contracts *)

(** The row is the open alert of [(node_id, rule_key)]. *)
Definition is_open (node_id rule_key : string) (a : AlertModel) : Prop :=
  am_node_id a = node_id /\ am_rule_key a = rule_key /\ am_status a = FIRING.

#[export] Instance is_open_dec n k a : Decision (is_open n k a).
Proof. unfold is_open. apply _. Defined.

(** [AlertModel.resolved_at < cutoff]; the comparison with NULL does not hold. *)
Definition before_opt (t : option datetime) (cutoff : datetime) : Prop :=
  match t with Some t => t < cutoff | None => False end.

#[export] Instance before_opt_dec t c : Decision (before_opt t c).
Proof. destruct t; simpl; apply _. Defined.

Definition referenced (db : Db) (id : Z) : Prop :=
  Exists (fun r => rm_alert_id r = id) (rows (remediation_actions db)).

#[export] Instance referenced_dec db id : Decision (referenced db id).
Proof. unfold referenced. apply _. Defined.

Definition alert_prunable (db : Db) (cutoff : datetime) (kr : Z * AlertModel) : Prop :=
  am_status kr.2 = RESOLVED /\ before_opt (am_resolved_at kr.2) cutoff /\ ~ referenced db kr.1.

#[export] Instance alert_prunable_dec db c kr : Decision (alert_prunable db c kr).
Proof. unfold alert_prunable. apply _. Defined.

Definition action_prunable (cutoff : datetime) (kr : Z * RemediationActionModel) : Prop :=
  rm_status kr.2 <> DISPATCHED /\ rm_created_at kr.2 < cutoff.

#[export] Instance action_prunable_dec c kr : Decision (action_prunable c kr).
Proof. unfold action_prunable. apply _. Defined.

Definition sample_prunable (cutoff : datetime) (kr : Z * MetricSampleModel) : Prop :=
  mm_received_at kr.2 < cutoff.

#[export] Instance sample_prunable_dec c kr : Decision (sample_prunable c kr).
Proof. unfold sample_prunable. apply _. Defined.

(** The sample qualifies for [find_previous_sample]. *)
Definition in_window (node_id : string) (metric_type : MetricType) (before since : datetime)
    (r : MetricSampleModel) : Prop :=
  mm_node_id r = node_id /\ mm_metric_type r = metric_type /\
  mm_collected_at r < before /\ since <= mm_collected_at r.

#[export] Instance in_window_dec n m b s r : Decision (in_window n m b s r).
Proof. unfold in_window. apply _. Defined.

Definition of_playbook (node_id playbook_name : string) (r : RemediationActionModel) : Prop :=
  rm_node_id r = node_id /\ rm_playbook_name r = playbook_name.

#[export] Instance of_playbook_dec n p r : Decision (of_playbook n p r).
Proof. unfold of_playbook. apply _. Defined.

Definition recent_action (node_id : string) (since : datetime) (r : RemediationActionModel)
    : Prop :=
  rm_node_id r = node_id /\ since <= rm_created_at r.

#[export] Instance recent_action_dec n s r : Decision (recent_action n s r).
Proof. unfold recent_action. apply _. Defined.

Definition dispatched_before (cutoff : datetime) (r : RemediationActionModel) : Prop :=
  rm_status r = DISPATCHED /\ rm_created_at r < cutoff.

#[export] Instance dispatched_before_dec c r : Decision (dispatched_before c r).
Proof. unfold dispatched_before. apply _. Defined.

(** The optional equality filter of the list queries. *)
Definition wanted {A} (w : option A) (x : A) : Prop :=
  match w with Some y => x = y | None => True end.

#[export] Instance wanted_dec {A} `{EqDecision A} (w : option A) x : Decision (wanted w x).
Proof. destruct w; simpl; apply _. Defined.

(** [o] is the greatest row of [t] satisfying [P] for the sort column [key], if any. *)
Definition is_latest {R} (t : gmap Z R) (P : R -> Prop) (key : R -> Z) (o : option R) : Prop :=
  match o with
  | None => forall k r, t !! k = Some r -> ~ P r
  | Some r => (exists k, t !! k = Some r) /\ P r /\
      forall k r', t !! k = Some r' -> P r' -> key r' <= key r
  end.

(** A bounded DELETE removed the rows [ids]: distinct qualifying rows, as many as there
    are but at most [batch_size]. *)
Definition pruned {R} (t : gmap Z R) (P : Z * R -> Prop) `{!forall x, Decision (P x)}
    (batch_size : Z) (ids : list Z) : Prop :=
  NoDup ids /\
  (forall id, id ∈ ids -> exists r, t !! id = Some r /\ P (id, r)) /\
  length ids = Nat.min (Z.to_nat batch_size) (length (filter P (map_to_list t))).

Definition without {R} (ids : list Z) (t : gmap Z R) : gmap Z R :=
  filter (fun kr : Z * R => kr.1 ∉ ids) t.

Lemma pruned_take {R} (t : gmap Z R) (P : Z * R -> Prop) `{!forall x, Decision (P x)}
    batch_size found :
  found ≡ₚ (filter P (map_to_list t)).*1 ->
  pruned t P batch_size (take (Z.to_nat batch_size) found).
Proof.
  intros Hf.
  assert (NoDup (filter P (map_to_list t)).*1) as Hnd.
  { eapply sublist_NoDup; [apply (NoDup_fst_map_to_list t)|].
    apply fmap_sublist, sublist_filter. }
  split; [|split].
  - eapply sublist_NoDup; [|apply sublist_take]. by rewrite Hf.
  - intros id Hid. eapply elem_of_sublist in Hid; [|apply sublist_take].
    rewrite Hf in Hid. apply list_elem_of_fmap in Hid as [[k r] [-> Hin]].
    apply list_elem_of_filter in Hin as [HP Hin]. apply elem_of_map_to_list in Hin. eauto.
  - rewrite length_take, Hf, length_fmap. done.
Qed.

Lemma lookup_without {R} ids (t : gmap Z R) k r :
  without ids t !! k = Some r <-> t !! k = Some r /\ k ∉ ids.
Proof. unfold without. by rewrite map_lookup_filter_Some. Qed.

Lemma latest_of_select {R} (t : gmap Z R) (P : R -> Prop) `{!forall x, Decision (P x)}
    (key : R -> Z) found :
  found ≡ₚ filter P (rows t) -> is_latest t P key (head (order_by_desc key found)).
Proof.
  intros Hf. destruct (head (order_by_desc key found)) as [r|] eqn:Eh; simpl.
  - apply order_by_desc_head in Eh as [Hin Hmax].
    rewrite Hf in Hin. apply list_elem_of_filter in Hin as [HP Hin].
    apply elem_of_rows in Hin. split; [done|]. split; [done|].
    intros k r' Hk HP'. apply Hmax. rewrite Hf. apply list_elem_of_filter.
    split; [done|]. apply elem_of_rows. eauto.
  - apply order_by_desc_none in Eh. subst. intros k r Hk HP.
    apply Permutation_nil_l in Hf.
    assert (r ∈ filter P (rows t)) as Hin.
    { apply list_elem_of_filter. split; [done|]. apply elem_of_rows. eauto. }
    rewrite <- Hf in Hin. by apply elem_of_nil in Hin.
Qed.

(** ** The protocols *)

Class NodeRepository `{Env} := {
  upsert_seen : string -> datetime -> M NodeRecord;
  node_get : string -> M (option NodeRecord);
  list_all : M (list NodeRecord);

  upsert_seen_writes : forall node_id seen_at,
    writes (upsert_seen node_id seen_at) foreign_keys (fun db rec db' =>
      let node := seen_node (nodes db !! node_id) node_id seen_at in
      rec = node_to_record node /\ db' = set_nodes (<[node_id := node]> (nodes db)) db);
  node_get_reads : forall node_id,
    reads (node_get node_id) (fun db o => o = node_to_record <$> nodes db !! node_id);
  list_all_reads :
    reads list_all (fun db l => l ≡ₚ (node_to_record <$> rows (nodes db)));
}.

Class MetricsRepository `{Env} := {
  bulk_insert : string -> list MetricSample -> datetime -> datetime -> M unit;
  find_previous_sample : string -> MetricType -> datetime -> float -> M (option MetricSampleRecord);
  prune_samples_before : datetime -> Z -> M Z;

  bulk_insert_writes : forall node_id samples collected_at received_at,
    writes (bulk_insert node_id samples collected_at received_at)
      (fun db => foreign_keys db /\ is_Some (nodes db !! node_id))
      (fun db _ db' => exists ids, length ids = length samples /\ NoDup ids /\
        (forall id, id ∈ ids -> metric_samples db !! id = None) /\
        db' = set_samples (list_to_map (new_samples node_id collected_at received_at ids samples)
                ∪ metric_samples db) db);
  (** Besides [PersistenceError], a window that is no timedelta, or a window start before
      year 1, raises what [timedelta] and [datetime] arithmetic raise. *)
  find_previous_sample_reads : forall node_id metric_type before window_seconds since d,
    timedelta_of_seconds window_seconds = inl d -> datetime_sub before d = inl since ->
    reads (find_previous_sample node_id metric_type before window_seconds) (fun db o =>
      exists r, is_latest (metric_samples db) (in_window node_id metric_type before since)
        mm_collected_at r /\ o = sample_to_record <$> r);
  find_previous_sample_time_error : forall node_id metric_type before window_seconds w e,
    (timedelta_of_seconds window_seconds = inr e \/
     exists d, timedelta_of_seconds window_seconds = inl d /\ datetime_sub before d = inr e) ->
    find_previous_sample node_id metric_type before window_seconds w = (of_time (inr e), w);
  prune_samples_before_writes : forall cutoff batch_size,
    writes (prune_samples_before cutoff batch_size) foreign_keys (fun db n db' =>
      exists ids, n = Z.of_nat (length ids) /\
        pruned (metric_samples db) (sample_prunable cutoff) batch_size ids /\
        db' = set_samples (without ids (metric_samples db)) db);
}.

(** A lifecycle update: the row of [alert_id] is replaced by [f] of it and returned. *)
Definition updates_alert `{Env} (m : M AlertRecord) (alert_id : Z) (f : AlertModel -> AlertModel)
    : Prop :=
  writes m (fun db => foreign_keys db /\ is_Some (alerts db !! alert_id))
    (fun db rec db' => exists a, alerts db !! alert_id = Some a /\
      rec = alert_to_record (f a) /\ db' = set_alerts (<[alert_id := f a]> (alerts db)) db).

Class AlertRepository `{Env} := {
  find_open_alert : string -> string -> M (option AlertRecord);
  create_alert : string -> string -> RuleKind -> Severity -> string -> float -> float ->
    datetime -> M AlertRecord;
  update_last_fired : Z -> float -> datetime -> M AlertRecord;
  resolve_alert : Z -> datetime -> M AlertRecord;
  acknowledge_alert : Z -> string -> datetime -> M AlertRecord;
  escalate_alert : Z -> datetime -> M AlertRecord;
  mark_remediated : Z -> datetime -> M AlertRecord;
  alert_get : Z -> M (option AlertRecord);
  list_alerts : option AlertStatus -> M (list AlertRecord);
  prune_resolved_before : datetime -> Z -> M Z;

  find_open_alert_reads : forall node_id rule_key,
    reads (find_open_alert node_id rule_key) (fun db o =>
      match o with
      | None => forall id a, alerts db !! id = Some a -> ~ is_open node_id rule_key a
      | Some rec => exists id a, alerts db !! id = Some a /\ is_open node_id rule_key a /\
          rec = alert_to_record a
      end);
  create_alert_writes : forall node_id rule_key kind sev desc value bound fired_at,
    writes (create_alert node_id rule_key kind sev desc value bound fired_at)
      (fun db => foreign_keys db /\ is_Some (nodes db !! node_id))
      (fun db rec db' => exists id, alerts db !! id = None /\
        let row := new_alert id node_id rule_key kind sev desc value bound fired_at in
        rec = alert_to_record row /\ db' = set_alerts (<[id := row]> (alerts db)) db /\
        foreign_keys db');
  update_last_fired_writes : forall id value fired_at,
    updates_alert (update_last_fired id value fired_at) id (advanced value fired_at);
  resolve_alert_writes : forall id at_,
    updates_alert (resolve_alert id at_) id (resolved at_);
  acknowledge_alert_writes : forall id by_ at_,
    updates_alert (acknowledge_alert id by_ at_) id (acknowledged by_ at_);
  escalate_alert_writes : forall id at_,
    updates_alert (escalate_alert id at_) id (escalated at_);
  mark_remediated_writes : forall id at_,
    updates_alert (mark_remediated id at_) id (remediated at_);
  alert_get_reads : forall id,
    reads (alert_get id) (fun db o => o = alert_to_record <$> alerts db !! id);
  list_alerts_reads : forall status,
    reads (list_alerts status) (fun db l => l ≡ₚ (alert_to_record <$>
      filter (fun a => wanted status (am_status a))
        (rows (alerts db))));
  prune_resolved_before_writes : forall cutoff batch_size,
    writes (prune_resolved_before cutoff batch_size) foreign_keys (fun db n db' =>
      exists ids, n = Z.of_nat (length ids) /\
        pruned (alerts db) (alert_prunable db cutoff) batch_size ids /\
        db' = set_alerts (without ids (alerts db)) db /\ foreign_keys db');
}.

Class RemediationActionRepository `{Env} := {
  create_action : string -> Z -> string -> string -> PlaybookActionType ->
    gmap string string -> RemediationActionStatus -> option string -> datetime ->
    M RemediationActionRecord;
  mark_result : Z -> RemediationActionStatus -> option string -> datetime ->
    M RemediationActionRecord;
  count_recent_actions : string -> datetime -> M Z;
  find_last_action : string -> string -> M (option RemediationActionRecord);
  action_get : Z -> M (option RemediationActionRecord);
  list_actions : option string -> M (list RemediationActionRecord);
  list_dispatched_before : datetime -> M (list RemediationActionRecord);
  prune_terminal_before : datetime -> Z -> M Z;

  create_action_writes : forall node_id alert_id rule_key playbook type_ params status reason at_,
    writes (create_action node_id alert_id rule_key playbook type_ params status reason at_)
      (fun db => foreign_keys db /\ is_Some (nodes db !! node_id) /\ is_Some (alerts db !! alert_id))
      (fun db rec db' => exists id, remediation_actions db !! id = None /\
        let row := new_action id node_id alert_id rule_key playbook type_ params status reason at_ in
        rec = action_to_record row /\
        db' = set_actions (<[id := row]> (remediation_actions db)) db /\ foreign_keys db');
  mark_result_writes : forall id status reason at_,
    writes (mark_result id status reason at_)
      (fun db => foreign_keys db /\ is_Some (remediation_actions db !! id))
      (fun db rec db' => exists r, remediation_actions db !! id = Some r /\
        rec = action_to_record (completed status reason at_ r) /\
        db' = set_actions (<[id := completed status reason at_ r]> (remediation_actions db)) db);
  count_recent_actions_reads : forall node_id since,
    reads (count_recent_actions node_id since) (fun db n =>
      n = Z.of_nat (length (filter (recent_action node_id since) (rows (remediation_actions db)))));
  find_last_action_reads : forall node_id playbook_name,
    reads (find_last_action node_id playbook_name) (fun db o =>
      exists r, is_latest (remediation_actions db) (of_playbook node_id playbook_name)
        rm_created_at r /\ o = action_to_record <$> r);
  action_get_reads : forall id,
    reads (action_get id) (fun db o => o = action_to_record <$> remediation_actions db !! id);
  list_actions_reads : forall node_id,
    reads (list_actions node_id) (fun db l => l ≡ₚ (action_to_record <$>
      filter (fun r => wanted node_id (rm_node_id r))
        (rows (remediation_actions db))));
  list_dispatched_before_reads : forall cutoff,
    reads (list_dispatched_before cutoff) (fun db l => l ≡ₚ (action_to_record <$>
      filter (dispatched_before cutoff) (rows (remediation_actions db))));
  prune_terminal_before_writes : forall cutoff batch_size,
    writes (prune_terminal_before cutoff batch_size) foreign_keys (fun db n db' =>
      exists ids, n = Z.of_nat (length ids) /\
        pruned (remediation_actions db) (action_prunable cutoff) batch_size ids /\
        db' = set_actions (without ids (remediation_actions db)) db);
}.
