(* ===== verification/Tables.v ===== *)
(** * Tables: counting rows, and the foreign keys under each change

    Shared by the SQLAlchemy repositories, which must show that their transactions keep
    every reference valid, and by the invariants of the lifecycle. *)

From S2P Require Import Prelude PyFloat PyTime Domain Schema Runtime Protocols.

Local Open Scope Z_scope.

(** ** Foreign keys *)

(** Registering a node keeps every reference valid. *)
Lemma foreign_keys_set_node node_id node db :
  foreign_keys db -> foreign_keys (set_nodes (<[node_id := node]> (nodes db)) db).
Proof.
  unfold foreign_keys, fk_alert, fk_action, fk_sample. simpl.
  assert (forall n, is_Some (nodes db !! n) -> is_Some (<[node_id := node]> (nodes db) !! n)) as Hgrow.
  { intros n Hn. rewrite lookup_insert_is_Some'. auto. }
  intros (Ha & Hr & Hs). split; [|split]; intros k x Hx.
  - apply Hgrow, (Ha _ _ Hx).
  - destruct (Hr _ _ Hx). auto.
  - apply Hgrow, (Hs _ _ Hx).
Qed.

(** Replacing an alert's row keeps the references when the node stays the same. *)
Lemma foreign_keys_set_alert id a db :
  foreign_keys db -> is_Some (nodes db !! am_node_id a) ->
  foreign_keys (set_alerts (<[id := a]> (alerts db)) db).
Proof.
  unfold foreign_keys, fk_alert, fk_action, fk_sample. simpl.
  intros (Ha & Hr & Hs) Hn. split; [|split; [|done]].
  - by apply map_Forall_insert_2.
  - intros k x Hx. destruct (Hr _ _ Hx). split; [done|].
    apply lookup_insert_is_Some'. by right.
Qed.

(** Deleting unreferenced alerts keeps every reference valid. *)
Lemma foreign_keys_without_alerts ids db :
  foreign_keys db -> (forall id, id ∈ ids -> ~ referenced db id) ->
  foreign_keys (set_alerts (without ids (alerts db)) db).
Proof.
  unfold foreign_keys, fk_alert, fk_action, fk_sample. simpl.
  intros (Ha & Hr & Hs) Hids. split; [|split; [|done]].
  - intros k x Hx. apply map_lookup_filter_Some in Hx as [Hx _]. apply (Ha _ _ Hx).
  - intros k x Hx. destruct (Hr _ _ Hx) as [Hn [a Ha']]. split; [done|]. exists a.
    apply map_lookup_filter_Some. split; [done|]. simpl. intros Hin.
    apply (Hids _ Hin). apply Exists_exists. exists x.
    split; [|done]. apply elem_of_rows. eauto.
Qed.

(** ** Contracts *)

Lemma foreign_keys_set_action id r db :
  foreign_keys db -> fk_action db r ->
  foreign_keys (set_actions (<[id := r]> (remediation_actions db)) db).
Proof.
  intros (Ha & Hr & Hs) Hn. split; [done|]. split; [|done].
  by apply map_Forall_insert_2.
Qed.

(** ** Contracts *)

Lemma foreign_keys_add_samples l db :
  foreign_keys db ->
  (forall kr, kr ∈ l -> fk_sample db kr.2) ->
  foreign_keys (set_samples (list_to_map l ∪ metric_samples db) db).
Proof.
  intros (Ha & Hr & Hs) Hl. split; [done|]. split; [done|].
  intros k r Hk. simpl in Hk. apply lookup_union_Some_raw in Hk as [Hk|[_ Hk]].
  - apply elem_of_list_to_map_2 in Hk. apply (Hl _ Hk).
  - apply (Hs _ _ Hk).
Qed.

Lemma elem_of_new_samples node_id c rcv ids samples kr :
  kr ∈ new_samples node_id c rcv ids samples -> mm_node_id kr.2 = node_id.
Proof.
  unfold new_samples. intros Hin.
  apply list_elem_of_lookup in Hin as [i Hi].
  apply lookup_zip_with_Some in Hi as (id & s & -> & _). done.
Qed.

(** Deleting rows nothing refers to. *)
Lemma foreign_keys_without_actions ids db :
  foreign_keys db -> foreign_keys (set_actions (without ids (remediation_actions db)) db).
Proof.
  intros (Ha & Hr & Hs). split; [done|]. split; [|done].
  intros k x [Hx _]%lookup_without. apply (Hr _ _ Hx).
Qed.

Lemma foreign_keys_without_samples ids db :
  foreign_keys db -> foreign_keys (set_samples (without ids (metric_samples db)) db).
Proof.
  intros (Ha & Hr & Hs). split; [done|]. split; [done|].
  intros k x [Hx _]%lookup_without. apply (Hs _ _ Hx).
Qed.

(** ** Counting the rows of a table *)

Definition count {R} (P : R -> Prop) `{!forall x, Decision (P x)} (t : gmap Z R) : nat :=
  length (filter P (rows t)).

Section count.
Context {R : Type} (P : R -> Prop) `{!forall x, Decision (P x)}.
Implicit Types t : gmap Z R.

Lemma rows_insert k r t : t !! k = None -> rows (<[k := r]> t) ≡ₚ (r :: rows t).
Proof. intros Hk. unfold rows. by rewrite map_to_list_insert. Qed.

Lemma count_empty : count P ∅ = 0%nat.
Proof. done. Qed.

Lemma count_insert k r t :
  t !! k = None -> count P (<[k := r]> t) = ((if bool_decide (P r) then 1 else 0) + count P t)%nat.
Proof.
  intros Hk. unfold count. rewrite rows_insert by done. rewrite filter_cons.
  case_decide; case_bool_decide; done.
Qed.

Lemma count_update k r r' t :
  t !! k = Some r -> (P r' <-> P r) -> count P (<[k := r']> t) = count P t.
Proof.
  intros Hk HP. rewrite <- (insert_delete_id t k r) at 2 by done.
  rewrite <- insert_delete_eq.
  rewrite !count_insert by apply lookup_delete_eq.
  do 2 case_bool_decide; tauto.
Qed.

Lemma count_without ids t : (count P (without ids t) <= count P t)%nat.
Proof.
  assert (rows (without ids t) ⊆+ rows t) as Hsub.
  { apply fmap_submseteq, map_to_list_submseteq, map_filter_subseteq. }
  destruct (submseteq_Permutation _ _ Hsub) as [k Hk].
  unfold count. rewrite Hk, filter_app, length_app. lia.
Qed.

End count.

Lemma count_mono {R} (P Q : R -> Prop) `{!forall x, Decision (P x), !forall x, Decision (Q x)}
    (t : gmap Z R) : (forall r, P r -> Q r) -> (count P t <= count Q t)%nat.
Proof.
  intros HPQ. unfold count. induction (rows t) as [|r l IH]; [done|].
  rewrite !filter_cons. repeat case_decide; simpl; try lia. exfalso. auto.
Qed.

(** The count as the size of a filtered table. *)
Lemma count_size {R} (P : R -> Prop) `{!forall x, Decision (P x)} (t : gmap Z R) :
  count P t = size (filter (fun kr => P kr.2) t).
Proof.
  induction t as [|k r t Hk IH] using map_ind; [done|].
  rewrite count_insert, IH by done. case_bool_decide as HP.
  - rewrite map_filter_insert_True by done. rewrite map_size_insert_None; [done|].
    apply map_lookup_filter_None. left. done.
  - rewrite map_filter_insert_False by done. by rewrite delete_id.
Qed.

(** A table whose counted rows were counted under the same keys. *)
Lemma count_dominated {R} (P : R -> Prop) `{!forall x, Decision (P x)} (t t' : gmap Z R) :
  (forall k r', t' !! k = Some r' -> P r' -> exists r, t !! k = Some r /\ P r) ->
  (count P t' <= count P t)%nat.
Proof.
  intros Hdom. rewrite !count_size, <- !size_dom. apply subseteq_size. intros k.
  rewrite !elem_of_dom. intros [r' [Hk HP]%map_lookup_filter_Some].
  destruct (Hdom k r' Hk HP) as (r & Hr & HPr). exists r. by apply map_lookup_filter_Some.
Qed.

(** ** Replacing rows *)

Lemma set_alerts_id db id a :
  alerts db !! id = Some a -> set_alerts (<[id := a]> (alerts db)) db = db.
Proof. intros Ha. unfold set_alerts. rewrite insert_id by done. by destruct db. Qed.

Lemma set_alerts_twice db id a a' :
  set_alerts (<[id := a']> (alerts (set_alerts (<[id := a]> (alerts db)) db)))
    (set_alerts (<[id := a]> (alerts db)) db) = set_alerts (<[id := a']> (alerts db)) db.
Proof. unfold set_alerts. simpl. by rewrite insert_insert_eq. Qed.
