(* ===== verification/SqlNodeRepository.v ===== *)
(** * SqlAlchemyNodeRepository ([collector/repositories/node_repository.py]) *)

From S2P Require Import Prelude PyFloat PyTime Domain Schema Runtime Protocols Tables.

Section sql_node_repository.
Context `{Env}.

(** [session.get(NodeModel, node_id)]. *)
Definition find_node (node_id : string) : M (option NodeModel) :=
  sql_get (fun db => nodes db !! node_id).

Definition sql_upsert_seen (node_id : string) (seen_at : datetime) : M NodeRecord :=
  persistence "failed to record node heartbeat"
    (found ← find_node node_id;
     let node := seen_node found node_id seen_at in
     _ ← sql_commit (fun db => set_nodes (<[node_id := node]> (nodes db)) db);
     mret (node_to_record node)).

Definition sql_node_get (node_id : string) : M (option NodeRecord) :=
  found ← persistence "failed to fetch node" (find_node node_id);
  mret (node_to_record <$> found).

Definition sql_list_all : M (list NodeRecord) :=
  found ← persistence "failed to list nodes" (sql_select (fun db => rows (nodes db)));
  mret (node_to_record <$> found).

Lemma sql_upsert_seen_writes node_id seen_at :
  writes (sql_upsert_seen node_id seen_at) foreign_keys (fun db rec db' =>
    let node := seen_node (nodes db !! node_id) node_id seen_at in
    rec = node_to_record node /\ db' = set_nodes (<[node_id := node]> (nodes db)) db).
Proof.
  intros w. unfold sql_upsert_seen, find_node. apply wp_persistence_bind.
  eapply wp_mono; [apply get_row_reads|].
  intros [found|e] w1 [[Hdb Hp1] Hr]; [|destruct Hr; repeat split; try done; by intros []].
  apply wp_persistence_bind. eapply wp_mono; [apply commit_writes|]. subst found.
  intros [[]|e] w2 [Hp2 Hr2]; unfold wp; simpl; rewrite Hdb in Hr2;
    (split; [by rewrite Hp2|]).
  - by destruct Hr2 as [-> _].
  - destruct Hr2 as (He & -> & Hn). repeat split; try done.
    intros [Hh Hfk]. apply Hn. split; [done|]. by apply foreign_keys_set_node.
Qed.

Lemma sql_node_get_reads node_id :
  reads (sql_node_get node_id) (fun db o => o = node_to_record <$> nodes db !! node_id).
Proof. eapply reads_map; [apply get_row_reads|]. by intros db o ->. Qed.

Lemma sql_list_all_reads :
  reads sql_list_all (fun db l => l ≡ₚ (node_to_record <$> rows (nodes db))).
Proof. eapply reads_map; [apply select_reads|]. simpl. by intros db o ->. Qed.

#[export] Instance SqlAlchemyNodeRepository : NodeRepository := {|
  upsert_seen := sql_upsert_seen;
  node_get := sql_node_get;
  list_all := sql_list_all;
  upsert_seen_writes := sql_upsert_seen_writes;
  node_get_reads := sql_node_get_reads;
  list_all_reads := sql_list_all_reads;
|}.

End sql_node_repository.

#[export] Hint Resolve foreign_keys_set_node : pulse.
