(* ===== verification/SqlAlertRepository.v ===== *)
(** * SqlAlchemyAlertRepository ([collector/repositories/alert_repository.py]) *)

From S2P Require Import Prelude PyFloat PyTime Domain Schema Runtime Protocols Tables.

Local Open Scope Z_scope.

Section sql_alert_repository.
Context `{Env}.

Definition sql_find_open_alert (node_id rule_key : string) : M (option AlertRecord) :=
  found ← persistence "failed to look up open alert"
    (sql_select (fun db => filter (is_open node_id rule_key) (rows (alerts db))));
  mret (alert_to_record <$> head found).

Definition sql_create_alert (node_id rule_key : string) (rule_kind : RuleKind)
    (severity : Severity) (description : string) (triggering_value bound : float)
    (fired_at : datetime) : M AlertRecord :=
  let row id := new_alert id node_id rule_key rule_kind severity description
                  triggering_value bound fired_at in
  id ← persistence "failed to create alert"
    (sql_insert (fun db => dom (alerts db))
       (fun id db => set_alerts (<[id := row id]> (alerts db)) db));
  mret (alert_to_record (row id)).

(** [_get_or_raise]. *)
Definition get_or_raise (alert_id : Z) (error_message : string) : M AlertModel :=
  found ← persistence error_message (sql_get (fun db => alerts db !! alert_id));
  match found with
  | None => raise (PersistenceError (error_message ++ ": alert not found"))
  | Some row => mret row
  end.

(** [_commit_and_return]: the mutated row [row] is written back under its key. *)
Definition commit_and_return (row : AlertModel) (alert_id : Z) (error_message : string)
    : M AlertRecord :=
  _ ← persistence error_message
    (sql_commit (fun db => set_alerts (<[alert_id := row]> (alerts db)) db));
  mret (alert_to_record row).

Definition sql_update_last_fired (alert_id : Z) (triggering_value : float)
    (fired_at : datetime) : M AlertRecord :=
  row ← get_or_raise alert_id "failed to advance alert";
  commit_and_return (advanced triggering_value fired_at row) alert_id "failed to advance alert".

Definition sql_resolve_alert (alert_id : Z) (resolved_at : datetime) : M AlertRecord :=
  row ← get_or_raise alert_id "failed to resolve alert";
  commit_and_return (resolved resolved_at row) alert_id "failed to resolve alert".

Definition sql_acknowledge_alert (alert_id : Z) (acknowledged_by : string)
    (acknowledged_at : datetime) : M AlertRecord :=
  row ← get_or_raise alert_id "failed to acknowledge alert";
  commit_and_return (acknowledged acknowledged_by acknowledged_at row) alert_id
    "failed to acknowledge alert".

Definition sql_escalate_alert (alert_id : Z) (escalated_at : datetime) : M AlertRecord :=
  row ← get_or_raise alert_id "failed to escalate alert";
  commit_and_return (escalated escalated_at row) alert_id "failed to escalate alert".

Definition sql_mark_remediated (alert_id : Z) (remediated_at : datetime) : M AlertRecord :=
  row ← get_or_raise alert_id "failed to mark alert remediated";
  commit_and_return (remediated remediated_at row) alert_id "failed to mark alert remediated".

Definition sql_alert_get (alert_id : Z) : M (option AlertRecord) :=
  found ← persistence "failed to fetch alert" (sql_get (fun db => alerts db !! alert_id));
  mret (alert_to_record <$> found).

Definition sql_list_alerts (status : option AlertStatus) : M (list AlertRecord) :=
  found ← persistence "failed to list alerts"
    (sql_select (fun db => filter (fun a => wanted status (am_status a)) (rows (alerts db))));
  mret (alert_to_record <$> found).

Definition sql_prune_resolved_before (cutoff : datetime) (batch_size : Z) : M Z :=
  persistence "failed to prune resolved alerts"
    (sql_delete_limit
       (fun db => (filter (alert_prunable db cutoff) (map_to_list (alerts db))).*1) batch_size
       (fun ids db => set_alerts (without ids (alerts db)) db)).

(** ** Contracts *)

Lemma sql_find_open_alert_reads node_id rule_key :
  reads (sql_find_open_alert node_id rule_key) (fun db o =>
    match o with
    | None => forall id a, alerts db !! id = Some a -> ~ is_open node_id rule_key a
    | Some rec => exists id a, alerts db !! id = Some a /\ is_open node_id rule_key a /\
        rec = alert_to_record a
    end).
Proof.
  eapply reads_map; [apply select_reads|]. simpl. intros db l Hl.
  destruct (head l) as [a|] eqn:Eh; simpl.
  - pose proof (head_perm_some _ _ _ Hl Eh) as Hin.
    apply list_elem_of_filter in Hin as [Hop Hin].
    apply elem_of_rows in Hin as [id Hid]. eauto.
  - intros id a Ha Hop. pose proof (head_perm_none _ _ Hl Eh) as Hnil.
    assert (a ∈ filter (is_open node_id rule_key) (rows (alerts db))) as Hin.
    { apply list_elem_of_filter. split; [done|]. apply elem_of_rows. eauto. }
    rewrite Hnil in Hin. by apply elem_of_nil in Hin.
Qed.

Lemma sql_create_alert_writes node_id rule_key kind sev desc value bound fired_at :
  writes (sql_create_alert node_id rule_key kind sev desc value bound fired_at)
    (fun db => foreign_keys db /\ is_Some (nodes db !! node_id))
    (fun db rec db' => exists id, alerts db !! id = None /\
      let row := new_alert id node_id rule_key kind sev desc value bound fired_at in
      rec = alert_to_record row /\ db' = set_alerts (<[id := row]> (alerts db)) db /\
      foreign_keys db').
Proof.
  intros w. unfold sql_create_alert. wp_step @insert_writes.
  intros [id|e] w' [Hp Hr].
  - apply wp_ret. split; [done|]. destruct Hr as (Hid & -> & Hfk).
    exists id. split; [by apply not_elem_of_dom|done].
  - split; [done|]. destruct Hr as (He & Hdb & Hn). repeat split; try done.
    intros (Hh & Hfk & Hnode). apply Hn. split; [done|]. intros id _.
    by apply foreign_keys_set_alert.
Qed.

(** The common shape of the five lifecycle updates. *)
Lemma update_writes (f : AlertModel -> AlertModel) alert_id msg :
  (forall a, am_node_id (f a) = am_node_id a) ->
  updates_alert (row ← get_or_raise alert_id msg; commit_and_return (f row) alert_id msg)
    alert_id f.
Proof.
  intros Hf w. unfold get_or_raise, commit_and_return. apply wp_bind.
  wp_step @get_row_reads.
  intros [[row|]|e] w1 [[Hdb Hp1] Hr].
  - apply wp_ret. wp_step @commit_writes.
    intros [[]|e] w2 [Hp2 Hr2]; [apply wp_ret|]; (split; [congruence|]); rewrite Hdb in Hr2.
    + exists row. destruct Hr2 as [-> _]. done.
    + destruct Hr2 as (He & -> & Hn). repeat split; try done.
      intros (Hh & Hfk & _). apply Hn. split; [done|].
      apply foreign_keys_set_alert; [done|]. rewrite Hf. by apply (proj1 Hfk alert_id).
  - apply wp_raise. split; [done|]. repeat split; [by eexists|done|].
    intros (_ & _ & [a Ha]). congruence.
  - destruct Hr. repeat split; try done. by intros [].
Qed.

Lemma sql_alert_get_reads id :
  reads (sql_alert_get id) (fun db o => o = alert_to_record <$> alerts db !! id).
Proof. eapply reads_map; [apply get_row_reads|]. by intros db o ->. Qed.

Lemma sql_list_alerts_reads status :
  reads (sql_list_alerts status) (fun db l => l ≡ₚ (alert_to_record <$>
    filter (fun a => wanted status (am_status a)) (rows (alerts db)))).
Proof. eapply reads_map; [apply select_reads|]. simpl. by intros db o ->. Qed.

Lemma sql_prune_resolved_before_writes cutoff batch_size :
  writes (sql_prune_resolved_before cutoff batch_size) foreign_keys (fun db n db' =>
    exists ids, n = Z.of_nat (length ids) /\
      pruned (alerts db) (alert_prunable db cutoff) batch_size ids /\
      db' = set_alerts (without ids (alerts db)) db /\ foreign_keys db').
Proof.
  eapply writes_mono; [apply delete_limit_writes| |].
  - simpl. intros db Hfk ids Hids. apply foreign_keys_without_alerts; [done|].
    intros id Hid. apply Hids in Hid. apply list_elem_of_fmap in Hid as [[k r] [-> Hin]].
    apply list_elem_of_filter in Hin as [(_ & _ & Hnr) _]. done.
  - simpl. intros db n db' (found & Hf & -> & -> & Hfk).
    exists (take (Z.to_nat batch_size) found).
    split; [done|]. split; [by apply pruned_take|]. done.
Qed.

#[export] Instance SqlAlchemyAlertRepository : AlertRepository := {|
  find_open_alert := sql_find_open_alert;
  create_alert := sql_create_alert;
  update_last_fired := sql_update_last_fired;
  resolve_alert := sql_resolve_alert;
  acknowledge_alert := sql_acknowledge_alert;
  escalate_alert := sql_escalate_alert;
  mark_remediated := sql_mark_remediated;
  alert_get := sql_alert_get;
  list_alerts := sql_list_alerts;
  prune_resolved_before := sql_prune_resolved_before;
  find_open_alert_reads := sql_find_open_alert_reads;
  create_alert_writes := sql_create_alert_writes;
  update_last_fired_writes id v t :=
    update_writes (advanced v t) id "failed to advance alert" (fun _ => eq_refl);
  resolve_alert_writes id t :=
    update_writes (resolved t) id "failed to resolve alert" (fun _ => eq_refl);
  acknowledge_alert_writes id b t :=
    update_writes (acknowledged b t) id "failed to acknowledge alert" (fun _ => eq_refl);
  escalate_alert_writes id t :=
    update_writes (escalated t) id "failed to escalate alert" (fun _ => eq_refl);
  mark_remediated_writes id t :=
    update_writes (remediated t) id "failed to mark alert remediated" (fun _ => eq_refl);
  alert_get_reads := sql_alert_get_reads;
  list_alerts_reads := sql_list_alerts_reads;
  prune_resolved_before_writes := sql_prune_resolved_before_writes;
|}.

End sql_alert_repository.

