(* ===== verification/SqlMetricsRepository.v ===== *)
(** * SqlAlchemyMetricsRepository ([collector/repositories/metrics_repository.py]) *)

From S2P Require Import Prelude PyFloat PyTime Domain Schema Runtime Protocols Tables.

Local Open Scope Z_scope.

Section sql_metrics_repository.
Context `{Env}.

(** [session.add_all(rows); session.commit()]. *)
Definition sql_bulk_insert (node_id : string) (samples : list MetricSample)
    (collected_at received_at : datetime) : M unit :=
  persistence "failed to persist metric samples"
    (sql_insert_many (length samples) (fun db => dom (metric_samples db))
       (fun ids db => set_samples
          (list_to_map (new_samples node_id collected_at received_at ids samples)
           ∪ metric_samples db) db)).

Definition sql_find_previous_sample (node_id : string) (metric_type : MetricType)
    (before : datetime) (window_seconds : float) : M (option MetricSampleRecord) :=
  window ← lift (of_time (timedelta_of_seconds window_seconds));
  since ← lift (of_time (datetime_sub before window));
  found ← persistence "failed to query previous metric sample"
    (sql_select (fun db =>
       filter (in_window node_id metric_type before since) (rows (metric_samples db))));
  mret (sample_to_record <$> head (order_by_desc mm_collected_at found)).

Definition sql_prune_samples_before (cutoff : datetime) (batch_size : Z) : M Z :=
  persistence "failed to prune metric samples"
    (sql_delete_limit
       (fun db => (filter (sample_prunable cutoff) (map_to_list (metric_samples db))).*1)
       batch_size
       (fun ids db => set_samples (without ids (metric_samples db)) db)).

Lemma sql_bulk_insert_writes node_id samples collected_at received_at :
  writes (sql_bulk_insert node_id samples collected_at received_at)
    (fun db => foreign_keys db /\ is_Some (nodes db !! node_id))
    (fun db _ db' => exists ids, length ids = length samples /\ NoDup ids /\
      (forall id, id ∈ ids -> metric_samples db !! id = None) /\
      db' = set_samples (list_to_map (new_samples node_id collected_at received_at ids samples)
              ∪ metric_samples db) db).
Proof.
  eapply writes_mono; [apply insert_many_writes| |].
  - simpl. intros db [Hfk Hnode] ids _. apply foreign_keys_add_samples; [done|].
    intros kr Hin. unfold fk_sample. by rewrite (elem_of_new_samples _ _ _ _ _ _ Hin).
  - simpl. intros db _ db' (ids & Hl & Hnd & Hf & -> & _). exists ids.
    split; [done|]. split; [done|]. split; [|done].
    intros id Hid. by apply not_elem_of_dom, Hf.
Qed.

Lemma sql_find_previous_sample_reads node_id metric_type before window_seconds since d :
  timedelta_of_seconds window_seconds = inl d -> datetime_sub before d = inl since ->
  reads (sql_find_previous_sample node_id metric_type before window_seconds) (fun db o =>
    exists r, is_latest (metric_samples db) (in_window node_id metric_type before since)
      mm_collected_at r /\ o = sample_to_record <$> r).
Proof.
  intros Hd Hs. unfold sql_find_previous_sample.
  rewrite Hd. simpl of_time. rewrite lift_ok_bind.
  rewrite Hs. simpl of_time. rewrite lift_ok_bind.
  eapply reads_map; [apply select_reads|].
  intros db l Hl. eexists. split; [eapply latest_of_select, Hl|done].
Qed.

Lemma sql_find_previous_sample_time_error node_id metric_type before window_seconds w e :
  (timedelta_of_seconds window_seconds = inr e \/
   exists d, timedelta_of_seconds window_seconds = inl d /\ datetime_sub before d = inr e) ->
  sql_find_previous_sample node_id metric_type before window_seconds w = (of_time (inr e), w).
Proof.
  unfold sql_find_previous_sample, mbind, M_bind, lift.
  intros [->|(d & -> & Hs)]; [by destruct e|]. simpl. rewrite Hs. by destruct e.
Qed.

Lemma sql_prune_samples_before_writes cutoff batch_size :
  writes (sql_prune_samples_before cutoff batch_size) foreign_keys (fun db n db' =>
    exists ids, n = Z.of_nat (length ids) /\
      pruned (metric_samples db) (sample_prunable cutoff) batch_size ids /\
      db' = set_samples (without ids (metric_samples db)) db).
Proof.
  eapply writes_mono; [apply delete_limit_writes| |].
  - simpl. intros db (Ha & Hr & Hs) ids _. split; [done|]. split; [done|].
    intros k r [Hk _]%lookup_without. apply (Hs _ _ Hk).
  - simpl. intros db n db' (found & Hf & -> & -> & _).
    exists (take (Z.to_nat batch_size) found).
    split; [done|]. split; [by apply pruned_take|done].
Qed.

#[export] Instance SqlAlchemyMetricsRepository : MetricsRepository := {|
  bulk_insert := sql_bulk_insert;
  find_previous_sample := sql_find_previous_sample;
  prune_samples_before := sql_prune_samples_before;
  bulk_insert_writes := sql_bulk_insert_writes;
  find_previous_sample_reads := sql_find_previous_sample_reads;
  find_previous_sample_time_error := sql_find_previous_sample_time_error;
  prune_samples_before_writes := sql_prune_samples_before_writes;
|}.

End sql_metrics_repository.
