(* ===== verification/SqlActionRepository.v ===== *)
(** * SqlAlchemyRemediationActionRepository
    ([collector/repositories/remediation_repository.py]) *)

From S2P Require Import Prelude PyFloat PyTime Domain Schema Runtime Protocols Tables.

Local Open Scope Z_scope.

Section sql_action_repository.
Context `{Env}.

Definition sql_create_action (node_id : string) (alert_id : Z) (rule_key playbook_name : string)
    (action_type : PlaybookActionType) (parameters : gmap string string)
    (status : RemediationActionStatus) (reason : option string) (created_at : datetime)
    : M RemediationActionRecord :=
  let row id := new_action id node_id alert_id rule_key playbook_name action_type parameters
                  status reason created_at in
  id ← persistence "failed to create remediation action"
    (sql_insert (fun db => dom (remediation_actions db))
       (fun id db => set_actions (<[id := row id]> (remediation_actions db)) db));
  mret (action_to_record (row id)).

(** [_get_or_raise]. *)
Definition get_action_or_raise (action_id : Z) (error_message : string)
    : M RemediationActionModel :=
  found ← persistence error_message (sql_get (fun db => remediation_actions db !! action_id));
  match found with
  | None => raise (PersistenceError (error_message ++ ": action not found"))
  | Some row => mret row
  end.

Definition sql_mark_result (action_id : Z) (status : RemediationActionStatus)
    (reason : option string) (completed_at : datetime) : M RemediationActionRecord :=
  row ← get_action_or_raise action_id "failed to mark remediation action result";
  let row' := completed status reason completed_at row in
  _ ← persistence "failed to mark remediation action result"
    (sql_commit (fun db => set_actions (<[action_id := row']> (remediation_actions db)) db));
  mret (action_to_record row').

Definition sql_count_recent_actions (node_id : string) (since : datetime) : M Z :=
  found ← persistence "failed to count recent remediation actions"
    (sql_select (fun db => filter (recent_action node_id since) (rows (remediation_actions db))));
  mret (Z.of_nat (length found)).

Definition sql_find_last_action (node_id playbook_name : string)
    : M (option RemediationActionRecord) :=
  found ← persistence "failed to look up last remediation action"
    (sql_select (fun db =>
       filter (of_playbook node_id playbook_name) (rows (remediation_actions db))));
  mret (action_to_record <$> head (order_by_desc rm_created_at found)).

Definition sql_action_get (action_id : Z) : M (option RemediationActionRecord) :=
  found ← persistence "failed to fetch remediation action"
    (sql_get (fun db => remediation_actions db !! action_id));
  mret (action_to_record <$> found).

Definition sql_list_actions (node_id : option string) : M (list RemediationActionRecord) :=
  found ← persistence "failed to list remediation actions"
    (sql_select (fun db =>
       filter (fun r => wanted node_id (rm_node_id r)) (rows (remediation_actions db))));
  mret (action_to_record <$> found).

Definition sql_list_dispatched_before (cutoff : datetime) : M (list RemediationActionRecord) :=
  found ← persistence "failed to list stale dispatched remediation actions"
    (sql_select (fun db => filter (dispatched_before cutoff) (rows (remediation_actions db))));
  mret (action_to_record <$> found).

Definition sql_prune_terminal_before (cutoff : datetime) (batch_size : Z) : M Z :=
  persistence "failed to prune remediation actions"
    (sql_delete_limit
       (fun db => (filter (action_prunable cutoff) (map_to_list (remediation_actions db))).*1)
       batch_size
       (fun ids db => set_actions (without ids (remediation_actions db)) db)).

Lemma sql_create_action_writes node_id alert_id rule_key playbook type_ params status reason at_ :
  writes (sql_create_action node_id alert_id rule_key playbook type_ params status reason at_)
    (fun db => foreign_keys db /\ is_Some (nodes db !! node_id) /\ is_Some (alerts db !! alert_id))
    (fun db rec db' => exists id, remediation_actions db !! id = None /\
      let row := new_action id node_id alert_id rule_key playbook type_ params status reason at_ in
      rec = action_to_record row /\
      db' = set_actions (<[id := row]> (remediation_actions db)) db /\ foreign_keys db').
Proof.
  intros w. unfold sql_create_action. wp_step @insert_writes.
  intros [id|e] w' [Hp Hr].
  - apply wp_ret. split; [done|]. destruct Hr as (Hid & -> & Hfk).
    exists id. split; [by apply not_elem_of_dom|done].
  - split; [done|]. destruct Hr as (He & Hdb & Hn). repeat split; try done.
    intros (Hh & Hfk & Hnode & Halert). apply Hn. split; [done|]. intros id _.
    by apply foreign_keys_set_action.
Qed.

Lemma sql_mark_result_writes id status reason at_ :
  writes (sql_mark_result id status reason at_)
    (fun db => foreign_keys db /\ is_Some (remediation_actions db !! id))
    (fun db rec db' => exists r, remediation_actions db !! id = Some r /\
      rec = action_to_record (completed status reason at_ r) /\
      db' = set_actions (<[id := completed status reason at_ r]> (remediation_actions db)) db).
Proof.
  intros w. unfold sql_mark_result, get_action_or_raise. apply wp_bind.
  wp_step @get_row_reads.
  intros [[row|]|e] w1 [[Hdb Hp1] Hr].
  - apply wp_ret. wp_step @commit_writes.
    intros [[]|e] w2 [Hp2 Hr2]; [apply wp_ret|]; (split; [congruence|]); rewrite Hdb in Hr2.
    + exists row. destruct Hr2 as [-> _]. done.
    + destruct Hr2 as (He & -> & Hn). repeat split; try done.
      intros (Hh & Hfk & _). apply Hn. split; [done|].
      apply foreign_keys_set_action; [done|]. exact (proj1 (proj2 Hfk) id row (eq_sym Hr)).
  - apply wp_raise. split; [done|]. repeat split; [by eexists|done|].
    intros (_ & _ & [a Ha]). congruence.
  - destruct Hr. repeat split; try done. by intros [].
Qed.

Lemma sql_count_recent_actions_reads node_id since :
  reads (sql_count_recent_actions node_id since) (fun db n =>
    n = Z.of_nat (length (filter (recent_action node_id since) (rows (remediation_actions db))))).
Proof. eapply reads_map; [apply select_reads|]. simpl. by intros db l ->. Qed.

Lemma sql_find_last_action_reads node_id playbook_name :
  reads (sql_find_last_action node_id playbook_name) (fun db o =>
    exists r, is_latest (remediation_actions db) (of_playbook node_id playbook_name)
      rm_created_at r /\ o = action_to_record <$> r).
Proof.
  eapply reads_map; [apply select_reads|].
  intros db l Hl. eexists. split; [eapply latest_of_select, Hl|done].
Qed.

Lemma sql_action_get_reads id :
  reads (sql_action_get id) (fun db o => o = action_to_record <$> remediation_actions db !! id).
Proof. eapply reads_map; [apply get_row_reads|]. by intros db o ->. Qed.

Lemma sql_list_actions_reads node_id :
  reads (sql_list_actions node_id) (fun db l => l ≡ₚ (action_to_record <$>
    filter (fun r => wanted node_id (rm_node_id r)) (rows (remediation_actions db)))).
Proof. eapply reads_map; [apply select_reads|]. simpl. by intros db l ->. Qed.

Lemma sql_list_dispatched_before_reads cutoff :
  reads (sql_list_dispatched_before cutoff) (fun db l => l ≡ₚ (action_to_record <$>
    filter (dispatched_before cutoff) (rows (remediation_actions db)))).
Proof. eapply reads_map; [apply select_reads|]. simpl. by intros db l ->. Qed.

Lemma sql_prune_terminal_before_writes cutoff batch_size :
  writes (sql_prune_terminal_before cutoff batch_size) foreign_keys (fun db n db' =>
    exists ids, n = Z.of_nat (length ids) /\
      pruned (remediation_actions db) (action_prunable cutoff) batch_size ids /\
      db' = set_actions (without ids (remediation_actions db)) db).
Proof.
  eapply writes_mono; [apply delete_limit_writes| |].
  - simpl. intros db (Ha & Hr & Hs) ids _. split; [done|]. split; [|done].
    intros k r [Hk _]%lookup_without. apply (Hr _ _ Hk).
  - simpl. intros db n db' (found & Hf & -> & -> & _).
    exists (take (Z.to_nat batch_size) found).
    split; [done|]. split; [by apply pruned_take|done].
Qed.

#[export] Instance SqlAlchemyRemediationActionRepository : RemediationActionRepository := {|
  create_action := sql_create_action;
  mark_result := sql_mark_result;
  count_recent_actions := sql_count_recent_actions;
  find_last_action := sql_find_last_action;
  action_get := sql_action_get;
  list_actions := sql_list_actions;
  list_dispatched_before := sql_list_dispatched_before;
  prune_terminal_before := sql_prune_terminal_before;
  create_action_writes := sql_create_action_writes;
  mark_result_writes := sql_mark_result_writes;
  count_recent_actions_reads := sql_count_recent_actions_reads;
  find_last_action_reads := sql_find_last_action_reads;
  action_get_reads := sql_action_get_reads;
  list_actions_reads := sql_list_actions_reads;
  list_dispatched_before_reads := sql_list_dispatched_before_reads;
  prune_terminal_before_writes := sql_prune_terminal_before_writes;
|}.

End sql_action_repository.
