(* ===== verification/Rules.v ===== *)
(** * Rules and the rule engine
    ([collector/rules/definitions.py], [collector/rules/engine.py])

    The configuration's models and validator, and [RuleEngine.evaluate], which turns a
    payload's samples into evaluation results against the configured rules.  The engine
    reaches the database only through the [MetricsRepository] interface. *)

From Stdlib Require Import SpecFloat.
From S2P Require Import Prelude PyFloat PyTime PyStr Domain Schema Runtime Protocols.

Local Open Scope Z_scope.

(** ** Definitions *)

Inductive ComparisonOperator :=
| GREATER_THAN
| GREATER_THAN_OR_EQUAL
| LESS_THAN
| LESS_THAN_OR_EQUAL.

Definition _COMPARISON_FUNCS (operator : ComparisonOperator) : float -> float -> bool :=
  match operator with
  | GREATER_THAN => fgt
  | GREATER_THAN_OR_EQUAL => fge
  | LESS_THAN => flt
  | LESS_THAN_OR_EQUAL => fle
  end.

Definition evaluate_comparison (operator : ComparisonOperator) (value bound : float) : bool :=
  _COMPARISON_FUNCS operator value bound.

Record ThresholdRuleDefinition := {
  tr_metric_type : MetricType;
  tr_comparison : ComparisonOperator;
  tr_threshold : float;
  tr_severity : Severity;
  tr_description : string;
}.

Record RateOfChangeRuleDefinition := {
  rc_metric_type : MetricType;
  rc_comparison : ComparisonOperator;
  rc_max_delta : float;
  rc_window_seconds : float;
  rc_severity : Severity;
  rc_description : string;
}.

Record RulesConfig := {
  threshold_rules : list ThresholdRuleDefinition;
  rate_of_change_rules : list RateOfChangeRuleDefinition;
}.

(** [repr] of a member of a [(str, Enum)] class: [<Class.NAME: 'value'>]. *)
Definition MetricType_repr (m : MetricType) : string :=
  "<MetricType." ++ MetricType_name m ++ ": " ++ repr (MetricType_value m) ++ ">".

(** [_assert_unique_metric_types]: the loop over [rules] with its [seen] set. *)
Fixpoint assert_unique_from (seen : gset MetricType) (metric_types : list MetricType)
    (field_name : string) : Res unit :=
  match metric_types with
  | [] => Ok tt
  | m :: rest =>
      if decide (m ∈ seen)
      then Raise (ValueError ("duplicate rule for metric_type=" ++ MetricType_repr m ++
                              " in " ++ field_name))
      else assert_unique_from ({[m]} ∪ seen) rest field_name
  end.

Definition _assert_unique_metric_types (metric_types : list MetricType) (field_name : string)
    : Res unit :=
  assert_unique_from ∅ metric_types field_name.

(** [_no_duplicate_metric_types_per_kind]. *)
Definition validate_rules (c : RulesConfig) : Res RulesConfig :=
  match _assert_unique_metric_types (tr_metric_type <$> threshold_rules c) "threshold_rules" with
  | Raise e => Raise e
  | Ok _ =>
      match _assert_unique_metric_types (rc_metric_type <$> rate_of_change_rules c)
              "rate_of_change_rules" with
      | Raise e => Raise e
      | Ok _ => Ok c
      end
  end.

(** ** The engine *)

Record RuleEvaluationResult := {
  rule_key : string;
  rule_kind : RuleKind;
  severity : Severity;
  description : string;
  breached : bool;
  value : float;
  bound : float;
}.

(** [f"{kind.value}:{metric_type.value}"]. *)
Definition rule_key_of (kind : RuleKind) (metric_type : MetricType) : string :=
  RuleKind_value kind ++ ":" ++ MetricType_value metric_type.

(** [{r.metric_type: r for r in rules}]: a later rule overwrites an earlier one. *)
Definition by_metric {R} (metric_type : R -> MetricType) (rules : list R) : gmap MetricType R :=
  foldl (fun m r => <[metric_type r := r]> m) ∅ rules.

Record RuleEngine := {
  re_threshold_rules : gmap MetricType ThresholdRuleDefinition;
  re_rate_of_change_rules : gmap MetricType RateOfChangeRuleDefinition;
}.

Definition RuleEngine_init (rules_config : RulesConfig) : RuleEngine :=
  {| re_threshold_rules := by_metric tr_metric_type (threshold_rules rules_config);
     re_rate_of_change_rules := by_metric rc_metric_type (rate_of_change_rules rules_config) |}.

Definition _evaluate_threshold (rule : ThresholdRuleDefinition) (sample : MetricSample)
    : RuleEvaluationResult :=
  {| rule_key := rule_key_of THRESHOLD (tr_metric_type rule);
     rule_kind := THRESHOLD;
     severity := tr_severity rule;
     description := tr_description rule;
     breached := evaluate_comparison (tr_comparison rule) (ms_value sample) (tr_threshold rule);
     value := ms_value sample;
     bound := tr_threshold rule |}.

(** The result once the previous sample is known. *)
Definition rate_result (rule : RateOfChangeRuleDefinition) (sample : MetricSample)
    (previous : MetricSampleRecord) : RuleEvaluationResult :=
  let delta := fsub (ms_value sample) (mr_value previous) in
  {| rule_key := rule_key_of RATE_OF_CHANGE (rc_metric_type rule);
     rule_kind := RATE_OF_CHANGE;
     severity := rc_severity rule;
     description := rc_description rule;
     breached := evaluate_comparison (rc_comparison rule) delta (rc_max_delta rule);
     value := delta;
     bound := rc_max_delta rule |}.

Section rule_engine.
Context `{MetricsRepository}.

Definition _evaluate_rate_of_change (node_id : string) (rule : RateOfChangeRuleDefinition)
    (sample : MetricSample) (collected_at : datetime) : M (option RuleEvaluationResult) :=
  previous ← find_previous_sample node_id (ms_metric_type sample) collected_at
               (rc_window_seconds rule);
  mret (rate_result rule sample <$> previous).

(** One iteration of the loop of [evaluate]. *)
Definition evaluate_sample (e : RuleEngine) (node_id : string) (collected_at : datetime)
    (results : list RuleEvaluationResult) (sample : MetricSample)
    : M (list RuleEvaluationResult) :=
  let results :=
    match re_threshold_rules e !! ms_metric_type sample with
    | Some rule => results ++ [_evaluate_threshold rule sample]
    | None => results
    end in
  match re_rate_of_change_rules e !! ms_metric_type sample with
  | None => mret results
  | Some rule =>
      rate_result ← _evaluate_rate_of_change node_id rule sample collected_at;
      mret (results ++ option_list rate_result)
  end.

Definition evaluate (e : RuleEngine) (node_id : string) (samples : list MetricSample)
    (collected_at : datetime) : M (list RuleEvaluationResult) :=
  m_fold (evaluate_sample e node_id collected_at) [] samples.

End rule_engine.

(** ** The validator accepts exactly the configurations without duplicates *)

Lemma assert_unique_from_spec seen l field :
  match assert_unique_from seen l field with
  | Ok _ => NoDup l /\ forall m, m ∈ l -> m ∉ seen
  | Raise e => (exists msg, e = ValueError msg) /\ ~ (NoDup l /\ forall m, m ∈ l -> m ∉ seen)
  end.
Proof.
  revert seen. induction l as [|m l IH]; intros seen; simpl.
  - split; [constructor|]. intros m Hm. by apply elem_of_nil in Hm.
  - case_decide as Hin.
    + split; [by eexists|]. intros [_ Hno]. apply (Hno m); [left|done].
    + specialize (IH ({[m]} ∪ seen)).
      destruct (assert_unique_from ({[m]} ∪ seen) l field) as [[]|e].
      * destruct IH as [Hnd Hno]. split.
        -- constructor; [|done]. intros Hm. apply (Hno _ Hm). set_solver.
        -- intros m' [->|Hm']%elem_of_cons; [done|]. specialize (Hno _ Hm'). set_solver.
      * destruct IH as [He Hn]. split; [done|]. intros [Hnd Hno]. apply Hn.
        apply NoDup_cons in Hnd as [Hm Hnd]. split; [done|]. intros m' Hm'.
        intros [->%elem_of_singleton|Hs]%elem_of_union; [done|].
        apply (Hno m'); [by right|done].
Qed.

Lemma assert_unique_spec l field :
  match _assert_unique_metric_types l field with
  | Ok _ => NoDup l
  | Raise e => (exists msg, e = ValueError msg) /\ ~ NoDup l
  end.
Proof.
  unfold _assert_unique_metric_types. pose proof (assert_unique_from_spec ∅ l field) as Hs.
  destruct (assert_unique_from ∅ l field) as [[]|e]; [by destruct Hs|].
  destruct Hs as [He Hn]. split; [done|]. intros Hnd. apply Hn. split; [done|].
  intros m _. apply not_elem_of_empty.
Qed.

Definition unique_metrics (c : RulesConfig) : Prop :=
  NoDup (tr_metric_type <$> threshold_rules c) /\
  NoDup (rc_metric_type <$> rate_of_change_rules c).

(** ** The lookup tables of the engine *)

Lemma by_metric_lookup_acc {R} (mt : R -> MetricType) rules (acc : gmap MetricType R) m r :
  foldl (fun (acc : gmap MetricType R) r => <[mt r := r]> acc) acc rules !! m = Some r ->
  (r ∈ rules /\ mt r = m) \/ acc !! m = Some r.
Proof.
  revert acc. induction rules as [|x rules IH]; intros acc; simpl; [auto|].
  intros H. apply IH in H as [[Hin Hm]|H].
  - left. split; [by right|done].
  - apply lookup_insert_Some in H as [[<- <-]|[_ H]]; [|auto]. left. split; [left|done].
Qed.

Lemma by_metric_lookup {R} (mt : R -> MetricType) rules m r :
  by_metric mt rules !! m = Some r -> r ∈ rules /\ mt r = m.
Proof.
  intros H. apply by_metric_lookup_acc in H as [H|H]; [done|]. by rewrite lookup_empty in H.
Qed.

Lemma by_metric_keep {R} (mt : R -> MetricType) rules (acc : gmap MetricType R) m r :
  m ∉ (mt <$> rules) -> acc !! m = Some r ->
  foldl (fun (acc : gmap MetricType R) r => <[mt r := r]> acc) acc rules !! m = Some r.
Proof.
  revert acc. induction rules as [|x rules IH]; intros acc; simpl; [done|].
  rewrite not_elem_of_cons. intros [Hne Hnot] Hacc. apply IH; [done|].
  by rewrite lookup_insert_ne.
Qed.

Lemma by_metric_complete {R} (mt : R -> MetricType) rules r :
  NoDup (mt <$> rules) -> r ∈ rules -> by_metric mt rules !! mt r = Some r.
Proof.
  unfold by_metric. generalize (∅ : gmap MetricType R).
  induction rules as [|x rules IH]; intros acc Hnd Hin; simpl; [by apply elem_of_nil in Hin|].
  simpl in Hnd. apply NoDup_cons in Hnd as [Hx Hnd].
  apply elem_of_cons in Hin as [->|Hin]; [|by apply IH].
  apply by_metric_keep; [done|]. apply lookup_insert_eq.
Qed.

(** ** Rule keys *)

Definition rule_keys : list (RuleKind * MetricType) :=
  k ← [THRESHOLD; RATE_OF_CHANGE; STALENESS]; m ← MetricType_all; [(k, m)].

Lemma rule_keys_complete k m : (k, m) ∈ rule_keys.
Proof. destruct k, m; (eapply bool_decide_eq_true_1; vm_compute; reflexivity). Qed.

Lemma rule_keys_distinct : NoDup ((fun km => rule_key_of km.1 km.2) <$> rule_keys).
Proof. eapply bool_decide_eq_true_1; vm_compute; reflexivity. Qed.

Lemma NoDup_fmap_elem {A B} (f : A -> B) l x y :
  NoDup (f <$> l) -> x ∈ l -> y ∈ l -> f x = f y -> x = y.
Proof.
  induction l as [|z l IH]; intros Hnd Hx Hy Hf; [by apply elem_of_nil in Hx|].
  simpl in Hnd. apply NoDup_cons in Hnd as [Hz Hnd].
  apply elem_of_cons in Hx as [->|Hx]; apply elem_of_cons in Hy as [->|Hy];
    [done| | |by apply IH].
  - exfalso. apply Hz. rewrite Hf. by apply list_elem_of_fmap_2.
  - exfalso. apply Hz. rewrite <- Hf. by apply list_elem_of_fmap_2.
Qed.

Lemma rule_key_of_inj k1 m1 k2 m2 :
  rule_key_of k1 m1 = rule_key_of k2 m2 -> k1 = k2 /\ m1 = m2.
Proof.
  intros H.
  enough ((k1, m1) = (k2, m2)) by (split; congruence).
  eapply (NoDup_fmap_elem (fun km => rule_key_of km.1 km.2));
    eauto using rule_keys_distinct, rule_keys_complete.
Qed.

(** ** What evaluation computes *)

Section rule_engine_specs.
Context `{MetricsRepository}.

(** The results of one sample: the threshold rule's, then the rate rule's when the window
    holds a previous sample. *)
Definition sample_results (db : Db) (e : RuleEngine) (node_id : string) (collected_at : datetime)
    (s : MetricSample) (out : list RuleEvaluationResult) : Prop :=
  exists rate, out = option_list (flip _evaluate_threshold s <$>
                       re_threshold_rules e !! ms_metric_type s) ++ option_list rate /\
  match re_rate_of_change_rules e !! ms_metric_type s with
  | None => rate = None
  | Some rule => exists d since prev,
      timedelta_of_seconds (rc_window_seconds rule) = inl d /\
      datetime_sub collected_at d = inl since /\
      is_latest (metric_samples db) (in_window node_id (ms_metric_type s) collected_at since)
        mm_collected_at prev /\
      rate = (fun p => rate_result rule s (sample_to_record p)) <$> prev
  end.

(** The engine's tables list each rule under its own metric. *)
Definition rules_keyed (e : RuleEngine) : Prop :=
  (forall m rule, re_threshold_rules e !! m = Some rule -> tr_metric_type rule = m) /\
  (forall m rule, re_rate_of_change_rules e !! m = Some rule -> rc_metric_type rule = m).

Lemma RuleEngine_init_keyed c : rules_keyed (RuleEngine_init c).
Proof. split; intros m rule Hm; by apply by_metric_lookup in Hm as [_ ?]. Qed.

(** A sample's results are of rules of its metric. *)
Lemma sample_results_keys db e node_id t s out :
  rules_keyed e -> sample_results db e node_id t s out ->
  Forall (fun r => exists kind, rule_key r = rule_key_of kind (ms_metric_type s)) out.
Proof.
  intros [Ht Hr] (rate & -> & Hrate). apply Forall_app. split.
  - destruct (re_threshold_rules e !! _) as [rule|] eqn:Er; simpl; [|done].
    constructor; [|done]. exists THRESHOLD. simpl. by rewrite (Ht _ _ Er).
  - destruct (re_rate_of_change_rules e !! _) as [rule|] eqn:Er; [|by rewrite Hrate].
    destruct Hrate as (d & since & prev & _ & _ & _ & ->). destruct prev as [p|]; simpl; [|done].
    constructor; [|done]. exists RATE_OF_CHANGE. simpl. by rewrite (Hr _ _ Er).
Qed.

(** The results of a push whose first sample has a threshold rule: that rule's, then those
    of other rules. *)
Lemma first_result db e node_id t s rest rule outs :
  rules_keyed e -> re_threshold_rules e !! ms_metric_type s = Some rule ->
  Forall (fun x => ms_metric_type x <> ms_metric_type s) rest ->
  Forall2 (sample_results db e node_id t) (s :: rest) outs ->
  exists others, concat outs = _evaluate_threshold rule s :: others /\
    Forall (fun r => rule_key_of THRESHOLD (ms_metric_type s) <> rule_key r) others.
Proof.
  intros Hkeyed Hrule Hrest Hall. apply Forall2_cons_inv_l in Hall as (out & outs' & Hout & Hall & ->).
  destruct Hout as (rate & -> & Hrate). rewrite Hrule. simpl.
  eexists. split; [done|]. apply Forall_app. split.
  - destruct (re_rate_of_change_rules e !! _) as [rrule|]; [|by rewrite Hrate].
    destruct Hrate as (d & since & prev & _ & _ & _ & ->). destruct prev as [p|]; simpl; [|done].
    constructor; [|done]. simpl. intros Heq. by apply rule_key_of_inj in Heq as [? _].
  - clear rate Hrate. induction Hall as [|x out rest outs' Hx Hall IH]; [done|].
    apply Forall_cons in Hrest as [Hne Hrest]. simpl. apply Forall_app. split; [|by apply IH].
    eapply Forall_impl; [by eapply sample_results_keys|]. intros r [kind ->] Heq.
    apply rule_key_of_inj in Heq as [_ Heq]. by apply Hne.
Qed.

(** The windows of the configured rate rules are timedeltas within the calendar. *)
Definition windows_ok (e : RuleEngine) (collected_at : datetime) : Prop :=
  forall m rule, re_rate_of_change_rules e !! m = Some rule ->
    exists d since, timedelta_of_seconds (rc_window_seconds rule) = inl d /\
      datetime_sub collected_at d = inl since.

Lemma evaluate_rate_reads node_id rule s t d since :
  timedelta_of_seconds (rc_window_seconds rule) = inl d -> datetime_sub t d = inl since ->
  reads (_evaluate_rate_of_change node_id rule s t) (fun db o => exists prev,
    is_latest (metric_samples db) (in_window node_id (ms_metric_type s) t since)
      mm_collected_at prev /\
    o = (fun p => rate_result rule s (sample_to_record p)) <$> prev).
Proof.
  intros Hd Hs. eapply reads_map; [by eapply find_previous_sample_reads|].
  simpl. intros db o (r & Hr & ->). exists r. split; [done|]. by destruct r.
Qed.

Lemma evaluate_sample_reads e node_id t acc s :
  windows_ok e t ->
  reads (evaluate_sample e node_id t acc s) (fun db l =>
    exists out, sample_results db e node_id t s out /\ l = acc ++ out).
Proof.
  intros Hw. unfold evaluate_sample, sample_results.
  destruct (re_rate_of_change_rules e !! ms_metric_type s) as [rule|] eqn:Er.
  - destruct (Hw _ _ Er) as (d & since & Hd & Hs).
    eapply reads_map; [by eapply evaluate_rate_reads|].
    simpl. intros db o (prev & Hp & ->). eexists. split; [by eauto 10|].
    destruct (re_threshold_rules e !! _); simpl; [by rewrite <- app_assoc|done].
  - apply reads_ret. intros db. eexists. split; [by eauto|].
    destruct (re_threshold_rules e !! _); simpl; by rewrite ?app_nil_r.
Qed.

Lemma fold_reads {A B} (f : list B -> A -> M (list B)) (R : Db -> A -> list B -> Prop) l acc :
  (forall acc x, reads (f acc x) (fun db l => exists out, R db x out /\ l = acc ++ out)) ->
  reads (m_fold f acc l) (fun db r => exists outs, Forall2 (R db) l outs /\ r = acc ++ concat outs).
Proof.
  intros Hf. revert acc. induction l as [|x l IH]; intros acc; simpl.
  - apply reads_ret. intros db. exists []. simpl. by rewrite app_nil_r.
  - intros w. wp_step Hf. intros [acc'|ex] w1 [Hs1 Hr]; [|done].
    destruct Hr as (out & Hout & ->). eapply wp_mono; [apply IH|].
    intros [r|ex] w2 [Hs2 Hr2]; (split; [eauto with pulse|]); [|done].
    destruct Hr2 as (outs & Houts & ->). exists (out :: outs). simpl.
    destruct Hs1 as [Hdb _]. rewrite Hdb in Houts. split; [by constructor|].
    by rewrite app_assoc.
Qed.

(** Whatever the windows are, evaluation leaves the state alone. *)
Lemma find_previous_same node_id m t x w :
  wp (find_previous_sample node_id m t x) (fun _ w' => same_state w w') w.
Proof.
  destruct (timedelta_of_seconds x) as [d|te] eqn:Ed.
  - destruct (datetime_sub t d) as [since|te] eqn:Es.
    + eapply wp_mono; [by eapply find_previous_sample_reads|]. by intros r w' [Hs _].
    + unfold wp. by erewrite find_previous_sample_time_error by eauto.
  - unfold wp. by erewrite find_previous_sample_time_error by eauto.
Qed.

(** Evaluation yields, sample by sample and in order, the result of the sample's threshold
    rule and, when a previous sample of the same node and metric lies in the window, that
    of its rate rule computed from the latest such sample; it only reads, and fails only
    when the database does. *)
Lemma evaluate_reads e node_id samples t :
  windows_ok e t ->
  reads (evaluate e node_id samples t) (fun db l =>
    exists outs, Forall2 (sample_results db e node_id t) samples outs /\ l = concat outs).
Proof.
  intros Hw. apply (fold_reads _ _ _ []). intros acc x. by apply evaluate_sample_reads.
Qed.

Lemma evaluate_same e node_id samples t w :
  wp (evaluate e node_id samples t) (fun _ w' => same_state w w') w.
Proof.
  unfold evaluate. generalize (@nil RuleEvaluationResult). revert w.
  induction samples as [|s samples IH]; intros w acc; simpl; [done|].
  apply wp_bind. apply (wp_mono _ (fun _ w' => same_state w w')).
  - unfold evaluate_sample. destruct (re_rate_of_change_rules e !! _); [|done].
    unfold _evaluate_rate_of_change. do 2 apply wp_bind.
    eapply wp_mono; [apply find_previous_same|]. by intros [?|?] w' ?.
  - intros [acc'|ex] w' Hs; [|done]. eapply wp_mono; [apply IH|].
    intros r w2 Hs2. eauto with pulse.
Qed.

End rule_engine_specs.

(** ** Properties *)

Section rule_properties.
Context `{MetricsRepository}.

(** The configuration validator accepts a rules file exactly when no two threshold rules
    and no two rate-of-change rules watch the same metric; it returns the configuration
    unchanged, and refuses with [ValueError] otherwise. *)
Lemma validate_rules_spec c :
  match validate_rules c with
  | Ok c' => c' = c /\ unique_metrics c
  | Raise e => (exists msg, e = ValueError msg) /\ ~ unique_metrics c
  end.
Proof.
  unfold validate_rules, unique_metrics.
  pose proof (assert_unique_spec (tr_metric_type <$> threshold_rules c) "threshold_rules") as H1.
  destruct (_assert_unique_metric_types _ _) as [u|e1]; [|naive_solver].
  pose proof (assert_unique_spec (rc_metric_type <$> rate_of_change_rules c)
    "rate_of_change_rules") as H2.
  destruct (_assert_unique_metric_types _ _) as [v|e2]; naive_solver.
Qed.

End rule_properties.
