(* ===== verification/Remediation.v ===== *)
(** * Remediation policy and engine
    ([collector/remediation/definitions.py], [collector/remediation/engine.py])

    A policy maps rule keys to playbooks; its validator refuses duplicates and playbooks the
    Agent could not run.  [RemediationEngine.decide] applies the cooldown and the hourly
    rate limit, and records every decision as a row.  The engine reaches the database only
    through the [RemediationActionRepository] interface. *)

From S2P Require Import Prelude PyFloat PyTime PyStr Domain Schema Runtime Protocols.

Local Open Scope Z_scope.

(** ** The policy *)

Record PlaybookDefinition := {
  pb_rule_key : string;
  pb_playbook_name : string;
  pb_action_type : PlaybookActionType;
  pb_parameters : gmap string string;
  pb_description : string;
}.

(** [not parameters.get('path', '').strip()]. *)
Definition blank_path (parameters : gmap string string) : bool :=
  bool_decide (strip (default EmptyString (parameters !! "path")) = EmptyString).

Definition _validate_action_parameters (playbook : PlaybookDefinition) : Res unit :=
  let name := repr (pb_playbook_name playbook) in
  match pb_action_type playbook with
  | CLEAR_DIRECTORY =>
      if blank_path (pb_parameters playbook)
      then Raise (ValueError ("playbook " ++ name ++
             " (clear_directory) requires a non-empty 'path' parameter"))
      else Ok tt
  | RESTART_SERVICE =>
      Raise (ValueError ("playbook " ++ name ++ ": restart_service is reserved but not " ++
             "implemented as of Phase 5 (requires a privileged-execution model not yet built)" ++
             " — see docs/adr/007-remediation-safety.md"))
  | NOOP => Ok tt
  end.

(** The loop of [_validate_playbooks] with its [seen_rule_keys]. *)
Fixpoint validate_playbooks_from (seen : gset string) (playbooks : list PlaybookDefinition)
    : Res unit :=
  match playbooks with
  | [] => Ok tt
  | playbook :: rest =>
      if decide (pb_rule_key playbook ∈ seen)
      then Raise (ValueError ("duplicate playbook mapping for rule_key=" ++
                              repr (pb_rule_key playbook)))
      else match _validate_action_parameters playbook with
           | Raise e => Raise e
           | Ok _ => validate_playbooks_from ({[pb_rule_key playbook]} ∪ seen) rest
           end
  end.

Definition _validate_playbooks (playbooks : list PlaybookDefinition)
    : Res (list PlaybookDefinition) :=
  match validate_playbooks_from ∅ playbooks with
  | Raise e => Raise e
  | Ok _ => Ok playbooks
  end.

(** ** The engine *)

(** The constructor's arguments besides the repository, and the table it builds. *)
Record RemediationEngine := {
  _by_rule_key : gmap string PlaybookDefinition;
  _enabled : bool;
  _max_actions_per_node_per_hour : Z;
  _cooldown_seconds : float;
}.

(** [{p.rule_key: p for p in policy.playbooks}]. *)
Definition RemediationEngine_init (playbooks : list PlaybookDefinition) (enabled : bool)
    (max_actions_per_node_per_hour : Z) (cooldown_seconds : float) : RemediationEngine :=
  {| _by_rule_key := foldl (fun (m : gmap string PlaybookDefinition) p =>
                       <[pb_rule_key p := p]> m) ∅ playbooks;
     _enabled := enabled;
     _max_actions_per_node_per_hour := max_actions_per_node_per_hour;
     _cooldown_seconds := cooldown_seconds |}.

Definition cooldown_reason (e : RemediationEngine) (elapsed : float) : string :=
  "cooldown active: " ++ format_0f elapsed ++ "s of " ++ format_0f (_cooldown_seconds e) ++
  "s since last action".

Definition rate_limit_reason (e : RemediationEngine) (recent_count : Z) : string :=
  "rate limit reached: " ++ pretty recent_count ++ " actions in the last hour (max " ++
  pretty (_max_actions_per_node_per_hour e) ++ ")".

Section remediation_engine.
Context `{RemediationActionRepository}.

(** The rate limit, the second half of [_check_safety_limits]. *)
Definition check_rate_limit (e : RemediationEngine) (node_id : string) (now : datetime)
    : M (option string) :=
  since ← lift (of_time (datetime_sub now (hours 1)));
  recent_count ← count_recent_actions node_id since;
  mret (if Z.leb (_max_actions_per_node_per_hour e) recent_count
        then Some (rate_limit_reason e recent_count) else None).

Definition _check_safety_limits (e : RemediationEngine) (node_id : string)
    (playbook : PlaybookDefinition) (now : datetime) : M (option string) :=
  last ← find_last_action node_id (pb_playbook_name playbook);
  match last with
  | Some last =>
      let elapsed := total_seconds (now - rr_created_at last) in
      if flt elapsed (_cooldown_seconds e)
      then mret (Some (cooldown_reason e elapsed))
      else check_rate_limit e node_id now
  | None => check_rate_limit e node_id now
  end.

Definition decide (e : RemediationEngine) (node_id : string) (alert_id : Z) (rule_key : string)
    (now : datetime) : M (option RemediationActionRecord) :=
  if negb (_enabled e) then mret None
  else match _by_rule_key e !! rule_key with
  | None => mret None
  | Some playbook =>
      blocked_reason ← _check_safety_limits e node_id playbook now;
      let status := match blocked_reason with
                    | Some _ => BLOCKED_BY_SAFETY_LIMIT
                    | None => DISPATCHED
                    end in
      rec ← create_action node_id alert_id rule_key (pb_playbook_name playbook)
              (pb_action_type playbook) (pb_parameters playbook) status blocked_reason now;
      mret (Some rec)
  end.

End remediation_engine.

(** ** The policy validator *)

(** A playbook the Agent can run. *)
Definition runnable (p : PlaybookDefinition) : Prop :=
  match pb_action_type p with
  | NOOP => True
  | CLEAR_DIRECTORY => blank_path (pb_parameters p) = false
  | RESTART_SERVICE => False
  end.

Lemma validate_action_parameters_spec p :
  match _validate_action_parameters p with
  | Ok _ => runnable p
  | Raise e => (exists msg, e = ValueError msg) /\ ~ runnable p
  end.
Proof.
  unfold _validate_action_parameters, runnable.
  destruct (pb_action_type p); [done| |by eauto].
  destruct (blank_path _); [by eauto|done].
Qed.

Definition valid_playbooks (seen : gset string) (l : list PlaybookDefinition) : Prop :=
  NoDup (pb_rule_key <$> l) /\ Forall (fun p => pb_rule_key p ∉ seen) l /\ Forall runnable l.

Lemma valid_playbooks_cons seen p l :
  valid_playbooks seen (p :: l) <->
  (pb_rule_key p ∉ seen) /\ runnable p /\ valid_playbooks ({[pb_rule_key p]} ∪ seen) l.
Proof.
  unfold valid_playbooks. rewrite fmap_cons, NoDup_cons, !Forall_cons.
  assert (((pb_rule_key p ∉ pb_rule_key <$> l) /\ Forall (fun q => pb_rule_key q ∉ seen) l) <->
    Forall (fun q => pb_rule_key q ∉ {[pb_rule_key p]} ∪ seen) l) as Hsplit.
  { rewrite list_elem_of_fmap, !Forall_forall. split.
    - intros [Hno Hseen] q Hq [Heq%elem_of_singleton|Hs]%elem_of_union; [|by eapply Hseen].
      apply Hno. by exists q.
    - intros Hu. split.
      + intros (q & Heq & Hq). apply (Hu q Hq), elem_of_union_l, elem_of_singleton. done.
      + intros q Hq Hs. by apply (Hu q Hq), elem_of_union_r. }
  simpl. split; [intros ([? ?] & [? ?] & [? ?])|intros (? & ? & ? & Hu & ?)].
  - split; [done|]. split; [done|]. split; [done|]. split; [|done]. by apply Hsplit.
  - apply Hsplit in Hu as [? ?]. done.
Qed.

Lemma validate_playbooks_from_spec seen l :
  match validate_playbooks_from seen l with
  | Ok _ => valid_playbooks seen l
  | Raise e => (exists msg, e = ValueError msg) /\ ~ valid_playbooks seen l
  end.
Proof.
  revert seen. induction l as [|p l IH]; intros seen; simpl.
  - split; [constructor|]. split; constructor.
  - pose proof (valid_playbooks_cons seen p l) as Hc. case_decide as Hin.
    + rewrite Hc. split; [by eexists|]. by intros [? _].
    + pose proof (validate_action_parameters_spec p) as Hp.
      destruct (_validate_action_parameters p) as [u|ex].
      * specialize (IH ({[pb_rule_key p]} ∪ seen)).
        destruct (validate_playbooks_from _ l); tauto.
      * tauto.
Qed.

(** The engine's table maps a rule key to the playbook of the policy that names it. *)
Lemma by_rule_key_acc l (acc : gmap string PlaybookDefinition) k p :
  foldl (fun (m : gmap string PlaybookDefinition) p => <[pb_rule_key p := p]> m) acc l !! k
    = Some p -> (p ∈ l /\ pb_rule_key p = k) \/ acc !! k = Some p.
Proof.
  revert acc. induction l as [|x l IH]; intros acc; simpl; [auto|].
  intros H. apply IH in H as [[Hin Hk]|H].
  - left. split; [by right|done].
  - apply lookup_insert_Some in H as [[<- <-]|[_ H]]; [|auto]. left. split; [left|done].
Qed.

Lemma by_rule_key_lookup l enabled max cooldown k p :
  _by_rule_key (RemediationEngine_init l enabled max cooldown) !! k = Some p ->
  p ∈ l /\ pb_rule_key p = k.
Proof.
  intros H. apply by_rule_key_acc in H as [H|H]; [done|]. by rewrite lookup_empty in H.
Qed.

(** ** The safety limits *)

(** The limits permit a dispatch at [now]: no action of the playbook on the node, blocked
    ones included, is within the cooldown, and the node's actions of the hour up to [now]
    are below the maximum. *)
Definition cooled_down (e : RemediationEngine) (db : Db) (node_id playbook_name : string)
    (now : datetime) : Prop :=
  forall k r, remediation_actions db !! k = Some r -> of_playbook node_id playbook_name r ->
    flt (total_seconds (now - rm_created_at r)) (_cooldown_seconds e) = false.

Definition hourly_count (db : Db) (node_id : string) (since : datetime) : Z :=
  Z.of_nat (length (filter (recent_action node_id since) (rows (remediation_actions db)))).

Definition below_rate (e : RemediationEngine) (db : Db) (node_id : string) (now : datetime)
    : Prop :=
  hourly_count db node_id (now - hours 1) < _max_actions_per_node_per_hour e.

#[export] Instance below_rate_dec e db node_id now : Decision (below_rate e db node_id now).
Proof. unfold below_rate. apply _. Defined.

(** The later the last action, the shorter the elapsed time. *)
Lemma elapsed_mono now t1 t2 x :
  t1 <= t2 -> flt (total_seconds (now - t2)) x = false ->
  flt (total_seconds (now - t1)) x = false.
Proof.
  intros Hle Hf. destruct (is_nan x) eqn:Hx; [by apply flt_nan_r|]. apply fle_flt_false.
  apply (fle_trans _ (total_seconds (now - t2))); [|apply total_seconds_mono; lia].
  apply flt_false_fle; auto with pulse.
Qed.

Lemma latest_cooled_down e db node_id name now r :
  is_latest (remediation_actions db) (of_playbook node_id name) rm_created_at r ->
  match r with
  | Some r => flt (total_seconds (now - rm_created_at r)) (_cooldown_seconds e) = false
  | None => True
  end ->
  cooled_down e db node_id name now.
Proof.
  intros Hlast Hf k' r' Hk' Hof. destruct r as [r|]; simpl in Hlast.
  - destruct Hlast as (_ & _ & Hmax). eapply elapsed_mono; eauto.
  - exfalso. by eapply Hlast.
Qed.

Section remediation_specs.
Context `{RemediationActionRepository}.

(** What the safety check answers: [None] exactly when the cooldown has elapsed and the
    hour's count is below the maximum. *)
Definition safety_verdict (e : RemediationEngine) (db : Db) (node_id playbook_name : string)
    (now : datetime) (reason : option string) : Prop :=
  match reason with
  | None => cooled_down e db node_id playbook_name now /\ below_rate e db node_id now
  | Some msg =>
      (exists k r, remediation_actions db !! k = Some r /\ of_playbook node_id playbook_name r /\
         flt (total_seconds (now - rm_created_at r)) (_cooldown_seconds e) = true /\
         msg = cooldown_reason e (total_seconds (now - rm_created_at r))) \/
      (cooled_down e db node_id playbook_name now /\ ~ below_rate e db node_id now /\
       msg = rate_limit_reason e (hourly_count db node_id (now - hours 1)))
  end.

Lemma check_rate_limit_reads e node_id now since :
  datetime_sub now (hours 1) = inl since ->
  reads (check_rate_limit e node_id now) (fun db o =>
    o = if bool_decide (below_rate e db node_id now) then None
        else Some (rate_limit_reason e (hourly_count db node_id (now - hours 1)))).
Proof.
  intros Hs. unfold check_rate_limit. rewrite Hs. simpl. rewrite lift_ok_bind.
  eapply reads_map; [apply count_recent_actions_reads|]. simpl. intros db n ->.
  apply datetime_sub_inv in Hs as ->. unfold below_rate. fold (hourly_count db node_id (now - hours 1)).
  destruct (Z.leb_spec (_max_actions_per_node_per_hour e) (hourly_count db node_id (now - hours 1)));
    case_bool_decide; done || lia.
Qed.

(** How the safety check fails: the database, or [now] in the calendar's first hour. *)
Definition limits_failure (now : datetime) (ex : Exc) : Prop :=
  (is_persistence ex /\ ~ Healthy) \/
  (ex = OverflowError /\ datetime_sub now (hours 1) = inr TE_overflow).

Lemma check_rate_limit_spec e node_id now w :
  wp (check_rate_limit e node_id now) (fun r w' => same_state w w' /\
    match r with
    | Ok o => o = if bool_decide (below_rate e (w_db w) node_id now) then None
              else Some (rate_limit_reason e (hourly_count (w_db w) node_id (now - hours 1)))
    | Raise ex => limits_failure now ex
    end) w.
Proof.
  destruct (datetime_sub now (hours 1)) as [since|te] eqn:Ed.
  - eapply wp_mono; [by eapply check_rate_limit_reads|].
    intros [o|ex] w' [Hs Hr]; (split; [done|]); [done|by left].
  - unfold check_rate_limit. rewrite Ed. assert (te = TE_overflow) as ->.
    { revert Ed. unfold datetime_sub. case_match; congruence. }
    split; [done|]. by right.
Qed.

Lemma check_safety_limits_spec e node_id playbook now w :
  wp (_check_safety_limits e node_id playbook now) (fun r w' => same_state w w' /\
    match r with
    | Ok o => safety_verdict e (w_db w) node_id (pb_playbook_name playbook) now o
    | Raise ex => limits_failure now ex
    end) w.
Proof.
  unfold _check_safety_limits. wp_step find_last_action_reads.
  intros [last|ex] w1 [Hs1 Hr1]; [|by split; [|left]].
  destruct Hr1 as (r & Hlast & ->). pose proof (latest_cooled_down e _ node_id _ now r Hlast) as Hcd.
  assert (match r with
          | Some r => flt (total_seconds (now - rm_created_at r)) (_cooldown_seconds e) = false
          | None => True end ->
          wp (check_rate_limit e node_id now) (fun r w' => same_state w w' /\
            match r with
            | Ok o => safety_verdict e (w_db w) node_id (pb_playbook_name playbook) now o
            | Raise ex => limits_failure now ex
            end) w1) as Hrate.
  { intros Hf. specialize (Hcd Hf). eapply wp_mono; [apply check_rate_limit_spec|].
    intros [o|ex] w2 [Hs2 Hr2]; (split; [eauto with pulse|]); [|done].
    destruct Hs1 as [Hdb _]. rewrite Hdb in Hr2. subst o. case_bool_decide; simpl; auto. }
  destruct r as [r|]; simpl; [|by apply Hrate].
  destruct (flt _ _) eqn:Ef; [|by apply Hrate]. apply wp_ret. split; [done|].
  destruct Hlast as ([k Hk] & Hof & _). left. eauto 10.
Qed.

(** A decision is one row: dispatched when the limits permit it, blocked with the reason
    otherwise. *)
Definition decided (e : RemediationEngine) (node_id : string) (alert_id : Z) (rule_key : string)
    (p : PlaybookDefinition) (now : datetime) (db : Db) (rec : RemediationActionRecord) (db' : Db)
    : Prop :=
  exists id reason, remediation_actions db !! id = None /\
    safety_verdict e db node_id (pb_playbook_name p) now reason /\
    let row := new_action id node_id alert_id rule_key (pb_playbook_name p) (pb_action_type p)
                 (pb_parameters p)
                 (if reason then BLOCKED_BY_SAFETY_LIMIT else DISPATCHED) reason now in
    rec = action_to_record row /\
    db' = set_actions (<[id := row]> (remediation_actions db)) db /\ foreign_keys db'.

Definition decide_pre (node_id : string) (alert_id : Z) (db : Db) : Prop :=
  foreign_keys db /\ is_Some (nodes db !! node_id) /\ is_Some (alerts db !! alert_id).

Lemma decide_spec e node_id alert_id rule_key now p w :
  _enabled e = true -> _by_rule_key e !! rule_key = Some p ->
  wp (decide e node_id alert_id rule_key now) (fun r w' => w_posts w' = w_posts w /\
    match r with
    | Ok o => exists rec, o = Some rec /\
        decided e node_id alert_id rule_key p now (w_db w) rec (w_db w')
    | Raise ex => w_db w' = w_db w /\
        (decide_pre node_id alert_id (w_db w) -> limits_failure now ex)
    end) w.
Proof.
  intros Hen Hp. unfold decide. rewrite Hen, Hp. simpl.
  wp_step check_safety_limits_spec. intros [reason|ex] w1 [[Hdb1 Hp1] Hr1]; [|by split; auto].
  wp_step create_action_writes. rewrite Hdb1.
  intros [rec|ex] w2 [Hp2 Hr2]; (split; [simpl; congruence|]).
  - destruct Hr2 as (id & Hid & Hc). exists rec. split; [done|]. exists id, reason.
    split; [done|]. split; [done|]. by destruct reason.
  - destruct Hr2 as (He & -> & Hn). split; [done|]. intros Hpre. left. split; [done|].
    intros Hh. by apply Hn.
Qed.

(** Disabled, or no playbook for the rule: nothing is recorded. *)
Lemma decide_none e node_id alert_id rule_key now w :
  _enabled e = false \/ _by_rule_key e !! rule_key = None ->
  decide e node_id alert_id rule_key now w = (Ok None, w).
Proof.
  intros Hd. unfold decide. destruct (_enabled e); simpl; [|done].
  destruct Hd as [?|Hd]; [done|]. by rewrite Hd.
Qed.

End remediation_specs.

(** ** Properties *)

(** The policy validator accepts exactly the policies with one playbook per rule key, no
    [restart_service], and a non-blank path for every [clear_directory]; it refuses with
    [ValueError] otherwise. *)
Lemma validate_playbooks_spec l :
  match _validate_playbooks l with
  | Ok l' => l' = l /\ NoDup (pb_rule_key <$> l) /\ Forall runnable l
  | Raise e => (exists msg, e = ValueError msg) /\ ~ (NoDup (pb_rule_key <$> l) /\ Forall runnable l)
  end.
Proof.
  unfold _validate_playbooks. pose proof (validate_playbooks_from_spec ∅ l) as Hs.
  destruct (validate_playbooks_from ∅ l) as [u|e].
  - by destruct Hs as (? & _ & ?).
  - destruct Hs as [He Hn]. split; [done|]. intros [Hnd Hrun]. apply Hn.
    split; [done|]. split; [|done]. apply Forall_forall. intros p _. apply not_elem_of_empty.
Qed.

Section remediation_properties.
Context `{RemediationActionRepository}.

(** C20: [decide] on every branch: nothing is recorded when remediation is off or no playbook is
    mapped; otherwise exactly one audit row is added, dispatched when the cooldown has
    elapsed and the hour's count is below the maximum, blocked with the reason of the
    limit that refused it otherwise; a failure leaves the tables as they were. *)
Theorem decide_branches e node_id alert_id rule_key now w :
  wp (decide e node_id alert_id rule_key now) (fun r w' =>
    match (if _enabled e then _by_rule_key e !! rule_key else None) with
    | None => r = Ok None /\ w' = w
    | Some p => w_posts w' = w_posts w /\
        match r with
        | Ok o => exists rec, o = Some rec /\
            decided e node_id alert_id rule_key p now (w_db w) rec (w_db w')
        | Raise ex => w_db w' = w_db w /\
            (decide_pre node_id alert_id (w_db w) -> limits_failure now ex)
        end
    end) w.
Proof.
  destruct (if _enabled e then _ else None) as [p|] eqn:Ep.
  - destruct (_enabled e) eqn:Een; [|done]. by apply decide_spec.
  - unfold wp. rewrite decide_none; [done|]. destruct (_enabled e); auto.
Qed.

End remediation_properties.
