(* ===== verification/Notifications.v ===== *)
(** * Notifications ([collector/notifications/])

    The three message formats, the [Notifier] protocol with the promise its clients rely
    on (it never raises and never touches the database), and the Telegram implementation
    that keeps it. *)

From S2P Require Import Prelude PyFloat PyTime PyStr Domain Schema Runtime.

Local Open Scope Z_scope.
Local Open Scope string_scope.

(** ** The protocol *)

Record Notifier `{Env} := {
  notify : string -> M bool;
  (** What a notification adds to the messages sent out. *)
  delivers : string -> list string;
  notify_total : forall message w,
    wp (notify message) (fun r w' => is_ok r = true /\ w_db w' = w_db w /\
      w_posts w' = (w_posts w ++ delivers message)%list /\ (w_tick w <= w_tick w')%nat) w;
}.

Section notifications.
Context `{Env}.

(** ** Formatting *)

Definition _SEVERITY_ICONS (s : Severity) : string :=
  match s with CRITICAL => "🔴" | WARNING => "🟡" end.

Definition format_opened (alert : AlertRecord) : string :=
  _SEVERITY_ICONS (ar_severity alert) ++ " ALERT #" ++ pretty (ar_id alert) ++ " [" ++
  upper (Severity_value (ar_severity alert)) ++ "] " ++ ar_node_id alert ++ ": " ++
  ar_description alert ++ " (value=" ++ float_repr (ar_triggering_value alert) ++ ", bound=" ++
  float_repr (ar_bound alert) ++ ")".

Definition format_escalated (alert : AlertRecord) : string :=
  "🔺 ESCALATED ALERT #" ++ pretty (ar_id alert) ++ " — still firing and unacknowledged [" ++
  upper (Severity_value (ar_severity alert)) ++ "] " ++ ar_node_id alert ++ ": " ++
  ar_description alert.

Definition format_resolved (alert : AlertRecord) : string :=
  "✅ RESOLVED ALERT #" ++ pretty (ar_id alert) ++ " [" ++
  upper (Severity_value (ar_severity alert)) ++ "] " ++ ar_node_id alert ++ ": " ++
  ar_description alert.

(** ** Telegram *)

(** [httpx.Client.post]: the status code, or [None] for an [httpx.HTTPError]. *)
Definition telegram_post (text : string) : M (option Z) := fun w =>
  (Ok (telegram (w_tick w)),
   bump {| w_db := w_db w; w_tick := w_tick w; w_posts := (w_posts w ++ [text])%list |}).

Definition telegram_notify (message : string) : M bool :=
  response ← telegram_post message;
  mret (match response with
        | None => false
        | Some status_code => negb (HTTP_CLIENT_ERROR_THRESHOLD <=? status_code)%Z
        end).

Lemma telegram_notify_total message w :
  wp (telegram_notify message) (fun r w' => is_ok r = true /\ w_db w' = w_db w /\
    w_posts w' = (w_posts w ++ [message])%list /\ (w_tick w <= w_tick w')%nat) w.
Proof. split_and!; [done..|simpl; lia]. Qed.

Definition TelegramNotifier : Notifier :=
  {| notify := telegram_notify; delivers := fun message => [message];
     notify_total := telegram_notify_total |}.

(** [if self._notifier is not None: self._notifier.notify(message)]. *)
Definition _notify (notifier : option Notifier) (message : string) : M unit :=
  match notifier with
  | Some n => _ ← notify n message; mret tt
  | None => mret tt
  end.

Definition sent (notifier : option Notifier) (message : string) : list string :=
  match notifier with Some n => delivers n message | None => [] end.

(** Notifying succeeds and leaves the database alone, whatever the outcome of the POST. *)
Lemma wp_notify notifier message Q w :
  (forall w', w_db w' = w_db w -> w_posts w' = (w_posts w ++ sent notifier message)%list ->
     Q (Ok tt) w') ->
  wp (_notify notifier message) Q w.
Proof.
  intros HQ. destruct notifier as [n|]; simpl.
  - wp_step (notify_total n). intros [b|e] w' (Hok & Hdb & Hp & _); [|done]. by apply wp_ret, HQ.
  - apply wp_ret, HQ; [done|]. simpl. by rewrite app_nil_r.
Qed.

End notifications.
