(* ===== verification/Lifecycle.v ===== *)
(** * The alert and remediation lifecycle: the abstract machine

    The specification the Collector's services and jobs implement: the transactions that
    may move the database, each with the guard under which the source performs it.
    Reachability is the closure of [step]; the invariants of the lifecycle are proved
    here by induction on it, and every service proves that it moves the database by
    steps only, under every failure pattern of the database. *)

From S2P Require Import Prelude PyFloat PyTime Domain Schema Runtime Protocols Remediation.
From stdpp Require Export relations.

Local Open Scope Z_scope.
Local Open Scope pulse_scope.

(** ** The machine *)

Record LifecycleConfig := {
  lc_escalation_after : float;
  lc_remediation_after : float;
  lc_engine : option RemediationEngine;
  lc_retention : bool;   (* a retention job is scheduled *)
}.

(** [(now - first_fired_at).total_seconds() >= after]. *)
Definition aged (a : AlertModel) (now : datetime) (after : float) : Prop :=
  fge (total_seconds (now - am_first_fired_at a)) after = true.

(** One transition of an open alert. *)
Inductive alert_step (c : LifecycleConfig) (a : AlertModel) : AlertModel -> Prop :=
| alert_advance value t :
    alert_step c a (advanced value t a)
| alert_escalate t :
    am_acknowledged_at a = None -> am_escalated_at a = None ->
    aged a t (lc_escalation_after c) ->
    alert_step c a (escalated t a)
| alert_acknowledge by_ t :
    alert_step c a (acknowledged by_ t a)
| alert_resolve t :
    alert_step c a (resolved t a).

Definition remediation_on (c : LifecycleConfig) : Prop :=
  exists e, lc_engine c = Some e /\ _enabled e = true.

(** The alert may be handed to the remediation engine at [now]. *)
Definition remediable (c : LifecycleConfig) (a : AlertModel) (now : datetime) : Prop :=
  am_status a = FIRING /\ am_acknowledged_at a = None /\ am_remediated_at a = None /\
  aged a now (lc_remediation_after c) /\ remediation_on c /\
  (lc_escalation_after c <=. lc_remediation_after c -> is_Some (am_escalated_at a)).

(** The engine decided on the alert [id], and the decision was recorded. *)
Definition decision (c : LifecycleConfig) (id : Z) (a : AlertModel) (now : datetime)
    (rec : RemediationActionRecord) (db db' : Db) : Prop :=
  exists e p, lc_engine c = Some e /\ _enabled e = true /\
    _by_rule_key e !! am_rule_key a = Some p /\
    decided e (am_node_id a) id (am_rule_key a) p now db rec db'.

(** [faulty]: the database engine may refuse a legal transaction. *)
Inductive step (c : LifecycleConfig) (faulty : Prop) (db : Db) : Db -> Prop :=
| step_seen node_id seen_at :
    step c faulty db
      (set_nodes (<[node_id := seen_node (nodes db !! node_id) node_id seen_at]> (nodes db)) db)
| step_samples node_id samples collected_at received_at ids :
    is_Some (nodes db !! node_id) -> length ids = length samples -> NoDup ids ->
    (forall id, id ∈ ids -> metric_samples db !! id = None) ->
    step c faulty db
      (set_samples (list_to_map (new_samples node_id collected_at received_at ids samples)
         ∪ metric_samples db) db)
| step_open id node_id rule_key kind sev desc value bound t :
    alerts db !! id = None -> is_Some (nodes db !! node_id) ->
    (forall k a, alerts db !! k = Some a -> ~ is_open node_id rule_key a) ->
    step c faulty db
      (set_alerts (<[id := new_alert id node_id rule_key kind sev desc value bound t]>
         (alerts db)) db)
| step_alert id a a' :
    alerts db !! id = Some a -> am_status a = FIRING -> alert_step c a a' ->
    step c faulty db (set_alerts (<[id := a']> (alerts db)) db)
| step_remediate id a now rec db' :
    alerts db !! id = Some a -> remediable c a now -> decision c id a now rec db db' ->
    step c faulty db (set_alerts (<[id := remediated now a]> (alerts db')) db')
| step_decide_only id a now rec db' :
    faulty -> alerts db !! id = Some a -> remediable c a now -> decision c id a now rec db db' ->
    step c faulty db db'
| step_complete id r status reason t :
    remediation_actions db !! id = Some r -> rm_status r = DISPATCHED ->
    status = EXECUTED \/ status = FAILED ->
    step c faulty db
      (set_actions (<[id := completed status reason t r]> (remediation_actions db)) db)
| step_prune_alerts ids :
    lc_retention c = true ->
    (forall id, id ∈ ids -> exists a, alerts db !! id = Some a /\ am_status a = RESOLVED /\
       ~ referenced db id) ->
    step c faulty db (set_alerts (without ids (alerts db)) db)
| step_prune_actions ids :
    lc_retention c = true ->
    (forall id, id ∈ ids -> exists r, remediation_actions db !! id = Some r /\
       rm_status r <> DISPATCHED) ->
    step c faulty db (set_actions (without ids (remediation_actions db)) db)
| step_prune_samples ids :
    lc_retention c = true ->
    step c faulty db (set_samples (without ids (metric_samples db)) db).

(** The machine of the same configuration with or without a retention job. *)
Definition with_retention (retention : bool) (c : LifecycleConfig) : LifecycleConfig :=
  {| lc_escalation_after := lc_escalation_after c;
     lc_remediation_after := lc_remediation_after c; lc_engine := lc_engine c;
     lc_retention := retention |}.

Definition reachable (c : LifecycleConfig) (faulty : Prop) (db : Db) : Prop :=
  rtc (step c faulty) empty_db db.

(** A state property kept by every step. *)
Definition stable (c : LifecycleConfig) (faulty : Prop) (I : Db -> Prop) : Prop :=
  forall db db', I db -> step c faulty db db' -> I db'.

Lemma stable_rtc c f I db db' : stable c f I -> I db -> rtc (step c f) db db' -> I db'.
Proof. intros HI Hdb. induction 1; eauto. Qed.

Lemma stable_and c f I J : stable c f I -> (forall db db', I db -> J db -> step c f db db' -> J db') ->
  stable c f (fun db => I db /\ J db).
Proof. intros HI HJ db db' [] Hs. eauto. Qed.

(** What a machine without retention does, the same machine does with it. *)
Lemma step_with_retention b c f db db' :
  lc_retention c = false -> step c f db db' -> step (with_retention b c) f db db'.
Proof.
  intros Hc Hs. destruct Hs; try congruence; try (by econstructor).
  eapply step_alert; [done..|]. match goal with H : alert_step _ _ _ |- _ => destruct H end;
    by constructor.
Qed.

Lemma steps_with_retention b c f db db' :
  lc_retention c = false -> rtc (step c f) db db' -> rtc (step (with_retention b c) f) db db'.
Proof. intros Hc. apply rtc_subrel. intros ??. by apply step_with_retention. Qed.

(** ** The shape of a step, table by table *)

(** What a step may do to the alerts. *)
Inductive alerts_change (c : LifecycleConfig) (db : Db) : gmap Z AlertModel -> Prop :=
| alerts_same : alerts_change c db (alerts db)
| alerts_open id node_id rule_key kind sev desc value bound t :
    alerts db !! id = None ->
    (forall k a, alerts db !! k = Some a -> ~ is_open node_id rule_key a) ->
    is_Some (nodes db !! node_id) ->
    alerts_change c db (<[id := new_alert id node_id rule_key kind sev desc value bound t]>
      (alerts db))
| alerts_update id a a' :
    alerts db !! id = Some a -> am_status a = FIRING ->
    alert_step c a a' \/ (exists now, remediable c a now /\ a' = remediated now a) ->
    alerts_change c db (<[id := a']> (alerts db))
| alerts_without ids :
    lc_retention c = true ->
    (forall id, id ∈ ids -> exists a, alerts db !! id = Some a /\ am_status a = RESOLVED /\
       ~ referenced db id) ->
    alerts_change c db (without ids (alerts db)).

(** What a step may do to the remediation actions. *)
Inductive actions_change (c : LifecycleConfig) (db : Db)
    : gmap Z RemediationActionModel -> Prop :=
| actions_same : actions_change c db (remediation_actions db)
| actions_decide e p id alert_id a reason now :
    lc_engine c = Some e -> _by_rule_key e !! am_rule_key a = Some p ->
    remediation_actions db !! id = None -> alerts db !! alert_id = Some a ->
    remediable c a now ->
    safety_verdict e db (am_node_id a) (pb_playbook_name p) now reason ->
    actions_change c db (<[id := new_action id (am_node_id a) alert_id (am_rule_key a)
      (pb_playbook_name p) (pb_action_type p) (pb_parameters p)
      (if reason then BLOCKED_BY_SAFETY_LIMIT else DISPATCHED) reason now]>
      (remediation_actions db))
| actions_complete id r status reason t :
    remediation_actions db !! id = Some r -> rm_status r = DISPATCHED ->
    status = EXECUTED \/ status = FAILED ->
    actions_change c db (<[id := completed status reason t r]> (remediation_actions db))
| actions_without ids :
    lc_retention c = true ->
    (forall id, id ∈ ids -> exists r, remediation_actions db !! id = Some r /\
       rm_status r <> DISPATCHED) ->
    actions_change c db (without ids (remediation_actions db)).

Lemma decision_shape c id a now rec db db' :
  alerts db !! id = Some a -> remediable c a now -> decision c id a now rec db db' ->
  alerts db' = alerts db /\ nodes db' = nodes db /\ metric_samples db' = metric_samples db /\
  actions_change c db (remediation_actions db') /\ foreign_keys db'.
Proof.
  intros Ha Hr (e & p & He & Hen & Hp & k & reason & Hk & Hv & _ & -> & Hfk).
  split; [done|]. split; [done|]. split; [done|]. split; [|done]. simpl.
  by eapply actions_decide.
Qed.

Lemma step_alerts c f db db' : step c f db db' -> alerts_change c db (alerts db').
Proof.
  destruct 1 as [| | |?????|????? Ha Hr Hd|????? ? Ha Hr Hd| | | |]; simpl;
    try (apply alerts_same).
  - by apply alerts_open.
  - eapply alerts_update; eauto.
  - destruct (decision_shape _ _ _ _ _ _ _ Ha Hr Hd) as (-> & _).
    eapply alerts_update; eauto. apply Hr.
  - destruct (decision_shape _ _ _ _ _ _ _ Ha Hr Hd) as (-> & _). apply alerts_same.
  - by apply alerts_without.
Qed.

Lemma step_actions c f db db' : step c f db db' -> actions_change c db (remediation_actions db').
Proof.
  destruct 1 as [| | |?????|????? Ha Hr Hd|????? ? Ha Hr Hd| | | |]; simpl;
    try (apply actions_same).
  - by destruct (decision_shape _ _ _ _ _ _ _ Ha Hr Hd) as (_ & _ & _ & ? & _).
  - by destruct (decision_shape _ _ _ _ _ _ _ Ha Hr Hd) as (_ & _ & _ & ? & _).
  - by apply actions_complete.
  - by apply actions_without.
Qed.
