(* ===== verification/Invariants.v ===== *)
(** * Invariants of the alert and remediation lifecycle

    Each invariant is stable under every step of the machine of [Lifecycle], hence holds in
    every reachable database. *)

From S2P Require Import Prelude PyFloat PyTime Domain Schema Runtime Protocols Tables.
From S2P Require Import Remediation Lifecycle.

Local Open Scope Z_scope.
Local Open Scope pulse_scope.

(** ** Keys and references *)

(** Every row carries its primary key. *)
Definition keyed (db : Db) : Prop :=
  map_Forall (fun k a => am_id a = k) (alerts db) /\
  map_Forall (fun k r => rm_id r = k) (remediation_actions db).

Lemma alert_step_id c a a' :
  alert_step c a a' -> am_id a' = am_id a /\ am_node_id a' = am_node_id a /\
    am_rule_key a' = am_rule_key a /\ am_first_fired_at a' = am_first_fired_at a.
Proof. by destruct 1. Qed.

Lemma update_id c a a' :
  alert_step c a a' \/ (exists now, remediable c a now /\ a' = remediated now a) ->
  am_id a' = am_id a /\ am_node_id a' = am_node_id a /\
    am_rule_key a' = am_rule_key a /\ am_first_fired_at a' = am_first_fired_at a.
Proof. intros [Hs|(now & _ & ->)]; [by eapply alert_step_id|done]. Qed.

Lemma map_Forall_without {R} (P : Z -> R -> Prop) ids (t : gmap Z R) :
  map_Forall P t -> map_Forall P (without ids t).
Proof. intros Ht k r [Hk _]%lookup_without. by apply Ht. Qed.

#[local] Hint Resolve map_Forall_without : pulse.

Lemma keyed_stable c f : stable c f keyed.
Proof.
  intros db db' [Ha Hr] Hs. split.
  - destruct (step_alerts _ _ _ _ Hs) as [| |id a a' Hid Hf Hu|]; eauto with pulse.
    + by apply map_Forall_insert_2.
    + apply map_Forall_insert_2; [|done]. rewrite (proj1 (update_id _ _ _ Hu)). exact (Ha _ _ Hid).
  - destruct (step_actions _ _ _ _ Hs) as [| |id r st reason t Hid Hd Hst|]; auto with pulse.
    + by apply map_Forall_insert_2.
    + apply map_Forall_insert_2; [|done]. exact (Hr _ _ Hid).
Qed.

Lemma keyed_empty : keyed empty_db.
Proof. split; apply map_Forall_empty. Qed.

Definition nodes_keyed (db : Db) : Prop := map_Forall (fun k n => nm_node_id n = k) (nodes db).

Lemma nodes_keyed_stable c f : stable c f nodes_keyed.
Proof.
  intros db db' Hk Hs. destruct Hs as
    [n t| | | |id a now rec db' Ha Hr Hd|id a now rec db' _ Ha Hr Hd| | | |]; try done.
  - apply map_Forall_insert_2; [|done]. destruct (nodes db !! n) as [node|] eqn:E; [|done].
    exact (Hk _ _ E).
  - unfold nodes_keyed. simpl. by destruct (decision_shape _ _ _ _ _ _ _ Ha Hr Hd) as (_ & -> & _).
  - unfold nodes_keyed. by destruct (decision_shape _ _ _ _ _ _ _ Ha Hr Hd) as (_ & -> & _).
Qed.

Lemma foreign_keys_stable c f : stable c f foreign_keys.
Proof.
  intros db db' Hfk Hs. destruct Hs as
    [n t|n samples ct rt ids Hn Hl Hnd Hfresh|id n k kind sev desc v b t Hid Hn Hopen
    |id a a' Ha Hf Hst|id a now rec db' Ha Hr Hd|id a now rec db' Hfy Ha Hr Hd
    |id r st reason t Hr Hd Hst|ids Hret Hids|ids Hret Hids|ids Hret].
  - by apply foreign_keys_set_node.
  - apply foreign_keys_add_samples; [done|]. intros kr Hkr.
    unfold fk_sample. by rewrite (elem_of_new_samples _ _ _ _ _ _ Hkr).
  - by apply foreign_keys_set_alert.
  - apply foreign_keys_set_alert; [done|].
    destruct (alert_step_id _ _ _ Hst) as (_ & -> & _). exact (proj1 Hfk _ _ Ha).
  - destruct (decision_shape _ _ _ _ _ _ _ Ha Hr Hd) as (Ha' & Hn' & _ & _ & Hfk').
    apply foreign_keys_set_alert; [done|]. rewrite Hn'. exact (proj1 Hfk _ _ Ha).
  - by destruct (decision_shape _ _ _ _ _ _ _ Ha Hr Hd) as (_ & _ & _ & _ & ?).
  - apply foreign_keys_set_action; [done|]. exact (proj1 (proj2 Hfk) id r Hr).
  - apply foreign_keys_without_alerts; [done|]. intros id Hid. by destruct (Hids id Hid) as (? & _ & _ & ?).
  - by apply foreign_keys_without_actions.
  - by apply foreign_keys_without_samples.
Qed.

Lemma foreign_keys_empty : foreign_keys empty_db.
Proof. split; [|split]; apply map_Forall_empty. Qed.

(** ** At most one open alert per condition *)

Definition one_firing (db : Db) : Prop :=
  forall k1 a1 k2 a2, alerts db !! k1 = Some a1 -> alerts db !! k2 = Some a2 ->
    am_status a1 = FIRING -> am_status a2 = FIRING ->
    am_node_id a1 = am_node_id a2 -> am_rule_key a1 = am_rule_key a2 -> k1 = k2.

(** Updating an alert without making it fire. *)
Lemma one_firing_update db id a a' :
  one_firing db -> alerts db !! id = Some a ->
  am_node_id a' = am_node_id a -> am_rule_key a' = am_rule_key a ->
  (am_status a' = FIRING -> am_status a = FIRING) ->
  one_firing (set_alerts (<[id := a']> (alerts db)) db).
Proof.
  intros Hone Hid En Ek Hf k1 a1 k2 a2. simpl. rewrite !lookup_insert_Some.
  intros [[<- <-]|[Hk1 H1]] [[<- <-]|[Hk2 H2]]; try done.
  - rewrite En, Ek. intros Hf1 Hf2 Hn2 Hk. eapply Hone; eauto.
  - rewrite En, Ek. intros Hf1 Hf2 Hn2 Hk. eapply Hone; eauto.
  - exact (Hone k1 a1 k2 a2 H1 H2).
Qed.

Lemma one_firing_stable c f : stable c f one_firing.
Proof.
  intros db db' Hone Hs. unfold one_firing.
  destruct (step_alerts _ _ _ _ Hs) as [|id n key kind sev desc v b t Hid Hno Hn|id a a' Hid Hf Hu|ids _];
    [exact Hone| |destruct (update_id _ _ _ Hu) as (_ & En & Ek & _);
                  exact (one_firing_update db id a a' Hone Hid En Ek (fun _ => Hf))|];
    intros k1 a1 k2 a2; simpl.
  - rewrite !lookup_insert_Some.
    intros [[<- <-]|[Hk1 H1]] [[<- <-]|[Hk2 H2]]; simpl; try done.
    + intros _ Hf2 Hn2 Hk. exfalso. by apply (Hno _ _ H2).
    + intros Hf1 _ Hn2 Hk. exfalso. by apply (Hno _ _ H1).
    + exact (Hone k1 a1 k2 a2 H1 H2).
  - rewrite !lookup_without. intros [H1 _] [H2 _]. exact (Hone k1 a1 k2 a2 H1 H2).
Qed.

Lemma one_firing_empty : one_firing empty_db.
Proof. intros k1 a1 k2 a2 H1. simpl in H1. by rewrite lookup_empty in H1. Qed.

(** ** Well-formed alerts *)

(** When remediation is on, its age is not below the escalation age. *)
Definition ordered (c : LifecycleConfig) : Prop :=
  remediation_on c -> lc_escalation_after c <=. lc_remediation_after c.

(** Resolution, acknowledgement and the two one-shot stamps are consistent: an alert that
    was remediated had escalated first when the configuration orders the two ages. *)
Definition alert_wf (c : LifecycleConfig) (a : AlertModel) : Prop :=
  (am_status a = RESOLVED <-> is_Some (am_resolved_at a)) /\
  (is_Some (am_acknowledged_at a) <-> is_Some (am_acknowledged_by a)) /\
  (ordered c -> is_Some (am_remediated_at a) -> is_Some (am_escalated_at a)).

Definition alerts_wf (c : LifecycleConfig) (db : Db) : Prop :=
  map_Forall (fun _ a => alert_wf c a) (alerts db).

Lemma alert_wf_step c a a' :
  am_status a = FIRING -> alert_wf c a ->
  alert_step c a a' \/ (exists now, remediable c a now /\ a' = remediated now a) -> alert_wf c a'.
Proof.
  intros Hf (Hres & Hack & Hrem) [Hs|(now & (_ & _ & _ & _ & Hon & Hesc) & ->)].
  - destruct Hs; (split; [|split]); simpl; try done; by split; eauto.
  - split; [done|]. split; [done|]. simpl. auto.
Qed.

Lemma alerts_wf_stable c f : stable c f (alerts_wf c).
Proof.
  intros db db' Hwf Hs. unfold alerts_wf.
  destruct (step_alerts _ _ _ _ Hs) as [|id n key kind sev desc v b t Hid Hno Hn|id a a' Hid Hf Hu|ids _];
    auto with pulse.
  - apply map_Forall_insert_2; [|done]. split; [|split]; simpl; [|done|].
    + split; [done|]. by intros [].
    + by intros _ [].
  - apply map_Forall_insert_2; [|done]. eapply alert_wf_step; eauto.
Qed.

(** ** Well-formed remediation actions *)

(** A blocked action has a reason and is never completed; a completed one has a time. *)
Definition action_wf (r : RemediationActionModel) : Prop :=
  match rm_status r with
  | BLOCKED_BY_SAFETY_LIMIT => is_Some (rm_reason r) /\ rm_completed_at r = None
  | DISPATCHED => rm_reason r = None /\ rm_completed_at r = None
  | EXECUTED | FAILED => is_Some (rm_completed_at r)
  end.

Definition actions_wf (db : Db) : Prop :=
  map_Forall (fun _ r => action_wf r) (remediation_actions db).

Lemma actions_wf_stable c f : stable c f actions_wf.
Proof.
  intros db db' Hwf Hs. unfold actions_wf.
  destruct (step_actions _ _ _ _ Hs) as [|e p id aid a reason now He Hp Hid Ha Hrem Hv
    |id r st reason t Hid Hd Hst|ids _]; auto with pulse.
  - apply map_Forall_insert_2; [|done]. unfold action_wf. simpl. destruct reason; by eauto.
  - apply map_Forall_insert_2; [|done]. unfold action_wf. simpl.
    destruct Hst as [-> | ->]; by eauto.
Qed.

(** ** The hourly rate limit *)

(** A dispatched action of the node created within the hour from [since]. *)
Definition in_hour (node_id : string) (since : datetime) (r : RemediationActionModel) : Prop :=
  rm_node_id r = node_id /\ rm_status r <> BLOCKED_BY_SAFETY_LIMIT /\
  since <= rm_created_at r <= since + hours 1.

#[export] Instance in_hour_dec n s r : Decision (in_hour n s r).
Proof. unfold in_hour. apply _. Defined.

Definition rate_limited (c : LifecycleConfig) (db : Db) : Prop :=
  forall e, lc_engine c = Some e -> forall node_id since,
    Z.of_nat (count (in_hour node_id since) (remediation_actions db)) <=
    Z.max 0 (_max_actions_per_node_per_hour e).

Lemma in_hour_complete node since st reason t r :
  rm_status r = DISPATCHED -> st = EXECUTED \/ st = FAILED ->
  in_hour node since (completed st reason t r) <-> in_hour node since r.
Proof. unfold in_hour. intros Hd Hst. simpl. rewrite Hd. destruct Hst as [-> | ->]; naive_solver. Qed.

(** A new row within the limit. *)
Lemma rate_limited_insert e db k row node since :
  remediation_actions db !! k = None ->
  (rm_status row <> BLOCKED_BY_SAFETY_LIMIT ->
   below_rate e db (rm_node_id row) (rm_created_at row)) ->
  Z.of_nat (count (in_hour node since) (remediation_actions db)) <=
    Z.max 0 (_max_actions_per_node_per_hour e) ->
  Z.of_nat (count (in_hour node since) (<[k := row]> (remediation_actions db))) <=
    Z.max 0 (_max_actions_per_node_per_hour e).
Proof.
  intros Hk Hbelow Hle. rewrite count_insert by done.
  case_bool_decide as Hin; [|lia]. destruct Hin as (<- & Hb & Hlo & Hhi).
  specialize (Hbelow Hb). unfold below_rate, hourly_count in Hbelow.
  assert (count (in_hour (rm_node_id row) since) (remediation_actions db) <=
    count (recent_action (rm_node_id row) (rm_created_at row - hours 1))
      (remediation_actions db))%nat as Hmono.
  { apply count_mono. intros r (? & _ & ?). split; [done|]. lia. }
  unfold count in Hmono at 2. lia.
Qed.

Lemma rate_limited_stable c f : stable c f (rate_limited c).
Proof.
  intros db db' Hrl Hs e He node since. specialize (Hrl e He node since).
  destruct (step_actions _ _ _ _ Hs) as [|e' p id aid a reason now He' Hp Hid Ha Hrem Hv
    |id r st reason t Hid Hd Hst|ids _]; [done| | |].
  - assert (e' = e) as -> by congruence. apply rate_limited_insert; [done| |done].
    simpl. destruct reason as [msg|]; [done|]. by destruct Hv.
  - by rewrite (count_update _ _ r) by (done || by apply in_hour_complete).
  - pose proof (count_without (in_hour node since) ids (remediation_actions db)). lia.
Qed.

Lemma rate_limited_empty c : rate_limited c empty_db.
Proof. intros e _ n s. simpl. rewrite count_empty. lia. Qed.

(** ** The cooldown *)

(** Two dispatched actions of one playbook on one node are a cooldown apart. *)
Definition cooled (c : LifecycleConfig) (db : Db) : Prop :=
  forall e, lc_engine c = Some e -> forall k1 r1 k2 r2, k1 <> k2 ->
    remediation_actions db !! k1 = Some r1 -> remediation_actions db !! k2 = Some r2 ->
    rm_node_id r1 = rm_node_id r2 -> rm_playbook_name r1 = rm_playbook_name r2 ->
    rm_status r1 <> BLOCKED_BY_SAFETY_LIMIT -> rm_status r2 <> BLOCKED_BY_SAFETY_LIMIT ->
    rm_created_at r1 <= rm_created_at r2 ->
    _cooldown_seconds e <=. total_seconds (rm_created_at r2 - rm_created_at r1).

Lemma not_flt_fle cd td :
  is_nan cd = false -> flt (total_seconds td) cd = false -> cd <=. total_seconds td.
Proof. intros Hn Hf. apply flt_false_fle; auto with pulse. Qed.

(** What the verdict gives for the new action against an older or a "later" one. *)
Lemma cooled_down_both e db node name now k r :
  is_nan (_cooldown_seconds e) = false -> cooled_down e db node name now ->
  remediation_actions db !! k = Some r -> of_playbook node name r ->
  forall d, d = now - rm_created_at r \/ (d = rm_created_at r - now /\ 0 <= d) ->
  _cooldown_seconds e <=. total_seconds d.
Proof.
  intros Hnan Hcd Hk Hof d Hd. specialize (Hcd _ _ Hk Hof). apply not_flt_fle in Hcd; [|done].
  destruct Hd as [->|[-> Hpos]]; [done|].
  eapply fle_trans; [apply Hcd|]. apply total_seconds_mono. lia.
Qed.

(** A new row after the cooldown. *)
Lemma cooled_insert c e db k row :
  lc_engine c = Some e -> is_nan (_cooldown_seconds e) = false ->
  (rm_status row <> BLOCKED_BY_SAFETY_LIMIT ->
   cooled_down e db (rm_node_id row) (rm_playbook_name row) (rm_created_at row)) ->
  cooled c db -> cooled c (set_actions (<[k := row]> (remediation_actions db)) db).
Proof.
  intros He Hnan Hcd Hcl e' He' k1 r1 k2 r2 Hne. assert (e' = e) as -> by congruence. simpl.
  rewrite !lookup_insert_Some.
  intros [[<- <-]|[Hk1 H1]] [[<- <-]|[Hk2 H2]]; try done; [| |exact (Hcl e He k1 r1 k2 r2 Hne H1 H2)];
    intros Hn Hpb Hb1 Hb2 Hle;
    (eapply cooled_down_both; [exact Hnan|by apply Hcd|eassumption|split; congruence|lia]).
Qed.

Lemma cooled_stable c f :
  (forall e, lc_engine c = Some e -> is_nan (_cooldown_seconds e) = false) ->
  stable c f (cooled c).
Proof.
  intros Hnan db db' Hcl0 Hs e He. pose proof (Hcl0 e He) as Hcl. specialize (Hnan e He).
  destruct (step_actions _ _ _ _ Hs) as [|e' p id aid a reason now He' Hp Hid Ha Hrem Hv
    |id r st reason t Hid Hd Hst|ids _]; [done| | |]; intros k1 r1 k2 r2 Hne.
  - assert (e' = e) as -> by congruence.
    refine (cooled_insert c e db id _ He Hnan _ Hcl0 e He k1 r1 k2 r2 Hne).
    simpl. destruct reason as [msg|]; [done|]. by destruct Hv.
  - rewrite !lookup_insert_Some.
    intros [[<- <-]|[Hk1 H1]] [[<- <-]|[Hk2 H2]]; simpl; try done; intros;
      eapply (Hcl _ _ _ _ Hne); eauto; congruence.
  - rewrite !lookup_without. intros [H1 _] [H2 _]. exact (Hcl _ _ _ _ Hne H1 H2).
Qed.

Lemma cooled_empty c : cooled c empty_db.
Proof. intros e _ k1 r1 k2 r2 _ H1. simpl in H1. by rewrite lookup_empty in H1. Qed.

(** ** One remediation attempt per alert *)

(** An alert without a remediation stamp has no action, and no alert has two. *)
Definition attempted_once (db : Db) : Prop :=
  (forall id a, alerts db !! id = Some a -> am_remediated_at a = None -> ~ referenced db id) /\
  (forall k1 r1 k2 r2, remediation_actions db !! k1 = Some r1 ->
     remediation_actions db !! k2 = Some r2 -> rm_alert_id r1 = rm_alert_id r2 -> k1 = k2).

Lemma referenced_spec db id :
  referenced db id <-> exists k r, remediation_actions db !! k = Some r /\ rm_alert_id r = id.
Proof.
  unfold referenced. rewrite Exists_exists. split.
  - intros (r & [k Hk]%elem_of_rows & Hr). eauto.
  - intros (k & r & Hk & Hr). exists r. split; [|done]. apply elem_of_rows. eauto.
Qed.

(** A reference in the tables of a step was one before, or is the new decision's. *)
Lemma referenced_update db k r r' id t :
  remediation_actions db !! k = Some r -> rm_alert_id r' = rm_alert_id r ->
  referenced (set_actions (<[k := r']> (remediation_actions db)) t) id -> referenced db id.
Proof.
  intros Hk Hr. rewrite !referenced_spec. simpl. intros (k' & x & Hx & Hid).
  apply lookup_insert_Some in Hx as [[<- <-]|[_ Hx]]; [|by eauto]. exists k, r. by rewrite <- Hr.
Qed.

Lemma attempted_once_update db k r r' :
  remediation_actions db !! k = Some r -> rm_alert_id r' = rm_alert_id r ->
  attempted_once db ->
  attempted_once (set_actions (<[k := r']> (remediation_actions db)) db).
Proof.
  intros Hk Hr [Hno Hone]. split.
  - intros id a Ha Hrem Href. eapply Hno; [done..|]. by eapply referenced_update.
  - simpl. intros k1 r1 k2 r2.
    rewrite !lookup_insert_Some. intros [[<- <-]|[Hk1 H1]] [[<- <-]|[Hk2 H2]] Heq; try done.
    + exfalso. apply Hk2. eapply (Hone k r k2 r2); [done..|congruence].
    + exfalso. apply Hk1. symmetry. eapply (Hone k1 r1 k r); [done..|congruence].
    + by eapply Hone.
Qed.

Lemma attempted_once_remediate db id a row now k :
  alerts db !! id = Some a -> am_remediated_at a = None ->
  remediation_actions db !! k = None -> rm_alert_id row = id ->
  attempted_once db ->
  attempted_once (set_alerts (<[id := remediated now a]> (alerts db))
    (set_actions (<[k := row]> (remediation_actions db)) db)).
Proof.
  intros Ha Hnone Hk Hrow [Hno Hone].
  assert (forall k' r', remediation_actions db !! k' = Some r' -> rm_alert_id r' <> id) as Hnr.
  { intros k' r' Hk' Hid. apply (Hno _ _ Ha Hnone), referenced_spec. eauto. }
  split; simpl.
  - intros id' a' [[<- <-]|[Hne Ha']]%lookup_insert_Some Hrem; [done|].
    intros (k' & r' & Hr' & Hid)%referenced_spec. simpl in Hr'.
    apply lookup_insert_Some in Hr' as [[<- <-]|[_ Hr']]; [congruence|].
    apply (Hno _ _ Ha' Hrem), referenced_spec. eauto.
  - intros k1 r1 k2 r2. rewrite !lookup_insert_Some.
    intros [[<- <-]|[Hk1 H1]] [[<- <-]|[Hk2 H2]] Heq; try done.
    + exfalso. eapply Hnr; [exact H2|congruence].
    + exfalso. eapply Hnr; [exact H1|congruence].
    + by eapply Hone.
Qed.

Lemma attempted_once_step c db db' :
  foreign_keys db -> attempted_once db -> step c False db db' -> attempted_once db'.
Proof.
  intros Hfk Honce Hs. destruct Hs as
    [n t|n samples ct rt ids Hn Hl Hnd Hfresh|id n k kind sev desc v b t Hid Hn Hopen
    |id a a' Ha Hf Hst|id a now rec db' Ha Hr Hd|id a now rec db' Hfy Ha Hr Hd
    |id r st reason t Hr Hd Hst|ids Hret Hids|ids Hret Hids|ids Hret]; try done.
  - destruct Honce as [Hno Hone]. split; [|done]. simpl.
    intros id' a' [[<- <-]|[Hne Ha']]%lookup_insert_Some Hrem; [|exact (Hno _ _ Ha' Hrem)].
    intros (k' & r & Hr & Hal)%referenced_spec. simpl in Hr.
    destruct (proj1 (proj2 Hfk) _ _ Hr) as [_ [x Hx]]. congruence.
  - destruct Honce as [Hno Hone]. split; [|done]. simpl.
    intros id' a0 [[<- <-]|[Hne Ha']]%lookup_insert_Some Hrem; [|exact (Hno _ _ Ha' Hrem)].
    apply (Hno _ _ Ha). destruct Hst; exact Hrem.
  - destruct Hd as (e & p & He & Hen & Hp & k & reason & Hk & Hv & _ & -> & _).
    apply (attempted_once_remediate db id a _ now k); try done. apply Hr.
  - by eapply attempted_once_update.
  - destruct Honce as [Hno Hone]. split; [|done]. simpl.
    intros id a [Ha _]%lookup_without Hrem. exact (Hno _ _ Ha Hrem).
  - destruct Honce as [Hno Hone]. split; simpl.
    + intros id a Ha Hrem Href. apply (Hno _ _ Ha Hrem).
      apply referenced_spec in Href as (k & r & [Hk _]%lookup_without & Hr).
      apply referenced_spec. eauto.
    + intros k1 r1 k2 r2. rewrite !lookup_without. intros [H1 _] [H2 _]. by eapply Hone.
Qed.

Lemma attempted_once_stable c : stable c False (fun db => foreign_keys db /\ attempted_once db).
Proof.
  apply stable_and; [apply foreign_keys_stable|]. intros db db'. apply attempted_once_step.
Qed.

Lemma attempted_once_empty : attempted_once empty_db.
Proof.
  split; [intros k x Hx|intros k x k2 x2 Hx]; simpl in Hx; by rewrite lookup_empty in Hx.
Qed.

(** A stamped alert has an action. *)
Definition stamped_referenced (db : Db) : Prop :=
  forall id a, alerts db !! id = Some a -> is_Some (am_remediated_at a) -> referenced db id.

Lemma referenced_insert db k row id t :
  remediation_actions db !! k = None \/
    (exists r, remediation_actions db !! k = Some r /\ rm_alert_id r = rm_alert_id row) ->
  referenced db id -> referenced (set_actions (<[k := row]> (remediation_actions db)) t) id.
Proof.
  rewrite !referenced_spec. intros Hk (k' & r & Hr & Hid). simpl. destruct (decide (k = k')) as [->|Hne].
  - destruct Hk as [Hk|(r0 & Hk & Heq)]; [congruence|].
    exists k', row. split; [apply lookup_insert_eq|congruence].
  - exists k', r. by rewrite lookup_insert_ne.
Qed.

Lemma stamped_referenced_stable c f :
  lc_retention c = false -> stable c f stamped_referenced.
Proof.
  intros Hret db db' Hi Hs. destruct Hs as
    [n t|n samples ct rt ids Hn Hl Hnd Hfresh|id n k kind sev desc v b t Hid Hn Hopen
    |id a a' Ha Hf Hst|id a now rec db' Ha Hr Hd|id a now rec db' Hfy Ha Hr Hd
    |id r st reason t Hr Hd Hst|ids Hret' Hids|ids Hret' Hids|ids Hret']; try congruence; try done.
  - intros id' a'. simpl. intros [[<- <-]|[_ Ha']]%lookup_insert_Some Hrem; [by destruct Hrem|].
    by apply (Hi _ _ Ha').
  - intros id' x. simpl. intros [[<- <-]|[_ Hx]]%lookup_insert_Some Hrem; [|by apply (Hi _ _ Hx)].
    apply (Hi _ _ Ha). by destruct Hst.
  - destruct Hd as (e & p & _ & _ & _ & k & reason & Hk & _ & _ & -> & _).
    intros id' x. simpl. intros [[<- <-]|[_ Hx]]%lookup_insert_Some Hrem.
    + apply referenced_spec. eexists k, _. split; [apply lookup_insert_eq|done].
    + apply (referenced_insert db k _ id'); [by left|]. by apply (Hi _ _ Hx).
  - destruct Hd as (e & p & _ & _ & _ & k & reason & Hk & _ & _ & -> & _).
    intros id' x Hx Hrem. apply (referenced_insert db k _ id'); [by left|]. by apply (Hi _ _ Hx).
  - intros id' x Hx Hrem. apply (referenced_insert db id _ id'); [right; by exists r|].
    by apply (Hi _ _ Hx).
Qed.

(** ** What a step leaves alone *)

(** A row later: its identity is fixed, the one-shot stamps are never overwritten nor set once it
    is acknowledged, and a resolved alert is frozen. *)
Definition alert_kept (a a' : AlertModel) : Prop :=
  am_node_id a' = am_node_id a /\ am_rule_key a' = am_rule_key a /\
  am_first_fired_at a' = am_first_fired_at a /\
  (am_status a = RESOLVED -> a' = a) /\
  (forall t, am_escalated_at a = Some t -> am_escalated_at a' = Some t) /\
  (forall t, am_remediated_at a = Some t -> am_remediated_at a' = Some t) /\
  (is_Some (am_acknowledged_at a) -> is_Some (am_acknowledged_at a') /\
     am_escalated_at a' = am_escalated_at a /\ am_remediated_at a' = am_remediated_at a).

#[export] Instance alert_kept_preorder : PreOrder alert_kept.
Proof.
  split; [by intros a; repeat split|].
  intros a1 a2 a3 (N1 & K1 & F1 & R1 & E1 & M1 & A1) (N2 & K2 & F2 & R2 & E2 & M2 & A2).
  split_and!; try congruence; try by auto.
  - intros Hr. pose proof (R1 Hr) as ->. by apply R2.
  - intros Ha. destruct (A1 Ha) as (Ha2 & ? & ?). destruct (A2 Ha2) as (? & ? & ?).
    split_and!; congruence || done.
Qed.

Lemma alert_kept_update c a a' :
  am_status a = FIRING ->
  alert_step c a a' \/ (exists now, remediable c a now /\ a' = remediated now a) ->
  alert_kept a a'.
Proof.
  intros Hf Hu. destruct (update_id _ _ _ Hu) as (_ & Hn & Hk & Hff).
  split; [done|]. split; [done|]. split; [done|]. split; [congruence|].
  destruct Hu as [Hs|(now & (_ & Hack & Hrem & _) & ->)]; simpl.
  - destruct Hs as [v t|t Hack Hesc _|by_ t|t]; simpl; split; try done; try congruence;
      split; try done. rewrite Hack. by intros [].
  - split; [done|]. split; [congruence|]. rewrite Hack. by intros [].
Qed.

(** A row of the machine without retention stays, and is kept. *)
Lemma step_alert_kept c f db db' id a :
  lc_retention c = false -> step c f db db' -> alerts db !! id = Some a ->
  exists a', alerts db' !! id = Some a' /\ alert_kept a a'.
Proof.
  intros Hret Hs Ha. destruct (step_alerts _ _ _ _ Hs) as
    [|k n key kind sev desc v b t Hk Hno Hn|k x x' Hk Hf Hu|ids Hret' Hids]; [by exists a| | |congruence].
  - rewrite lookup_insert_ne, Ha by congruence. by exists a.
  - destruct (decide (k = id)) as [->|Hne].
    + rewrite lookup_insert_eq. simplify_eq. exists x'. split; [done|]. by eapply alert_kept_update.
    + rewrite lookup_insert_ne, Ha by done. by exists a.
Qed.

Lemma steps_alert_kept c f db db' id a :
  lc_retention c = false -> rtc (step c f) db db' -> alerts db !! id = Some a ->
  exists a', alerts db' !! id = Some a' /\ alert_kept a a'.
Proof.
  intros Hret Hs. revert a. induction Hs as [|d1 d2 d3 H12 _ IH]; intros a Ha; [by exists a|].
  destruct (step_alert_kept _ _ _ _ _ _ Hret H12 Ha) as (a2 & Ha2 & K12).
  destruct (IH a2 Ha2) as (a3 & Ha3 & K23). exists a3. split; [done|]. by etrans.
Qed.

(** An action later: what it was asked to do is fixed, and it changes once, from dispatched to
    executed or failed. *)
Definition action_kept (r r' : RemediationActionModel) : Prop :=
  r' = r \/ (rm_status r = DISPATCHED /\
    exists st reason t, (st = EXECUTED \/ st = FAILED) /\ r' = completed st reason t r).

#[export] Instance action_kept_preorder : PreOrder action_kept.
Proof.
  split; [by left|]. intros r1 r2 r3 [->|(Hd & st & reason & t & Hst & ->)] H23; [done|].
  destruct H23 as [->|(Hd' & _)]; [right; by eauto 10|]. simpl in Hd'.
  destruct Hst; congruence.
Qed.

Lemma step_action_kept c f db db' id r :
  lc_retention c = false -> step c f db db' -> remediation_actions db !! id = Some r ->
  exists r', remediation_actions db' !! id = Some r' /\ action_kept r r'.
Proof.
  intros Hret Hs Hr. destruct (step_actions _ _ _ _ Hs) as
    [|e p k aid a reason now He Hp Hk Ha Hrem Hv|k x st reason t Hk Hd Hst|ids Hret' Hids];
    [by exists r| | |congruence].
  - rewrite lookup_insert_ne, Hr by congruence. by exists r.
  - destruct (decide (k = id)) as [->|Hne].
    + rewrite lookup_insert_eq. simplify_eq. eexists. split; [done|]. right. eauto 10.
    + rewrite lookup_insert_ne, Hr by done. by exists r.
Qed.

Lemma steps_action_kept c f db db' id r :
  lc_retention c = false -> rtc (step c f) db db' -> remediation_actions db !! id = Some r ->
  exists r', remediation_actions db' !! id = Some r' /\ action_kept r r'.
Proof.
  intros Hret Hs. revert r. induction Hs as [|d1 d2 d3 H12 _ IH]; intros r Hr; [by exists r|].
  destruct (step_action_kept _ _ _ _ _ _ Hret H12 Hr) as (r2 & Hr2 & K12).
  destruct (IH r2 Hr2) as (r3 & Hr3 & K23). exists r3. split; [done|]. by etrans.
Qed.
