(* ===== verification/Conformance.v ===== *)
(** * Conformance to the lifecycle machine

    A computation conforms when, from any database with keyed rows and valid references,
    it moves the database by steps of the machine only, whatever its result.  The class
    of faulty steps is available exactly when the database engine is not [Healthy]. *)

From S2P Require Import Prelude PyFloat PyTime Domain Schema Runtime Protocols Tables.
From S2P Require Import Remediation Lifecycle Invariants.

Local Open Scope Z_scope.

Definition base (db : Db) : Prop := keyed db /\ foreign_keys db.

Lemma base_stable c f : stable c f base.
Proof.
  apply stable_and; [apply keyed_stable|]. intros db db' _. apply foreign_keys_stable.
Qed.

Lemma base_rtc c f db db' : base db -> rtc (step c f) db db' -> base db'.
Proof. intros Hb. by apply stable_rtc, Hb; apply base_stable. Qed.

Section conformance.
Context `{Env} (c : LifecycleConfig).

Abbreviation steps := (rtc (step c (~ Healthy))).

Definition conforms {A} (m : M A) : Prop :=
  forall w, base (w_db w) -> wp m (fun _ w' => steps (w_db w) (w_db w')) w.

Lemma conforms_ret {A} (a : A) : conforms (mret a).
Proof. intros w _. apply wp_ret. done. Qed.

Lemma conforms_raise {A} e : conforms (raise (A:=A) e).
Proof. intros w _. by apply wp_raise. Qed.

Lemma conforms_lift {A} (r : Res A) : conforms (lift r).
Proof. intros w _. by apply wp_lift. Qed.

Lemma conforms_bind {A B} (m : M A) (k : A -> M B) :
  conforms m -> (forall a, conforms (k a)) -> conforms (m ≫= k).
Proof.
  intros Hm Hk w Hb. apply wp_bind. eapply wp_mono; [by apply Hm|].
  intros [a|e] w' Hs; [|done].
  eapply wp_mono; [apply Hk; by eapply base_rtc|]. intros r w2 Hs2. by etrans.
Qed.

Lemma conforms_try {A} (m : M A) h :
  conforms m -> (forall e, conforms (h e)) -> conforms (m_try m h).
Proof.
  intros Hm Hh w Hb. apply wp_try. eapply wp_mono; [by apply Hm|].
  intros [a|e] w' Hs; [done|].
  eapply wp_mono; [apply Hh; by eapply base_rtc|]. intros r w2 Hs2. by etrans.
Qed.

Lemma conforms_iter {A} (f : A -> M unit) l :
  (forall x, conforms (f x)) -> conforms (m_iter f l).
Proof.
  intros Hf. induction l as [|x l IH]; simpl; [apply conforms_ret|]. by apply conforms_bind.
Qed.

Lemma conforms_fold {A B} (f : B -> A -> M B) l b :
  (forall b x, conforms (f b x)) -> conforms (m_fold f b l).
Proof.
  intros Hf. revert b. induction l as [|x l IH]; intros b; simpl; [apply conforms_ret|].
  apply conforms_bind; auto.
Qed.

Lemma conforms_reads {A} (m : M A) P : reads m P -> conforms m.
Proof.
  intros Hm w _. eapply wp_mono; [apply Hm|]. intros r w' [[Hdb _] _]. by rewrite Hdb.
Qed.

(** A computation that only reads, in whatever way it ends. *)
Lemma conforms_same {A} (m : M A) :
  (forall w, wp m (fun _ w' => w_db w' = w_db w) w) -> conforms m.
Proof. intros Hm w _. eapply wp_mono; [apply Hm|]. by intros r w' ->. Qed.

End conformance.

#[export] Hint Resolve conforms_ret conforms_raise conforms_lift conforms_bind conforms_try
  conforms_iter conforms_fold conforms_reads conforms_same : pulse.
