(* ===== verification/Races.v ===== *)
(** * What concurrent requests add to the lifecycle

    Between two repository calls of one request other requests move the database, so a guard
    the code checked may no longer hold when it acts: an alert is acknowledged after the
    check that it was not, a decision is recorded in one transaction and stamped in another,
    a result arrives for an action that was just timed out.  [race] has those transitions,
    with the guards that are left.  The safety invariants of the machine survive them. *)

From S2P Require Import Prelude PyFloat PyTime Domain Schema Runtime Protocols Tables.
From S2P Require Import Remediation Lifecycle Invariants Conformance.

Local Open Scope Z_scope.
Local Open Scope pulse_scope.

Section races.
Context (c : LifecycleConfig).

(** The alert may be handed to the engine at [now], unless it was acknowledged meanwhile. *)
Definition race_remediable (a : AlertModel) (now : datetime) : Prop :=
  am_status a = FIRING /\ am_remediated_at a = None /\
  aged a now (lc_remediation_after c) /\ remediation_on c /\
  (lc_escalation_after c <=. lc_remediation_after c -> is_Some (am_escalated_at a)).

Inductive race_alert_step (a : AlertModel) : AlertModel -> Prop :=
| race_acknowledge by_ t :                          (* it may be resolved by now *)
    race_alert_step a (acknowledged by_ t a)
| race_escalate t :                                 (* it may be acknowledged by now *)
    am_status a = FIRING -> am_escalated_at a = None -> aged a t (lc_escalation_after c) ->
    race_alert_step a (escalated t a)
| race_stamp now :                                  (* of a decision already recorded *)
    race_remediable a now -> race_alert_step a (remediated now a).

(** The row of a decision on the alert [a], whose key is [id]. *)
Definition decision_row (p : PlaybookDefinition) (k id : Z) (a : AlertModel)
    (reason : option string) (now : datetime) : RemediationActionModel :=
  new_action k (am_node_id a) id (am_rule_key a) (pb_playbook_name p) (pb_action_type p)
    (pb_parameters p) (if reason then BLOCKED_BY_SAFETY_LIMIT else DISPATCHED) reason now.

Inductive race (db : Db) : Db -> Prop :=
| race_alert id a a' :
    alerts db !! id = Some a -> race_alert_step a a' ->
    race db (set_alerts (<[id := a']> (alerts db)) db)
| race_decide id a now e p k reason :
    alerts db !! id = Some a -> race_remediable a now ->
    lc_engine c = Some e -> _enabled e = true -> _by_rule_key e !! am_rule_key a = Some p ->
    remediation_actions db !! k = None ->
    (reason = None -> cooled_down e db (am_node_id a) (pb_playbook_name p) now /\
                      below_rate e db (am_node_id a) now) ->
    foreign_keys (set_actions (<[k := decision_row p k id a reason now]>
      (remediation_actions db)) db) ->
    race db (set_actions (<[k := decision_row p k id a reason now]> (remediation_actions db)) db)
| race_complete id r status reason t :              (* it may be completed already *)
    remediation_actions db !! id = Some r -> rm_status r <> BLOCKED_BY_SAFETY_LIMIT ->
    status = EXECUTED \/ status = FAILED ->
    race db (set_actions (<[id := completed status reason t r]> (remediation_actions db)) db).

(** A move of the Collector when requests interleave. *)
Definition move (faulty : Prop) (db db' : Db) : Prop := step c faulty db db' \/ race db db'.

Definition race_stable (I : Db -> Prop) : Prop := forall db db', I db -> race db db' -> I db'.

Lemma move_stable f (I : Db -> Prop) : stable c f I -> race_stable I ->
  forall db db', I db -> move f db db' -> I db'.
Proof. intros Hs Hr db db' HI [?|?]; [by eapply Hs|by eapply Hr]. Qed.

Lemma moves_stable f (I : Db -> Prop) : stable c f I -> race_stable I ->
  forall db db', I db -> rtc (move f) db db' -> I db'.
Proof.
  intros Hs Hr db db' HI Hm. induction Hm as [|db1 db2 db3 H12 _ IH]; [done|].
  apply IH. by apply (move_stable f I Hs Hr db1).
Qed.

(** ** The alert side *)

Lemma race_alert_same a a' :
  race_alert_step a a' -> am_id a' = am_id a /\ am_node_id a' = am_node_id a /\
    am_rule_key a' = am_rule_key a /\ am_first_fired_at a' = am_first_fired_at a /\
    am_status a' = am_status a /\ am_resolved_at a' = am_resolved_at a.
Proof. by destruct 1. Qed.

Lemma race_alert_wf a a' : race_alert_step a a' -> alert_wf c a -> alert_wf c a'.
Proof.
  intros Hs (Hres & Hack & Hrem). destruct Hs as [by_ t|t Hf He _|now (Hf & _ & _ & Hon & Hesc)];
    (split; [|split]); simpl; try done.
  intros Hord _. by apply Hesc, Hord.
Qed.

(** ** The invariants survive *)

Lemma race_keyed : race_stable keyed.
Proof.
  intros db db' [Ha Hr] Hs. destruct Hs as [id a a' Hid Hst|id a now e p k reason|id r st reason t Hid].
  - split; [|done]. apply map_Forall_insert_2; [|done].
    rewrite (proj1 (race_alert_same _ _ Hst)). exact (Ha _ _ Hid).
  - split; [done|]. by apply map_Forall_insert_2.
  - split; [done|]. apply map_Forall_insert_2; [|done]. exact (Hr _ _ Hid).
Qed.

Lemma race_nodes db db' : race db db' -> nodes db' = nodes db.
Proof. by destruct 1. Qed.

Lemma race_nodes_keyed : race_stable nodes_keyed.
Proof. intros db db' Hk Hs. unfold nodes_keyed. by rewrite (race_nodes _ _ Hs). Qed.

Lemma race_foreign_keys : race_stable foreign_keys.
Proof.
  intros db db' Hfk Hs. destruct Hs as [id a a' Hid Hst|id a now e p k reason|id r st reason t Hid].
  - apply foreign_keys_set_alert; [done|].
    destruct (race_alert_same _ _ Hst) as (_ & -> & _). exact (proj1 Hfk _ _ Hid).
  - done.
  - apply foreign_keys_set_action; [done|]. exact (proj1 (proj2 Hfk) id r Hid).
Qed.

Lemma race_base : race_stable base.
Proof. intros db db' [Hk Hf] Hs. split; [by eapply race_keyed|by eapply race_foreign_keys]. Qed.

Lemma race_one_firing : race_stable one_firing.
Proof.
  intros db db' Hone Hs. destruct Hs as [id a a' Hid Hst| |]; [|done..].
  destruct (race_alert_same _ _ Hst) as (_ & En & Ek & _ & Es & _).
  by apply (one_firing_update _ _ a); [..|congruence].
Qed.

Lemma race_alerts_wf : race_stable (alerts_wf c).
Proof.
  intros db db' Hwf Hs. destruct Hs as [id a a' Hid Hst| |]; [|done..].
  apply map_Forall_insert_2; [|done]. eapply race_alert_wf; [done|exact (Hwf _ _ Hid)].
Qed.

Lemma race_actions_wf : race_stable actions_wf.
Proof.
  intros db db' Hwf Hs. destruct Hs as [|id a now e p k reason|id r st reason t Hid Hb Hst]; [done|..].
  - apply map_Forall_insert_2; [|done]. unfold action_wf. simpl. destruct reason; by eauto.
  - apply map_Forall_insert_2; [|done]. unfold action_wf. simpl.
    destruct Hst as [-> | ->]; by eauto.
Qed.

Lemma in_hour_completed node since st reason t r :
  rm_status r <> BLOCKED_BY_SAFETY_LIMIT -> st = EXECUTED \/ st = FAILED ->
  in_hour node since (completed st reason t r) <-> in_hour node since r.
Proof. unfold in_hour. intros Hb Hst. simpl. destruct Hst as [-> | ->]; naive_solver. Qed.

Lemma race_rate_limited : race_stable (rate_limited c).
Proof.
  intros db db' Hrl Hs e He node since. specialize (Hrl e He node since).
  destruct Hs as [|id a now e' p k reason Ha Hr He' _ _ Hk Hv _|id r st reason t Hid Hb Hst]; [done|..].
  - assert (e' = e) as -> by congruence. apply rate_limited_insert; [done| |done].
    simpl. destruct reason; [done|]. intros _. by apply Hv.
  - simpl. by rewrite (count_update _ _ r) by (done || by apply in_hour_completed).
Qed.

Lemma race_cooled :
  (forall e, lc_engine c = Some e -> is_nan (_cooldown_seconds e) = false) ->
  race_stable (cooled c).
Proof.
  intros Hnan db db' Hcl Hs.
  destruct Hs as [|id a now e p k reason Ha Hr He _ _ Hk Hv _|id r st reason t Hid Hb Hst]; [done|..].
  - apply (cooled_insert c e); [done|by apply Hnan| |done].
    simpl. destruct reason; [done|]. intros _. by apply Hv.
  - intros e He k1 r1 k2 r2 Hne. simpl. rewrite !lookup_insert_Some.
    intros [[<- <-]|[Hk1 H1]] [[<- <-]|[Hk2 H2]]; simpl; try done; intros;
      eapply (Hcl e He _ _ _ _ Hne); eauto; congruence.
Qed.

(** ** What a move keeps *)

(** What the row of an alert keeps: its identity, and its stamps once set; it never fires
    again. *)
Definition alert_persists (a a' : AlertModel) : Prop :=
  am_id a' = am_id a /\ am_node_id a' = am_node_id a /\ am_rule_key a' = am_rule_key a /\
  am_first_fired_at a' = am_first_fired_at a /\
  (am_status a = RESOLVED -> am_status a' = RESOLVED /\ am_resolved_at a' = am_resolved_at a) /\
  (forall t, am_escalated_at a = Some t -> am_escalated_at a' = Some t) /\
  (forall t, am_remediated_at a = Some t -> am_remediated_at a' = Some t) /\
  (is_Some (am_acknowledged_at a) -> is_Some (am_acknowledged_at a')).

#[export] Instance alert_persists_preorder : PreOrder alert_persists.
Proof.
  split; [by intros a|]. intros a b d (?&?&?&?&Hr&?&?&?) (?&?&?&?&Hr'&?&?&?).
  split; [congruence|]. split; [congruence|]. split; [congruence|]. split; [congruence|].
  split; [|auto]. intros Ha. destruct (Hr Ha) as [Hb Hb']. destruct (Hr' Hb) as [-> ->]. done.
Qed.

Lemma race_alert_persists a a' : race_alert_step a a' -> alert_persists a a'.
Proof.
  intros Hs. destruct (race_alert_same _ _ Hs) as (Hi & Hn & Hk & Hff & Hst & Hr).
  split; [done|]. split; [done|]. split; [done|]. split; [done|]. split; [by rewrite Hst, Hr|].
  destruct Hs as [|t _ Hno _|t (_ & Hno & _)]; simpl; split_and!; try done; congruence.
Qed.

End races.
