(* ===== verification/Settings.v ===== *)
(** * Collector settings ([collector/config.py])

    The fields the Collector's logic reads, the field constraints and the four model
    validators of [CollectorSettings], and the token set.  Reading the environment and the
    [.env] file is pydantic-settings' and is not modelled: a [CollectorSettings] is the raw
    value of every field, [validate_settings] what construction does with it. *)

From S2P Require Import Prelude PyFloat PyTime PyStr Domain Schema Runtime.

Local Open Scope Z_scope.

(** ["dev" | "staging" | "prod"]. *)
Inductive Environment := DEV | STAGING | PROD.

#[export] Instance Environment_eq_dec : EqDecision Environment.
Proof. solve_decision. Defined.

Record CollectorSettings := {
  environment : Environment;
  api_tokens : string;
  heartbeat_stale_after_seconds : float;
  rules_config_path : string;
  telegram_bot_token : option string;
  telegram_chat_id : option string;
  escalation_after_seconds : float;
  remediation_enabled : bool;
  remediation_policy_config_path : string;
  remediation_after_seconds : float;
  max_remediations_per_node_per_hour : Z;
  remediation_cooldown_seconds : float;
  retention_enabled : bool;
  metrics_retention_days : Z;
  resolved_alerts_retention_days : Z;
  remediation_actions_retention_days : Z;
  retention_interval_seconds : float;
  retention_batch_size : Z;
  staleness_alerting_enabled : bool;
  staleness_check_interval_seconds : float;
  remediation_reconciliation_enabled : bool;
  reconciliation_interval_seconds : float;
  remediation_dispatch_timeout_seconds : float;
}.

(** The two default paths: files of the package's own directory, which is [/app/collector] in
    the container image. *)
Definition _DEFAULT_RULES_CONFIG_PATH : string := "/app/collector/rules/default_rules.json".
Definition _DEFAULT_REMEDIATION_POLICY_PATH : string :=
  "/app/collector/remediation/default_playbooks.json".

(** Every field at its default. *)
Definition default_settings : CollectorSettings :=
  {| environment := DEV;
     api_tokens := EmptyString;
     heartbeat_stale_after_seconds := DEFAULT_HEARTBEAT_STALE_AFTER_SECONDS;
     rules_config_path := _DEFAULT_RULES_CONFIG_PATH;
     telegram_bot_token := None;
     telegram_chat_id := None;
     escalation_after_seconds := DEFAULT_ESCALATION_AFTER_SECONDS;
     remediation_enabled := false;
     remediation_policy_config_path := _DEFAULT_REMEDIATION_POLICY_PATH;
     remediation_after_seconds := DEFAULT_REMEDIATION_AFTER_SECONDS;
     max_remediations_per_node_per_hour := DEFAULT_MAX_REMEDIATIONS_PER_NODE_PER_HOUR;
     remediation_cooldown_seconds := DEFAULT_REMEDIATION_COOLDOWN_SECONDS;
     retention_enabled := false;
     metrics_retention_days := DEFAULT_METRICS_RETENTION_DAYS;
     resolved_alerts_retention_days := DEFAULT_RESOLVED_ALERTS_RETENTION_DAYS;
     remediation_actions_retention_days := DEFAULT_REMEDIATION_ACTIONS_RETENTION_DAYS;
     retention_interval_seconds := DEFAULT_RETENTION_INTERVAL_SECONDS;
     retention_batch_size := DEFAULT_RETENTION_BATCH_SIZE;
     staleness_alerting_enabled := false;
     staleness_check_interval_seconds := DEFAULT_STALENESS_CHECK_INTERVAL_SECONDS;
     remediation_reconciliation_enabled := false;
     reconciliation_interval_seconds := DEFAULT_RECONCILIATION_INTERVAL_SECONDS;
     remediation_dispatch_timeout_seconds := DEFAULT_REMEDIATION_DISPATCH_TIMEOUT_SECONDS |}.

Definition comma : Ascii.ascii := Ascii.ascii_of_N 44.

(** [token_set]: the stripped entries of [api_tokens] that are not blank. *)
Definition token_set (s : CollectorSettings) : gset string :=
  list_to_set (filter (fun t => t <> EmptyString) (strip <$> split_on comma (api_tokens s))).

(** [bool(x)] of an optional string: neither [None] nor empty. *)
Definition truthy (x : option string) : bool :=
  match x with Some (String _ _) => true | _ => false end.

Definition notifications_enabled (s : CollectorSettings) : bool :=
  truthy (telegram_bot_token s) && truthy (telegram_chat_id s).

Section settings.

(** Whether pydantic lets NaN through a [ge]/[gt] constraint, which its documentation
    leaves open. *)
Context (nan_ok : bool).

Definition ge (x bound : float) : bool := if is_nan x then nan_ok else fge x bound.
Definition gt (x bound : float) : bool := if is_nan x then nan_ok else fgt x bound.

(** The [ge]/[gt] constraints of the fields. *)
Definition field_constraints (s : CollectorSettings) : bool :=
  let zero := float_of_Z 0 in
  ge (escalation_after_seconds s) zero &&
  ge (remediation_after_seconds s) zero &&
  (1 <=? max_remediations_per_node_per_hour s) &&
  ge (remediation_cooldown_seconds s) zero &&
  (1 <=? metrics_retention_days s) &&
  (1 <=? resolved_alerts_retention_days s) &&
  (1 <=? remediation_actions_retention_days s) &&
  gt (retention_interval_seconds s) zero &&
  (1 <=? retention_batch_size s) &&
  gt (staleness_check_interval_seconds s) zero &&
  gt (reconciliation_interval_seconds s) zero &&
  gt (remediation_dispatch_timeout_seconds s) zero.

Definition _require_tokens_outside_dev (s : CollectorSettings) : Res unit :=
  if bool_decide (environment s <> DEV) && bool_decide (token_set s = ∅)
  then Raise (ConfigurationError "api_tokens must be set when environment is not 'dev'")
  else Ok tt.

Definition _require_telegram_both_or_neither (s : CollectorSettings) : Res unit :=
  if xorb (truthy (telegram_bot_token s)) (truthy (telegram_chat_id s))
  then Raise (ConfigurationError
         "telegram_bot_token and telegram_chat_id must both be set, or neither")
  else Ok tt.

Definition _require_alert_retention_within_remediation_retention (s : CollectorSettings)
    : Res unit :=
  if retention_enabled s &&
     (remediation_actions_retention_days s <? resolved_alerts_retention_days s)
  then Raise (ConfigurationError
    "resolved_alerts_retention_days must be <= remediation_actions_retention_days — an alert must never be pruned while remediation audit rows still reference it (remediation_actions.alert_id is a foreign key)")
  else Ok tt.

Definition _require_remediation_after_escalation (s : CollectorSettings) : Res unit :=
  if remediation_enabled s && flt (remediation_after_seconds s) (escalation_after_seconds s)
  then Raise (ConfigurationError
    "remediation_after_seconds must be >= escalation_after_seconds — remediation must never fire before a human has had a chance to acknowledge")
  else Ok tt.

(** Construction: the field constraints (a [ValidationError], which is a [ValueError]), then
    the model validators in the order of their definition. *)
Definition validate_settings (s : CollectorSettings) : Res CollectorSettings :=
  if negb (field_constraints s) then Raise (ValueError "validation error for CollectorSettings")
  else match _require_tokens_outside_dev s with
  | Raise e => Raise e
  | Ok _ =>
  match _require_telegram_both_or_neither s with
  | Raise e => Raise e
  | Ok _ =>
  match _require_alert_retention_within_remediation_retention s with
  | Raise e => Raise e
  | Ok _ =>
  match _require_remediation_after_escalation s with
  | Raise e => Raise e
  | Ok _ => Ok s
  end end end end.

(** ** What accepted settings guarantee *)

(** The bounds the fields declare, on the values themselves. *)
Definition at_least_zero (x : float) : Prop :=
  match x with
  | SpecFloat.S754_zero _ => True
  | SpecFloat.S754_infinity negative | SpecFloat.S754_finite negative _ _ => negative = false
  | SpecFloat.S754_nan => nan_ok = true
  end.

Definition above_zero (x : float) : Prop :=
  match x with SpecFloat.S754_zero _ => False | _ => at_least_zero x end.

Lemma ge_zero x : ge x (float_of_Z 0) = true <-> at_least_zero x.
Proof. unfold ge, is_nan. destruct x as [[]|[]| |[] m e]; by cbn. Qed.

Lemma gt_zero x : gt x (float_of_Z 0) = true <-> above_zero x.
Proof. unfold gt, is_nan. destruct x as [[]|[]| |[] m e]; by cbn. Qed.

Record within_bounds (s : CollectorSettings) : Prop := {
  wb_escalation : at_least_zero (escalation_after_seconds s);
  wb_remediation : at_least_zero (remediation_after_seconds s);
  wb_rate : 1 <= max_remediations_per_node_per_hour s;
  wb_cooldown : at_least_zero (remediation_cooldown_seconds s);
  wb_metrics_days : 1 <= metrics_retention_days s;
  wb_alerts_days : 1 <= resolved_alerts_retention_days s;
  wb_actions_days : 1 <= remediation_actions_retention_days s;
  wb_retention_interval : above_zero (retention_interval_seconds s);
  wb_batch : 1 <= retention_batch_size s;
  wb_staleness_interval : above_zero (staleness_check_interval_seconds s);
  wb_reconciliation_interval : above_zero (reconciliation_interval_seconds s);
  wb_timeout : above_zero (remediation_dispatch_timeout_seconds s);
}.

Lemma field_constraints_spec s : field_constraints s = true <-> within_bounds s.
Proof.
  unfold field_constraints. rewrite !andb_true_iff, !ge_zero, !gt_zero, !Z.leb_le.
  split; [intros; by split; tauto|intros []; tauto].
Qed.

(** A text that is given, and not empty. *)
Definition given (x : option string) : Prop := exists t, x = Some t /\ t <> EmptyString.

Lemma truthy_given x : truthy x = true <-> given x.
Proof.
  unfold given. destruct x as [[|c t]|]; simpl; naive_solver.
Qed.

(** The rules that relate fields: outside dev some entry of [api_tokens] is not blank; the bot
    token and the chat id come together; when retention runs, alerts are kept no longer than
    the actions that refer to them; when remediation is on, it does not come before
    escalation. *)
Record consistent_settings (s : CollectorSettings) : Prop := {
  cs_tokens : environment s = DEV \/
    exists part, part ∈ split_on comma (api_tokens s) /\ strip part <> EmptyString;
  cs_telegram : given (telegram_bot_token s) <-> given (telegram_chat_id s);
  cs_retention : retention_enabled s = true ->
    resolved_alerts_retention_days s <= remediation_actions_retention_days s;
  cs_remediation : remediation_enabled s = true ->
    flt (remediation_after_seconds s) (escalation_after_seconds s) = false;
}.

Lemma elem_of_token_set s t :
  t ∈ token_set s <-> t <> EmptyString /\ exists p, p ∈ split_on comma (api_tokens s) /\ t = strip p.
Proof.
  unfold token_set. rewrite elem_of_list_to_set, list_elem_of_filter, list_elem_of_fmap.
  naive_solver.
Qed.

Lemma token_set_given s :
  token_set s <> ∅ <-> exists part, part ∈ split_on comma (api_tokens s) /\ strip part <> EmptyString.
Proof.
  split.
  - intros [t Ht]%set_choose_L. apply elem_of_token_set in Ht as (Hne & p & Hp & ->). by exists p.
  - intros (p & Hp & Hne) Hempty. assert (strip p ∈ token_set s) as Hin.
    { apply elem_of_token_set. split; [done|by exists p]. }
    rewrite Hempty in Hin. by apply not_elem_of_empty in Hin.
Qed.

(** What each validator checks. *)
Lemma validators_spec s :
  (_require_tokens_outside_dev s = Ok tt <-> environment s = DEV \/ token_set s <> ∅) /\
  (_require_telegram_both_or_neither s = Ok tt <->
     truthy (telegram_bot_token s) = truthy (telegram_chat_id s)) /\
  (_require_alert_retention_within_remediation_retention s = Ok tt <->
     (retention_enabled s = true ->
      resolved_alerts_retention_days s <= remediation_actions_retention_days s)) /\
  (_require_remediation_after_escalation s = Ok tt <->
     (remediation_enabled s = true ->
      flt (remediation_after_seconds s) (escalation_after_seconds s) = false)).
Proof.
  unfold _require_tokens_outside_dev, _require_telegram_both_or_neither,
    _require_alert_retention_within_remediation_retention, _require_remediation_after_escalation.
  split_and!.
  - destruct (decide (environment s = DEV)), (decide (token_set s = ∅));
      rewrite ?bool_decide_true, ?bool_decide_false by tauto; simpl; naive_solver.
  - by destruct (truthy _), (truthy _).
  - destruct (retention_enabled s); simpl; [|naive_solver].
    destruct (Z.ltb_spec (remediation_actions_retention_days s) (resolved_alerts_retention_days s));
      split; intros; try done; lia.
  - destruct (remediation_enabled s); simpl; [|naive_solver].
    destruct (flt _ _); split; try done; naive_solver.
Qed.

(** A validator refuses with a [ConfigurationError]. *)
Definition refusal (r : Res unit) : Prop :=
  match r with Ok _ => True | Raise e => exists m, e = ConfigurationError m end.

Lemma validators_refuse s :
  refusal (_require_tokens_outside_dev s) /\ refusal (_require_telegram_both_or_neither s) /\
  refusal (_require_alert_retention_within_remediation_retention s) /\
  refusal (_require_remediation_after_escalation s).
Proof.
  unfold _require_tokens_outside_dev, _require_telegram_both_or_neither,
    _require_alert_retention_within_remediation_retention, _require_remediation_after_escalation.
  split_and!; case_match; by (eexists || exact I).
Qed.

Lemma consistent_settings_spec s :
  consistent_settings s <->
  _require_tokens_outside_dev s = Ok tt /\ _require_telegram_both_or_neither s = Ok tt /\
  _require_alert_retention_within_remediation_retention s = Ok tt /\
  _require_remediation_after_escalation s = Ok tt.
Proof.
  destruct (validators_spec s) as (-> & -> & -> & ->). rewrite token_set_given.
  assert (truthy (telegram_bot_token s) = truthy (telegram_chat_id s) <->
    (given (telegram_bot_token s) <-> given (telegram_chat_id s))) as ->.
  { rewrite <- !truthy_given. destruct (truthy _), (truthy _); naive_solver. }
  split; [by intros []|]. intros (? & ? & ? & ?). by split.
Qed.

Lemma validate_settings_sound s :
  match validate_settings s with
  | Ok s' => s' = s /\ within_bounds s /\ consistent_settings s
  | Raise e => (~ within_bounds s /\ exists m, e = ValueError m) \/
      (within_bounds s /\ ~ consistent_settings s /\ exists m, e = ConfigurationError m)
  end.
Proof.
  unfold validate_settings. destruct (field_constraints s) eqn:Ef; simpl.
  2: { left. split; [|by eexists]. intros Hb%field_constraints_spec. congruence. }
  apply field_constraints_spec in Ef. pose proof (consistent_settings_spec s) as Hcs.
  destruct (validators_refuse s) as (R1 & R2 & R3 & R4).
  destruct (_require_tokens_outside_dev s) as [[]|e1]; [|right; naive_solver].
  destruct (_require_telegram_both_or_neither s) as [[]|e2]; [|right; naive_solver].
  destruct (_require_alert_retention_within_remediation_retention s) as [[]|e3]; [|right; naive_solver].
  destruct (_require_remediation_after_escalation s) as [[]|e4]; [split_and!; [done|done|by apply Hcs]|right; naive_solver].
Qed.

(** C37: construction accepts exactly the settings whose fields are within their bounds (ages not
    negative, counts and days at least one, intervals and the time-out above zero) and that
    satisfy the four rules between fields (a token that is not blank outside dev, Telegram token
    and chat id together, alerts kept no longer than the actions that refer to them,
    remediation never before escalation), and returns them unchanged.  A field out of bounds
    is a [ValidationError], whatever else is wrong, and a broken rule a [ConfigurationError]. *)
Theorem validate_settings_spec s :
  match validate_settings s with
  | Ok s' => s' = s /\ within_bounds s /\ consistent_settings s
  | Raise e => (~ within_bounds s /\ exists m, e = ValueError m) \/
      (within_bounds s /\ ~ consistent_settings s /\ exists m, e = ConfigurationError m)
  end.
Proof. apply validate_settings_sound. Qed.

End settings.

(** The defaults are valid, as the service is started without any variable set. *)
Example default_settings_valid nan_ok : validate_settings nan_ok default_settings = Ok default_settings.
Proof. by destruct nan_ok. Qed.
