(* ===== verification/Logging.v ===== *)
(** * Logging set-up ([shared/logging/setup.py], [shared/config/base.py])

    What [configure_logging] decides from a service's settings: the level, the renderer, and
    whether to warn of a level that is none.  What structlog and [logging] do with it is
    theirs. *)

From S2P Require Import Prelude PyStr Domain Runtime Settings.

Local Open Scope string_scope.

(** [BaseServiceSettings]. *)
Record BaseServiceSettings := {
  bs_environment : Environment;
  bs_service_name : string;
  bs_log_level : string;
}.

Definition default_base_settings : BaseServiceSettings :=
  {| bs_environment := DEV; bs_service_name := "clusterpulse"; bs_log_level := "INFO" |}.

Definition _VALID_LEVELS : list string := ["DEBUG"; "INFO"; "WARNING"; "ERROR"; "CRITICAL"].

Inductive Renderer := ConsoleRenderer | JSONRenderer.

(** The [processors] of [structlog.configure], in order. *)
Inductive Processor :=
| MergeContextvars
| AddLogLevel
| TimeStamper (fmt : string)
| StackInfoRenderer
| Render (renderer : Renderer).

(** What the call leaves configured, and the warning it logs, if any. *)
Record LoggingSetup := {
  ls_level : Z;
  ls_processors : list Processor;
  ls_cached : bool;
  ls_warning : option (string * string);     (* configured, fallback *)
}.

(** [getattr(logging, name)], of the names the code asks for. *)
Definition logging_level (name : string) : Res Z :=
  match name with
  | "DEBUG" => Ok 10
  | "INFO" => Ok 20
  | "WARNING" => Ok 30
  | "ERROR" => Ok 40
  | "CRITICAL" => Ok 50
  | _ => Raise (OtherException "AttributeError")
  end%Z.

Section logging.
(** The upper case of the characters outside ASCII, by the interpreter's Unicode tables. *)
Context (unicode_upper : string -> string).

(** [s.upper()]: character by character, a character of one byte being ASCII. *)
Definition str_upper (s : string) : string :=
  String.concat EmptyString
    ((fun c => if Nat.eqb (String.length c) 1 then upper c else unicode_upper c) <$> chars s).

Definition configure_logging (settings : BaseServiceSettings) : Res LoggingSetup :=
  let configured_level := str_upper (bs_log_level settings) in
  let level_name := if bool_decide (configured_level ∈ _VALID_LEVELS)
                    then configured_level else "INFO" in
  match logging_level level_name with
  | Raise e => Raise e
  | Ok level =>
      let renderer := if bool_decide (bs_environment settings = DEV)
                      then ConsoleRenderer else JSONRenderer in
      Ok {| ls_level := level;
            ls_processors := [MergeContextvars; AddLogLevel; TimeStamper "iso"; StackInfoRenderer;
                              Render renderer];
            ls_cached := true;
            ls_warning := if bool_decide (configured_level <> level_name)
                          then Some (bs_log_level settings, level_name) else None |}
  end.

Lemma valid_level name : name ∈ _VALID_LEVELS -> exists level, logging_level name = Ok level.
Proof.
  unfold _VALID_LEVELS. rewrite !elem_of_cons, elem_of_nil.
  intros [->|[->|[->|[->|[->|[]]]]]]; by eexists.
Qed.

(** The set-up cannot end the process: it raises for no setting whatever.  A level that is
    one of the five, in any case, is used as it is and without a warning; any other falls
    back to INFO, with one warning that quotes it. *)
Lemma configure_logging_total settings :
  let name := str_upper (bs_log_level settings) in
  exists setup, configure_logging settings = Ok setup /\
    (name ∈ _VALID_LEVELS -> logging_level name = Ok (ls_level setup) /\ ls_warning setup = None) /\
    (name ∉ _VALID_LEVELS -> ls_level setup = 20%Z /\
       ls_warning setup = Some (bs_log_level settings, "INFO")) /\
    (Render ConsoleRenderer ∈ ls_processors setup <-> bs_environment settings = DEV).
Proof.
  intros name. unfold configure_logging. fold name.
  assert (forall x,
    Render ConsoleRenderer ∈ [MergeContextvars; AddLogLevel; TimeStamper "iso"; StackInfoRenderer;
      Render (if bool_decide (x = DEV) then ConsoleRenderer else JSONRenderer)] <-> x = DEV) as Hr.
  { intros x. rewrite !elem_of_cons, elem_of_nil. case_bool_decide; naive_solver. }
  destruct (decide (name ∈ _VALID_LEVELS)) as [Hv|Hv].
  - rewrite (bool_decide_eq_true_2 _ Hv). destruct (valid_level _ Hv) as [level Hl]. rewrite Hl.
    eexists. split; [done|]. split; [|split; [done|by apply Hr]].
    intros _. split; [done|]. simpl. rewrite bool_decide_false; [done|]. intros Hne. by apply Hne.
  - rewrite (bool_decide_eq_false_2 _ Hv). simpl. eexists. split; [done|].
    split; [done|]. split; [|by apply Hr]. intros _. split; [done|]. simpl.
    rewrite bool_decide_true; [done|]. intros Heq. apply Hv. rewrite Heq. set_solver.
Qed.

End logging.

Example lower_case_level :
  ls_level <$> match configure_logging (fun c => c)
    {| bs_environment := PROD; bs_service_name := "s"; bs_log_level := "warning" |} with
  | Ok s => Some s | Raise _ => None end = Some 30%Z.
Proof. by vm_compute. Qed.
