(* ===== verification/NodeRegistry.v ===== *)
(** * NodeRegistryService ([collector/services/node_registry.py])

    Which nodes are known and whether they still report in; staleness is computed at read
    time from [last_seen_at] and the Collector's clock. *)

From S2P Require Import Prelude PyFloat PyTime Domain Schema Runtime Protocols Tables.
From S2P Require Import Remediation Lifecycle Invariants Conformance.

Local Open Scope Z_scope.

Record NodeView := {
  nv_node_id : string;
  nv_first_seen_at : datetime;
  nv_last_seen_at : datetime;
  nv_is_stale : bool;
}.

Section node_registry.
Context `{E : Env, !NodeRepository} (stale_after_seconds : float).

(** The view of a record at the instant [now]. *)
Definition node_view (now : datetime) (record : NodeRecord) : NodeView :=
  {| nv_node_id := nr_node_id record;
     nv_first_seen_at := nr_first_seen_at record;
     nv_last_seen_at := nr_last_seen_at record;
     nv_is_stale := fgt (total_seconds (now - nr_last_seen_at record)) stale_after_seconds |}.

Definition node_to_view (record : NodeRecord) : M NodeView :=
  now ← utc_now; mret (node_view now record).

Definition record_seen (node_id : string) (seen_at : datetime) : M NodeView :=
  record ← upsert_seen node_id seen_at; node_to_view record.

Definition get_node (node_id : string) : M NodeView :=
  record ← node_get node_id;
  match record with
  | None => raise (NodeNotFoundError node_id)
  | Some record => node_to_view record
  end.

(** The list comprehension reads the clock once per record. *)
Fixpoint views (records : list NodeRecord) : M (list NodeView) :=
  match records with
  | [] => mret []
  | r :: rs => v ← node_to_view r; vs ← views rs; mret (v :: vs)
  end.

Definition list_nodes : M (list NodeView) := records ← list_all; views records.

(** ** Specifications *)

Lemma wp_node_to_view record Q w :
  (forall now w', w_db w' = w_db w -> w_posts w' = w_posts w -> Q (Ok (node_view now record)) w') ->
  wp (node_to_view record) Q w.
Proof. intros HQ. apply wp_bind. unfold wp at 1. simpl. by apply wp_ret, HQ. Qed.

(** Seeing a node registers it on the first sighting; later ones move [last_seen_at] to the
    time given, and leave [first_seen_at] alone. *)
Lemma record_seen_spec node_id seen_at w :
  wp (record_seen node_id seen_at) (fun r w' => w_posts w' = w_posts w /\
    match r with
    | Ok v => exists now, let node := seen_node (nodes (w_db w) !! node_id) node_id seen_at in
        w_db w' = set_nodes (<[node_id := node]> (nodes (w_db w))) (w_db w) /\
        v = node_view now (node_to_record node)
    | Raise e => is_persistence e /\ w_db w' = w_db w /\ ~ (Healthy /\ foreign_keys (w_db w))
    end) w.
Proof.
  unfold record_seen. wp_step upsert_seen_writes. intros [rec|e] w1 [Hp Hr]; [|done].
  destruct Hr as [-> Hdb]. apply wp_node_to_view. intros now w2 Hdb2 Hp2.
  split; [congruence|]. exists now. by rewrite Hdb2.
Qed.

(** The same as a transaction. *)
Lemma seen_writes node_id seen_at :
  writes (record_seen node_id seen_at) foreign_keys (fun db _ db' =>
    db' = set_nodes (<[node_id := seen_node (nodes db !! node_id) node_id seen_at]> (nodes db)) db).
Proof.
  intros w. eapply wp_mono; [apply record_seen_spec|]. intros [v|e] w' [Hp Hr]; (split; [done|]).
  - by destruct Hr as (now & -> & _).
  - done.
Qed.

Lemma record_seen_conforms c node_id seen_at : conforms c (record_seen node_id seen_at).
Proof.
  intros w _. eapply wp_mono; [apply record_seen_spec|].
  intros [v|e] w' [_ Hr].
  - destruct Hr as (now & -> & _). apply rtc_once, step_seen.
  - by destruct Hr as (_ & -> & _).
Qed.

(** A view's staleness flag is exactly "older than the threshold, now". *)
Lemma get_node_spec node_id w :
  wp (get_node node_id) (fun r w' => same_state w w' /\
    match r with
    | Ok v => exists now node, nodes (w_db w) !! node_id = Some node /\
        v = node_view now (node_to_record node)
    | Raise e => (e = NodeNotFoundError node_id /\ nodes (w_db w) !! node_id = None) \/
        (is_persistence e /\ ~ Healthy)
    end) w.
Proof.
  unfold get_node. wp_step node_get_reads. intros [o|e] w1 [Hs Hr].
  2: { split; [done|]. by right. }
  subst o. destruct (nodes (w_db w) !! node_id) as [node|] eqn:En; simpl.
  - apply wp_node_to_view. intros now w2 Hdb Hp. destruct Hs.
    split; [split; congruence|]. eauto.
  - apply wp_raise. split; [done|]. by left.
Qed.

End node_registry.

Section node_registry_properties.
Context `{E : Env, !NodeRepository}.

(** Seeing a node registers it on the first sighting and afterwards moves only its
    [last_seen_at], to the time given even when that is in the past of the one stored; the
    view's staleness is its age at the clock's reading, above the threshold. *)
Lemma record_seen_effect stale_after node_id seen_at w :
  wp (record_seen stale_after node_id seen_at) (fun r w' => w_posts w' = w_posts w /\
    match r with
    | Ok v => exists now, let node := seen_node (nodes (w_db w) !! node_id) node_id seen_at in
        w_db w' = set_nodes (<[node_id := node]> (nodes (w_db w))) (w_db w) /\
        nm_last_seen_at node = seen_at /\
        v = node_view stale_after now (node_to_record node)
    | Raise e => is_persistence e /\ w_db w' = w_db w /\ ~ (Healthy /\ foreign_keys (w_db w))
    end) w.
Proof.
  eapply wp_mono; [apply record_seen_spec|]. intros [v|e] w' [Hp Hr]; (split; [done|]); [|done].
  destruct Hr as (now & Hdb & Hv). exists now. split; [done|]. split; [|done].
  by destruct (nodes (w_db w) !! node_id).
Qed.

End node_registry_properties.
