(* ===== verification/RemediationService.v ===== *)
(** * RemediationActionService ([collector/services/remediation.py])

    Reads of the playbook audit log, and the Agent's report of a dispatched action. *)

From S2P Require Import Prelude PyFloat PyTime Domain Schema Runtime Protocols Tables.
From S2P Require Import Remediation Lifecycle Invariants Conformance.

Local Open Scope Z_scope.

(** [_RESULT_STATUS_TO_ACTION_STATUS]. *)
Definition _RESULT_STATUS_TO_ACTION_STATUS (s : ActionResultStatus) : RemediationActionStatus :=
  match s with RESULT_EXECUTED => EXECUTED | RESULT_FAILED => FAILED end.

Section remediation_service.
Context `{E : Env, !RemediationActionRepository}.

Definition get_action (action_id : Z) : M RemediationActionRecord :=
  record ← action_get action_id;
  match record with
  | None => raise (RemediationActionNotFoundError action_id)
  | Some record => mret record
  end.

Definition list_action_records (node_id : option string) : M (list RemediationActionRecord) :=
  list_actions node_id.

Definition report_result (action_id : Z) (result : ActionResult) : M RemediationActionRecord :=
  current ← get_action action_id;
  match rr_status current with
  | DISPATCHED =>
      now ← utc_now;
      mark_result action_id (_RESULT_STATUS_TO_ACTION_STATUS (res_status result))
        (res_message result) now
  | st => raise (RemediationActionNotDispatchedError action_id st)
  end.

(** What a report does, by the state of the action. *)
Definition report_outcome (action_id : Z) (result : ActionResult) (w : World)
    (r : Res RemediationActionRecord) (w' : World) : Prop :=
  match remediation_actions (w_db w) !! action_id with
  | None => r = Raise (RemediationActionNotFoundError action_id) /\ same_state w w'
  | Some a =>
      if decide (rm_status a = DISPATCHED) then
        exists now, let a' := completed (_RESULT_STATUS_TO_ACTION_STATUS (res_status result))
                                (res_message result) now a in
          r = Ok (action_to_record a') /\ w_posts w' = w_posts w /\
          w_db w' = set_actions (<[action_id := a']> (remediation_actions (w_db w))) (w_db w)
      else r = Raise (RemediationActionNotDispatchedError action_id (rm_status a)) /\ same_state w w'
  end.

Lemma report_result_spec_wp action_id result w :
  foreign_keys (w_db w) ->
  wp (report_result action_id result) (fun r w' => report_outcome action_id result w r w' \/
    exists e, r = Raise e /\ is_persistence e /\ ~ Healthy /\ same_state w w') w.
Proof.
  intros Hfk. unfold report_result, get_action, report_outcome. apply wp_bind.
  wp_step action_get_reads. intros [o|e] w1 [Hs1 Hr1].
  2: { right. exists e. destruct Hr1. done. }
  subst o. pose proof Hs1 as [Hdb1 Hp1].
  destruct (remediation_actions (w_db w) !! action_id) as [a|] eqn:Ea; simpl;
    [|by apply wp_raise; left].
  apply wp_ret. simpl.
  destruct (rm_status a) eqn:Est; simpl; try (by apply wp_raise; left).
  apply wp_bind. unfold wp at 1. simpl. eapply wp_mono; [apply mark_result_writes|].
  simpl. rewrite Hdb1. intros [rec|e] w2 [Hp2 Hr2].
  - left. destruct Hr2 as (a' & Ha' & -> & Hdb2). simplify_eq.
    exists (clock (w_tick w1)). split; [done|]. split; [congruence|done].
  - right. exists e. destruct Hr2 as (He & Hdb2 & Hn). split; [done|]. split; [done|].
    split; [|split; congruence]. intros Hh. apply Hn. split; [done|]. by rewrite Ea.
Qed.

Lemma report_result_conforms c action_id result : conforms c (report_result action_id result).
Proof.
  intros w [_ Hfk]. eapply wp_mono; [by apply report_result_spec_wp|].
  intros r w' [Ho|(e & _ & _ & _ & -> & _)]; [|done]. unfold report_outcome in Ho.
  destruct (remediation_actions (w_db w) !! action_id) as [a|] eqn:Ea; [|by destruct Ho as [_ [-> _]]].
  case_decide as Hd; [|by destruct Ho as [_ [-> _]]].
  destruct Ho as (now & _ & _ & ->). apply rtc_once. eapply step_complete; [done..|].
  destruct (res_status result); auto.
Qed.

End remediation_service.

Section remediation_service_properties.
Context `{E : Env, !RemediationActionRepository}.

(** C29: the service records a reported result exactly when the action is still dispatched, and
    then once: an unknown action is 404, any other status 409, both changing nothing.  So a
    result that comes after the reconciliation job gave its action up is refused, where
    [collector/jobs/reconciliation.py] and its documentation have it overwrite the verdict. *)
Theorem report_result_spec action_id result w :
  foreign_keys (w_db w) ->
  wp (report_result action_id result) (fun r w' => report_outcome action_id result w r w' \/
    exists e, r = Raise e /\ is_persistence e /\ ~ Healthy /\ same_state w w') w.
Proof. apply report_result_spec_wp. Qed.

End remediation_service_properties.
