(* ===== verification/Alerting.v ===== *)
(** * AlertEvaluationService ([collector/services/alerting.py])

    Applies rule-evaluation results to the alert lifecycle: opens, advances, escalates,
    remediates and resolves alerts, and acknowledges them.  The service is written
    against the repository and notifier interfaces; it is shown to conform to the machine
    of [Lifecycle], and each operation's result is given on every branch. *)

From S2P Require Import Prelude PyFloat PyTime Domain Schema Runtime Protocols Tables.
From S2P Require Import Rules Remediation Notifications Lifecycle Invariants Conformance.

Local Open Scope Z_scope.

Record AlertView := {
  av_id : Z;
  av_node_id : string;
  av_rule_key : string;
  av_rule_kind : RuleKind;
  av_severity : Severity;
  av_status : AlertStatus;
  av_description : string;
  av_triggering_value : float;
  av_bound : float;
  av_first_fired_at : datetime;
  av_last_fired_at : datetime;
  av_resolved_at : option datetime;
  av_acknowledged_at : option datetime;
  av_acknowledged_by : option string;
  av_escalated_at : option datetime;
  av_remediated_at : option datetime;
}.

Record EvaluationOutcome := {
  transitions : list AlertView;
  dispatched_actions : list RemediationActionRecord;
}.

Definition _to_view (record : AlertRecord) : AlertView :=
  {| av_id := ar_id record; av_node_id := ar_node_id record; av_rule_key := ar_rule_key record;
     av_rule_kind := ar_rule_kind record; av_severity := ar_severity record;
     av_status := ar_status record; av_description := ar_description record;
     av_triggering_value := ar_triggering_value record; av_bound := ar_bound record;
     av_first_fired_at := ar_first_fired_at record; av_last_fired_at := ar_last_fired_at record;
     av_resolved_at := ar_resolved_at record; av_acknowledged_at := ar_acknowledged_at record;
     av_acknowledged_by := ar_acknowledged_by record; av_escalated_at := ar_escalated_at record;
     av_remediated_at := ar_remediated_at record |}.

(** [x is not None]. *)
Definition is_set {A} (x : option A) : bool := match x with Some _ => true | None => false end.

Section alerting.
Context `{E : Env, !MetricsRepository, !AlertRepository, !RemediationActionRepository}.

(** The attributes the constructor sets. *)
Record AlertEvaluationService := {
  _rule_engine : RuleEngine;
  _notifier : option Notifier;
  _escalation_after_seconds : float;
  _remediation_engine : option RemediationEngine;
  _remediation_after_seconds : float;
}.

Definition get_alert (alert_id : Z) : M AlertView :=
  record ← alert_get alert_id;
  match record with
  | None => raise (AlertNotFoundError alert_id)
  | Some record => mret (_to_view record)
  end.

Definition list_alert_views (status : option AlertStatus) : M (list AlertView) :=
  records ← list_alerts status; mret (_to_view <$> records).

Definition acknowledge (alert_id : Z) (acknowledged_by : string) : M AlertView :=
  current ← get_alert alert_id;
  match av_status current with
  | RESOLVED => raise (AlertAlreadyResolvedError alert_id)
  | FIRING =>
      now ← utc_now;
      updated ← acknowledge_alert alert_id acknowledged_by now;
      mret (_to_view updated)
  end.

Section service.
Context (s : AlertEvaluationService).

Definition _should_escalate (record : AlertRecord) (now : datetime) : bool :=
  if is_set (ar_acknowledged_at record) || is_set (ar_escalated_at record) then false
  else fge (total_seconds (now - ar_first_fired_at record)) (_escalation_after_seconds s).

Definition _maybe_escalate (record : AlertRecord) (fired_at : datetime) : M AlertRecord :=
  if negb (_should_escalate record fired_at) then mret record
  else
    escalated ← escalate_alert (ar_id record) fired_at;
    _ ← _notify (_notifier s) (format_escalated escalated);
    mret escalated.

Definition _should_remediate (record : AlertRecord) (now : datetime) : bool :=
  match _remediation_engine s with
  | None => false
  | Some _ =>
      if is_set (ar_acknowledged_at record) || is_set (ar_remediated_at record) then false
      else fge (total_seconds (now - ar_first_fired_at record)) (_remediation_after_seconds s)
  end.

Definition _maybe_remediate (node_id : string) (result : RuleEvaluationResult)
    (fired_at : datetime) (record : AlertRecord)
    : M (AlertRecord * option RemediationActionRecord) :=
  match _remediation_engine s with
  | Some engine =>
      if negb (_should_remediate record fired_at) then mret (record, None)
      else
        decision ← Remediation.decide engine node_id (ar_id record) (rule_key result) fired_at;
        match decision with
        | None => mret (record, None)
        | Some decision =>
            updated ← mark_remediated (ar_id record) fired_at;
            mret (updated, match rr_status decision with
                           | DISPATCHED => Some decision
                           | _ => None
                           end)
        end
  | None => mret (record, None)
  end.

Definition _open (node_id : string) (result : RuleEvaluationResult) (fired_at : datetime)
    : M AlertRecord :=
  record ← create_alert node_id (rule_key result) (rule_kind result) (severity result)
             (description result) (value result) (bound result) fired_at;
  _ ← _notify (_notifier s) (format_opened record);
  mret record.

Definition _open_or_advance (node_id : string) (result : RuleEvaluationResult)
    (fired_at : datetime) (open_alert : option AlertRecord)
    : M (AlertRecord * option RemediationActionRecord) :=
  match open_alert with
  | None => record ← _open node_id result fired_at; mret (record, None)
  | Some open_alert =>
      advanced ← update_last_fired (ar_id open_alert) (value result) fired_at;
      escalated ← _maybe_escalate advanced fired_at;
      _maybe_remediate node_id result fired_at escalated
  end.

Definition _resolve (resolved_at : datetime) (open_alert : AlertRecord) : M AlertRecord :=
  record ← resolve_alert (ar_id open_alert) resolved_at;
  _ ← _notify (_notifier s) (format_resolved record);
  mret record.

Definition _apply (node_id : string) (result : RuleEvaluationResult) (fired_at : datetime)
    : M (option AlertView * option RemediationActionRecord) :=
  open_alert ← find_open_alert node_id (rule_key result);
  if breached result then
    '(record, dispatched) ← _open_or_advance node_id result fired_at open_alert;
    mret (Some (_to_view record), dispatched)
  else match open_alert with
  | Some open_alert =>
      resolved ← _resolve fired_at open_alert;
      mret (Some (_to_view resolved), None)
  | None => mret (None, None)
  end.

(** One iteration of the loop of [evaluate_and_apply]. *)
Definition apply_result (node_id : string) (collected_at : datetime) (acc : EvaluationOutcome)
    (result : RuleEvaluationResult) : M EvaluationOutcome :=
  '(view, dispatched) ← _apply node_id result collected_at;
  mret {| transitions := transitions acc ++ option_list view;
          dispatched_actions := dispatched_actions acc ++ option_list dispatched |}.

Definition evaluate_and_apply (node_id : string) (samples : list MetricSample)
    (collected_at : datetime) : M EvaluationOutcome :=
  results ← evaluate (_rule_engine s) node_id samples collected_at;
  m_fold (apply_result node_id collected_at) {| transitions := []; dispatched_actions := [] |}
    results.

Definition lifecycle_config : LifecycleConfig :=
  {| lc_escalation_after := _escalation_after_seconds s;
     lc_remediation_after := _remediation_after_seconds s;
     lc_engine := _remediation_engine s;
     lc_retention := false |}.

(** ** Results of the operations, branch by branch *)

(** The database engine failed and nothing was written. *)
Definition db_failure (e : Exc) (w w' : World) : Prop :=
  is_persistence e /\ ~ Healthy /\ w_db w' = w_db w /\ w_posts w' = w_posts w.

Lemma wp_update m id f a Q w :
  updates_alert m id f -> foreign_keys (w_db w) -> alerts (w_db w) !! id = Some a ->
  (forall w', w_db w' = set_alerts (<[id := f a]> (alerts (w_db w))) (w_db w) ->
     w_posts w' = w_posts w -> Q (Ok (alert_to_record (f a))) w') ->
  (forall e w', db_failure e w w' -> Q (Raise e) w') ->
  wp m Q w.
Proof.
  intros Hm Hfk Ha Hok Hfail. eapply wp_mono; [apply Hm|].
  intros [rec|e] w' [Hp Hr].
  - destruct Hr as (a' & Ha' & -> & Hdb). simplify_eq. by apply Hok.
  - destruct Hr as (He & Hdb & Hn). apply Hfail. split; [done|]. split; [|done].
    intros Hh. apply Hn. eauto.
Qed.

(** The alert after [_maybe_escalate], and the messages it sends. *)
Definition alert_escalated (t : datetime) (a : AlertModel) : AlertModel :=
  if _should_escalate (alert_to_record a) t then escalated t a else a.

Definition escalation_posts (t : datetime) (a : AlertModel) : list string :=
  if _should_escalate (alert_to_record a) t
  then sent (_notifier s) (format_escalated (alert_to_record (escalated t a))) else [].

Lemma maybe_escalate_spec id a t Q w :
  foreign_keys (w_db w) -> alerts (w_db w) !! id = Some a -> am_id a = id ->
  (forall w', w_db w' = set_alerts (<[id := alert_escalated t a]> (alerts (w_db w))) (w_db w) ->
     w_posts w' = w_posts w ++ escalation_posts t a ->
     Q (Ok (alert_to_record (alert_escalated t a))) w') ->
  (forall e w', db_failure e w w' -> Q (Raise e) w') ->
  wp (_maybe_escalate (alert_to_record a) t) Q w.
Proof.
  intros Hfk Ha Hid Hok Hfail. unfold _maybe_escalate, alert_escalated, escalation_posts in *.
  destruct (_should_escalate (alert_to_record a) t); simpl in *.
  - rewrite Hid. apply wp_bind. eapply wp_update; [apply escalate_alert_writes|done..| |].
    + intros w1 Hdb Hp. apply wp_bind, wp_notify. intros w2 Hdb2 Hp2. apply wp_ret, Hok; congruence.
    + auto.
  - apply wp_ret, Hok; [by rewrite set_alerts_id|by rewrite app_nil_r].
Qed.

(** [_maybe_remediate] on the open alert [id]. *)
Definition remediate_outcome (node_id key : string) (id : Z) (a : AlertModel) (t : datetime)
    (db : Db) (r : Res (AlertRecord * option RemediationActionRecord)) (db' : Db) : Prop :=
  match _remediation_engine s with
  | Some e =>
      if negb (_should_remediate (alert_to_record a) t) then r = Ok (alert_to_record a, None) /\ db' = db
      else match (if _enabled e then _by_rule_key e !! key else None) with
      | None => r = Ok (alert_to_record a, None) /\ db' = db
      | Some p =>
          match r with
          | Ok (rec, d) => exists action db1, decided e node_id id key p t db action db1 /\
              db' = set_alerts (<[id := remediated t a]> (alerts db1)) db1 /\
              rec = alert_to_record (remediated t a) /\
              d = (match rr_status action with DISPATCHED => Some action | _ => None end)
          | Raise ex => (limits_failure t ex /\ db' = db) \/
              (is_persistence ex /\ ~ Healthy /\
               exists action, decided e node_id id key p t db action db')
          end
      end
  | None => r = Ok (alert_to_record a, None) /\ db' = db
  end.

Lemma maybe_remediate_spec node_id result id a t w :
  foreign_keys (w_db w) -> alerts (w_db w) !! id = Some a -> am_id a = id ->
  is_Some (nodes (w_db w) !! node_id) ->
  wp (_maybe_remediate node_id result t (alert_to_record a)) (fun r w' =>
    w_posts w' = w_posts w /\
    remediate_outcome node_id (rule_key result) id a t (w_db w) r (w_db w')) w.
Proof.
  intros Hfk Ha Hid Hn. unfold _maybe_remediate, remediate_outcome.
  destruct (_remediation_engine s) as [e|]; [|by apply wp_ret].
  destruct (_should_remediate (alert_to_record a) t); simpl; [|by apply wp_ret].
  destruct (if _enabled e then _by_rule_key e !! rule_key result else None) as [p|] eqn:Ep.
  - destruct (_enabled e) eqn:Een; [|done]. rewrite Hid. apply wp_bind.
    eapply wp_mono; [by apply (decide_spec e node_id id (rule_key result) t p)|].
    intros [d|ex] w1 [Hp1 Hr1].
    + destruct Hr1 as (rec & -> & Hd).
      pose proof Hd as (k & reason & Hk & Hv & Hrec & Hdb & Hfk1).
      apply wp_bind. eapply (wp_update _ id (remediated t) a); [apply mark_remediated_writes|done|by rewrite Hdb| |].
      * intros w2 Hdb2 Hp2. apply wp_ret. split; [congruence|]. exists rec, (w_db w1). eauto.
      * intros ex w2 (Hpe & Hnh & Hdb2 & Hp2). split; [congruence|]. right. rewrite Hdb2. eauto.
    + destruct Hr1 as [Hdb Hl]. split; [done|]. left. split; [|done]. apply Hl.
      split; [done|]. split; [done|]. by rewrite Ha.
  - apply wp_bind. unfold wp at 1. rewrite decide_none; [by apply wp_ret|].
    destruct (_enabled e); auto.
Qed.

(** The open alert of a condition. *)
Definition open_of (db : Db) (node_id key : string) (o : option (Z * AlertModel)) : Prop :=
  match o with
  | None => forall id a, alerts db !! id = Some a -> ~ is_open node_id key a
  | Some (id, a) => alerts db !! id = Some a /\ is_open node_id key a
  end.

(** The four quadrants of [_apply]: breached or not, open alert or not. *)
Definition apply_outcome (node_id : string) (result : RuleEvaluationResult) (t : datetime)
    (w : World) (view : option AlertView) (dispatched : option RemediationActionRecord)
    (w' : World) : Prop :=
  exists o, open_of (w_db w) node_id (rule_key result) o /\
  match o, breached result with
  | None, true => exists id, alerts (w_db w) !! id = None /\
      let row := new_alert id node_id (rule_key result) (rule_kind result) (severity result)
                   (description result) (value result) (bound result) t in
      w_db w' = set_alerts (<[id := row]> (alerts (w_db w))) (w_db w) /\
      w_posts w' = w_posts w ++ sent (_notifier s) (format_opened (alert_to_record row)) /\
      view = Some (_to_view (alert_to_record row)) /\ dispatched = None
  | Some (id, a), true =>
      let still := advanced (value result) t a in
      let a' := alert_escalated t still in
      exists rec,
      remediate_outcome node_id (rule_key result) id a' t
        (set_alerts (<[id := a']> (alerts (w_db w))) (w_db w)) (Ok (rec, dispatched)) (w_db w') /\
      w_posts w' = w_posts w ++ escalation_posts t still /\
      view = Some (_to_view rec)
  | Some (id, a), false =>
      w_db w' = set_alerts (<[id := resolved t a]> (alerts (w_db w))) (w_db w) /\
      w_posts w' = w_posts w ++ sent (_notifier s) (format_resolved (alert_to_record (resolved t a))) /\
      view = Some (_to_view (alert_to_record (resolved t a))) /\ dispatched = None
  | None, false =>
      w_db w' = w_db w /\ w_posts w' = w_posts w /\ view = None /\ dispatched = None
  end.

(** Whatever the outcome, the database moved by lifecycle steps; an exception is due to the
    database, or to a timestamp in the calendar's first hour. *)
Definition apply_post (node_id : string) (result : RuleEvaluationResult) (t : datetime) (w : World)
    (r : Res (option AlertView * option RemediationActionRecord)) (w' : World) : Prop :=
  rtc (step lifecycle_config (~ Healthy)) (w_db w) (w_db w') /\
  match r with
  | Ok (view, dispatched) => apply_outcome node_id result t w view dispatched w'
  | Raise e => limits_failure t e
  end.

(** *** Steps of the machine the helpers make *)

Lemma escalated_steps id a t db :
  alerts db !! id = Some a -> am_status a = FIRING ->
  rtc (step lifecycle_config (~ Healthy)) db
    (set_alerts (<[id := alert_escalated t a]> (alerts db)) db).
Proof.
  intros Ha Hf. unfold alert_escalated, _should_escalate. simpl.
  destruct (is_set (am_acknowledged_at a)) eqn:Eack; [by rewrite set_alerts_id|].
  destruct (is_set (am_escalated_at a)) eqn:Eesc; [by rewrite set_alerts_id|]. simpl.
  destruct (fge _ _) eqn:Eage; [|by rewrite set_alerts_id].
  apply rtc_once. eapply step_alert; [done..|]. apply alert_escalate; [| |done].
  - by destruct (am_acknowledged_at a).
  - by destruct (am_escalated_at a).
Qed.

Lemma alert_escalated_same t a :
  am_status (alert_escalated t a) = am_status a /\ am_id (alert_escalated t a) = am_id a /\
  am_node_id (alert_escalated t a) = am_node_id a /\
  am_rule_key (alert_escalated t a) = am_rule_key a.
Proof. unfold alert_escalated. by destruct (_should_escalate _ _). Qed.

(** An alert that passed [_maybe_escalate] and qualifies for remediation is [remediable]. *)
Lemma should_remediate_remediable t a e :
  am_status a = FIRING -> _remediation_engine s = Some e -> _enabled e = true ->
  _should_remediate (alert_to_record (alert_escalated t a)) t = true ->
  remediable lifecycle_config (alert_escalated t a) t.
Proof.
  intros Hf He Hen. unfold _should_remediate, remediable, remediation_on. simpl. rewrite He.
  destruct (alert_escalated_same t a) as (-> & _). intros Hrem.
  destruct (am_acknowledged_at (alert_escalated t a)) eqn:Eack; [done|].
  destruct (am_remediated_at (alert_escalated t a)) eqn:Erem; [done|]. simpl in Hrem.
  split; [done|]. split; [done|]. split; [done|]. split; [done|]. split; [by eauto|]. intros Hord.
  revert Eack Hrem. unfold alert_escalated, _should_escalate. simpl.
  destruct (am_acknowledged_at a) eqn:Eack; simpl; [congruence|].
  destruct (am_escalated_at a) eqn:Eesc; simpl; [by rewrite Eesc|].
  destruct (fge _ (_escalation_after_seconds s)) eqn:Eage; simpl; [by eauto|].
  intros _ Hrem. exfalso. unfold fge in *. rewrite (fle_trans _ _ _ Hord Hrem) in Eage. done.
Qed.

Lemma remediate_steps node_id key id a0 t db r db' :
  let a := alert_escalated t a0 in
  am_status a0 = FIRING -> alerts db !! id = Some a -> am_node_id a = node_id ->
  am_rule_key a = key -> remediate_outcome node_id key id a t db r db' ->
  rtc (step lifecycle_config (~ Healthy)) db db'.
Proof.
  intros a Hf Ha Hn Hk. unfold remediate_outcome.
  destruct (_remediation_engine s) as [e|] eqn:Ee; [|by intros [_ ->]].
  destruct (_should_remediate (alert_to_record a) t) eqn:Es; simpl; [|by intros [_ ->]].
  destruct (_enabled e) eqn:Een; [|by intros [_ ->]].
  destruct (_by_rule_key e !! key) as [p|] eqn:Ep; [|by intros [_ ->]].
  assert (remediable lifecycle_config a t) as Hr by by eapply should_remediate_remediable.
  assert (forall rec db1, decided e node_id id key p t db rec db1 ->
            decision lifecycle_config id a t rec db db1) as Hdec.
  { intros rec db1 Hd. exists e, p. subst node_id key. by repeat split. }
  destruct r as [[rec d]|ex].
  - intros (action & db1 & Hd & -> & _). eapply rtc_once, step_remediate; eauto.
  - intros [[_ ->]|(_ & Hnh & action & Hd)]; [done|].
    eapply rtc_once, step_decide_only; eauto.
Qed.

(** *** The quadrants *)

Lemma failure_post node_id result t w e w1 w2 :
  rtc (step lifecycle_config (~ Healthy)) (w_db w) (w_db w1) -> db_failure e w1 w2 ->
  apply_post node_id result t w (Raise e) w2.
Proof. intros Hs (Hp & Hnh & Hdb & _). split; [by rewrite Hdb|by left]. Qed.

Lemma open_spec node_id result t w w0 :
  foreign_keys (w_db w) -> is_Some (nodes (w_db w) !! node_id) -> same_state w0 w ->
  breached result = true ->
  open_of (w_db w) node_id (rule_key result) None ->
  wp ('(record, dispatched) ← (record ← _open node_id result t; mret (record, None));
      mret (Some (_to_view record), dispatched)) (apply_post node_id result t w0) w.
Proof.
  intros Hfk Hn [Hdb0 Hp0] Hb Hno. do 2 apply wp_bind. unfold _open. wp_step create_alert_writes.
  intros [rec|e] w1 [Hp1 Hr1].
  - destruct Hr1 as (id & Hid & -> & Hdb1 & _). apply wp_bind, wp_notify. intros w2 Hdb2 Hp2.
    do 3 apply wp_ret. rewrite Hdb0 in *. split.
    + rewrite Hdb2, Hdb1. apply rtc_once. by apply step_open.
    + exists None. rewrite Hb. split; [done|]. exists id. rewrite Hdb2, Hdb1, Hp2, Hp1, Hp0. done.
  - destruct Hr1 as (Hpe & Hdb1 & Hnh). rewrite Hdb0 in *.
    split; [by rewrite Hdb1|]. left. split; [done|]. intros Hh. by apply Hnh.
Qed.

Lemma advance_spec node_id result t id a w w0 :
  base (w_db w) -> is_Some (nodes (w_db w) !! node_id) -> same_state w0 w ->
  breached result = true ->
  open_of (w_db w) node_id (rule_key result) (Some (id, a)) ->
  wp ('(record, dispatched) ← (advanced ← update_last_fired (ar_id (alert_to_record a)) (value result) t;
        escalated ← _maybe_escalate advanced t; _maybe_remediate node_id result t escalated);
      mret (Some (_to_view record), dispatched)) (apply_post node_id result t w0) w.
Proof.
  intros Hbase Hn [Hdb0 Hp0] Hb [Ha (Han & Hak & Haf)].
  pose proof (proj1 (proj1 Hbase) _ _ Ha) as Hid. simpl in Hid. do 2 apply wp_bind.
  assert (step lifecycle_config (~ Healthy) (w_db w) (set_alerts (<[id := advanced (value result) t a]>
    (alerts (w_db w))) (w_db w))) as Hs1 by (eapply step_alert; [done..|constructor]).
  simpl. rewrite Hid. eapply wp_update; [apply update_last_fired_writes|apply Hbase|done| |].
  2: { intros e w1 Hfail. apply (failure_post _ _ _ _ _ w); [by rewrite Hdb0|done]. }
  intros w1 Hdb1 Hp1. apply wp_bind.
  assert (base (w_db w1)) as Hb1 by (rewrite Hdb1; by eapply base_stable).
  assert (alerts (w_db w1) !! id = Some (advanced (value result) t a)) as Ha1
    by (rewrite Hdb1; apply lookup_insert_eq).
  pose proof (escalated_steps id _ t _ Ha1 Haf) as Hs2.
  eapply maybe_escalate_spec; [apply Hb1|done|done| |].
  2: { intros e w2 Hfail. apply (failure_post _ _ _ _ _ w1); [|done].
       rewrite Hdb1, <- Hdb0. by apply rtc_once. }
  intros w2 Hdb2 Hp2.
  assert (base (w_db w2)) as Hb2 by (rewrite Hdb2; by eapply base_rtc).
  destruct (alert_escalated_same t (advanced (value result) t a)) as (_ & Hid2 & Hn2 & Hk2).
  assert (alerts (w_db w2) !! id = Some (alert_escalated t (advanced (value result) t a))) as Ha2
    by (rewrite Hdb2; apply lookup_insert_eq).
  eapply wp_mono; [apply (maybe_remediate_spec node_id result id); [apply Hb2|done|by rewrite Hid2|]|].
  { by rewrite Hdb2, Hdb1. }
  intros r w3 [Hp3 Hr3].
  assert (rtc (step lifecycle_config (~ Healthy)) (w_db w0) (w_db w3)) as Hsteps.
  { rewrite <- Hdb0. eapply rtc_l; [done|]. rewrite <- Hdb1. etrans; [done|]. rewrite <- Hdb2.
    eapply (remediate_steps _ _ _ (advanced (value result) t a)); [exact Haf|done|by rewrite Hn2|by rewrite Hk2|done]. }
  destruct r as [[rec d]|ex]; [apply wp_ret|]; (split; [done|]).
  - exists (Some (id, a)). rewrite Hb. rewrite <- Hdb0. split; [by split|]. exists rec.
    rewrite Hdb2, Hdb1, set_alerts_twice in Hr3. split; [done|]. split; [congruence|done].
  - revert Hr3. unfold remediate_outcome. destruct (_remediation_engine s) as [eng|]; [|by intros []].
    destruct (negb _); [by intros []|]. case_match; [|by intros []].
    intros [[Hl _]|(Hpe & Hnh & _)]; [done|by left].
Qed.

Lemma resolve_spec node_id result t id a w w0 :
  base (w_db w) -> same_state w0 w -> breached result = false ->
  open_of (w_db w) node_id (rule_key result) (Some (id, a)) ->
  wp (resolved ← _resolve t (alert_to_record a); mret (Some (_to_view resolved), None))
    (apply_post node_id result t w0) w.
Proof.
  intros Hbase [Hdb0 Hp0] Hb [Ha (Han & Hak & Haf)].
  pose proof (proj1 (proj1 Hbase) _ _ Ha) as Hid. simpl in Hid. unfold _resolve.
  do 2 apply wp_bind. simpl. rewrite Hid.
  eapply wp_update; [apply resolve_alert_writes|apply Hbase|done| |].
  - intros w1 Hdb1 Hp1. apply wp_bind, wp_notify. intros w2 Hdb2 Hp2. do 2 apply wp_ret.
    rewrite Hdb0 in *. split.
    + rewrite Hdb2, Hdb1. eapply rtc_once, step_alert; [done..|constructor].
    + exists (Some (id, a)). rewrite Hb. split; [by split|]. split; [congruence|].
      split; [congruence|done].
  - intros e w1 Hfail. apply (failure_post _ _ _ _ _ w); [by rewrite Hdb0|done].
Qed.

Lemma apply_spec_wp node_id result t w :
  base (w_db w) -> is_Some (nodes (w_db w) !! node_id) ->
  wp (_apply node_id result t) (apply_post node_id result t w) w.
Proof.
  intros Hbase Hn. unfold _apply. wp_step find_open_alert_reads.
  intros [o|e] w1 [Hs1 Hr1]; [|split; [by rewrite (proj1 Hs1)|by left]].
  pose proof Hs1 as [Hdb1 _]. rewrite <- Hdb1 in Hbase, Hn, Hr1.
  destruct o as [rec|].
  - destruct Hr1 as (id & a & Ha & Hopen & ->). destruct (breached result) eqn:Eb.
    + by eapply advance_spec.
    + by eapply resolve_spec.
  - destruct (breached result) eqn:Eb.
    + by apply (open_spec node_id result t); [apply Hbase| | | |].
    + apply wp_ret. destruct Hs1 as [_ Hp1]. split; [by rewrite Hdb1|]. exists None. rewrite Eb.
      rewrite Hdb1 in *. done.
Qed.

(** *** Evaluation *)

Lemma nodes_grow c f db db' n :
  rtc (step c f) db db' -> is_Some (nodes db !! n) -> is_Some (nodes db' !! n).
Proof.
  induction 1 as [|db1 db2 db3 Hs _ IH]; [done|]. intros Hn. apply IH. clear IH.
  destruct Hs as [n' t| | | |id a now rec db' Ha Hr Hd|id a now rec db' _ Ha Hr Hd| | | |]; try done.
  - simpl. rewrite lookup_insert_is_Some'. by right.
  - simpl. by destruct (decision_shape _ _ _ _ _ _ _ Ha Hr Hd) as (_ & -> & _).
  - by destruct (decision_shape _ _ _ _ _ _ _ Ha Hr Hd) as (_ & -> & _).
Qed.

Lemma evaluate_and_apply_conforms node_id samples t w :
  base (w_db w) -> is_Some (nodes (w_db w) !! node_id) ->
  wp (evaluate_and_apply node_id samples t)
    (fun _ w' => rtc (step lifecycle_config (~ Healthy)) (w_db w) (w_db w')) w.
Proof.
  intros Hb Hn. unfold evaluate_and_apply. wp_step evaluate_same.
  intros [results|e] w1 [Hdb1 _]; [|by rewrite Hdb1]. rewrite <- Hdb1 in Hb, Hn |- *.
  clear w Hdb1. revert w1 Hb Hn. generalize {| transitions := []; dispatched_actions := [] |}.
  induction results as [|result results IH]; intros acc w Hb Hn; simpl; [by apply wp_ret|].
  apply wp_bind. unfold apply_result. wp_step apply_spec_wp; [done|done|].
  intros [[v d]|e] w1 [Hs1 _]; [|done]. apply wp_ret.
  eapply wp_mono; [apply IH; [by eapply base_rtc|by eapply nodes_grow]|].
  intros r w2 Hs2. by etrans.
Qed.

End service.

(** ** Acknowledgement *)

Definition acknowledge_outcome (alert_id : Z) (by_ : string) (w : World) (r : Res AlertView)
    (w' : World) : Prop :=
  match alerts (w_db w) !! alert_id with
  | None => r = Raise (AlertNotFoundError alert_id) /\ same_state w w'
  | Some a =>
      match am_status a with
      | RESOLVED => r = Raise (AlertAlreadyResolvedError alert_id) /\ same_state w w'
      | FIRING => exists now, let a' := acknowledged by_ now a in
          r = Ok (_to_view (alert_to_record a')) /\ w_posts w' = w_posts w /\
          w_db w' = set_alerts (<[alert_id := a']> (alerts (w_db w))) (w_db w)
      end
  end.

(** Acknowledging: 404 for an unknown alert and 409 for a resolved one, changing nothing;
    otherwise the firing alert's row gets the name and the time, again on every repeat. *)
Lemma acknowledge_spec_wp alert_id by_ w :
  foreign_keys (w_db w) ->
  wp (acknowledge alert_id by_) (fun r w' => acknowledge_outcome alert_id by_ w r w' \/
    exists e, r = Raise e /\ db_failure e w w') w.
Proof.
  intros Hfk. unfold acknowledge, get_alert, acknowledge_outcome. apply wp_bind.
  wp_step alert_get_reads. intros [o|e] w1 [Hs1 Hr1].
  2: { right. exists e. destruct Hr1, Hs1. done. }
  subst o. pose proof Hs1 as [Hdb1 Hp1].
  destruct (alerts (w_db w) !! alert_id) as [a|] eqn:Ea; simpl; [|by apply wp_raise; left].
  apply wp_ret. simpl. destruct (am_status a) eqn:Est; [|by apply wp_raise; left].
  apply wp_bind. unfold wp at 1. simpl. apply wp_bind.
  eapply wp_update; [apply acknowledge_alert_writes|simpl; by rewrite Hdb1|simpl; by rewrite Hdb1| |].
  - simpl. intros w2 Hdb2 Hp2. apply wp_ret. left. exists (clock (w_tick w1)).
    rewrite Hdb2, Hp2, Hdb1, Hp1. done.
  - intros e w2 (Hpe & Hnh & Hdb2 & Hp2). right. exists e. split; [done|]. simpl in *.
    split; [done|]. split; [done|]. split; congruence.
Qed.

Lemma acknowledge_conforms s alert_id by_ : conforms (lifecycle_config s) (acknowledge alert_id by_).
Proof.
  intros w [_ Hfk]. eapply wp_mono; [by apply acknowledge_spec_wp|].
  intros r w' [Ho|(e & _ & _ & _ & -> & _)]; [|done]. unfold acknowledge_outcome in Ho.
  destruct (alerts (w_db w) !! alert_id) as [a|] eqn:Ea; [|by destruct Ho as [_ [-> _]]].
  destruct (am_status a) eqn:Es; [|by destruct Ho as [_ [-> _]]].
  destruct Ho as (now & _ & _ & ->). eapply rtc_once, step_alert; [done..|constructor].
Qed.

End alerting.

Section alerting_properties.
Context `{E : Env, !MetricsRepository, !AlertRepository, !RemediationActionRepository}.

(** C18: applying one rule result, in the four quadrants. Breached without an open alert: one new
    firing row, one notification. Breached with one: it advances, escalates when due
    (notifying once), and goes to the remediation engine when due, without any other
    notification. Not breached with one: it resolves, one notification. Otherwise nothing.
    An exception is due to the database, or to a timestamp in the calendar's first hour. *)
Theorem apply_quadrants s node_id result t w :
  base (w_db w) -> is_Some (nodes (w_db w) !! node_id) ->
  wp (_apply s node_id result t) (fun r w' =>
    match r with
    | Ok (view, dispatched) => apply_outcome s node_id result t w view dispatched w'
    | Raise e => limits_failure t e
    end) w.
Proof.
  intros Hb Hn. eapply wp_mono; [by apply apply_spec_wp|]. by intros r w' [_ ?].
Qed.

(** Once due, escalation and remediation stay due: the age guards only grow with time, while
    an acknowledged alert is due for neither, at any age. *)
Lemma due_monotone s record t t' :
  t <= t' ->
  (_should_escalate s record t = true -> _should_escalate s record t' = true) /\
  (_should_remediate s record t = true -> _should_remediate s record t' = true) /\
  (is_set (ar_acknowledged_at record) = true ->
   _should_escalate s record t' = false /\ _should_remediate s record t' = false).
Proof.
  intros Hle. unfold _should_escalate, _should_remediate, fge.
  assert (forall x y, fle x (total_seconds (t - y)) = true -> fle x (total_seconds (t' - y)) = true)
    as Hmono.
  { intros x y Hx. eapply fle_trans; [exact Hx|]. apply total_seconds_mono. lia. }
  split; [|split].
  - destruct (_ || _); [done|]. apply Hmono.
  - destruct (_remediation_engine s); [|done]. destruct (_ || _); [done|]. apply Hmono.
  - intros ->. simpl. split; [done|]. by destruct (_remediation_engine s).
Qed.

End alerting_properties.
