(* ===== verification/Ingestion.v ===== *)
(** * MetricsIngestionService ([collector/services/metrics_ingestion.py])

    One push: the registry first, then the samples, then the rules, best effort. *)

From S2P Require Import Prelude PyFloat PyTime Domain Schema Runtime Protocols Tables.
From S2P Require Import Rules Remediation Notifications Lifecycle Invariants Conformance.
From S2P Require Import NodeRegistry Alerting.

Local Open Scope Z_scope.

Section ingestion.
Context `{E : Env, !NodeRepository, !MetricsRepository, !AlertRepository,
          !RemediationActionRepository}.
Context (stale_after_seconds : float) (alert_evaluation : option AlertEvaluationService).

Definition pending_action (action : RemediationActionRecord) : PendingAction :=
  {| pa_action_id := rr_id action;
     pa_action_type := rr_action_type action;
     pa_parameters := rr_parameters action |}.

Definition _evaluate_rules_best_effort (payload : NodeMetricsPayload) : M (list PendingAction) :=
  match alert_evaluation with
  | None => mret []
  | Some service =>
      m_try (outcome ← evaluate_and_apply service (np_node_id payload) (np_samples payload)
                         (np_collected_at payload);
             mret (pending_action <$> dispatched_actions outcome))
        (fun _ => mret [])
  end.

Definition ingest (payload : NodeMetricsPayload) : M Ack :=
  received_at ← utc_now;
  _ ← record_seen stale_after_seconds (np_node_id payload) (np_collected_at payload);
  _ ← bulk_insert (np_node_id payload) (np_samples payload) (np_collected_at payload) received_at;
  pending_actions ← _evaluate_rules_best_effort payload;
  mret {| ack_accepted := true; ack_received_at := received_at; ack_message := None;
          ack_pending_actions := pending_actions |}.

(** The database with the node seen and the samples stored. *)
Definition persisted (payload : NodeMetricsPayload) (received_at : datetime) (db db' : Db) : Prop :=
  let node := seen_node (nodes db !! np_node_id payload) (np_node_id payload) (np_collected_at payload) in
  let db1 := set_nodes (<[np_node_id payload := node]> (nodes db)) db in
  exists ids, length ids = length (np_samples payload) /\ NoDup ids /\
    (forall id, id ∈ ids -> metric_samples db !! id = None) /\
    db' = set_samples (list_to_map (new_samples (np_node_id payload) (np_collected_at payload)
            received_at ids (np_samples payload)) ∪ metric_samples db) db1.

Abbreviation steps c := (rtc (step c (~ Healthy))).

Definition config : LifecycleConfig :=
  match alert_evaluation with
  | Some s => lifecycle_config s
  | None => {| lc_escalation_after := float_of_Z 0; lc_remediation_after := float_of_Z 0;
               lc_engine := None; lc_retention := false |}
  end.

(** Rule evaluation never fails the push; it moves the database by lifecycle steps. *)
Lemma best_effort_spec payload w :
  base (w_db w) -> is_Some (nodes (w_db w) !! np_node_id payload) ->
  wp (_evaluate_rules_best_effort payload) (fun r w' =>
    is_ok r = true /\ steps config (w_db w) (w_db w')) w.
Proof.
  intros Hb Hn. unfold _evaluate_rules_best_effort, config.
  destruct alert_evaluation as [s|]; [|by apply wp_ret].
  apply wp_try, wp_bind. eapply wp_mono; [by apply evaluate_and_apply_conforms|].
  intros [o|e] w1 Hs; apply wp_ret; done.
Qed.

Lemma persisted_steps c f payload t db db' :
  persisted payload t db db' -> rtc (step c f) db db'.
Proof.
  intros (ids & Hl & Hnd & Hfresh & ->). eapply rtc_l; [apply (step_seen _ _ _ (np_node_id payload) (np_collected_at payload))|].
  apply rtc_once. apply (step_samples c f (set_nodes _ db)); [|done..].
  apply lookup_insert_is_Some'. by left.
Qed.

Lemma persisted_node payload t db db' :
  persisted payload t db db' -> is_Some (nodes db' !! np_node_id payload).
Proof. intros (ids & _ & _ & _ & ->). apply lookup_insert_is_Some'. by left. Qed.

(** Once node and samples are stored, the push is acknowledged. *)
Lemma ingest_spec payload w :
  base (w_db w) ->
  wp (ingest payload) (fun r w' => steps config (w_db w) (w_db w') /\
    match r with
    | Ok ack => ack_accepted ack = true /\
        exists db1, persisted payload (ack_received_at ack) (w_db w) db1 /\
          steps config db1 (w_db w')
    | Raise e => is_persistence e /\ ~ Healthy
    end) w.
Proof.
  intros Hb. unfold ingest. apply wp_bind. unfold wp at 1. simpl.
  set (t := clock (w_tick w)). wp_step record_seen_spec. simpl.
  intros [v|e] w1 [_ Hr1].
  2: { destruct Hr1 as (He & -> & Hn). split; [done|]. split; [done|]. intros Hh. apply Hn.
       split; [done|apply Hb]. }
  destruct Hr1 as (now & Hdb1 & _).
  assert (step config (~ Healthy) (w_db w) (w_db w1)) as Hs1 by (rewrite Hdb1; apply step_seen).
  assert (base (w_db w1)) as Hb1 by by eapply base_stable.
  assert (is_Some (nodes (w_db w1) !! np_node_id payload)) as Hn1.
  { rewrite Hdb1. apply lookup_insert_is_Some'. by left. }
  wp_step bulk_insert_writes. intros [u|e] w2 [_ Hr2].
  2: { destruct Hr2 as (He & -> & Hn). split; [by apply rtc_once|]. split; [done|]. intros Hh.
       apply Hn. split; [done|]. split; [apply Hb1|done]. }
  assert (persisted payload t (w_db w) (w_db w2)) as Hper.
  { destruct Hr2 as (ids & Hl & Hnd & Hfresh & Hdb2). rewrite Hdb1 in Hfresh, Hdb2.
    exists ids. done. }
  pose proof (persisted_steps config (~ Healthy) _ _ _ _ Hper) as Hs2.
  apply wp_bind. eapply wp_mono; [apply best_effort_spec;
    [exact (base_rtc _ _ _ _ Hb Hs2)|by eapply persisted_node]|].
  intros [pending|e] w3 [Hok Hs3]; [|done]. apply wp_ret.
  split; [by etrans|]. split; [done|]. exists (w_db w2). done.
Qed.

(** The acknowledgement carries the time the push was received. *)
Lemma ingest_received payload w ack w' :
  ingest payload w = (Ok ack, w') -> ack_received_at ack = clock (w_tick w).
Proof.
  unfold ingest, mbind, M_bind. simpl. destruct (record_seen _ _ _ _) as [[v|e] w1]; [|done].
  destruct (bulk_insert _ _ _ _ w1) as [[u|e] w2]; [|done].
  destruct (_evaluate_rules_best_effort payload w2) as [[l|e] w3]; [|done]. by intros [= <- <-].
Qed.

Lemma ingest_conforms payload : conforms config (ingest payload).
Proof. intros w Hb. eapply wp_mono; [by apply ingest_spec|]. by intros r w' [Hs _]. Qed.

End ingestion.

Section ingestion_properties.
Context `{E : Env, !NodeRepository, !MetricsRepository, !AlertRepository,
          !RemediationActionRepository}.

(** C28: a push is acknowledged as soon as the node and its samples are stored, the node first, so
    that even a node's first push finds its row; whatever rule evaluation does afterwards,
    its failure included, stays within the lifecycle and never fails the push. *)
Theorem ingest_acknowledged stale_after alert_evaluation payload w :
  base (w_db w) ->
  wp (ingest stale_after alert_evaluation payload) (fun r w' =>
    match r with
    | Ok ack => ack_accepted ack = true /\
        exists db1, persisted payload (ack_received_at ack) (w_db w) db1 /\
          rtc (step (config alert_evaluation) (~ Healthy)) db1 (w_db w')
    | Raise e => is_persistence e /\ ~ Healthy
    end) w.
Proof. intros Hb. eapply wp_mono; [by apply ingest_spec|]. by intros r w' [_ ?]. Qed.

End ingestion_properties.
