(* ===== verification/Dispatch.v ===== *)
(** * What a push hands back, and what lasts

    The actions an acknowledgement carries are new rows of the database, and in a system
    without a retention job the rows of actions and samples are never lost: the facts the
    composition with the Agent rests on. *)

From S2P Require Import Prelude PyFloat PyTime Domain Schema Runtime Protocols Tables.
From S2P Require Import Rules Remediation Notifications Lifecycle Invariants Conformance.
From S2P Require Import NodeRegistry Alerting Ingestion.

Local Open Scope Z_scope.

(** ** What lasts without retention *)

(** What an action was asked to do is fixed: the two rows differ by their outcome only. *)
Definition same_order (r r' : RemediationActionModel) : Prop :=
  rm_node_id r' = rm_node_id r /\ rm_alert_id r' = rm_alert_id r /\
  rm_playbook_name r' = rm_playbook_name r /\ rm_action_type r' = rm_action_type r /\
  rm_parameters r' = rm_parameters r.

#[export] Instance same_order_preorder : PreOrder same_order.
Proof.
  split; [by intros r|]. intros r1 r2 r3 (?&?&?&?&?) (?&?&?&?&?). repeat split; congruence.
Qed.

Lemma action_lasts_step c f db db' id r :
  lc_retention c = false -> step c f db db' -> remediation_actions db !! id = Some r ->
  exists r', remediation_actions db' !! id = Some r' /\ same_order r r'.
Proof.
  intros Hret Hs Hr. destruct (step_actions _ _ _ _ Hs) as
    [|e p k aid a reason now He Hp Hk Ha Hrem Hv|k x st reason t Hk Hd Hst|ids Hret' Hids].
  - by exists r.
  - rewrite lookup_insert_ne by congruence. by exists r.
  - destruct (decide (k = id)) as [->|Hne].
    + rewrite lookup_insert_eq. simplify_eq. eexists. by split.
    + rewrite lookup_insert_ne by done. by exists r.
  - congruence.
Qed.

Lemma action_lasts c f db db' id r :
  lc_retention c = false -> rtc (step c f) db db' -> remediation_actions db !! id = Some r ->
  exists r', remediation_actions db' !! id = Some r' /\ same_order r r'.
Proof.
  intros Hret Hs. revert r. induction Hs as [db|db1 db2 db3 H12 _ IH]; intros r Hr; [by exists r|].
  destruct (action_lasts_step _ _ _ _ _ _ Hret H12 Hr) as (r2 & Hr2 & Ho2).
  destruct (IH r2 Hr2) as (r3 & Hr3 & Ho3). exists r3. split; [done|by etrans].
Qed.

(** A completed action never changes again. *)
Lemma completed_lasts c f db db' id r :
  lc_retention c = false -> rtc (step c f) db db' -> remediation_actions db !! id = Some r ->
  rm_status r <> DISPATCHED -> remediation_actions db' !! id = Some r.
Proof.
  intros Hret Hs Hr Hst. induction Hs as [db|db1 db2 db3 H12 _ IH]; [done|]. apply IH. clear IH.
  destruct (step_actions _ _ _ _ H12) as
    [|e p k aid a reason now He Hp Hk Ha Hrem Hv|k x st reason t Hk Hd _|ids Hret' Hids];
    [done|rewrite lookup_insert_ne by congruence; done| |congruence].
  rewrite lookup_insert_ne; [done|]. intros ->. by simplify_eq.
Qed.

Lemma new_samples_fresh node_id t t' ids samples (db : Db) :
  (forall id, id ∈ ids -> metric_samples db !! id = None) ->
  list_to_map (new_samples node_id t t' ids samples) ##ₘ metric_samples db.
Proof.
  intros Hfresh. apply map_disjoint_spec. intros id r1 r2 H1 H2.
  apply elem_of_list_to_map_2 in H1. unfold new_samples in H1.
  apply elem_of_lookup_zip_with in H1 as (i & id' & s & [= -> ->] & Hid & _).
  rewrite (Hfresh id') in H2; [done|]. by eapply list_elem_of_lookup_2.
Qed.

Lemma samples_last c f db db' :
  lc_retention c = false -> rtc (step c f) db db' -> metric_samples db ⊆ metric_samples db'.
Proof.
  intros Hret. induction 1 as [|db1 db2 db3 H12 _ IH]; [done|]. etrans; [|exact IH]. clear IH.
  destruct H12 as [|n samples t t' ids Hn Hl Hnd Hfresh| |?????|id a now rec db' Ha Hr Hd
    |id a now rec db' _ Ha Hr Hd| | | |]; try done; try congruence; simpl.
  - apply map_union_subseteq_r. by apply new_samples_fresh.
  - by destruct (decision_shape _ _ _ _ _ _ _ Ha Hr Hd) as (_ & _ & -> & _).
  - by destruct (decision_shape _ _ _ _ _ _ _ Ha Hr Hd) as (_ & _ & -> & _).
Qed.

(** The sample is stored as the payload gave it, under some key. *)
Definition stored (p : NodeMetricsPayload) (s : MetricSample) (db : Db) : Prop :=
  exists id received_at, metric_samples db !! id =
    Some (new_sample (np_node_id p) (np_collected_at p) received_at id s).

(** The same with the time it was received. *)
Definition stored_at (p : NodeMetricsPayload) (s : MetricSample) (t : datetime) (db : Db) : Prop :=
  exists id, metric_samples db !! id =
    Some (new_sample (np_node_id p) (np_collected_at p) t id s).

Lemma persisted_stored p t db db' s :
  persisted p t db db' -> s ∈ np_samples p -> stored_at p s t db'.
Proof.
  intros (ids & Hl & Hnd & Hfresh & ->) Hs.
  apply list_elem_of_lookup in Hs as [i Hi].
  destruct (lookup_lt_is_Some_2 ids i) as [id Hid].
  { rewrite Hl. by eapply lookup_lt_Some. }
  exists id. simpl. apply lookup_union_Some_l. apply elem_of_list_to_map_1.
  - unfold new_samples. assert ((zip_with (fun id s => (id, new_sample (np_node_id p)
      (np_collected_at p) t id s)) ids (np_samples p)).*1 = ids) as ->; [|done].
    clear -Hl. revert Hl. generalize (np_samples p). induction ids as [|x ids IH]; intros [|y l]; simpl;
      try done. intros [= Hl]. f_equal. by apply IH.
  - unfold new_samples. apply elem_of_lookup_zip_with. by exists i, id, s.
Qed.

(** ** The actions of an acknowledgement *)

Section dispatch.
Context `{E : Env, !MetricsRepository, !AlertRepository, !RemediationActionRepository}.

(** [rec] is a new row of [db'], for the node [node_id]. *)
Definition fresh_dispatch (node_id : string) (db db' : Db) (rec : RemediationActionRecord) : Prop :=
  remediation_actions db !! rr_id rec = None /\
  exists row, remediation_actions db' !! rr_id rec = Some row /\ rm_node_id row = node_id /\
    rm_action_type row = rr_action_type rec /\ rm_parameters row = rr_parameters rec.

Lemma fresh_dispatch_later c f node_id db db1 db2 rec :
  lc_retention c = false -> rtc (step c f) db1 db2 ->
  fresh_dispatch node_id db db1 rec -> fresh_dispatch node_id db db2 rec.
Proof.
  intros Hret Hs (Hnew & row & Hrow & Hn & Ht & Hp). split; [done|].
  destruct (action_lasts _ _ _ _ _ _ Hret Hs Hrow) as (row' & Hrow' & Hn' & _ & _ & Ht' & Hp').
  exists row'. split; [done|]. repeat split; congruence.
Qed.

Lemma fresh_dispatch_earlier c f node_id db0 db db' rec :
  lc_retention c = false -> rtc (step c f) db0 db ->
  fresh_dispatch node_id db db' rec -> fresh_dispatch node_id db0 db' rec.
Proof.
  intros Hret Hs (Hnew & Hrow). split; [|done].
  destruct (remediation_actions db0 !! rr_id rec) as [r|] eqn:Er; [|done].
  destruct (action_lasts _ _ _ _ _ _ Hret Hs Er) as (r' & Hr' & _). congruence.
Qed.

Section service.
Context (s : AlertEvaluationService).

Lemma apply_dispatches node_id result t w view rec w' :
  apply_outcome s node_id result t w view (Some rec) w' ->
  fresh_dispatch node_id (w_db w) (w_db w') rec.
Proof.
  intros (o & _ & Ho). destruct o as [[id a]|]; destruct (breached result).
  - destruct Ho as (arec & Hr & _). unfold remediate_outcome in Hr.
    destruct (_remediation_engine s) as [e|]; [|by destruct Hr].
    destruct (negb _); [by destruct Hr|]. case_match; [|by destruct Hr].
    destruct Hr as (action & db1 & (k & reason & Hk & _ & Hact & Hdb1 & _) & Hdb' & _ & Hd).
    assert (rec = action) as -> by (by destruct (rr_status action); simplify_eq).
    rewrite Hdb', Hact. simpl in *. split; [done|]. rewrite Hdb1. simpl.
    eexists. split; [apply lookup_insert_eq|]. done.
  - by destruct Ho as (_ & _ & _ & ?).
  - by destruct Ho as (id & _ & _ & _ & _ & ?).
  - by destruct Ho as (_ & _ & _ & ?).
Qed.

(** The actions dispatched so far, since [db0]. *)
Definition dispatched_since (node_id : string) (db0 db : Db) (l : list RemediationActionRecord)
    : Prop :=
  NoDup (rr_id <$> l) /\ Forall (fresh_dispatch node_id db0 db) l.

Lemma dispatched_more node_id db0 db db' l rec :
  rtc (step (lifecycle_config s) (~ Healthy)) db0 db ->
  rtc (step (lifecycle_config s) (~ Healthy)) db db' ->
  dispatched_since node_id db0 db l -> fresh_dispatch node_id db db' rec ->
  dispatched_since node_id db0 db' (l ++ [rec]).
Proof.
  intros Hs0 Hs [Hnd Hl] Hrec. split.
  - rewrite fmap_app. simpl. apply NoDup_app. split; [done|]. split; [|apply NoDup_singleton].
    intros id Hid Hin. apply list_elem_of_singleton in Hin as ->.
    apply list_elem_of_fmap in Hid as (rec' & Heq & Hin').
    rewrite Forall_forall in Hl. destruct (Hl _ Hin') as (_ & row & Hrow & _).
    destruct Hrec as [Hnew _]. rewrite Heq in Hnew. congruence.
  - apply Forall_app. split; [|constructor; [|constructor]].
    + eapply Forall_impl; [exact Hl|]. intros x Hx.
      by apply (fresh_dispatch_later (lifecycle_config s) _ _ _ _ _ _ eq_refl Hs).
    + by apply (fresh_dispatch_earlier (lifecycle_config s) _ _ _ _ _ _ eq_refl Hs0).
Qed.

Lemma fold_dispatches node_id t db0 results acc w :
  base (w_db w) -> is_Some (nodes (w_db w) !! node_id) ->
  rtc (step (lifecycle_config s) (~ Healthy)) db0 (w_db w) ->
  dispatched_since node_id db0 (w_db w) (dispatched_actions acc) ->
  wp (m_fold (apply_result s node_id t) acc results) (fun r w' =>
    match r with
    | Ok o => dispatched_since node_id db0 (w_db w') (dispatched_actions o)
    | Raise _ => True
    end) w.
Proof.
  revert acc w. induction results as [|result results IH]; intros acc w Hb Hn Hs0 Hacc; simpl;
    [by apply wp_ret|].
  apply wp_bind. unfold apply_result. wp_step (apply_spec_wp s); [done|done|].
  intros [[v d]|e] w1 [Hs1 Hout]; [|done]. apply wp_ret.
  apply IH; [by eapply base_rtc|by eapply nodes_grow|by etrans|]. simpl.
  destruct d as [rec|]; simpl; [|rewrite app_nil_r].
  - eapply dispatched_more; [exact Hs0|exact Hs1|done|by eapply apply_dispatches].
  - destruct Hacc as [Hnd Hl]. split; [done|]. eapply Forall_impl; [exact Hl|].
    intros x Hx. by apply (fresh_dispatch_later (lifecycle_config s) _ _ _ _ _ _ eq_refl Hs1).
Qed.

Lemma evaluation_dispatches node_id samples t w :
  base (w_db w) -> is_Some (nodes (w_db w) !! node_id) ->
  wp (evaluate_and_apply s node_id samples t) (fun r w' =>
    match r with
    | Ok o => dispatched_since node_id (w_db w) (w_db w') (dispatched_actions o)
    | Raise _ => True
    end) w.
Proof.
  intros Hb Hn. unfold evaluate_and_apply. wp_step evaluate_same.
  intros [results|e] w1 [Hdb1 _]; [|done]. rewrite <- Hdb1 in Hb, Hn |- *.
  apply fold_dispatches; [done|done|done|by split; constructor].
Qed.

End service.
End dispatch.

(** The ids of an acknowledgement are pairwise different and name new rows of the node. *)
Definition fresh_actions (node_id : string) (db db' : Db) (ack : Ack) : Prop :=
  NoDup (pa_action_id <$> ack_pending_actions ack) /\
  Forall (fun a => remediation_actions db !! pa_action_id a = None /\
    exists row, remediation_actions db' !! pa_action_id a = Some row /\ rm_node_id row = node_id /\
      rm_action_type row = pa_action_type a /\ rm_parameters row = pa_parameters a)
    (ack_pending_actions ack).

Section ingest.
Context `{E : Env, !NodeRepository, !MetricsRepository, !AlertRepository,
          !RemediationActionRepository}.

(** A push that is acknowledged. *)
Lemma ingest_dispatches stale_after s payload w :
  base (w_db w) ->
  wp (ingest stale_after (Some s) payload) (fun r w' =>
    match r with
    | Ok ack => fresh_actions (np_node_id payload) (w_db w) (w_db w') ack
    | Raise _ => True
    end) w.
Proof.
  intros Hb. unfold ingest. apply wp_bind. unfold wp at 1. simpl.
  wp_step record_seen_spec. simpl. intros [v|e] w1 [_ Hr1]; [|done].
  destruct Hr1 as (now & Hdb1 & _).
  assert (step (config (Some s)) (~ Healthy) (w_db w) (w_db w1)) as Hs1
    by (rewrite Hdb1; apply step_seen).
  assert (base (w_db w1)) as Hb1 by by eapply base_stable.
  assert (is_Some (nodes (w_db w1) !! np_node_id payload)) as Hn1.
  { rewrite Hdb1. apply lookup_insert_is_Some'. by left. }
  wp_step bulk_insert_writes. intros [u|e] w2 [_ Hr2]; [|done].
  destruct Hr2 as (ids & Hl & Hnd & Hfresh & Hdb2).
  assert (step (config (Some s)) (~ Healthy) (w_db w1) (w_db w2)) as Hs2
    by (rewrite Hdb2; by apply step_samples).
  assert (remediation_actions (w_db w2) = remediation_actions (w_db w)) as Hacts
    by (rewrite Hdb2; simpl; by rewrite Hdb1).
  apply wp_bind, wp_try, wp_bind.
  eapply wp_mono; [apply (evaluation_dispatches s);
    [by eapply base_stable|rewrite Hdb2; exact Hn1]|].
  intros [o|e] w3 Hd; do 2 apply wp_ret; simpl; [|by split; constructor].
  destruct Hd as [Hnd' Hl']. split; simpl.
  - rewrite <- list_fmap_compose. exact Hnd'.
  - apply Forall_fmap. eapply Forall_impl; [exact Hl'|]. intros rec (Hnew & row & Hrow & ? & ? & ?).
    simpl. rewrite <- Hacts. split; [done|]. by exists row.
Qed.

End ingest.
