(* ===== verification/Progress.v ===== *)
(** * Progress of the alert lifecycle

    With a database that answers, a push that finds its rule breached past the configured
    delays escalates the open alert and hands it to remediation: the guards of Alerting.v
    do not only forbid, they fire ([ingest_handles]).  Response.v follows a breach over a
    whole run with it. *)

From S2P Require Import Prelude PyFloat PyTime Domain Schema Runtime Protocols Tables.
From S2P Require Import Rules Remediation Notifications Lifecycle Invariants Conformance.
From S2P Require Import NodeRegistry Alerting Ingestion.

Local Open Scope Z_scope.

Section progress.
Context `{E : Env, !NodeRepository, !MetricsRepository, !AlertRepository,
          !RemediationActionRepository}.
Context (s : AlertEvaluationService) (Hhealthy : Healthy).

(** The alert is due for remediation at [t]: an engine that is on, a playbook for its rule,
    never attempted, and old enough. *)
Definition remediation_due (key : string) (a : AlertModel) (t : datetime) : Prop :=
  exists e p, _remediation_engine s = Some e /\ _enabled e = true /\
    _by_rule_key e !! key = Some p /\ am_remediated_at a = None /\
    aged a t (_remediation_after_seconds s).

(** The alert [id] in [db] still fires, has escalated, and, when [a] was due, was attempted:
    stamped, with an action that refers to it. *)
Definition progressed (key : string) (a : AlertModel) (t : datetime) (id : Z) (db : Db) : Prop :=
  exists a', alerts db !! id = Some a' /\ am_status a' = FIRING /\ am_rule_key a' = key /\
    is_Some (am_escalated_at a') /\
    (remediation_due key a t -> is_Some (am_remediated_at a') /\
       exists k r, remediation_actions db !! k = Some r /\ rm_alert_id r = id).

Lemma due_alert_escalates t v a :
  am_acknowledged_at a = None -> aged a t (_escalation_after_seconds s) ->
  is_Some (am_escalated_at (alert_escalated s t (advanced v t a))).
Proof.
  intros Hack Hage. unfold alert_escalated, _should_escalate. simpl. rewrite Hack. simpl.
  destruct (am_escalated_at a) as [t0|] eqn:Ee; simpl; [rewrite Ee; by eexists|].
  rewrite Hage. by eexists.
Qed.

Lemma due_alert_remediated t v key a :
  am_acknowledged_at a = None -> remediation_due key a t ->
  _should_remediate s (alert_to_record (alert_escalated s t (advanced v t a))) t = true.
Proof.
  intros Hack (e & p & He & _ & _ & Hrem & Hage). unfold _should_remediate. rewrite He.
  unfold alert_escalated. destruct (_should_escalate _ _ _); simpl; rewrite Hack, Hrem; exact Hage.
Qed.

(** The breached rule's own result moves its alert on. *)
Lemma breach_progresses node_id result t w view d w' id a :
  one_firing (w_db w) -> breached result = true ->
  alerts (w_db w) !! id = Some a -> is_open node_id (rule_key result) a ->
  am_acknowledged_at a = None -> aged a t (_escalation_after_seconds s) ->
  apply_outcome s node_id result t w view d w' ->
  progressed (rule_key result) a t id (w_db w').
Proof.
  intros Hone Hb Ha Hopen Hack Hage (o & Ho & Hout). rewrite Hb in Hout.
  destruct o as [[id' a0]|]; [|by destruct (Ho _ _ Ha)]. destruct Ho as [Ha0 Hopen0].
  pose proof Hopen as (Hn & Hk & Hf). pose proof Hopen0 as (Hn0 & Hk0 & Hf0).
  assert (id' = id) as -> by (eapply (Hone _ _ _ _ Ha0 Ha); congruence). simplify_eq.
  destruct Hout as (rec & Hr & _). revert Hr.
  pose proof (due_alert_escalates t (value result) a Hack Hage) as Hesc.
  destruct (alert_escalated_same s t (advanced (value result) t a)) as (Hst & _ & _ & Hkey).
  simpl in Hst, Hkey. rewrite Hf in Hst. rewrite Hk in Hkey.
  pose proof (fun key => due_alert_remediated t (value result) key a Hack) as Hdue.
  set (a' := alert_escalated s t (advanced (value result) t a)) in *.
  assert (forall db, alerts db !! id = Some a' -> ~ remediation_due (rule_key result) a t ->
            progressed (rule_key result) a t id db) as Hidle.
  { intros db Hdb Hno. exists a'. by repeat split. }
  unfold remediate_outcome. destruct (_remediation_engine s) as [e|] eqn:Ee.
  2: { intros [_ ->]. apply Hidle; [apply lookup_insert_eq|]. intros (e & p & He & _). congruence. }
  destruct (_should_remediate s (alert_to_record a') t) eqn:Es; simpl.
  2: { intros [_ ->]. apply Hidle; [apply lookup_insert_eq|]. intros Hd.
       pose proof (Hdue _ Hd). congruence. }
  destruct (if _enabled e then _by_rule_key e !! rule_key result else None) as [p|] eqn:Ep.
  2: { intros [_ ->]. apply Hidle; [apply lookup_insert_eq|]. intros (e' & p & He & Hen & Hp & _).
       simplify_eq. rewrite Hen, Hp in Ep. done. }
  intros (action & db1 & (k & reason & _ & _ & _ & -> & _) & -> & _).
  exists (remediated t a'). simpl. split; [apply lookup_insert_eq|].
  repeat split; [done|done|done|by eexists|].
  eexists k, _. split; [apply lookup_insert_eq|done].
Qed.

(** What [_apply] of another rule's result changes: another alert's row, and fresh actions. *)
Definition elsewhere (key : string) (db db' : Db) : Prop :=
  (forall id a, alerts db !! id = Some a -> am_rule_key a = key -> alerts db' !! id = Some a) /\
  (forall k r, remediation_actions db !! k = Some r -> remediation_actions db' !! k = Some r).

Lemma elsewhere_insert key db id a' :
  (forall a, alerts db !! id = Some a -> am_rule_key a <> key) ->
  elsewhere key db (set_alerts (<[id := a']> (alerts db)) db).
Proof.
  intros Hid. split; [|done]. intros id0 a Ha Hk. simpl. rewrite lookup_insert_ne; [done|].
  intros ->. by apply (Hid _ Ha).
Qed.

Lemma elsewhere_trans key db1 db2 db3 :
  elsewhere key db1 db2 -> elsewhere key db2 db3 -> elsewhere key db1 db3.
Proof. intros [] []. split; auto. Qed.

Lemma other_rule_elsewhere node_id result t w view d w' key :
  key <> rule_key result -> apply_outcome s node_id result t w view d w' ->
  elsewhere key (w_db w) (w_db w').
Proof.
  intros Hne (o & Ho & Hout). destruct o as [[id a]|].
  2: { destruct (breached result); [|by destruct Hout as [-> _]].
       destruct Hout as (id & Hid & -> & _). apply elsewhere_insert. congruence. }
  destruct Ho as [Ha (_ & Hk & _)].
  destruct (breached result); [|destruct Hout as [-> _]; apply elsewhere_insert; congruence].
  destruct Hout as (rec & Hr & _). set (a' := alert_escalated _ _ _) in Hr.
  assert (am_rule_key a' = rule_key result) as Hk'.
  { unfold a'. by destruct (alert_escalated_same s t (advanced (value result) t a)) as (_ & _ & _ & ->). }
  apply (elsewhere_trans key _ (set_alerts (<[id := a']> (alerts (w_db w))) (w_db w)));
    [apply elsewhere_insert; congruence|].
  set (db := set_alerts _ _) in *. assert (alerts db !! id = Some a') as Ha' by apply lookup_insert_eq.
  revert Hr. unfold remediate_outcome.
  destruct (_remediation_engine s) as [e|]; [|by intros [_ ->]].
  destruct (negb _); [by intros [_ ->]|].
  destruct (if _enabled e then _ else None) as [p|]; [|by intros [_ ->]].
  intros (action & db1 & (k & reason & Hfresh & _ & _ & -> & _) & -> & _).
  eapply elsewhere_trans; [|apply elsewhere_insert; intros x Hx; change (alerts db !! id = Some x) in Hx; congruence].
  split; [done|]. intros k' r Hr. simpl. rewrite lookup_insert_ne; [done|]. congruence.
Qed.

Lemma elsewhere_progressed key a t id db db' :
  elsewhere key db db' -> progressed key a t id db -> progressed key a t id db'.
Proof.
  intros [Hal Hact] (a' & Ha' & Hf & Hk & Hesc & Hrem). exists a'. split; [by apply Hal|].
  repeat split; try done; destruct (Hrem ltac:(done)) as (? & k & r & Hr & Hid); eauto.
Qed.

(** ** The whole push *)

(** With a healthy database and windows within the calendar, applying a result succeeds. *)
Lemma apply_total node_id result t w :
  base (w_db w) -> is_Some (nodes (w_db w) !! node_id) ->
  (exists h, datetime_sub t (hours 1) = inl h) ->
  wp (_apply s node_id result t) (fun r w' => exists view d, r = Ok (view, d) /\
    apply_outcome s node_id result t w view d w' /\
    base (w_db w') /\ is_Some (nodes (w_db w') !! node_id)) w.
Proof.
  intros Hb Hn [h Hh]. eapply wp_mono; [by apply apply_spec_wp|].
  intros [[view d]|e] w' [Hs Hr]; [|by destruct Hr as [[_ []]|[_ Hr]]; [|congruence]].
  exists view, d. split; [done|]. split; [done|].
  split; [by eapply base_rtc|by eapply nodes_grow].
Qed.

(** The other rules of a push leave the alerts of [key] alone. *)
Lemma others_elsewhere node_id t results key acc w :
  base (w_db w) -> is_Some (nodes (w_db w) !! node_id) ->
  (exists h, datetime_sub t (hours 1) = inl h) ->
  Forall (fun r => key <> rule_key r) results ->
  wp (m_fold (apply_result s node_id t) acc results)
    (fun _ w' => elsewhere key (w_db w) (w_db w')) w.
Proof.
  intros Hb Hn Hh Hall. revert acc w Hb Hn. induction Hall as [|r results Hr Hall IH];
    intros acc w Hb Hn; simpl; [by apply wp_ret|].
  apply wp_bind. unfold apply_result. wp_step apply_total; [done..|].
  intros res w1 (view & d & -> & Hout & Hb1 & Hn1). apply wp_ret.
  eapply wp_mono; [by apply IH|]. intros r' w2 He. eapply elsewhere_trans; [|exact He].
  by eapply other_rule_elsewhere.
Qed.

(** What a push at [t] that breaches the rule [key] does to the node's alert for it: one that
    is open stays open and progresses; when there is none, one is opened. *)
Record breach_handled (node_id key : string) (t : datetime) (db db' : Db) : Prop := {
  bh_kept : forall id a, alerts db !! id = Some a -> is_open node_id key a ->
    exists a', alerts db' !! id = Some a' /\ is_open node_id key a' /\
      am_first_fired_at a' = am_first_fired_at a;
  bh_opened : (forall id a, alerts db !! id = Some a -> ~ is_open node_id key a) ->
    exists id a, alerts db' !! id = Some a /\ is_open node_id key a /\ am_first_fired_at a = t;
  bh_progress : forall id a, alerts db !! id = Some a -> is_open node_id key a ->
    am_acknowledged_at a = None -> aged a t (_escalation_after_seconds s) ->
    progressed key a t id db';
}.

Lemma breach_handled_elsewhere node_id key t db db1 db2 :
  breach_handled node_id key t db db1 -> elsewhere key db1 db2 ->
  breach_handled node_id key t db db2.
Proof.
  intros [Hk Ho Hp] He. pose proof He as [Hal _]. split.
  - intros id a Ha Hop. destruct (Hk id a Ha Hop) as (a' & Ha' & Hop' & Hf). exists a'.
    split; [|done]. apply Hal; [done|apply Hop'].
  - intros Hno. destruct (Ho Hno) as (id & a & Ha & Hop & Hf). exists id, a.
    split; [|done]. apply Hal; [done|apply Hop].
  - intros id a Ha Hop Hack Hage. eapply elsewhere_progressed; [exact He|by apply Hp].
Qed.

(** The remediation step leaves the alert open, with its age. *)
Lemma remediate_keeps node_id key id a t db rec d db' :
  alerts db !! id = Some a -> remediate_outcome s node_id key id a t db (Ok (rec, d)) db' ->
  exists a', alerts db' !! id = Some a' /\ am_node_id a' = am_node_id a /\
    am_rule_key a' = am_rule_key a /\ am_status a' = am_status a /\
    am_first_fired_at a' = am_first_fired_at a.
Proof.
  intros Ha. unfold remediate_outcome. destruct (_remediation_engine s) as [e|];
    [|intros [_ ->]; by exists a].
  destruct (negb _); [intros [_ ->]; by exists a|]. case_match; [|intros [_ ->]; by exists a].
  intros (action & db1 & (k & reason & _ & _ & _ & -> & _) & -> & _).
  exists (remediated t a). split; [apply lookup_insert_eq|done].
Qed.

Lemma alert_escalated_fired t a :
  am_first_fired_at (alert_escalated s t a) = am_first_fired_at a.
Proof. unfold alert_escalated. by destruct (_should_escalate _ _ _). Qed.

Lemma breach_handles node_id result t w view d w' :
  one_firing (w_db w) -> breached result = true ->
  apply_outcome s node_id result t w view d w' ->
  breach_handled node_id (rule_key result) t (w_db w) (w_db w').
Proof.
  intros Hone Hb Hout. pose proof Hout as (o & Ho & Hres). rewrite Hb in Hres. split.
  - intros id a Ha Hop. destruct o as [[id' a0]|]; [|by destruct (Ho _ _ Ha)].
    destruct Ho as [Ha0 Hop0]. pose proof Hop as (Hn & Hk & Hf). pose proof Hop0 as (Hn0 & Hk0 & Hf0).
    assert (id' = id) as -> by (eapply (Hone _ _ _ _ Ha0 Ha); congruence).
    rewrite Ha in Ha0. injection Ha0 as <-. destruct Hres as (rec & Hr & _).
    destruct (alert_escalated_same s t (advanced (value result) t a)) as (Hst & _ & Hno & Hke).
    pose proof (alert_escalated_fired t (advanced (value result) t a)) as Hfi.
    destruct (remediate_keeps _ _ _ _ _ _ _ _ _ (lookup_insert_eq _ _ _) Hr)
      as (a' & Ha' & Hn' & Hk' & Hs' & Hf').
    exists a'. split; [done|]. simpl in *. split; [|congruence]. repeat split; congruence.
  - intros Hno. destruct o as [[id' a0]|]; [by destruct Ho as [Ha0 Hop0]; destruct (Hno _ _ Ha0)|].
    destruct Hres as (id & Hid & -> & _). eexists id, _. split; [apply lookup_insert_eq|]. by split.
  - intros id a Ha Hop Hack Hage. by eapply breach_progresses.
Qed.

Lemma evaluation_handles node_id sample rest rule t w :
  base (w_db w) -> one_firing (w_db w) -> is_Some (nodes (w_db w) !! node_id) ->
  rules_keyed (_rule_engine s) ->
  windows_ok (_rule_engine s) t -> (exists h, datetime_sub t (hours 1) = inl h) ->
  re_threshold_rules (_rule_engine s) !! ms_metric_type sample = Some rule ->
  Forall (fun x => ms_metric_type x <> ms_metric_type sample) rest ->
  breached (_evaluate_threshold rule sample) = true ->
  wp (evaluate_and_apply s node_id (sample :: rest) t) (fun _ w' =>
    breach_handled node_id (rule_key_of THRESHOLD (ms_metric_type sample)) t (w_db w) (w_db w')) w.
Proof.
  intros Hb Hone Hn Hkeyed Hw Hh Hrule Hrest Hbr. unfold evaluate_and_apply.
  wp_step evaluate_reads; [done|]. intros [results|e] w1 [[Hdb1 _] Hr1]; [|by destruct Hr1 as [_ []]].
  destruct Hr1 as (outs & Hall & ->).
  destruct (first_result _ _ _ _ _ _ _ _ Hkeyed Hrule Hrest Hall) as (others & -> & Hothers).
  rewrite <- Hdb1 in *. clear w Hdb1 Hall. simpl.
  apply wp_bind. unfold apply_result at 1. wp_step apply_total; [done..|].
  intros res w2 (view & d & -> & Hap & Hb2 & Hn2). apply wp_ret.
  eapply wp_mono; [by eapply others_elsewhere|]. intros r w3 He.
  eapply breach_handled_elsewhere; [|exact He].
  rewrite <- (proj1 Hkeyed _ _ Hrule). by eapply (breach_handles _ (_evaluate_threshold rule sample)).
Qed.

(** The whole push: one whose first sample breaches its threshold rule ends with an open
    alert for it, and one that was open longer than the escalation delay, unacknowledged, has
    escalated; if it was due for remediation, it is stamped and an action refers to it. *)
Lemma ingest_handles stale_after payload sample rest rule w :
  base (w_db w) -> one_firing (w_db w) -> rules_keyed (_rule_engine s) ->
  windows_ok (_rule_engine s) (np_collected_at payload) ->
  (exists h, datetime_sub (np_collected_at payload) (hours 1) = inl h) ->
  np_samples payload = sample :: rest ->
  Forall (fun x => ms_metric_type x <> ms_metric_type sample) rest ->
  re_threshold_rules (_rule_engine s) !! ms_metric_type sample = Some rule ->
  evaluate_comparison (tr_comparison rule) (ms_value sample) (tr_threshold rule) = true ->
  wp (ingest stale_after (Some s) payload) (fun r w' => is_ok r = true /\
    breach_handled (np_node_id payload) (rule_key_of THRESHOLD (ms_metric_type sample))
      (np_collected_at payload) (w_db w) (w_db w')) w.
Proof.
  intros Hb Hone Hkeyed Hw Ht Hs Hrest Hrule Hbr. unfold ingest.
  apply wp_bind. unfold wp at 1. simpl. wp_step record_seen_spec.
  intros [v|e] w1 [_ Hr1]; [|exfalso; destruct Hr1 as (_ & _ & Hno); apply Hno; split; [done|apply Hb]].
  destruct Hr1 as (now & Hdb1 & _). simpl in Hdb1.
  assert (base (w_db w1)) as Hb1.
  { rewrite Hdb1. eapply (base_stable (lifecycle_config s) False); [exact Hb|apply step_seen]. }
  assert (is_Some (nodes (w_db w1) !! np_node_id payload)) as Hn1.
  { rewrite Hdb1. apply lookup_insert_is_Some'. by left. }
  wp_step bulk_insert_writes.
  intros [u|e] w2 [_ Hr2]; [|exfalso; destruct Hr2 as (_ & _ & Hno); apply Hno;
    split; [done|split; [apply Hb1|done]]].
  destruct Hr2 as (ids & Hl & Hnd & Hfresh & Hdb2).
  assert (alerts (w_db w2) = alerts (w_db w)) as Hal by by rewrite Hdb2; simpl; rewrite Hdb1.
  apply wp_bind. unfold _evaluate_rules_best_effort. apply wp_try, wp_bind. rewrite Hs.
  eapply wp_mono; [apply (evaluation_handles (np_node_id payload) sample rest rule); try done|].
  - rewrite Hdb2. eapply (base_stable (lifecycle_config s) False); [exact Hb1|by apply step_samples].
  - unfold one_firing. by rewrite Hal.
  - by rewrite Hdb2.
  - intros r w3 [Hk Ho Hp]. rewrite Hal in Hk, Ho, Hp.
    destruct r as [o|e]; do 2 apply wp_ret; (split; [done|by split]).
Qed.

End progress.
