(* ===== verification/Reconciliation.v ===== *)
(** * ReconciliationJob ([collector/jobs/reconciliation.py])

    Times out dispatched actions whose Agent never reported. *)

From S2P Require Import Prelude PyFloat PyTime Domain Schema Runtime Protocols Tables.
From S2P Require Import Remediation Lifecycle Invariants Conformance.

Local Open Scope Z_scope.

Definition TIMED_OUT_REASON : string :=
  "dispatch timed out — Agent never reported a result (crash or partition between dispatch and result-report)".

Section reconciliation.
Context `{E : Env, !RemediationActionRepository} (timeout_seconds : float).

(** The loop body: time one action out, count it. *)
Definition time_out (now : datetime) (timed_out : Z) (action : RemediationActionRecord) : M Z :=
  _ ← mark_result (rr_id action) FAILED (Some TIMED_OUT_REASON) now;
  mret (timed_out + 1).

Definition reconciliation_run : M Z :=
  now ← utc_now;
  timeout ← lift (of_time (timedelta_of_seconds timeout_seconds));
  cutoff ← lift (of_time (datetime_sub now timeout));
  over_age ← list_dispatched_before cutoff;
  m_fold (time_out now) 0 over_age.

(** ** The sweep *)

(** The actions of [l] are rows still awaiting a result. *)
Definition pending (db : Db) (l : list RemediationActionRecord) : Prop :=
  NoDup (rr_id <$> l) /\
  forall rec, rec ∈ l -> exists r, remediation_actions db !! rr_id rec = Some r /\
    rec = action_to_record r /\ rm_status r = DISPATCHED.

(** Every listed action timed out at [now], the other rows as they were. *)
Definition timed_out_rows (now : datetime) (ids : list Z) (t : gmap Z RemediationActionModel)
    : gmap Z RemediationActionModel :=
  map_imap (fun k r => Some (if decide (k ∈ ids)
                             then completed FAILED (Some TIMED_OUT_REASON) now r else r)) t.

Lemma lookup_timed_out now ids t k :
  timed_out_rows now ids t !! k =
  (fun r => if decide (k ∈ ids) then completed FAILED (Some TIMED_OUT_REASON) now r else r) <$> t !! k.
Proof. unfold timed_out_rows. rewrite map_lookup_imap. by destruct (t !! k). Qed.

Lemma timed_out_nil now t : timed_out_rows now [] t = t.
Proof.
  apply map_eq. intros k. rewrite lookup_timed_out. destruct (t !! k) as [x|]; [|done].
  cbn [fmap option_fmap option_map]. case_decide as Hin; [by apply elem_of_nil in Hin|done].
Qed.

Lemma timed_out_cons now id r ids t :
  t !! id = Some r -> id ∉ ids ->
  timed_out_rows now ids (<[id := completed FAILED (Some TIMED_OUT_REASON) now r]> t) =
  timed_out_rows now (id :: ids) t.
Proof.
  intros Hr Hno. apply map_eq. intros k. rewrite !lookup_timed_out.
  destruct (decide (k = id)) as [->|Hne].
  - rewrite lookup_insert_eq, Hr. cbn [fmap option_fmap option_map]. rewrite decide_False by done.
    by rewrite decide_True by left.
  - rewrite lookup_insert_ne by done. destruct (t !! k) as [x|]; [|done]. cbn [fmap option_fmap option_map]. f_equal.
    destruct (decide (k ∈ ids)) as [H1|H1], (decide (k ∈ id :: ids)) as [H2|H2]; try done; exfalso.
    + apply H2. by right.
    + apply elem_of_cons in H2 as [?|?]; done.
Qed.

Lemma pending_tail db rec l row :
  pending db (rec :: l) ->
  pending (set_actions (<[rr_id rec := row]> (remediation_actions db)) db) l /\
  (rr_id rec ∉ rr_id <$> l).
Proof.
  intros [Hnd Hrows]. apply NoDup_cons in Hnd as [Hno Hnd]. split; [|done].
  split; [done|]. intros rec' Hin. destruct (Hrows rec' ltac:(by right)) as (r' & Hr' & Hrec & Hst).
  exists r'. split; [|done]. simpl. rewrite lookup_insert_ne; [done|]. intros Heq. apply Hno.
  rewrite Heq. by apply list_elem_of_fmap_2.
Qed.

(** The rows a healthy query lists are pending, each once. *)
Lemma listed_pending db cutoff l :
  keyed db -> l ≡ₚ (action_to_record <$> filter (dispatched_before cutoff) (rows (remediation_actions db))) ->
  pending db l /\
  forall id, id ∈ rr_id <$> l <->
    exists r, remediation_actions db !! id = Some r /\ dispatched_before cutoff r.
Proof.
  intros [_ Hkey] Hl.
  assert (forall r, r ∈ rows (remediation_actions db) -> remediation_actions db !! rm_id r = Some r) as Hrow.
  { intros r [k Hk]%elem_of_rows. by rewrite (Hkey _ _ Hk). }
  split; [split|].
  - rewrite Hl, <- list_fmap_compose.
    assert (NoDup (rm_id <$> rows (remediation_actions db))) as Hnd.
    { unfold rows. rewrite <- list_fmap_compose.
      rewrite (list_fmap_ext _ fst); [apply NoDup_fst_map_to_list|].
      intros i [k r] Hi%list_elem_of_lookup_2. simpl. apply elem_of_map_to_list in Hi.
      by apply Hkey. }
    eapply sublist_NoDup; [exact Hnd|]. apply fmap_sublist, sublist_filter.
  - intros rec Hin. rewrite Hl in Hin. apply list_elem_of_fmap in Hin as (r & -> & Hin).
    apply list_elem_of_filter in Hin as [[Hd _] Hin]. exists r. split; [by apply Hrow|done].
  - intros id. rewrite Hl, list_elem_of_fmap. split.
    + intros (rec & -> & (r & -> & Hin)%list_elem_of_fmap).
      apply list_elem_of_filter in Hin as [Hd Hin]. exists r. split; [by apply Hrow|done].
    + intros (r & Hr & Hd). exists (action_to_record r). split; [by rewrite <- (Hkey _ _ Hr)|].
      apply list_elem_of_fmap_2, list_elem_of_filter. split; [done|]. apply elem_of_rows. eauto.
Qed.

Lemma set_actions_same db : set_actions (remediation_actions db) db = db.
Proof. by destruct db. Qed.

Lemma sweep_spec c now l acc w :
  base (w_db w) -> pending (w_db w) l ->
  wp (m_fold (time_out now) acc l) (fun r w' =>
    rtc (step c (~ Healthy)) (w_db w) (w_db w') /\
    match r with
    | Ok n => n = acc + Z.of_nat (length l) /\
        w_db w' = set_actions (timed_out_rows now (rr_id <$> l) (remediation_actions (w_db w))) (w_db w)
    | Raise e => is_persistence e /\ ~ Healthy
    end) w.
Proof.
  revert acc w. induction l as [|rec l IH]; intros acc w Hb Hp; simpl.
  { apply wp_ret. split; [done|]. split; [lia|]. by rewrite timed_out_nil, set_actions_same. }
  apply wp_bind. unfold time_out. wp_step mark_result_writes.
  pose proof Hp as [_ Hrows]. destruct (Hrows rec ltac:(by left)) as (r & Hr & _ & Hst).
  intros [rec'|e] w1 [_ Hr1].
  2: { destruct Hr1 as (He & -> & Hn). split; [done|]. split; [done|]. intros Hh. apply Hn.
       split; [done|]. split; [apply Hb|by rewrite Hr]. }
  destruct Hr1 as (r' & Hr' & _ & Hdb1). simplify_eq. apply wp_ret.
  assert (step c (~ Healthy) (w_db w) (w_db w1)) as Hs1.
  { rewrite Hdb1. eapply step_complete; auto. }
  destruct (pending_tail _ _ _ (completed FAILED (Some TIMED_OUT_REASON) now r) Hp) as [Hp1 Hno].
  eapply wp_mono; [apply IH; [by eapply base_stable|by rewrite Hdb1]|].
  intros res w2 [Hs2 Hr2]. split; [by eapply rtc_l|]. destruct res; [|done].
  destruct Hr2 as [-> ->]. split; [lia|]. rewrite Hdb1. simpl. unfold set_actions. simpl. f_equal.
  by apply timed_out_cons.
Qed.

(** The whole run, when the timeout is a timedelta within the calendar. *)
Lemma reconciliation_run_spec c w :
  base (w_db w) ->
  wp reconciliation_run (fun r w' =>
    rtc (step c (~ Healthy)) (w_db w) (w_db w') /\
    let now := clock (w_tick w) in
    forall timeout cutoff, timedelta_of_seconds timeout_seconds = inl timeout ->
      datetime_sub now timeout = inl cutoff ->
    match r with
    | Ok n => exists ids, n = Z.of_nat (length ids) /\ NoDup ids /\
        (forall id, id ∈ ids <-> exists a, remediation_actions (w_db w) !! id = Some a /\
           dispatched_before cutoff a) /\
        w_db w' = set_actions (timed_out_rows now ids (remediation_actions (w_db w))) (w_db w)
    | Raise e => is_persistence e /\ ~ Healthy
    end) w.
Proof.
  intros Hb. unfold reconciliation_run. apply wp_bind. unfold wp at 1. simpl.
  destruct (timedelta_of_seconds timeout_seconds) as [d|te] eqn:Ed; simpl.
  2: { apply wp_bind, wp_lift. destruct te; simpl; (split; [done|]); intros; congruence. }
  rewrite lift_ok_bind. destruct (datetime_sub _ d) as [cutoff|te] eqn:Ec; simpl.
  2: { apply wp_bind, wp_lift. destruct te; simpl; (split; [done|]); intros; congruence. }
  rewrite lift_ok_bind. wp_step list_dispatched_before_reads. simpl.
  intros [l|e] w1 [[Hdb1 _] Hr1].
  2: { rewrite Hdb1. split; [done|]. intros. done. }
  destruct (listed_pending _ _ _ (proj1 Hb) Hr1) as [Hp Hids].
  eapply wp_mono; [apply (sweep_spec c); by rewrite Hdb1|]. simpl in Hdb1. rewrite Hdb1.
  intros [n|e] w2 [Hs2 Hr2]; (split; [done|]); intros timeout cutoff' Ht Hc; simplify_eq; [|done].
  destruct Hr2 as [-> Hdb2]. exists (rr_id <$> l). rewrite length_fmap. split; [lia|].
  split; [apply Hp|].
  assert (cutoff' = cutoff) as -> by congruence. split; [exact Hids|done].
Qed.

Lemma reconciliation_conforms c : conforms c reconciliation_run.
Proof. intros w Hb. eapply wp_mono; [by apply (reconciliation_run_spec c)|]. by intros r w' [Hs _]. Qed.

End reconciliation.

Section reconciliation_properties.
Context `{E : Env, !RemediationActionRepository}.

(** C30: a sweep marks exactly the dispatched actions older than the timeout as failed, with the
    timed-out reason and the sweep's time, and answers their number; every other row stays
    as it was. *)
Theorem reconciliation_sweep timeout_seconds timeout cutoff w :
  timedelta_of_seconds timeout_seconds = inl timeout ->
  datetime_sub (clock (w_tick w)) timeout = inl cutoff ->
  base (w_db w) ->
  wp (reconciliation_run timeout_seconds) (fun r w' =>
    match r with
    | Ok n => exists ids, n = Z.of_nat (length ids) /\ NoDup ids /\
        (forall id, id ∈ ids <-> exists a, remediation_actions (w_db w) !! id = Some a /\
           dispatched_before cutoff a) /\
        w_db w' = set_actions (timed_out_rows (clock (w_tick w)) ids
                    (remediation_actions (w_db w))) (w_db w)
    | Raise e => is_persistence e /\ ~ Healthy
    end) w.
Proof.
  intros Ht Hc Hb.
  pose (c := {| lc_escalation_after := float_of_Z 0; lc_remediation_after := float_of_Z 0;
                lc_engine := None; lc_retention := false |}).
  eapply wp_mono; [by apply (reconciliation_run_spec timeout_seconds c)|].
  intros r w' [_ Hr]. by apply (Hr timeout cutoff).
Qed.

End reconciliation_properties.
