(* ===== verification/Staleness.v ===== *)
(** * StalenessJob ([collector/jobs/staleness.py])

    Opens an alert for every silent node and resolves it on recovery, except on the first
    run after the process started, which opens none. *)

From S2P Require Import Prelude PyFloat PyTime Domain Schema Runtime Protocols Tables.
From S2P Require Import Rules Remediation Notifications Lifecycle Invariants Conformance.

Local Open Scope Z_scope.

Definition STALENESS_RULE_KEY : string := "staleness:node_heartbeat".

Record StalenessCounts := { stale : Z; opened : Z; resolved_count : Z }.

Section staleness.
Context `{E : Env, !NodeRepository, !AlertRepository}.
Context (stale_after_seconds : float) (notifier : option Notifier).

Definition silent_description (silent_seconds : float) : M string :=
  match float_trunc silent_seconds with
  | Some n => mret ("Node has stopped reporting (no metrics or heartbeat for " ++ pretty n ++ "s)")%string
  | None => raise OverflowError
  end.

(** The loop body of [run]. *)
Definition sweep_node (first_run_done : bool) (now : datetime) (acc : StalenessCounts)
    (node : NodeRecord) : M StalenessCounts :=
  let silent_seconds := total_seconds (now - nr_last_seen_at node) in
  open_alert ← find_open_alert (nr_node_id node) STALENESS_RULE_KEY;
  if fge silent_seconds stale_after_seconds then
    let acc := {| stale := stale acc + 1; opened := opened acc; resolved_count := resolved_count acc |} in
    match open_alert with
    | None =>
        if first_run_done then
          description ← silent_description silent_seconds;
          record ← create_alert (nr_node_id node) STALENESS_RULE_KEY STALENESS CRITICAL description
                     silent_seconds stale_after_seconds now;
          _ ← _notify notifier (format_opened record);
          mret {| stale := stale acc; opened := opened acc + 1; resolved_count := resolved_count acc |}
        else mret acc
    | Some _ => mret acc
    end
  else
    match open_alert with
    | Some open_alert =>
        record ← resolve_alert (ar_id open_alert) now;
        _ ← _notify notifier (format_resolved record);
        mret {| stale := stale acc; opened := opened acc; resolved_count := resolved_count acc + 1 |}
    | None => mret acc
    end.

(** [run]: the flag [_first_run_done] is part of the job's state and set at the end. *)
Definition staleness_run (first_run_done : bool) : M StalenessCounts :=
  now ← utc_now;
  nodes ← list_all;
  m_fold (sweep_node first_run_done now) {| stale := 0; opened := 0; resolved_count := 0 |} nodes.

(** ** One node *)

(** [n] has an open staleness alert. *)
Definition has_open (db : Db) (n : string) : Prop :=
  exists id a, alerts db !! id = Some a /\ is_open n STALENESS_RULE_KEY a.

(** The node's silence has reached the threshold, boundary included. *)
Definition silent (now last_seen : datetime) : Prop :=
  fge (total_seconds (now - last_seen)) stale_after_seconds = true.

(** Writing one alert of [n] leaves the other nodes' alerts as they are. *)
Lemma has_open_other db id a n n' :
  am_node_id a = n -> n' <> n ->
  (forall a0, alerts db !! id = Some a0 -> am_node_id a0 = n) ->
  has_open (set_alerts (<[id := a]> (alerts db)) db) n' <-> has_open db n'.
Proof.
  intros Ha Hne Hold. split; intros (k & x & Hk & Hx); exists k, x; (split; [|done]); simpl in *.
  - apply lookup_insert_Some in Hk as [[<- <-]|[_ Hk]]; [|done]. destruct Hx. congruence.
  - destruct (decide (k = id)) as [->|Hki]; [|by rewrite lookup_insert_ne].
    apply Hold in Hk. destruct Hx. congruence.
Qed.

(** With one open alert per condition, resolving it leaves none. *)
Lemma has_open_resolved db id a now n :
  one_firing db -> alerts db !! id = Some a -> is_open n STALENESS_RULE_KEY a ->
  ~ has_open (set_alerts (<[id := resolved now a]> (alerts db)) db) n.
Proof.
  intros Hone Ha (Hn & Hk & Hf) (k & x & Hx & Hxn & Hxk & Hxf). simpl in Hx.
  apply lookup_insert_Some in Hx as [[<- <-]|[Hne Hx]]; [done|]. apply Hne.
  eapply (Hone id a k x); done || congruence.
Qed.

Lemma silent_description_ok d w :
  exists s, silent_description (total_seconds d) w = (Ok s, w).
Proof.
  unfold silent_description, total_seconds.
  destruct d; simpl; [by eexists| |]; destruct (div_million _); simpl;
    destruct (float_ratio _ _); by eexists.
Qed.

(** The state a sweep step may rely on. *)
Definition sweepable (db : Db) : Prop := base db /\ one_firing db.

Lemma sweepable_step c f db db' : sweepable db -> step c f db db' -> sweepable db'.
Proof. intros [] Hs. split; [by eapply base_stable|by eapply one_firing_stable]. Qed.

Lemma sweep_node_spec c first now acc node w :
  sweepable (w_db w) -> is_Some (nodes (w_db w) !! nr_node_id node) ->
  wp (sweep_node first now acc node) (fun r w' =>
    rtc (step c (~ Healthy)) (w_db w) (w_db w') /\
    match r with
    | Ok _ => nodes (w_db w') = nodes (w_db w) /\
        (forall n', n' <> nr_node_id node -> has_open (w_db w') n' <-> has_open (w_db w) n') /\
        (has_open (w_db w') (nr_node_id node) <-> silent now (nr_last_seen_at node) /\
           (first = true \/ has_open (w_db w) (nr_node_id node)))
    | Raise e => is_persistence e /\ ~ Healthy
    end) w.
Proof.
  intros [Hb Hone] Hn. unfold sweep_node. wp_step find_open_alert_reads.
  intros [o|e] w1 [[Hdb1 _] Hr1]; [|by rewrite Hdb1]. rewrite <- Hdb1 in *. clear w Hdb1.
  destruct (fge _ _) eqn:Es.
  - destruct o as [rec|]; [|destruct first].
    + apply wp_ret. split; [done|]. split; [done|]. split; [done|]. unfold silent.
      destruct Hr1 as (id & a & Ha & Ho & _). split; [split; [done|]; by right|].
      intros _. by exists id, a.
    + destruct (silent_description_ok (now - nr_last_seen_at node) w1) as [d Hd].
      apply wp_bind. unfold wp at 1. rewrite Hd. simpl. wp_step create_alert_writes.
      intros [rec|e] w2 [_ Hr2].
      2: { destruct Hr2 as (He & -> & Hnh). split; [done|]. split; [done|]. intros Hh. apply Hnh.
           split; [done|]. split; [apply Hb|done]. }
      destruct Hr2 as (id & Hid & _ & Hdb2 & _). apply wp_bind, wp_notify. intros w3 Hdb3 _.
      apply wp_ret. rewrite Hdb3, Hdb2. split; [by apply rtc_once, step_open|]. split; [done|].
      split.
      * intros n' Hne. apply (has_open_other _ _ _ (nr_node_id node)); [done|done|]. congruence.
      * split; [by split; [|left]|]. intros _. eexists id, _. split; [apply lookup_insert_eq|done].
    + apply wp_ret. split; [done|]. split; [done|]. split; [done|].
      split; [intros (id & a & Ha & Ho); by exfalso; eapply Hr1|].
      intros [_ [?|(id & a & Ha & Ho)]]; [done|by exfalso; eapply Hr1].
  - assert (~ silent now (nr_last_seen_at node)) as Hns by (unfold silent; congruence).
    destruct o as [rec|].
    + destruct Hr1 as (id & a & Ha & Ho & ->). pose proof Ho as (Han & _ & Haf).
      simpl. rewrite (proj1 (proj1 Hb) _ _ Ha). wp_step resolve_alert_writes.
      intros [rec'|e] w2 [_ Hr2].
      2: { destruct Hr2 as (He & -> & Hnh). split; [done|]. split; [done|]. intros Hh. apply Hnh.
           split; [done|]. split; [apply Hb|by rewrite Ha]. }
      destruct Hr2 as (a' & Ha' & _ & Hdb2). simplify_eq. apply wp_bind, wp_notify.
      intros w3 Hdb3 _. apply wp_ret. rewrite Hdb3, Hdb2.
      split; [eapply rtc_once, step_alert; [done..|constructor]|]. split; [done|]. split.
      * intros n' Hne. apply (has_open_other _ _ _ (nr_node_id node)); [done|done|]. congruence.
      * split; [|by intros []]. intros Hop. by apply has_open_resolved in Hop.
    + apply wp_ret. split; [done|]. split; [done|]. split; [done|]. split; [|by intros []].
      intros (id & a & Ha & Ho). by exfalso; eapply Hr1.
Qed.

(** ** The whole sweep *)

Lemma sweep_all_spec c first now l acc w :
  sweepable (w_db w) -> NoDup (nr_node_id <$> l) ->
  (forall node, node ∈ l -> is_Some (nodes (w_db w) !! nr_node_id node)) ->
  wp (m_fold (sweep_node first now) acc l) (fun r w' =>
    rtc (step c (~ Healthy)) (w_db w) (w_db w') /\
    match r with
    | Ok _ => nodes (w_db w') = nodes (w_db w) /\
        (forall n, n ∉ nr_node_id <$> l -> has_open (w_db w') n <-> has_open (w_db w) n) /\
        (forall node, node ∈ l -> has_open (w_db w') (nr_node_id node) <->
           silent now (nr_last_seen_at node) /\
           (first = true \/ has_open (w_db w) (nr_node_id node)))
    | Raise e => is_persistence e /\ ~ Healthy
    end) w.
Proof.
  revert acc w. induction l as [|node l IH]; intros acc w Hsw Hnd Hreg; simpl.
  { apply wp_ret. split; [done|]. split; [done|]. split; [done|].
    intros node Hin. by apply elem_of_nil in Hin. }
  apply NoDup_cons in Hnd as [Hno Hnd]. wp_step (sweep_node_spec c); [done|apply Hreg; by left|].
  intros [acc'|e] w1 [Hs1 Hr1]; [|done]. destruct Hr1 as (Hn1 & Hother & Hthis).
  assert (sweepable (w_db w1)) as Hsw1.
  { eapply (stable_rtc c (~ Healthy) sweepable); [intros ??; apply sweepable_step|done|done]. }
  eapply wp_mono; [apply IH; [done|done|]|].
  { intros node' Hin. rewrite Hn1. apply Hreg. by right. }
  intros [acc2|e] w2 [Hs2 Hr2]; (split; [by etrans|]); [|done].
  destruct Hr2 as (Hn2 & Hout & Hin). split; [congruence|]. split.
  - intros n [Hne Hnl]%not_elem_of_cons. by rewrite (Hout n Hnl), (Hother n Hne).
  - intros node' [->|Hl]%elem_of_cons; [by rewrite (Hout _ Hno)|].
    rewrite (Hin node' Hl), (Hother (nr_node_id node')); [done|].
    intros Heq. apply Hno. rewrite <- Heq. by apply list_elem_of_fmap_2.
Qed.

Lemma listed_nodes db l :
  nodes_keyed db -> l ≡ₚ (node_to_record <$> rows (nodes db)) ->
  NoDup (nr_node_id <$> l) /\
  forall n node, nodes db !! n = Some node -> node_to_record node ∈ l.
Proof.
  intros Hkey Hl. split.
  - rewrite Hl, <- list_fmap_compose. unfold rows. rewrite <- list_fmap_compose.
    rewrite (list_fmap_ext _ fst); [apply NoDup_fst_map_to_list|].
    intros i [k r] Hi%list_elem_of_lookup_2. simpl. apply elem_of_map_to_list in Hi. by apply Hkey.
  - intros n node Hn. rewrite Hl. apply list_elem_of_fmap_2, elem_of_rows. eauto.
Qed.

Lemma staleness_run_spec c first w :
  sweepable (w_db w) -> nodes_keyed (w_db w) ->
  wp (staleness_run first) (fun r w' =>
    rtc (step c (~ Healthy)) (w_db w) (w_db w') /\
    match r with
    | Ok _ => let now := clock (w_tick w) in forall n node, nodes (w_db w) !! n = Some node ->
        has_open (w_db w') n <-> silent now (nm_last_seen_at node) /\
                                 (first = true \/ has_open (w_db w) n)
    | Raise e => is_persistence e /\ ~ Healthy
    end) w.
Proof.
  intros Hsw Hkey. unfold staleness_run. apply wp_bind. unfold wp at 1. simpl.
  wp_step list_all_reads. simpl. intros [l|e] w1 [[Hdb1 _] Hr1]; [|by rewrite Hdb1].
  simpl in Hdb1. destruct (listed_nodes _ _ Hkey Hr1) as [Hnd Hin].
  eapply wp_mono; [apply (sweep_all_spec c)|].
  - by rewrite Hdb1.
  - done.
  - intros node Hl. rewrite Hdb1. rewrite Hr1 in Hl.
    apply list_elem_of_fmap in Hl as (r & -> & [k Hk]%elem_of_rows).
    rewrite <- (Hkey _ _ Hk) in Hk. by eexists.
  - rewrite Hdb1. intros [acc|e] w2 [Hs2 Hr2]; (split; [done|]); [|done].
    destruct Hr2 as (_ & _ & Hall). intros n node Hn.
    specialize (Hall _ (Hin n node Hn)). simpl in Hall. by rewrite (Hkey _ _ Hn) in Hall.
Qed.

End staleness.

Section staleness_properties.
Context `{E : Env, !NodeRepository, !AlertRepository}.

(** C31: after a sweep, every registered node has an open staleness alert exactly when it is silent
    (at the threshold or past it) and either this was not the process's first sweep or the
    alert was already open: the first sweep opens none, and a node that reports again has
    its alert resolved. *)
Theorem staleness_sweep stale_after notifier first w :
  sweepable (w_db w) -> nodes_keyed (w_db w) ->
  wp (staleness_run stale_after notifier first) (fun r w' =>
    match r with
    | Ok _ => let now := clock (w_tick w) in forall n node, nodes (w_db w) !! n = Some node ->
        has_open (w_db w') n <-> silent stale_after now (nm_last_seen_at node) /\
                                 (first = true \/ has_open (w_db w) n)
    | Raise e => is_persistence e /\ ~ Healthy
    end) w.
Proof.
  intros Hs Hk.
  pose (c := {| lc_escalation_after := float_of_Z 0; lc_remediation_after := float_of_Z 0;
                lc_engine := None; lc_retention := false |}).
  eapply wp_mono; [by apply (staleness_run_spec stale_after notifier c)|]. by intros r w' [_ ?].
Qed.

End staleness_properties.

(** A rule key determines its kind and metric, and no configured rule produces the key
    reserved for staleness alerts, so the three families of alerts never share a condition. *)
Lemma rule_keys_never_collide k1 m1 k2 m2 :
  (rule_key_of k1 m1 = rule_key_of k2 m2 <-> k1 = k2 /\ m1 = m2) /\
  rule_key_of k1 m1 <> STALENESS_RULE_KEY.
Proof.
  split; [split; [apply rule_key_of_inj|by intros [-> ->]]|]. by destruct k1, m1.
Qed.
