(* ===== verification/Interference.v ===== *)
(** * Who may disturb whom

    The pushes of one node come one after the other, from its Agent, and the scheduler is
    one thread; everything else runs next to anything.  So an alert has an owner among the
    threads: the push of its node or, for staleness alerts, the scheduler.  Others touch it
    only to acknowledge it.  The rely and the guarantee of a thread say so, and what a
    thread has read of its own rows stays true until it acts. *)

From S2P Require Import Prelude PyFloat PyTime Domain Schema Runtime Threads Protocols Tables.
From S2P Require Import Remediation Lifecycle Invariants Conformance Races Staleness.

Local Open Scope Z_scope.
Local Open Scope pulse_scope.

(** ** Owners *)

Inductive Kind :=
| PushOf (node_id : string)    (* handles a push of the node *)
| Scheduler                    (* runs a job *)
| Shared.                      (* handles any other request *)

#[export] Instance Kind_eq_dec : EqDecision Kind.
Proof. solve_decision. Defined.

Definition shared (κ : Kind) : bool := match κ with Shared => true | _ => false end.

(** The alert is [κ]'s to open, advance, escalate, remediate and resolve. *)
Definition mine (κ : Kind) (a : AlertModel) : Prop :=
  match κ with
  | PushOf n => am_node_id a = n /\ am_rule_key a <> STALENESS_RULE_KEY
  | Scheduler => am_rule_key a = STALENESS_RULE_KEY
  | Shared => False
  end.

Lemma mine_unique κ κ' a : mine κ a -> mine κ' a -> κ = κ'.
Proof. destruct κ, κ'; simpl; try done; intros; destruct_and?; congruence. Qed.

Definition with_ack (at_ : option datetime) (by_ : option string) (a : AlertModel) : AlertModel :=
  {| am_id := am_id a; am_node_id := am_node_id a; am_rule_key := am_rule_key a;
     am_rule_kind := am_rule_kind a; am_severity := am_severity a; am_status := am_status a;
     am_description := am_description a; am_triggering_value := am_triggering_value a;
     am_bound := am_bound a; am_first_fired_at := am_first_fired_at a;
     am_last_fired_at := am_last_fired_at a; am_resolved_at := am_resolved_at a;
     am_acknowledged_at := at_; am_acknowledged_by := by_;
     am_escalated_at := am_escalated_at a; am_remediated_at := am_remediated_at a |}.

(** Nothing but the acknowledgement differs. *)
Definition untouched (a a' : AlertModel) : Prop :=
  a' = with_ack (am_acknowledged_at a') (am_acknowledged_by a') a.

#[export] Instance untouched_preorder : PreOrder untouched.
Proof.
  split; [by intros []|]. unfold untouched. intros a b d Hb Hd. rewrite Hd, Hb. done.
Qed.

Lemma untouched_mine κ a a' : untouched a a' -> mine κ a' -> mine κ a.
Proof. unfold untouched. intros ->. by destruct κ. Qed.

(** The action is what it was asked to be. *)
Definition same_request (r r' : RemediationActionModel) : Prop :=
  rm_node_id r' = rm_node_id r /\ rm_alert_id r' = rm_alert_id r /\
  rm_playbook_name r' = rm_playbook_name r /\ rm_created_at r' = rm_created_at r.

#[export] Instance same_request_preorder : PreOrder same_request.
Proof. split; [by intros r|]. unfold same_request. intros a b d. naive_solver congruence. Qed.

(** Nothing of [κ]'s changed or appeared: its alerts, and the actions of its node. *)
Definition spares (κ : Kind) (db db' : Db) : Prop :=
  (forall id a', alerts db' !! id = Some a' -> mine κ a' ->
     exists a, alerts db !! id = Some a /\ untouched a a') /\
  (forall k r', remediation_actions db' !! k = Some r' -> κ = PushOf (rm_node_id r') ->
     exists r, remediation_actions db !! k = Some r /\ same_request r r').

#[export] Instance spares_preorder κ : PreOrder (spares κ).
Proof.
  split; [intros x; split; intros k y ? _; exists y; (split; [done|reflexivity])|]. intros x y z [Ha Hr] [Ha' Hr']. split.
  - intros id a' Hz Hm. destruct (Ha' _ _ Hz Hm) as (a1 & H1 & Hu1).
    destruct (Ha _ _ H1) as (a2 & H2 & Hu2); [by eapply untouched_mine|].
    exists a2. split; [done|]. by etrans.
  - intros k r' Hz Hk. destruct (Hr' _ _ Hz Hk) as (r1 & H1 & Hs1).
    destruct (Hr _ _ H1) as (r2 & H2 & Hs2); [by rewrite <- (proj1 Hs1)|].
    exists r2. split; [done|]. by etrans.
Qed.

(** ** Rows persist *)

Section interference.
Context `{E : Env} (c : LifecycleConfig) (Hret : lc_retention c = false).

Abbreviation moves := (rtc (move c (~ Healthy))).

(** Lifts what one move does to a row to any number of them. *)
Lemma moves_row {X} (T : Db -> gmap Z X) (P : X -> X -> Prop) `{!PreOrder P} db db' :
  (forall d d' k x, move c (~ Healthy) d d' -> T d !! k = Some x ->
     exists x', T d' !! k = Some x' /\ P x x') ->
  moves db db' -> forall k x, T db !! k = Some x -> exists x', T db' !! k = Some x' /\ P x x'.
Proof.
  intros Hone Hm. induction Hm as [d|d1 d2 d3 H12 _ IH]; intros k r Hk.
  { exists r. split; [done|reflexivity]. }
  destruct (Hone _ _ _ _ H12 Hk) as (y & Hy & H1). destruct (IH _ _ Hy) as (z & Hz & H2).
  exists z. split; [done|]. by etrans.
Qed.

Lemma alert_step_persists c' a a' :
  am_status a = FIRING ->
  alert_step c' a a' \/ (exists now, remediable c' a now /\ a' = remediated now a) ->
  alert_persists a a'.
Proof.
  intros Hf Hu. destruct (update_id _ _ _ Hu) as (Hi & Hn & Hk & Hff).
  split; [done|]. split; [done|]. split; [done|]. split; [done|]. split; [congruence|].
  destruct Hu as [Hs|(now & (_ & _ & Hrem & _) & ->)].
  - destruct Hs as [v t|t _ Hesc _|by_ t|t]; simpl; split_and!; try done; congruence.
  - simpl. split; [done|]. split; [congruence|done].
Qed.

Lemma move_alert d d' id a :
  move c (~ Healthy) d d' -> alerts d !! id = Some a ->
  exists a', alerts d' !! id = Some a' /\ alert_persists a a'.
Proof.
  assert (forall k x, alerts d !! id = Some a -> (k = id -> x = a \/ alert_persists a x) ->
    exists a', <[k := x]> (alerts d) !! id = Some a' /\ alert_persists a a') as Hins.
  { intros k x Ha Hx. destruct (decide (k = id)) as [->|Hne].
    - rewrite lookup_insert_eq. exists x. split; [done|]. by destruct (Hx eq_refl) as [->|].
    - rewrite lookup_insert_ne by done. by exists a. }
  intros [Hs|Hr] Ha.
  - destruct (step_alerts _ _ _ _ Hs) as [|k n key kind sev desc v b t Hk _ _|k x x' Hk Hf Hu|ids Hr _].
    + by exists a.
    + apply Hins; [done|]. congruence.
    + apply Hins; [done|]. intros ->. simplify_eq. right. by eapply alert_step_persists.
    + congruence.
  - destruct Hr as [k x x' Hk Hst| |]; [|by exists a..].
    apply Hins; [done|]. intros ->. simplify_eq. right. by eapply race_alert_persists.
Qed.

Lemma moves_alert db db' id a :
  moves db db' -> alerts db !! id = Some a ->
  exists a', alerts db' !! id = Some a' /\ alert_persists a a'.
Proof. intros Hm. apply (moves_row alerts alert_persists db db'); [apply move_alert|done]. Qed.

(** An action stays what it was asked to be, blocked or let through, and once it has an
    outcome it is not waited for again. *)
Definition action_persists (r r' : RemediationActionModel) : Prop :=
  same_request r r' /\
  (rm_status r' = BLOCKED_BY_SAFETY_LIMIT <-> rm_status r = BLOCKED_BY_SAFETY_LIMIT) /\
  (rm_status r <> DISPATCHED -> rm_status r' <> DISPATCHED).

#[export] Instance action_persists_preorder : PreOrder action_persists.
Proof.
  split; [by intros r|]. intros x y z (? & H1 & ?) (? & H2 & ?).
  split; [by etrans|]. split; [by rewrite H2|auto].
Qed.

Lemma completed_persists st reason t r :
  rm_status r <> BLOCKED_BY_SAFETY_LIMIT -> st = EXECUTED \/ st = FAILED ->
  action_persists r (completed st reason t r).
Proof. intros Hb Hst. split; [done|]. simpl. by destruct Hst as [-> | ->]. Qed.

Lemma move_action d d' id r :
  move c (~ Healthy) d d' -> remediation_actions d !! id = Some r ->
  exists r', remediation_actions d' !! id = Some r' /\ action_persists r r'.
Proof.
  assert (forall k x, remediation_actions d !! id = Some r -> (k = id -> action_persists r x) ->
    exists r', <[k := x]> (remediation_actions d) !! id = Some r' /\ action_persists r r') as Hins.
  { intros k x Ha Hx. destruct (decide (k = id)) as [->|Hne].
    - rewrite lookup_insert_eq. eauto.
    - rewrite lookup_insert_ne by done. by exists r. }
  intros [Hs|Hr] Ha.
  - destruct (step_actions _ _ _ _ Hs) as
      [|e p k aid a reason now _ _ Hk _ _ _|k x st reason t Hk Hd Hst|ids Hr _].
    + by exists r.
    + apply Hins; [done|]. congruence.
    + apply Hins; [done|]. intros ->. simplify_eq. apply completed_persists; [congruence|done].
    + congruence.
  - destruct Hr as [|id' a now e p k reason _ _ _ _ _ Hk|k x st reason t Hk Hb Hst]; [by exists r|..].
    + apply Hins; [done|]. congruence.
    + apply Hins; [done|]. intros ->. simplify_eq. by apply completed_persists.
Qed.

Lemma moves_action db db' id r :
  moves db db' -> remediation_actions db !! id = Some r ->
  exists r', remediation_actions db' !! id = Some r' /\ action_persists r r'.
Proof.
  intros Hm. apply (moves_row remediation_actions action_persists db db'); [apply move_action|done].
Qed.

Lemma moves_node db db' n : moves db db' -> is_Some (nodes db !! n) -> is_Some (nodes db' !! n).
Proof.
  induction 1 as [|d1 d2 d3 H12 _ IH]; [done|]. intros Hn. apply IH. clear IH.
  destruct H12 as [Hs|Hr]; [|by rewrite (race_nodes _ _ _ Hr)].
  destruct Hs as [n' t| | | |id a now rec db' Ha Hr Hd|id a now rec db' _ Ha Hr Hd| | | |]; try done.
  - simpl. rewrite lookup_insert_is_Some'. by right.
  - simpl. by destruct (decision_shape _ _ _ _ _ _ _ Ha Hr Hd) as (_ & -> & _).
  - by destruct (decision_shape _ _ _ _ _ _ _ Ha Hr Hd) as (_ & -> & _).
Qed.

End interference.
