(* ===== verification/Guarantees.v ===== *)
(** * Rely, guarantee and token of the Collector's threads

    The assertions of the rely/guarantee argument: what the threads of a kind may do to the
    database ([guar]), what they may count on ([rely]), and what a push of a node finds and
    restores ([tok]): no alert of the node that still lacks its remediation stamp has an
    action.  One lemma per repository write says which guarantee it meets. *)

From S2P Require Import Prelude PyFloat PyTime Domain Schema Runtime Threads Protocols Tables.
From S2P Require Import Remediation Lifecycle Invariants Conformance Races Staleness.
From S2P Require Import Interference.

Local Open Scope Z_scope.
Local Open Scope pulse_scope.

(** ** Invariants of the database *)

(** An action's node is its alert's. *)
Definition matched (db : Db) : Prop :=
  forall k r a, remediation_actions db !! k = Some r -> alerts db !! rm_alert_id r = Some a ->
    rm_node_id r = am_node_id a.

(** No alert has two actions. *)
Definition once (db : Db) : Prop :=
  forall k1 r1 k2 r2, remediation_actions db !! k1 = Some r1 ->
    remediation_actions db !! k2 = Some r2 -> rm_alert_id r1 = rm_alert_id r2 -> k1 = k2.

(** [base], and actions matched to their alerts. *)
Definition consistent (db : Db) : Prop := base db /\ matched db.

(** No action refers to an unstamped alert of the node's pushes, but for the alert [x]. *)
Definition unattempted (n : string) (x : option Z) (db : Db) : Prop :=
  forall id a, alerts db !! id = Some a -> mine (PushOf n) a -> am_remediated_at a = None ->
    Some id <> x -> ~ referenced db id.

Lemma matched_update db id a a' :
  matched db -> alerts db !! id = Some a -> am_node_id a' = am_node_id a ->
  matched (set_alerts (<[id := a']> (alerts db)) db).
Proof.
  intros Hm Ha Hn k r x Hk. simpl. intros [[-> <-]|[_ Hx]]%lookup_insert_Some; [|by eapply Hm].
  rewrite Hn. by eapply Hm.
Qed.

Lemma matched_insert db k row a :
  matched db -> alerts db !! rm_alert_id row = Some a -> rm_node_id row = am_node_id a ->
  matched (set_actions (<[k := row]> (remediation_actions db)) db).
Proof.
  intros Hm Ha Hn k' r x. simpl. intros [[<- <-]|[_ Hk]]%lookup_insert_Some Hx; [|by eapply Hm].
  congruence.
Qed.

Lemma matched_complete db k r st reason t :
  matched db -> remediation_actions db !! k = Some r ->
  matched (set_actions (<[k := completed st reason t r]> (remediation_actions db)) db).
Proof.
  intros Hm Hk k' r' x. simpl. intros [[<- <-]|[_ Hk']]%lookup_insert_Some Hx;
    [exact (Hm _ _ _ Hk Hx)|exact (Hm _ _ _ Hk' Hx)].
Qed.

Lemma matched_step c f db db' :
  foreign_keys db -> matched db -> step c f db db' -> matched db'.
Proof.
  intros Hfk Hm Hs. destruct Hs as
    [n t|n samples ct rt ids Hn Hl Hnd Hfresh|id n k kind sev desc v b t Hid Hn Hopen
    |id a a' Ha Hf Hst|id a now rec db' Ha Hr Hd|id a now rec db' Hfy Ha Hr Hd
    |id r st reason t Hr Hd Hst|ids Hret Hids|ids Hret Hids|ids Hret]; try done.
  - intros k' r x Hk. simpl. intros [[-> <-]|[_ Hx]]%lookup_insert_Some; [|by eapply Hm].
    destruct (proj1 (proj2 Hfk) _ _ Hk) as [_ [y Hy]]. congruence.
  - eapply matched_update; [done..|]. by destruct (alert_step_id _ _ _ Hst) as (_ & -> & _).
  - destruct Hd as (e & p & He & Hen & Hp & k & reason & Hk & Hv & _ & -> & _).
    eapply matched_update; [|done|done]. by eapply matched_insert.
  - destruct Hd as (e & p & He & Hen & Hp & k & reason & Hk & Hv & _ & -> & _).
    by eapply matched_insert.
  - by eapply matched_complete.
  - intros k r x Hk. simpl. intros [Hx _]%lookup_without. by eapply Hm.
  - intros k r x. simpl. intros [Hk _]%lookup_without. by eapply Hm.
Qed.

Lemma matched_race c db db' : matched db -> race c db db' -> matched db'.
Proof.
  intros Hm Hs. destruct Hs as [id a a' Ha Hst|id a now e p k reason Ha _ _ _ _ Hk _ _
    |id r st reason t Hr _ _].
  - eapply matched_update; [done..|]. by destruct (race_alert_same _ _ _ Hst) as (_ & -> & _).
  - by eapply matched_insert.
  - by eapply matched_complete.
Qed.

Lemma consistent_moves c f db db' : consistent db -> rtc (move c f) db db' -> consistent db'.
Proof.
  intros Hc Hm. induction Hm as [|d1 d2 d3 H12 _ IH]; [done|]. apply IH. destruct Hc as [Hb Hmt].
  destruct H12 as [Hs|Hr]; split.
  - by eapply base_stable.
  - eapply matched_step; [apply Hb|done|done].
  - by eapply race_base.
  - by eapply matched_race.
Qed.

(** ** Rely, guarantee, token *)

Section guarantees.
Context `{E : Env} (c : LifecycleConfig) (Hret : lc_retention c = false).

Abbreviation moves := (rtc (move c (~ Healthy))).

Definition keeps_once (db db' : Db) : Prop := ~ ~ Healthy -> once db -> once db'.

#[local] Instance keeps_once_preorder : PreOrder keeps_once.
Proof. unfold keeps_once. split; [by intros db _|intros x y z; auto]. Qed.

Definition rely (κ : Kind) (db db' : Db) : Prop :=
  moves db db' /\ keeps_once db db' /\ spares κ db db'.

Definition guar (κ : Kind) (db db' : Db) : Prop :=
  moves db db' /\ keeps_once db db' /\ forall κ', κ' <> κ -> spares κ' db db'.

#[export] Instance rely_preorder κ : PreOrder (rely κ).
Proof.
  split; [intros db; split; [done|split; reflexivity]|].
  intros x y z (H1 & H2 & H3) (H1' & H2' & H3'). split; [by etrans|]. split; by etrans.
Qed.

#[export] Instance guar_preorder κ : PreOrder (guar κ).
Proof.
  split; [intros db; split; [done|split; [reflexivity|intros κ' _; reflexivity]]|].
  intros x y z (H1 & H2 & H3) (H1' & H2' & H3'). split; [by etrans|]. split; [by etrans|].
  intros κ' Hne. etrans; auto.
Qed.

Lemma guar_refl κ db : guar κ db db.
Proof. reflexivity. Qed.

Lemma guar_rely κ κ' db db' : κ <> κ' \/ shared κ = true -> guar κ' db db' -> rely κ db db'.
Proof.
  intros Hk (H1 & H2 & H3). split; [done|]. split; [done|].
  destruct (decide (κ = κ')) as [->|Hne]; [|by apply H3].
  destruct Hk as [|Hsh]; [done|]. by destruct κ'.
Qed.

Definition tok (κ : Kind) (db : Db) : Prop :=
  consistent db /\
  match κ with PushOf n => ~ ~ Healthy -> unattempted n None db | _ => True end.

Lemma unattempted_rely n x db db' :
  matched db' -> rely (PushOf n) db db' -> unattempted n x db -> unattempted n x db'.
Proof.
  intros Hm (_ & _ & Ha & Hr) Hu id a' Hid Hmine Hrem Hx.
  intros (k & r' & Hk & Hal)%referenced_spec.
  destruct (Ha _ _ Hid Hmine) as (a & Ha0 & Hun). pose proof (untouched_mine _ _ _ Hun Hmine) as Hm0.
  destruct (Hr k r' Hk) as (r & Hr0 & Hs).
  { rewrite (Hm k r' a' Hk); [|by rewrite Hal]. by rewrite (proj1 Hmine). }
  apply (Hu id a Ha0 Hm0); [|done|].
  - rewrite Hun in Hrem. exact Hrem.
  - apply referenced_spec. exists k, r. split; [done|]. by rewrite <- (proj1 (proj2 Hs)).
Qed.

Lemma consistent_rely κ db db' : consistent db -> rely κ db db' -> consistent db'.
Proof. intros Hc [Hm _]. by eapply consistent_moves. Qed.

Lemma tok_rely κ db db' : tok κ db -> rely κ db db' -> tok κ db'.
Proof.
  intros [Hc Ht] Hr. pose proof (consistent_rely _ _ _ Hc Hr) as Hc'. split; [done|].
  destruct κ as [n| |]; [|done..]. intros Hh. eapply unattempted_rely; [apply Hc'|done|by apply Ht].
Qed.

(** ** What stays true of what was read *)

(** The firing alert of [κ] under [id] is [a], as far as [κ] is concerned. *)
Definition held (κ : Kind) (id : Z) (a : AlertModel) (db : Db) : Prop :=
  mine κ a /\ am_status a = FIRING /\
  exists a', alerts db !! id = Some a' /\ untouched a a'.

Lemma held_rely κ id a db db' : held κ id a db -> rely κ db db' -> held κ id a db'.
Proof.
  intros (Hm & Hf & a1 & Ha1 & Hu1) (Hmv & _ & Hsp & _). split; [done|]. split; [done|].
  destruct (moves_alert c Hret _ _ _ _ Hmv Ha1) as (a2 & Ha2 & (_ & Hn & Hk & _)).
  exists a2. split; [done|]. assert (mine κ a2) as Hm2.
  { rewrite Hu1 in Hn, Hk. destruct κ; simpl in *; [|congruence|done]. by rewrite Hn, Hk. }
  destruct (Hsp _ _ Ha2 Hm2) as (a3 & Ha3 & Hu3). simplify_eq. by etrans.
Qed.

Definition absent (n key : string) (db : Db) : Prop :=
  forall id a, alerts db !! id = Some a -> ~ is_open n key a.

Lemma absent_rely κ n key db db' :
  (forall a, am_node_id a = n -> am_rule_key a = key -> mine κ a) ->
  absent n key db -> rely κ db db' -> absent n key db'.
Proof.
  intros Hmine Hno (_ & _ & Hsp & _) id a' Ha' (Hn & Hk & Hf).
  destruct (Hsp _ _ Ha' (Hmine _ Hn Hk)) as (a & Ha & Hu). apply (Hno _ _ Ha).
  rewrite Hu in Hn, Hk, Hf. by split.
Qed.

(** The limits only relax: no one else adds actions of the node. *)
Lemma cooled_down_rely e n name now db db' :
  rely (PushOf n) db db' -> cooled_down e db n name now -> cooled_down e db' n name now.
Proof.
  intros (_ & _ & _ & Hsp) Hc k r' Hk [Hn Hp]. destruct (Hsp k r' Hk) as (r & Hr & Hs & _ & Hpn & Ht).
  { by rewrite Hn. }
  rewrite Ht. apply (Hc k r Hr). split; congruence.
Qed.

Lemma below_rate_rely e n now db db' :
  rely (PushOf n) db db' -> below_rate e db n now -> below_rate e db' n now.
Proof.
  unfold below_rate, hourly_count. intros (_ & _ & _ & Hsp) Hb.
  eapply Z.le_lt_trans; [|exact Hb]. apply inj_le.
  apply (count_dominated (recent_action n (now - hours 1))). intros k r' Hk [Hn Ht].
  destruct (Hsp k r' Hk) as (r & Hr & Hs & _ & _ & Hcr); [by rewrite Hn|].
  exists r. split; [done|]. split; [congruence|lia].
Qed.

(** An action that was let through is not blocked later. *)
Definition let_through (id : Z) (db : Db) : Prop :=
  exists r, remediation_actions db !! id = Some r /\ rm_status r <> BLOCKED_BY_SAFETY_LIMIT.

Lemma let_through_moves id db db' : let_through id db -> moves db db' -> let_through id db'.
Proof.
  intros (r & Hr & Hb) Hm. destruct (moves_action c Hret _ _ _ _ Hm Hr) as (r' & Hr' & _ & Hk & _).
  exists r'. split; [done|]. by rewrite Hk.
Qed.

Lemma let_through_rely κ id db db' : let_through id db -> rely κ db db' -> let_through id db'.
Proof. intros Hl [Hm _]. by eapply let_through_moves. Qed.

(** ** The writes meet their guarantees *)

Lemma guar_one κ db db' :
  move c (~ Healthy) db db' -> keeps_once db db' ->
  (forall κ', κ' <> κ -> spares κ' db db') -> guar κ db db'.
Proof. intros Hm Ho Hs. split; [by apply rtc_once|]. by split. Qed.

Lemma keeps_once_same db db' :
  remediation_actions db' = remediation_actions db -> keeps_once db db'.
Proof. intros Hr _. unfold once. by rewrite Hr. Qed.

(** Tables of alerts and actions untouched. *)
Lemma spares_same κ db db' :
  alerts db' = alerts db -> remediation_actions db' = remediation_actions db -> spares κ db db'.
Proof.
  intros Ha Hr. split; intros k x Hk _; exists x; (split; [congruence|reflexivity]).
Qed.

Lemma guar_seen κ n t db :
  guar κ db (set_nodes (<[n := seen_node (nodes db !! n) n t]> (nodes db)) db).
Proof. apply guar_one; [left; apply step_seen|by apply keeps_once_same|]. intros κ' _. by apply spares_same. Qed.

Lemma guar_samples κ n samples collected_at received_at ids db :
  is_Some (nodes db !! n) -> length ids = length samples -> NoDup ids ->
  (forall id, id ∈ ids -> metric_samples db !! id = None) ->
  guar κ db (set_samples (list_to_map (new_samples n collected_at received_at ids samples)
                            ∪ metric_samples db) db).
Proof.
  intros. apply guar_one; [left; by apply step_samples|by apply keeps_once_same|]. intros κ' _. by apply spares_same.
Qed.

(** Writing an alert of [κ]. *)
Lemma spares_alert κ κ' id a db :
  κ' <> κ -> mine κ a -> spares κ' db (set_alerts (<[id := a]> (alerts db)) db).
Proof.
  intros Hne Hm. split; simpl.
  - intros k a' [[<- <-]|[_ Hk]]%lookup_insert_Some Hm'; [|exists a'; split; [done|reflexivity]].
    by destruct Hne; apply (mine_unique _ _ a).
  - intros k r Hk _. exists r. split; [done|reflexivity].
Qed.

Lemma guar_open κ id n key kind sev desc v b t db :
  let row := new_alert id n key kind sev desc v b t in
  mine κ row -> alerts db !! id = None -> is_Some (nodes db !! n) -> absent n key db ->
  guar κ db (set_alerts (<[id := row]> (alerts db)) db).
Proof.
  intros row Hm Hid Hn Hno. apply guar_one; [left; by apply step_open|by apply keeps_once_same|].
  intros κ' Hne. by apply (spares_alert κ).
Qed.

Lemma guar_update κ id a a' db :
  mine κ a -> alerts db !! id = Some a ->
  (am_status a = FIRING /\ alert_step c a a') \/ race_alert_step c a a' ->
  guar κ db (set_alerts (<[id := a']> (alerts db)) db).
Proof.
  intros Hm Ha Hst. assert (mine κ a') as Hm'.
  { assert (am_node_id a' = am_node_id a /\ am_rule_key a' = am_rule_key a) as [Hn Hk].
    { destruct Hst as [[_ Hs]|Hs]; [by destruct (alert_step_id _ _ _ Hs) as (_ & ? & ? & _)|].
      by destruct (race_alert_same _ _ _ Hs) as (_ & ? & ? & _). }
    destruct κ; simpl in *; [|congruence|done]. by rewrite Hn, Hk. }
  apply guar_one; [|by apply keeps_once_same|].
  - destruct Hst as [[Hf Hs]|Hs]; [left; by eapply step_alert|right; by eapply race_alert].
  - intros κ' Hne. by apply (spares_alert κ).
Qed.

(** Anyone may acknowledge. *)
Lemma guar_acknowledge κ id a by_ t db :
  alerts db !! id = Some a ->
  guar κ db (set_alerts (<[id := acknowledged by_ t a]> (alerts db)) db).
Proof.
  intros Ha. apply guar_one; [right; eapply race_alert; [done|constructor]|by apply keeps_once_same|].
  intros κ' _. split; simpl.
  - intros k a' [[<- <-]|[_ Hk]]%lookup_insert_Some _; [by exists a|].
    exists a'. split; [done|reflexivity].
  - intros k r Hk _. exists r. split; [done|reflexivity].
Qed.

(** Anyone may complete an action that was let through. *)
Lemma guar_complete κ id r st reason t db :
  remediation_actions db !! id = Some r -> rm_status r <> BLOCKED_BY_SAFETY_LIMIT ->
  st = EXECUTED \/ st = FAILED ->
  guar κ db (set_actions (<[id := completed st reason t r]> (remediation_actions db)) db).
Proof.
  intros Hr Hb Hst. apply guar_one; [right; by eapply race_complete| |].
  - intros _ Ho k1 r1 k2 r2. simpl. rewrite !lookup_insert_Some.
    intros [[<- <-]|[_ H1]] [[<- <-]|[_ H2]] Hal; simpl in *; try done; by eapply Ho.
  - intros κ' _. split; simpl.
    + intros k a Hk _. exists a. split; [done|reflexivity].
    + intros k r' [[<- <-]|[_ Hk]]%lookup_insert_Some _; [by exists r|].
      exists r'. split; [done|reflexivity].
Qed.

(** The push of a node adds the action of a decision on one of its alerts. *)
Lemma guar_decide n id a now e p k reason db :
  let row := decision_row p k id a reason now in
  alerts db !! id = Some a -> am_node_id a = n -> race_remediable c a now ->
  lc_engine c = Some e -> _enabled e = true -> _by_rule_key e !! am_rule_key a = Some p ->
  remediation_actions db !! k = None ->
  (reason = None -> cooled_down e db n (pb_playbook_name p) now /\ below_rate e db n now) ->
  (~ ~ Healthy -> ~ referenced db id) ->
  foreign_keys (set_actions (<[k := row]> (remediation_actions db)) db) ->
  guar (PushOf n) db (set_actions (<[k := row]> (remediation_actions db)) db).
Proof.
  intros row Ha <- Hrem He Hen Hp Hk Hv Hnr Hfk. apply guar_one.
  - right. by eapply race_decide.
  - intros Hh Ho k1 r1 k2 r2. simpl. rewrite !lookup_insert_Some.
    assert (forall k' r, remediation_actions db !! k' = Some r -> rm_alert_id r <> id) as Hno.
    { intros k' r Hk' Hal. apply (Hnr Hh), referenced_spec. eauto. }
    intros [[<- <-]|[_ H1]] [[<- <-]|[_ H2]] Hal; simpl in *; [done| | |by eapply Ho].
    + by destruct (Hno _ _ H2).
    + by destruct (Hno _ _ H1).
  - intros κ' Hne. split; simpl.
    + intros j x Hj _. exists x. split; [done|reflexivity].
    + intros j r [[<- <-]|[_ Hj]]%lookup_insert_Some Hκ; [done|].
      exists r. split; [done|reflexivity].
Qed.

(** ** Calls *)

Abbreviation safe κ := (Threads.safe (rely κ) (guar κ)).

Lemma safe_reads {A} κ (m : M A) P (Q : Res A -> Db -> Prop) db :
  reads m P ->
  (forall db1, rely κ db db1 ->
     (forall a, P db1 a -> forall db2, rely κ db1 db2 -> Q (Ok a) db2) /\
     (forall e, is_persistence e -> ~ Healthy -> Q (Raise e) db1)) ->
  safe κ (call m) Q db.
Proof.
  intros Hm HQ. apply safe_call. intros w Hw. eapply wp_mono; [apply Hm|].
  intros r w' [[Hdb _] Hr]. rewrite Hdb. split; [apply guar_refl|].
  destruct r as [a|e].
  - intros db2 H2. by apply (proj1 (HQ _ Hw) a Hr db2).
  - intros db2 H2. destruct Hr as [He Hh].
    apply (proj2 (HQ db2 ltac:(by etrans)) e He Hh).
Qed.

(** A call that leaves the database as it is, with a result as [P] says. *)
Lemma safe_same {A} κ (m : M A) (P : Res A -> Prop) (Q : Res A -> Db -> Prop) db :
  (forall w, wp m (fun r w' => P r /\ w_db w' = w_db w) w) ->
  (forall r db1, P r -> rely κ db db1 -> Q r db1) -> safe κ (call m) Q db.
Proof.
  intros Hm HQ. apply safe_call. intros w Hw. eapply wp_mono; [apply Hm|].
  intros r w' [HP Hdb]. rewrite Hdb. split; [apply guar_refl|].
  intros db2 H2. apply HQ; [done|]. by etrans.
Qed.

Lemma safe_writes {A} κ (m : M A) pre P (Q : Res A -> Db -> Prop) db :
  writes m pre P ->
  (forall db1, rely κ db db1 ->
     (forall a db2, P db1 a db2 -> guar κ db1 db2 /\
        forall db3, rely κ db2 db3 -> Q (Ok a) db3) /\
     (forall e, is_persistence e -> ~ (Healthy /\ pre db1) ->
        forall db2, rely κ db1 db2 -> Q (Raise e) db2)) ->
  safe κ (call m) Q db.
Proof.
  intros Hm HQ. apply safe_call. intros w Hw. destruct (HQ _ Hw) as [Hok Hex].
  eapply wp_mono; [apply Hm|]. intros [a|e] w' [_ Hr]; [by apply Hok|].
  destruct Hr as (He & Hdb & Hn). rewrite Hdb. split; [apply guar_refl|]. by apply Hex.
Qed.

Lemma safe_seq {A B} κ (p : Prog A) (f : A -> Prog B) P (Q : Res B -> Db -> Prop) db :
  safe κ p P db -> (forall a db', P (Ok a) db' -> safe κ (f a) Q db') ->
  (forall e db', P (Raise e) db' -> Q (Raise e) db') -> safe κ (p ≫= f) Q db.
Proof.
  intros Hp Hf He. apply safe_bind; [apply _|]. eapply safe_mono; [exact Hp|].
  intros [a|e] db' HP; [by apply Hf|by apply He].
Qed.

End guarantees.
