(* ===== verification/Retention.v ===== *)
(** * RetentionJob ([collector/jobs/retention.py])

    Drains aged rows table by table in bounded transactions: terminal actions, then
    resolved alerts nothing refers to, then samples. *)

From S2P Require Import Prelude PyFloat PyTime Domain Schema Runtime Protocols Tables.
From S2P Require Import Remediation Lifecycle Invariants Conformance Settings.

Local Open Scope Z_scope.

(** ** The drain loop *)

(** [while (deleted := prune(cutoff, batch_size)) > 0: total += deleted]; [None] when the
    fuel runs out. *)
Fixpoint drain_loop (fuel : nat) (prune : datetime -> Z -> M Z) (cutoff : datetime)
    (batch_size total : Z) : M (option Z) :=
  match fuel with
  | O => mret None
  | S fuel' =>
      deleted ← prune cutoff batch_size;
      if 0 <? deleted then drain_loop fuel' prune cutoff batch_size (total + deleted)
      else mret (Some total)
  end.

(** One more than the rows there are: enough passes, as each but the last deletes one. *)
Definition drain_fuel (db : Db) : nat :=
  S (size (alerts db) + size (remediation_actions db) + size (metric_samples db)).

Definition drain_with (fuel : nat) (prune : datetime -> Z -> M Z) (cutoff : datetime)
    (batch_size : Z) : M Z :=
  total ← drain_loop fuel prune cutoff batch_size 0;
  match total with
  | Some total => mret total
  | None => raise (OtherException "out of fuel")
  end.

Definition _drain (prune : datetime -> Z -> M Z) (cutoff : datetime) (batch_size : Z) : M Z :=
  fun w => drain_with (drain_fuel (w_db w)) prune cutoff batch_size w.

Record RetentionRunStats := {
  remediation_actions_deleted : Z;
  alerts_deleted : Z;
  metric_samples_deleted : Z;
}.

(** [now - timedelta(days=d)]. *)
Definition days_before (now : datetime) (d : Z) : M datetime :=
  window ← lift (of_time (timedelta_of_days d)); lift (of_time (datetime_sub now window)).

Section retention.
Context `{E : Env, !MetricsRepository, !AlertRepository, !RemediationActionRepository}.
Context (settings : CollectorSettings).

Definition retention_run : M RetentionRunStats :=
  now ← utc_now;
  let batch_size := retention_batch_size settings in
  actions_cutoff ← days_before now (remediation_actions_retention_days settings);
  actions_deleted ← _drain prune_terminal_before actions_cutoff batch_size;
  alerts_cutoff ← days_before now (resolved_alerts_retention_days settings);
  alerts_deleted ← _drain prune_resolved_before alerts_cutoff batch_size;
  samples_cutoff ← days_before now (metrics_retention_days settings);
  samples_deleted ← _drain prune_samples_before samples_cutoff batch_size;
  mret {| remediation_actions_deleted := actions_deleted; alerts_deleted := alerts_deleted;
          metric_samples_deleted := samples_deleted |}.

End retention.

(** ** Draining one table *)

(** What the loop needs of a table [T] with prunable rows [P] and a bounded [prune]: the
    table is a field of the database, what is prunable does not depend on it, and removing
    prunable rows keeps the references valid. *)
Class Drainable `{E : Env} {R : Type} (T : Db -> gmap Z R) (setT : gmap Z R -> Db -> Db)
    (P : Db -> Z * R -> Prop) `{!forall db kr, Decision (P db kr)}
    (prune : datetime -> Z -> M Z) (cutoff : datetime) (batch_size : Z) : Prop := {
  T_set : forall t db, T (setT t db) = t;
  set_set : forall t t' db, setT t (setT t' db) = setT t db;
  set_T : forall db, setT (T db) db = db;
  P_set : forall t db kr, P (setT t db) kr <-> P db kr;
  set_fk : forall ids db, foreign_keys db ->
    (forall id, id ∈ ids -> exists r, T db !! id = Some r /\ P db (id, r)) ->
    foreign_keys (setT (without ids (T db)) db);
  prune_writes : writes (prune cutoff batch_size) foreign_keys (fun db n db' =>
    exists ids, n = Z.of_nat (length ids) /\ pruned (T db) (P db) batch_size ids /\
      db' = setT (without ids (T db)) db);
}.

Section drain.
Context `{E : Env} {R : Type} (T : Db -> gmap Z R) (setT : gmap Z R -> Db -> Db)
  (P : Db -> Z * R -> Prop) `{!forall db kr, Decision (P db kr)}
  (prune : datetime -> Z -> M Z) (cutoff : datetime) (batch_size : Z)
  `{HD : !Drainable T setT P prune cutoff batch_size}.

Definition qualify (db : Db) (ids : list Z) : Prop :=
  forall id, id ∈ ids -> exists r, T db !! id = Some r /\ P db (id, r).

Definition prunable_rows (db : Db) : list (Z * R) := filter (P db) (map_to_list (T db)).

Lemma without_app (t : gmap Z R) ids ids' : without ids' (without ids t) = without (ids ++ ids') t.
Proof.
  apply map_eq. intros k. apply option_eq. intros r. rewrite !lookup_without, elem_of_app. naive_solver.
Qed.

Lemma without_nil (t : gmap Z R) : without [] t = t.
Proof.
  apply map_eq. intros k. apply option_eq. intros r. rewrite lookup_without.
  split; [by intros []|]. intros Hr. split; [done|]. apply not_elem_of_nil.
Qed.

(** Removing [ids] leaves that many prunable rows fewer. *)
Lemma prunable_without db ids :
  NoDup ids -> qualify db ids ->
  length (prunable_rows (setT (without ids (T db)) db)) =
    (length (prunable_rows db) - length ids)%nat /\
  (length ids <= length (prunable_rows db))%nat.
Proof.
  intros Hnd Hq. unfold prunable_rows. rewrite T_set.
  assert ((prunable_rows db).*1 ≡ₚ ids ++ (filter (P (setT (without ids (T db)) db))
    (map_to_list (without ids (T db)))).*1) as Hperm.
  { assert (forall t, NoDup (filter (P db) (map_to_list t)).*1) as Hfst.
    { intros t. eapply sublist_NoDup; [apply (NoDup_fst_map_to_list t)|].
      apply fmap_sublist, sublist_filter. }
    apply NoDup_Permutation.
    - apply Hfst.
    - apply NoDup_app. split; [done|]. split.
      + intros id Hid Hin. apply list_elem_of_fmap in Hin as ([k r] & -> & Hin).
        apply list_elem_of_filter in Hin as [_ Hin]. apply elem_of_map_to_list in Hin.
        by apply lookup_without in Hin as [_ ?].
      + eapply sublist_NoDup; [apply (NoDup_fst_map_to_list (without ids (T db)))|].
        apply fmap_sublist, sublist_filter.
    - intros id. rewrite elem_of_app, !list_elem_of_fmap. split.
      + intros ([k r] & -> & Hin). apply list_elem_of_filter in Hin as [HP Hin].
        apply elem_of_map_to_list in Hin. destruct (decide (k ∈ ids)) as [?|Hno]; [by left|right].
        exists (k, r). split; [done|]. apply list_elem_of_filter. split; [by apply P_set|].
        by apply elem_of_map_to_list, lookup_without.
      + intros [Hid|([k r] & -> & Hin)].
        * destruct (Hq _ Hid) as (r & Hr & HP). exists (id, r). split; [done|].
          apply list_elem_of_filter. split; [done|]. by apply elem_of_map_to_list.
        * apply list_elem_of_filter in Hin as [HP Hin]. apply elem_of_map_to_list in Hin.
          apply lookup_without in Hin as [Hin _]. exists (k, r). split; [done|].
          apply list_elem_of_filter. split; [by apply P_set in HP|]. by apply elem_of_map_to_list. }
  apply Permutation_length in Hperm. rewrite length_app, !length_fmap in Hperm.
  fold (prunable_rows db). lia.
Qed.

(** The rows [ids] were drained from [db]; an answer means none that qualifies is left. *)
Definition drained (db : Db) (total : Z) (r : Res (option Z)) (db' : Db) : Prop :=
  exists ids, NoDup ids /\ qualify db ids /\ db' = setT (without ids (T db)) db /\
  match r with
  | Ok (Some t) => t = total + Z.of_nat (length ids) /\
      (1 <= batch_size -> prunable_rows db' = [])
  | Ok None => False
  | Raise e => is_persistence e /\ ~ Healthy
  end.

(** One pass that deleted [ids], then a drain of the rest. *)
Lemma drained_after db ids total r db' :
  NoDup ids -> qualify db ids ->
  drained (setT (without ids (T db)) db) (total + Z.of_nat (length ids)) r db' ->
  drained db total r db'.
Proof.
  intros Hnd Hq (ids' & Hnd' & Hq' & -> & Hr). unfold qualify in Hq'. rewrite T_set in *.
  rewrite without_app, set_set in *. exists (ids ++ ids'). split; [|split; [|split; [done|]]].
  - apply NoDup_app. split; [done|]. split; [|done].
    intros id Hid Hin. destruct (Hq' _ Hin) as (x & Hx & _). by apply lookup_without in Hx as [_ ?].
  - intros id [Hid|Hid]%elem_of_app; [by apply Hq|].
    destruct (Hq' _ Hid) as (x & [Hx _]%lookup_without & HP). exists x. split; [done|].
    by apply P_set in HP.
  - destruct r as [[t|]|e]; [|done|done]. rewrite length_app. destruct Hr as [-> Hdone].
    split; [lia|done].
Qed.

Lemma drained_nothing db total r :
  match r with
  | Ok (Some t) => t = total /\ (1 <= batch_size -> prunable_rows db = [])
  | Ok None => False
  | Raise e => is_persistence e /\ ~ Healthy
  end -> drained db total r db.
Proof.
  intros Hr. exists []. split; [constructor|]. split.
  { intros id Hid. by apply elem_of_nil in Hid. }
  rewrite without_nil, set_T. split; [done|]. destruct r as [[t|]|e]; try done.
  simpl. destruct Hr as [-> ?]. split; [lia|done].
Qed.

Lemma drain_loop_spec fuel total w :
  foreign_keys (w_db w) -> (length (prunable_rows (w_db w)) < fuel)%nat ->
  wp (drain_loop fuel prune cutoff batch_size total)
    (fun r w' => drained (w_db w) total r (w_db w')) w.
Proof.
  revert total w. induction fuel as [|fuel IH]; intros total w Hfk Hfuel; [lia|]. simpl.
  wp_step prune_writes. intros [n|e] w1 [_ Hr1].
  2: { destruct Hr1 as (He & -> & Hn). apply drained_nothing. split; [done|]. intros Hh. by apply Hn. }
  destruct Hr1 as (ids & -> & (Hnd & Hq & Hlen) & Hdb1). fold (prunable_rows (w_db w)) in Hlen.
  destruct (Z.ltb_spec 0 (Z.of_nat (length ids))) as [Hpos|Hz].
  - destruct (prunable_without (w_db w) ids Hnd Hq) as [Hl Hle].
    eapply wp_mono; [apply IH|].
    + rewrite Hdb1. by apply set_fk.
    + rewrite Hdb1, Hl. lia.
    + intros r w2 Hd. rewrite Hdb1 in Hd. by eapply drained_after.
  - apply wp_ret. assert (ids = []) as -> by (apply nil_length_inv; lia).
    rewrite without_nil, set_T in Hdb1. rewrite Hdb1. apply drained_nothing. split; [done|].
    intros Hb. apply nil_length_inv. simpl in Hlen. lia.
Qed.

(** The loop always answers within its fuel, and drains the table. *)
Lemma drain_spec w :
  foreign_keys (w_db w) -> (size (T (w_db w)) < drain_fuel (w_db w))%nat ->
  wp (_drain prune cutoff batch_size) (fun r w' =>
    exists ids, NoDup ids /\ qualify (w_db w) ids /\
      w_db w' = setT (without ids (T (w_db w))) (w_db w) /\
    match r with
    | Ok t => t = Z.of_nat (length ids) /\
        (1 <= batch_size -> prunable_rows (w_db w') = [] /\
           length ids = length (prunable_rows (w_db w)))
    | Raise e => is_persistence e /\ ~ Healthy
    end) w.
Proof.
  intros Hfk Hsize.
  match goal with |- wp _ ?Q _ =>
    change (wp (drain_with (drain_fuel (w_db w)) prune cutoff batch_size) Q w) end.
  unfold drain_with. apply wp_bind. eapply wp_mono; [apply drain_loop_spec; [done|]|].
  { eapply Nat.le_lt_trans; [|exact Hsize]. unfold prunable_rows.
    rewrite <- (length_map_to_list (T (w_db w))). apply sublist_length, sublist_filter. }
  intros [[t|]|e] w1 (ids & Hnd & Hq & Hdb & Hr); [|done|].
  - apply wp_ret. exists ids. destruct Hr as [-> Hdone]. rewrite Z.add_0_l.
    split; [done|]. split; [done|]. split; [done|]. split; [done|].
    intros Hbatch. specialize (Hdone Hbatch). split; [done|].
    destruct (prunable_without (w_db w) ids Hnd Hq) as [Hl Hle].
    rewrite <- Hdb, Hdone in Hl. simpl in Hl. lia.
  - exists ids. done.
Qed.

Lemma drain_never_exhausts fuel total w :
  foreign_keys (w_db w) -> (size (T (w_db w)) < fuel)%nat ->
  fst (drain_loop fuel prune cutoff batch_size total w) <> Ok None.
Proof.
  intros Hfk Hsize Heq.
  assert (length (prunable_rows (w_db w)) < fuel)%nat as Hlen.
  { eapply Nat.le_lt_trans; [|exact Hsize]. unfold prunable_rows.
    rewrite <- (length_map_to_list (T (w_db w))). apply sublist_length, sublist_filter. }
  destruct (drain_loop_spec fuel total w Hfk Hlen) as (ids & _ & _ & _ & Hr).
  by rewrite Heq in Hr.
Qed.

(** A drained table keeps exactly the rows that do not qualify. *)
Lemma drained_exactly db ids :
  qualify db ids -> prunable_rows (setT (without ids (T db)) db) = [] ->
  without ids (T db) = filter (fun kr => ~ P db kr) (T db).
Proof.
  intros Hq Hnil. apply map_eq. intros k. apply option_eq. intros r.
  rewrite lookup_without, map_lookup_filter_Some. split.
  - intros [Hk Hno]. split; [done|]. intros HP.
    assert ((k, r) ∈ prunable_rows (setT (without ids (T db)) db)) as Hin.
    { apply list_elem_of_filter. split; [by apply P_set|]. rewrite T_set.
      by apply elem_of_map_to_list, lookup_without. }
    rewrite Hnil in Hin. by apply elem_of_nil in Hin.
  - intros [Hk HnP]. split; [done|]. intros Hin. destruct (Hq _ Hin) as (r' & Hr' & HP).
    simplify_eq. by apply HnP.
Qed.

End drain.

(** ** The run *)

Section retention_spec.
Context `{E : Env, !MetricsRepository, !AlertRepository, !RemediationActionRepository}.

(** What one drain leaves: an instance of [drain_spec] for a table and its filter. *)
Definition drain_result {R} (T : Db -> gmap Z R) (setT : gmap Z R -> Db -> Db)
    (P : Db -> Z * R -> Prop) `{!forall db kr, Decision (P db kr)} (batch_size : Z)
    (db : Db) (r : Res Z) (db' : Db) : Prop :=
  exists ids, NoDup ids /\ qualify T P db ids /\ db' = setT (without ids (T db)) db /\
    match r with
    | Ok t => 1 <= batch_size ->
        t = Z.of_nat (length (filter (P db) (map_to_list (T db)))) /\
        without ids (T db) = filter (fun kr => ~ P db kr) (T db)
    | Raise e => is_persistence e /\ ~ Healthy
    end.

#[export] Instance actions_drainable cutoff batch_size :
  Drainable remediation_actions set_actions (fun _ => action_prunable cutoff)
    prune_terminal_before cutoff batch_size.
Proof.
  split; try done; [by intros []| |apply prune_terminal_before_writes].
  intros ids db Hdb _. by apply foreign_keys_without_actions.
Qed.

#[export] Instance samples_drainable cutoff batch_size :
  Drainable metric_samples set_samples (fun _ => sample_prunable cutoff)
    prune_samples_before cutoff batch_size.
Proof.
  split; try done; [by intros []| |apply prune_samples_before_writes].
  intros ids db Hdb _. by apply foreign_keys_without_samples.
Qed.

#[export] Instance alerts_drainable cutoff batch_size :
  Drainable alerts set_alerts (fun db => alert_prunable db cutoff)
    prune_resolved_before cutoff batch_size.
Proof.
  split; try done; [by intros []| |].
  - intros ids db Hdb Hids. apply foreign_keys_without_alerts; [done|].
    intros id Hid. by destruct (Hids id Hid) as (r & _ & _ & _ & ?).
  - eapply writes_mono; [apply prune_resolved_before_writes|done|].
    intros db n db' (ids & ? & ? & ? & _). by exists ids.
Qed.

Lemma drain_table_spec {R} (T : Db -> gmap Z R) setT P
    `{!forall db kr, Decision (P db kr)} prune cutoff batch_size
    `{!Drainable T setT P prune cutoff batch_size} w :
  foreign_keys (w_db w) -> (size (T (w_db w)) < drain_fuel (w_db w))%nat ->
  wp (_drain prune cutoff batch_size) (fun r w' =>
    drain_result T setT P batch_size (w_db w) r (w_db w')) w.
Proof.
  intros Hfk Hsize. eapply wp_mono; [by apply (drain_spec T setT P)|].
  intros r w' (ids & Hnd & Hq & Hdb & Hr). exists ids. split; [done|]. split; [done|].
  split; [done|]. destruct r; [|done]. destruct Hr as [-> Hr]. intros Hb.
  destruct (Hr Hb) as [Hnil Hlen]. rewrite Hdb in Hnil. split; [by rewrite Hlen|].
  by eapply drained_exactly.
Qed.

Lemma drain_actions_spec cutoff batch_size w :
  foreign_keys (w_db w) ->
  wp (_drain prune_terminal_before cutoff batch_size) (fun r w' =>
    drain_result remediation_actions set_actions (fun _ => action_prunable cutoff) batch_size
      (w_db w) r (w_db w')) w.
Proof. intros Hfk. apply drain_table_spec; [apply _|done|unfold drain_fuel; lia]. Qed.

Lemma drain_samples_spec cutoff batch_size w :
  foreign_keys (w_db w) ->
  wp (_drain prune_samples_before cutoff batch_size) (fun r w' =>
    drain_result metric_samples set_samples (fun _ => sample_prunable cutoff) batch_size
      (w_db w) r (w_db w')) w.
Proof. intros Hfk. apply drain_table_spec; [apply _|done|unfold drain_fuel; lia]. Qed.

Lemma drain_alerts_spec cutoff batch_size w :
  foreign_keys (w_db w) ->
  wp (_drain prune_resolved_before cutoff batch_size) (fun r w' =>
    drain_result alerts set_alerts (fun db => alert_prunable db cutoff) batch_size
      (w_db w) r (w_db w')) w.
Proof. intros Hfk. apply drain_table_spec; [apply _|done|unfold drain_fuel; lia]. Qed.

(** Each drain is one step of the lifecycle machine. *)
Lemma drain_actions_step c cutoff batch_size db r db' :
  lc_retention c = true ->
  drain_result remediation_actions set_actions (fun _ => action_prunable cutoff) batch_size db r db' ->
  step c (~ Healthy) db db'.
Proof.
  intros Hret (ids & _ & Hq & -> & _). apply step_prune_actions; [done|]. intros id Hid.
  destruct (Hq id Hid) as (a & Ha & Hst & _). by exists a.
Qed.

Lemma drain_alerts_step c cutoff batch_size db r db' :
  lc_retention c = true ->
  drain_result alerts set_alerts (fun db => alert_prunable db cutoff) batch_size db r db' ->
  step c (~ Healthy) db db'.
Proof.
  intros Hret (ids & _ & Hq & -> & _). apply step_prune_alerts; [done|]. intros id Hid.
  destruct (Hq id Hid) as (a & Ha & Hst & _ & Href). by exists a.
Qed.

Lemma drain_samples_step c cutoff batch_size db r db' :
  lc_retention c = true ->
  drain_result metric_samples set_samples (fun _ => sample_prunable cutoff) batch_size db r db' ->
  step c (~ Healthy) db db'.
Proof. intros Hret (ids & _ & Hq & -> & _). by apply step_prune_samples. Qed.

Lemma days_before_run now d w :
  exists r, days_before now d w = (r, w) /\
  forall window cutoff, timedelta_of_days d = inl window -> datetime_sub now window = inl cutoff ->
    r = Ok cutoff.
Proof.
  unfold days_before. destruct (timedelta_of_days d) as [window|te]; simpl.
  - rewrite lift_ok_bind. eexists. split; [done|]. intros win cut [= <-] ->. done.
  - destruct te; eexists; (split; [done|]); intros ?? [=].
Qed.

Lemma wp_days_before now d Q w :
  (forall cutoff, (forall window cutoff', timedelta_of_days d = inl window ->
     datetime_sub now window = inl cutoff' -> cutoff' = cutoff) -> Q (Ok cutoff) w) ->
  (forall e, (forall window cutoff', timedelta_of_days d = inl window ->
     datetime_sub now window = inl cutoff' -> False) -> Q (Raise e) w) ->
  wp (days_before now d) Q w.
Proof.
  intros Hok Hfail. destruct (days_before_run now d w) as (r & Hr & Hval). unfold wp. rewrite Hr. simpl.
  destruct r as [c|e]; [apply Hok|apply Hfail]; intros window cutoff' Hw Hc;
    specialize (Hval _ _ Hw Hc); congruence.
Qed.

Lemma wp_days_before_ok {A} now d window cutoff (k : datetime -> M A) Q w :
  timedelta_of_days d = inl window -> datetime_sub now window = inl cutoff ->
  wp (k cutoff) Q w -> wp (days_before now d ≫= k) Q w.
Proof.
  intros Hd Hc Hk. apply wp_bind, wp_days_before.
  - intros c Hval. by rewrite <- (Hval _ _ Hd Hc).
  - intros e Hno. by destruct (Hno _ _ Hd Hc).
Qed.

Lemma retention_conforms settings c :
  lc_retention c = true -> conforms c (retention_run settings).
Proof.
  intros Hret w Hb. unfold retention_run. apply wp_bind. unfold wp at 1. simpl.
  apply wp_bind, wp_days_before; [intros c1 _|done].
  wp_step drain_actions_spec; [apply Hb|]. simpl. intros [n1|e1] w1 Hr1;
    pose proof (drain_actions_step c _ _ _ _ _ Hret Hr1) as Hs1; [|by apply rtc_once].
  assert (base (w_db w1)) as Hb1 by by eapply base_stable.
  apply wp_bind, wp_days_before; [intros c2 _|by intros; apply rtc_once].
  wp_step drain_alerts_spec; [apply Hb1|]. simpl. intros [n2|e2] w2 Hr2;
    pose proof (drain_alerts_step c _ _ _ _ _ Hret Hr2) as Hs2;
    [|by eapply rtc_l, rtc_once].
  assert (base (w_db w2)) as Hb2 by (eapply base_stable; [exact Hb1|done]).
  apply wp_bind, wp_days_before; [intros c3 _|by intros; eapply rtc_l, rtc_once].
  wp_step drain_samples_spec; [apply Hb2|]. simpl. intros r3 w3 Hr3.
  assert (rtc (step c (~ Healthy)) (w_db w) (w_db w3)) as Hsteps.
  { eapply rtc_l; [done|]. eapply rtc_l; [done|]. apply rtc_once. by eapply drain_samples_step. }
  destruct r3; [by apply wp_ret|done].
Qed.

End retention_spec.

(** ** Properties *)

Section retention_properties.
Context `{E : Env, !MetricsRepository, !AlertRepository, !RemediationActionRepository}.

(** The rows of a table the retention filter [P] keeps, and how many it removes. *)
Definition kept {R} (P : Z * R -> Prop) `{!forall kr, Decision (P kr)} (t : gmap Z R) : gmap Z R :=
  filter (fun kr => ~ P kr) t.
Definition removed {R} (P : Z * R -> Prop) `{!forall kr, Decision (P kr)} (t : gmap Z R) : Z :=
  Z.of_nat (length (filter P (map_to_list t))).

(** The database after a complete sweep: actions first, so that an alert whose last action
    ages out goes in the same sweep. *)
Definition swept (c1 c2 c3 : datetime) (db : Db) : Db :=
  let db1 := set_actions (kept (action_prunable c1) (remediation_actions db)) db in
  set_samples (kept (sample_prunable c3) (metric_samples db))
    (set_alerts (kept (alert_prunable db1 c2) (alerts db)) db1).

(** A whole sweep, when the three windows are within the calendar. *)
Lemma retention_run_swept settings w d1 d2 d3 c1 c2 c3 :
  let now := clock (w_tick w) in
  timedelta_of_days (remediation_actions_retention_days settings) = inl d1 ->
  timedelta_of_days (resolved_alerts_retention_days settings) = inl d2 ->
  timedelta_of_days (metrics_retention_days settings) = inl d3 ->
  datetime_sub now d1 = inl c1 -> datetime_sub now d2 = inl c2 -> datetime_sub now d3 = inl c3 ->
  1 <= retention_batch_size settings -> base (w_db w) ->
  wp (retention_run settings) (fun r w' =>
    match r with
    | Ok stats => w_db w' = swept c1 c2 c3 (w_db w) /\
        let db1 := set_actions (kept (action_prunable c1) (remediation_actions (w_db w))) (w_db w) in
        remediation_actions_deleted stats =
          removed (action_prunable c1) (remediation_actions (w_db w)) /\
        alerts_deleted stats = removed (alert_prunable db1 c2) (alerts (w_db w)) /\
        metric_samples_deleted stats = removed (sample_prunable c3) (metric_samples (w_db w))
    | Raise e => is_persistence e /\ ~ Healthy
    end) w.
Proof.
  intros now Hd1 Hd2 Hd3 Hc1 Hc2 Hc3 Hbatch Hb. unfold retention_run.
  apply wp_bind. unfold wp at 1. simpl. fold now.
  pose (lc := {| lc_escalation_after := float_of_Z 0; lc_remediation_after := float_of_Z 0;
                 lc_engine := None; lc_retention := true |}).
  eapply (wp_days_before_ok _ _ _ _ _ _ _ Hd1 Hc1). wp_step drain_actions_spec; [apply Hb|]. simpl.
  intros [n1|e1] w1 Hr1; [|by destruct Hr1 as (_ & _ & _ & _ & ?)].
  assert (base (w_db w1)) as Hb1 by (eapply base_stable; [exact Hb|by eapply (drain_actions_step lc)]).
  destruct Hr1 as (ids1 & _ & _ & Hdb1 & Hr1). destruct (Hr1 Hbatch) as [-> Hk1].
  eapply (wp_days_before_ok _ _ _ _ _ _ _ Hd2 Hc2). wp_step drain_alerts_spec; [apply Hb1|].
  intros [n2|e2] w2 Hr2; [|by destruct Hr2 as (_ & _ & _ & _ & ?)].
  assert (base (w_db w2)) as Hb2 by (eapply base_stable; [exact Hb1|by eapply (drain_alerts_step lc)]).
  destruct Hr2 as (ids2 & _ & _ & Hdb2 & Hr2). destruct (Hr2 Hbatch) as [-> Hk2].
  eapply (wp_days_before_ok _ _ _ _ _ _ _ Hd3 Hc3). wp_step drain_samples_spec; [apply Hb2|].
  intros [n3|e3] w3 Hr3; [|by destruct Hr3 as (_ & _ & _ & _ & ?)].
  destruct Hr3 as (ids3 & _ & _ & Hdb3 & Hr3). destruct (Hr3 Hbatch) as [-> Hk3].
  apply wp_ret. unfold swept, kept, removed.
  rewrite Hk1 in Hdb1. rewrite Hk2 in Hdb2. rewrite Hk3 in Hdb3.
  rewrite Hdb3, Hdb2, Hdb1. done.
Qed.

(** C32: a retention sweep that completes leaves exactly the rows its three cutoffs keep (terminal
    actions by creation, resolved alerts no remaining action refers to by resolution, samples
    by receipt) and reports exactly how many it removed; a sweep fails only when the database
    does, never on a foreign key. *)
Theorem retention_sweep settings w d1 d2 d3 c1 c2 c3 :
  let now := clock (w_tick w) in
  timedelta_of_days (remediation_actions_retention_days settings) = inl d1 ->
  timedelta_of_days (resolved_alerts_retention_days settings) = inl d2 ->
  timedelta_of_days (metrics_retention_days settings) = inl d3 ->
  datetime_sub now d1 = inl c1 -> datetime_sub now d2 = inl c2 -> datetime_sub now d3 = inl c3 ->
  1 <= retention_batch_size settings -> base (w_db w) ->
  wp (retention_run settings) (fun r w' =>
    match r with
    | Ok stats => w_db w' = swept c1 c2 c3 (w_db w) /\
        let db1 := set_actions (kept (action_prunable c1) (remediation_actions (w_db w))) (w_db w) in
        remediation_actions_deleted stats =
          removed (action_prunable c1) (remediation_actions (w_db w)) /\
        alerts_deleted stats = removed (alert_prunable db1 c2) (alerts (w_db w)) /\
        metric_samples_deleted stats = removed (sample_prunable c3) (metric_samples (w_db w))
    | Raise e => is_persistence e /\ ~ Healthy
    end) w.
Proof. apply retention_run_swept. Qed.

(** The drain loop always ends: with fuel for one more pass than there are rows it never runs
    out, for each of the three prunes and whatever batch size the settings admit. *)
Lemma drain_terminates fuel cutoff batch_size total w :
  1 <= batch_size -> foreign_keys (w_db w) -> (drain_fuel (w_db w) <= fuel)%nat ->
  Forall (fun prune => fst (drain_loop fuel prune cutoff batch_size total w) <> Ok None)
    [prune_terminal_before; prune_resolved_before; prune_samples_before].
Proof.
  intros _ Hfk Hfuel. unfold drain_fuel in Hfuel.
  repeat constructor; (eapply drain_never_exhausts; [apply _|done|lia]).
Qed.

End retention_properties.
