(* ===== verification/JobScheduler.v ===== *)
(** * The background jobs and their scheduler
    ([collector/jobs/scheduler.py], [_build_job_scheduler] of [collector/main.py])

    One thread runs every due job, contains its failure, and sets its next due time.  A
    job carries its own state: the staleness job its [_first_run_done] flag. *)

From S2P Require Import Prelude PyFloat PyTime Domain Schema Runtime Protocols Tables.
From S2P Require Import Remediation Notifications Lifecycle Invariants Conformance Settings.
From S2P Require Import Reconciliation Staleness Retention.

Local Open Scope Z_scope.
Local Open Scope pulse_scope.

(** The jobs the Collector schedules. *)
Inductive Job :=
| RetentionJob
| StalenessJob (first_run_done : bool)
| ReconciliationJob.

#[export] Instance Job_eq_dec : EqDecision Job.
Proof. solve_decision. Defined.

Record JobSchedule := { js_job : Job; js_interval_seconds : float }.

(** [JobSchedule.__post_init__]. *)
Definition make_schedule (job : Job) (interval_seconds : float) : Res JobSchedule :=
  if fle interval_seconds (float_of_Z 0) then Raise (ValueError "interval_seconds must be positive")
  else Ok {| js_job := job; js_interval_seconds := interval_seconds |}.

(** [_build_job_scheduler]: the enabled jobs; no scheduler ([None]) when there are none. *)
Definition enabled_jobs (s : CollectorSettings) : list (Job * float) :=
  (if retention_enabled s then [(RetentionJob, retention_interval_seconds s)] else []) ++
  (if staleness_alerting_enabled s
   then [(StalenessJob false, staleness_check_interval_seconds s)] else []) ++
  (if remediation_reconciliation_enabled s
   then [(ReconciliationJob, reconciliation_interval_seconds s)] else []).

Fixpoint make_schedules (l : list (Job * float)) : Res (list JobSchedule) :=
  match l with
  | [] => Ok []
  | (job, interval) :: l' =>
      match make_schedule job interval with
      | Raise e => Raise e
      | Ok s => match make_schedules l' with Raise e => Raise e | Ok ss => Ok (s :: ss) end
      end
  end.

Definition _build_job_scheduler (s : CollectorSettings) : Res (option (list JobSchedule)) :=
  match make_schedules (enabled_jobs s) with
  | Raise e => Raise e
  | Ok [] => Ok None
  | Ok schedules => Ok (Some schedules)
  end.

(** [_Entry]. *)
Record Entry := { en_schedule : JobSchedule; en_next_due : float }.

Section scheduler.
Context `{E : Env, !NodeRepository, !MetricsRepository, !AlertRepository,
          !RemediationActionRepository}.
Context (settings : CollectorSettings) (notifier : option Notifier).

(** [job.run()]; the result is the job after the run. *)
Definition run_job (job : Job) : M Job :=
  match job with
  | RetentionJob => _ ← retention_run settings; mret RetentionJob
  | StalenessJob first_run_done =>
      _ ← staleness_run (heartbeat_stale_after_seconds settings) notifier first_run_done;
      mret (StalenessJob true)
  | ReconciliationJob =>
      _ ← reconciliation_run (remediation_dispatch_timeout_seconds settings);
      mret ReconciliationJob
  end.

Definition _run_contained (job : Job) : M Job := m_try (run_job job) (fun _ => mret job).

Definition with_job (s : JobSchedule) (job : Job) : JobSchedule :=
  {| js_job := job; js_interval_seconds := js_interval_seconds s |}.

Fixpoint run_all_once (schedules : list JobSchedule) : M (list JobSchedule) :=
  match schedules with
  | [] => mret []
  | s :: rest =>
      job ← _run_contained (js_job s);
      rest ← run_all_once rest;
      mret (with_job s job :: rest)
  end.

(** The [for entry in entries] of one pass of [_run_loop]. *)
Fixpoint run_due (now : float) (entries : list Entry) : M (list Entry) :=
  match entries with
  | [] => mret []
  | e :: rest =>
      e' ← (if fle (en_next_due e) now then
              job ← _run_contained (js_job (en_schedule e));
              t ← monotonic_now;
              mret {| en_schedule := with_job (en_schedule e) job;
                      en_next_due := fadd t (js_interval_seconds (en_schedule e)) |}
            else mret e);
      rest ← run_due now rest;
      mret (e' :: rest)
  end.

(** [_run_loop]: [stops] are the answers of the successive [Event.wait] calls.  The clock is
    read for the time to wait, which only the answer depends on. *)
Fixpoint run_passes (stops : list bool) (entries : list Entry) : M (list Entry) :=
  match stops with
  | [] => mret entries
  | stop :: stops' =>
      _ ← monotonic_now;
      if stop : bool then mret entries else
      now ← monotonic_now;
      entries ← run_due now entries;
      run_passes stops' entries
  end.

Fixpoint first_entries (schedules : list JobSchedule) : M (list Entry) :=
  match schedules with
  | [] => mret []
  | s :: rest =>
      now ← monotonic_now;
      rest ← first_entries rest;
      mret ({| en_schedule := s; en_next_due := fadd now (js_interval_seconds s) |} :: rest)
  end.

Definition _run_loop (stops : list bool) (schedules : list JobSchedule) : M (list Entry) :=
  match schedules with
  | [] => mret []
  | _ => entries ← first_entries schedules; run_passes stops entries
  end.

(** ** Containment *)

(** The state the jobs rely on. *)
Definition job_ready (db : Db) : Prop := sweepable db /\ nodes_keyed db.

Lemma job_ready_stable c f : stable c f job_ready.
Proof.
  intros db db' [] Hs. split; [by eapply sweepable_step|by eapply nodes_keyed_stable].
Qed.

(** Only the retention job prunes. *)
Definition job_allowed (c : LifecycleConfig) (job : Job) : Prop :=
  job = RetentionJob -> lc_retention c = true.

Definition entry_allowed (c : LifecycleConfig) (e : Entry) : Prop :=
  job_allowed c (js_job (en_schedule e)).

Lemma run_job_steps c job w :
  job_allowed c job -> job_ready (w_db w) -> wp (run_job job) (fun _ w' => rtc (step c (~ Healthy)) (w_db w) (w_db w')) w.
Proof.
  intros Hall [[Hb Hone] Hk]. destruct job as [|first|]; simpl; apply wp_bind.
  - eapply wp_mono; [by apply (retention_conforms settings c (Hall eq_refl))|]. by intros [] w'.
  - eapply wp_mono; [by apply (staleness_run_spec _ _ c)|]. by intros [] w' [? _].
  - eapply wp_mono; [by apply (reconciliation_conforms _ c)|]. by intros [] w'.
Qed.

(** A job stays the job it is. *)
Lemma run_job_same job w : wp (run_job job) (fun r _ =>
  match r with Ok job' => job' = RetentionJob <-> job = RetentionJob | Raise _ => True end) w.
Proof.
  destruct job as [|first|]; simpl; apply wp_bind;
    (apply wp_intro; intros [x|e] w' _; [by apply wp_ret|done]).
Qed.

Lemma run_contained_steps c job w :
  job_allowed c job -> job_ready (w_db w) ->
  wp (_run_contained job) (fun r w' =>
    match r with Ok job' => job_allowed c job' | Raise _ => False end /\
    rtc (step c (~ Healthy)) (w_db w) (w_db w')) w.
Proof.
  intros Hall Hr. apply wp_try.
  apply wp_intro. intros r w' Hrun.
  pose proof (wp_run _ _ _ _ _ Hrun (run_job_steps c job w Hall Hr)) as Hs.
  pose proof (wp_run _ _ _ _ _ Hrun (run_job_same job w)) as Hj.
  destruct r as [j|e]; simpl in *; [split; [|done]; intros ->; by apply Hall, Hj|].
  by apply wp_ret.
Qed.

(** A job's failure stops neither the jobs after it nor the loop. *)
Lemma run_due_steps c now entries w :
  Forall (entry_allowed c) entries -> job_ready (w_db w) ->
  wp (run_due now entries) (fun r w' =>
    match r with Ok entries' => Forall (entry_allowed c) entries' | Raise _ => False end /\
    rtc (step c (~ Healthy)) (w_db w) (w_db w')) w.
Proof.
  revert w. induction entries as [|e rest IH]; intros w Hall Hr; simpl; [by apply wp_ret|].
  apply Forall_cons in Hall as [He Hall]. apply wp_bind.
  apply (wp_mono _ (fun r w' =>
    match r with Ok e' => entry_allowed c e' | Raise _ => False end /\
    rtc (step c (~ Healthy)) (w_db w) (w_db w'))).
  - destruct (fle _ _); [|by apply wp_ret].
    apply wp_bind. eapply wp_mono; [by apply (run_contained_steps c)|].
    intros [j|ex] w1 [Hok Hs]; [|done]. apply wp_bind. unfold wp at 1. simpl. by apply wp_ret.
  - intros [e'|ex] w1 [Hok Hs1]; [|done]. apply wp_bind.
    eapply wp_mono; [apply IH; [done|]; by eapply stable_rtc; [apply job_ready_stable| |]|].
    intros [l|ex] w2 [Hok2 Hs2]; [|done]. apply wp_ret. split; [by constructor|by etrans].
Qed.

Lemma run_all_once_steps c schedules w :
  Forall (fun s => job_allowed c (js_job s)) schedules -> job_ready (w_db w) ->
  wp (run_all_once schedules) (fun r w' =>
    match r with Ok l => Forall (fun s => job_allowed c (js_job s)) l | Raise _ => False end /\
    rtc (step c (~ Healthy)) (w_db w) (w_db w')) w.
Proof.
  revert w. induction schedules as [|s rest IH]; intros w Hall Hr; simpl; [by apply wp_ret|].
  apply Forall_cons in Hall as [Hs Hall]. apply wp_bind. eapply wp_mono; [by apply (run_contained_steps c)|].
  intros [j|ex] w1 [Hok Hs1]; [|done]. apply wp_bind.
  eapply wp_mono; [apply IH; [done|]; by eapply stable_rtc; [apply job_ready_stable| |]|].
  intros [l|ex] w2 [Hok2 Hs2]; [|done]. apply wp_ret. split; [by constructor|by etrans].
Qed.

End scheduler.

Section scheduler_properties.
Context `{E : Env, !NodeRepository, !MetricsRepository, !AlertRepository,
          !RemediationActionRepository}.

(** One pass, entry by entry, from world to world: a due entry's job is run, and whatever
    comes of it the entry is rescheduled one interval after the clock reading that follows
    and the pass goes on from the world the job left; any other entry is passed over. *)
Inductive due_pass (settings : CollectorSettings) (notifier : option Notifier) (now : float)
    : list Entry -> World -> list Entry -> World -> Prop :=
| pass_end w : due_pass settings notifier now [] w [] w
| pass_due e rest rest' w r w1 w2 :
    en_next_due e <=. now ->
    run_job settings notifier (js_job (en_schedule e)) w = (r, w1) ->
    due_pass settings notifier now rest (bump w1) rest' w2 ->
    due_pass settings notifier now (e :: rest) w
      ({| en_schedule := with_job (en_schedule e)
            (match r with Ok job => job | Raise _ => js_job (en_schedule e) end);
          en_next_due := fadd (monotonic (w_tick w1)) (js_interval_seconds (en_schedule e)) |}
       :: rest') w2
| pass_idle e rest rest' w w2 :
    fle (en_next_due e) now = false ->
    due_pass settings notifier now rest w rest' w2 ->
    due_pass settings notifier now (e :: rest) w (e :: rest') w2.

Lemma run_contained_run settings notifier job w :
  _run_contained settings notifier job w =
    let '(r, w') := run_job settings notifier job w in
    (Ok (match r with Ok job' => job' | Raise _ => job end), w').
Proof. unfold _run_contained, m_try. by destruct (run_job settings notifier job w) as [[j|e] w']. Qed.

(** A pass of the scheduler never fails, whatever its jobs raise: every due job is run, in
    order, each from the state the jobs before it left, and rescheduled one interval later;
    no other is touched. *)
Lemma scheduler_contains_failures settings notifier now entries w :
  exists entries' w', run_due settings notifier now entries w = (Ok entries', w') /\
    due_pass settings notifier now entries w entries' w'.
Proof.
  revert w. induction entries as [|e rest IH]; intros w; simpl.
  { eexists _, _. split; [done|constructor]. }
  unfold mbind, M_bind. destruct (fle (en_next_due e) now) eqn:Ed.
  - rewrite run_contained_run.
    destruct (run_job settings notifier (js_job (en_schedule e)) w) as [r w1] eqn:Er. simpl.
    destruct (IH (bump w1)) as (rest' & w2 & -> & Hrest). eexists _, _. split; [done|].
    by apply pass_due.
  - simpl. destruct (IH w) as (rest' & w2 & -> & Hrest). eexists _, _. split; [done|].
    by apply pass_idle.
Qed.

End scheduler_properties.

(** The jobs of an application are exactly those its settings enable; there is no scheduler
    when none is, and its construction fails only on an interval that is not positive. *)
Lemma build_job_scheduler_spec s :
  match _build_job_scheduler s with
  | Ok None => enabled_jobs s = []
  | Ok (Some l) => l <> [] /\ (fun x => (js_job x, js_interval_seconds x)) <$> l = enabled_jobs s
  | Raise e => e = ValueError "interval_seconds must be positive" /\
      Exists (fun ji => ji.2 <=. float_of_Z 0) (enabled_jobs s)
  end.
Proof.
  unfold _build_job_scheduler. generalize (enabled_jobs s). intros l.
  assert (match make_schedules l with
          | Ok ss => (fun x => (js_job x, js_interval_seconds x)) <$> ss = l
          | Raise e => e = ValueError "interval_seconds must be positive" /\
              Exists (fun ji => ji.2 <=. float_of_Z 0) l
          end) as Hl.
  { induction l as [|[job x] l IH]; [done|]. simpl. unfold make_schedule.
    destruct (fle x _) eqn:Ex; [by split; [|left]|].
    destruct (make_schedules l) as [ss|e].
    - cbn. f_equal. exact IH.
    - destruct IH as [-> ?]. by split; [|right]. }
  destruct (make_schedules l) as [[|x ss]|e]; [done| |done]. by split.
Qed.
