(* ===== verification/Upkeep.v ===== *)
(** * Upkeep: the three jobs together

    A pass in which retention, staleness and reconciliation are all due runs them in the
    order [_build_job_scheduler] lists them.  Each job's postcondition speaks of the
    database it found; here they are composed: none undoes what the ones before it did, and
    after the pass the promises of all three hold of one database. *)

From S2P Require Import Prelude PyFloat PyTime Domain Schema Runtime Protocols Tables.
From S2P Require Import Remediation Notifications Lifecycle Invariants Conformance Settings.
From S2P Require Import Reconciliation Staleness Retention JobScheduler.

Local Open Scope Z_scope.
Local Open Scope pulse_scope.

(** ** What a staleness sweep leaves alone *)

(** A sweep at [now] writes staleness alerts only: it opens them, or resolves them at [now]. *)
Record only_staleness (now : datetime) (db db' : Db) : Prop := {
  os_nodes : nodes db' = nodes db;
  os_samples : metric_samples db' = metric_samples db;
  os_actions : remediation_actions db' = remediation_actions db;
  os_kept : forall k a, alerts db !! k = Some a -> am_rule_key a <> STALENESS_RULE_KEY ->
    alerts db' !! k = Some a;
  os_new : forall k a, alerts db' !! k = Some a -> alerts db !! k = Some a \/
    (am_rule_key a = STALENESS_RULE_KEY /\
     (am_status a = FIRING \/ am_resolved_at a = Some now));
  os_keyed : keyed db -> keyed db';
}.

#[export] Instance only_staleness_preorder now : PreOrder (only_staleness now).
Proof.
  split; [by intros db; split; auto|]. intros x y z [] []. split; try congruence; [by auto| |by auto].
  intros k a Hk. destruct (os_new1 k a Hk) as [Hy|?]; auto.
Qed.

Lemma only_staleness_write now db id a :
  am_id a = id ->
  am_rule_key a = STALENESS_RULE_KEY -> am_status a = FIRING \/ am_resolved_at a = Some now ->
  (forall a0, alerts db !! id = Some a0 -> am_rule_key a0 = STALENESS_RULE_KEY) ->
  only_staleness now db (set_alerts (<[id := a]> (alerts db)) db).
Proof.
  intros Hid Hkey Hst Hold. split; try done; simpl.
  - intros k x Hk Hx. rewrite lookup_insert_ne; [done|]. intros ->. by apply Hx, Hold.
  - intros k x [[-> <-]|[_ Hk]]%lookup_insert_Some; [by right|by left].
  - intros [Ha Hr]. split; [|done]. by apply map_Forall_insert_2.
Qed.

Section staleness_frame.
Context `{E : Env, !NodeRepository, !AlertRepository}.
Context (stale_after : float) (notifier : option Notifier).

Lemma sweep_node_frame first now acc node w :
  keyed (w_db w) -> wp (sweep_node stale_after notifier first now acc node) (fun _ w' =>
    only_staleness now (w_db w) (w_db w')) w.
Proof.
  intros Hkey. unfold sweep_node. wp_step find_open_alert_reads.
  intros [o|e] w1 [[Hdb1 _] Hr1]; [|by rewrite Hdb1]. rewrite <- Hdb1 in *. clear w Hdb1.
  destruct (fge _ _).
  - destruct o as [rec|]; [by apply wp_ret|]. destruct first; [|by apply wp_ret].
    destruct (silent_description_ok (now - nr_last_seen_at node) w1) as [d Hd].
    apply wp_bind. unfold wp at 1. rewrite Hd. simpl. wp_step create_alert_writes.
    intros [rec|e] w2 [_ Hr2]; [|by destruct Hr2 as (_ & -> & _)].
    destruct Hr2 as (id & Hid & _ & Hdb2 & _). apply wp_bind, wp_notify. intros w3 Hdb3 _.
    apply wp_ret. rewrite Hdb3, Hdb2. apply only_staleness_write; [done|done|by left|]. congruence.
  - destruct o as [rec|]; [|by apply wp_ret]. destruct Hr1 as (id & a & Ha & (_ & Hk & _) & ->).
    simpl. rewrite (proj1 Hkey _ _ Ha). wp_step resolve_alert_writes.
    intros [rec'|e] w2 [_ Hr2]; [|by destruct Hr2 as (_ & -> & _)].
    destruct Hr2 as (a' & Ha' & _ & Hdb2). simplify_eq. apply wp_bind, wp_notify.
    intros w3 Hdb3 _. apply wp_ret. rewrite Hdb3, Hdb2.
    apply only_staleness_write; [exact (proj1 Hkey _ _ Ha)|done|by right|]. congruence.
Qed.
Lemma staleness_run_frame first w :
  keyed (w_db w) -> wp (staleness_run stale_after notifier first) (fun _ w' =>
    only_staleness (clock (w_tick w)) (w_db w) (w_db w')) w.
Proof.
  intros Hk. unfold staleness_run. apply wp_bind. unfold wp at 1. simpl.
  wp_step list_all_reads. simpl. intros [l|e] w1 [[Hdb1 _] _]; simpl in Hdb1; [|by rewrite Hdb1].
  rewrite <- Hdb1 in Hk |- *. clear Hdb1.
  generalize {| stale := 0; opened := 0; resolved_count := 0 |}. revert w1 Hk.
  induction l as [|node l IH]; intros w1 Hk acc; simpl; [by apply wp_ret|].
  apply wp_bind. eapply wp_mono; [by apply sweep_node_frame|].
  intros [acc'|e] w2 Hf; [|done]. eapply wp_mono; [apply IH; by eapply os_keyed|].
  intros r w3 Hf'. by etrans.
Qed.

End staleness_frame.

(** ** The three jobs in one pass *)

(** What the pass promises of [db'], from [db]: [c1], [c2], [c3] are the retention's cutoffs
    for actions, alerts and samples, [t2] the staleness sweep's time, [c4] and [t3] the
    reconciliation's cutoff and time. *)
Record upkept (stale_after : float) (first : bool) (c1 c2 c3 c4 t2 t3 : datetime) (db db' : Db)
    : Prop := {
  uk_nodes : nodes db' = nodes db;
  uk_samples : metric_samples db' = kept (sample_prunable c3) (metric_samples db);
  uk_actions : exists ids, remediation_actions db' =
      timed_out_rows t3 ids (kept (action_prunable c1) (remediation_actions db)) /\
    forall id, id ∈ ids <-> exists r, remediation_actions db !! id = Some r /\ dispatched_before c4 r;
  uk_awaited : forall k r, remediation_actions db' !! k = Some r -> ~ dispatched_before c4 r;
  uk_resolved : forall k a, alerts db' !! k = Some a -> alert_prunable db' c2 (k, a) ->
    am_rule_key a = STALENESS_RULE_KEY /\ am_resolved_at a = Some t2;
  uk_firing : forall k a, alerts db !! k = Some a -> am_status a = FIRING ->
    am_rule_key a <> STALENESS_RULE_KEY -> alerts db' !! k = Some a;
  uk_open : forall n node, nodes db !! n = Some node ->
    has_open db' n <-> silent stale_after t2 (nm_last_seen_at node) /\ (first = true \/ has_open db n);
}.

Lemma lookup_kept {R} (P : Z * R -> Prop) `{!forall kr, Decision (P kr)} (t : gmap Z R) k r :
  kept P t !! k = Some r <-> t !! k = Some r /\ ~ P (k, r).
Proof. unfold kept. by rewrite map_lookup_filter_Some. Qed.

(** Retention removes no firing alert. *)
Lemma swept_firing c1 c2 c3 db k a :
  am_status a = FIRING -> alerts (swept c1 c2 c3 db) !! k = Some a <-> alerts db !! k = Some a.
Proof.
  intros Hf. change (alerts (swept c1 c2 c3 db)) with
    (kept (alert_prunable (set_actions (kept (action_prunable c1) (remediation_actions db)) db) c2)
       (alerts db)).
  rewrite lookup_kept. split; [by intros []|]. intros Ha. split; [done|]. intros [Hr _].
  simpl in Hr. congruence.
Qed.

Lemma swept_has_open c1 c2 c3 db n : has_open (swept c1 c2 c3 db) n <-> has_open db n.
Proof.
  unfold has_open. split; intros (k & a & Ha & Ho); exists k, a; (split; [|done]);
    eapply swept_firing; [apply Ho|exact Ha|apply Ho|exact Ha].
Qed.

Lemma referenced_timed_out t ids acts db db' k :
  remediation_actions db = acts -> remediation_actions db' = timed_out_rows t ids acts ->
  referenced db k -> referenced db' k.
Proof.
  intros Hd Hd'. rewrite !referenced_spec. intros (j & r & Hj & Hr). rewrite Hd in Hj.
  exists j. rewrite Hd', lookup_timed_out, Hj. eexists. split; [done|]. by case_decide.
Qed.

(** Reconciliation after staleness after retention. *)
Lemma upkept_composed stale_after first c1 c2 c3 c4 t2 t3 ids db db2 db3 :
  only_staleness t2 (swept c1 c2 c3 db) db2 ->
  (forall n node, nodes (swept c1 c2 c3 db) !! n = Some node ->
     has_open db2 n <-> silent stale_after t2 (nm_last_seen_at node) /\
                        (first = true \/ has_open (swept c1 c2 c3 db) n)) ->
  (forall id, id ∈ ids <-> exists r, remediation_actions db2 !! id = Some r /\ dispatched_before c4 r) ->
  db3 = set_actions (timed_out_rows t3 ids (remediation_actions db2)) db2 ->
  upkept stale_after first c1 c2 c3 c4 t2 t3 db db3.
Proof.
  intros [Hn Hs Ha Hkept Hnew _] Hopen Hids ->.
  assert (forall id r, kept (action_prunable c1) (remediation_actions db) !! id = Some r /\
    dispatched_before c4 r <-> remediation_actions db !! id = Some r /\ dispatched_before c4 r) as Hdisp.
  { intros id r. rewrite lookup_kept. split; [by intros [[] ?]|]. intros [Hr [Hd Ho]].
    split; [|done]. split; [done|]. by intros [Hnd _]. }
  rewrite Ha in Hids. simpl in Hids. split; simpl.
  - exact Hn.
  - exact Hs.
  - exists ids. rewrite Ha. split; [done|]. intros id. rewrite Hids.
    split; intros (r & Hr); exists r; by apply Hdisp.
  - intros k r. rewrite Ha, lookup_timed_out. simpl.
    destruct (kept _ _ !! k) as [r0|] eqn:Er; [|done]. simpl. intros [= <-]. case_decide as Hk.
    + by intros [? _].
    + intros Hd. apply Hk, Hids. by exists r0.
  - intros k a Hk (Hst & Hold & Href). destruct (Hnew k a Hk) as [Hk1|[Hkey [Hf|Ht]]].
    + exfalso. change (alerts (swept c1 c2 c3 db)) with
        (kept (alert_prunable (set_actions (kept (action_prunable c1) (remediation_actions db)) db) c2)
           (alerts db)) in Hk1.
      apply lookup_kept in Hk1 as [_ Hno]. apply Hno. split; [done|]. split; [done|]. intros Hr.
      apply Href. eapply (referenced_timed_out t3 ids); [reflexivity| |exact Hr]. simpl. by rewrite Ha.
    + simpl in Hst. congruence.
    + done.
  - intros k a Hk Hf Hkey. apply Hkept; [by apply swept_firing|done].
  - intros n node Hnode. etrans; [apply (Hopen n node Hnode)|]. by rewrite swept_has_open.
Qed.

Section pass.
Context `{E : Env, !NodeRepository, !MetricsRepository, !AlertRepository,
          !RemediationActionRepository}.
Context (settings : CollectorSettings) (notifier : option Notifier).

(** A due entry: its job, then the rest of the pass. *)
Lemma wp_due now e rest Q w :
  en_next_due e <=. now ->
  wp (run_job settings notifier (js_job (en_schedule e))) (fun r w1 =>
    exists job, r = Ok job /\ wp (run_due settings notifier now rest) (fun r' w' =>
      exists rest', r' = Ok rest' /\
        Q (Ok ({| en_schedule := with_job (en_schedule e) job;
                  en_next_due := fadd (monotonic (w_tick w1)) (js_interval_seconds (en_schedule e)) |}
               :: rest')) w') (bump w1)) w ->
  wp (run_due settings notifier now (e :: rest)) Q w.
Proof.
  intros Hdue Hjob. simpl. rewrite Hdue. apply wp_bind, wp_bind. unfold wp in *.
  rewrite run_contained_run. destruct (run_job _ _ _ w) as [r w1]. destruct Hjob as (job & Hr & Hrest).
  simpl in Hr, Hrest. subst r. simpl. unfold mbind, M_bind. simpl.
  destruct (run_due _ _ now rest (bump w1)) as [r' w']. destruct Hrest as (rest' & Hr' & HQ).
  simpl in *. by subst r'.
Qed.

(** The settings' windows are within the calendar, whatever the clock reads. *)
Record calendar_ok (d1 d2 d3 d4 : timedelta) : Prop := {
  co_actions : timedelta_of_days (remediation_actions_retention_days settings) = inl d1;
  co_alerts : timedelta_of_days (resolved_alerts_retention_days settings) = inl d2;
  co_samples : timedelta_of_days (metrics_retention_days settings) = inl d3;
  co_timeout : timedelta_of_seconds (remediation_dispatch_timeout_seconds settings) = inl d4;
  co_clock : forall n d, d ∈ [d1; d2; d3; d4] -> datetime_sub (clock n) d = inl (clock n - d);
}.

(** A lifecycle with retention, for what the jobs' specifications say of any. *)
Definition pruning : LifecycleConfig :=
  {| lc_escalation_after := float_of_Z 0; lc_remediation_after := float_of_Z 0;
     lc_engine := None; lc_retention := true |}.

Lemma retention_upkeep d1 d2 d3 d4 w :
  Healthy -> calendar_ok d1 d2 d3 d4 -> 1 <= retention_batch_size settings ->
  job_ready (w_db w) ->
  wp (retention_run settings) (fun r w' => let t := clock (w_tick w) in
    (exists stats, r = Ok stats) /\ job_ready (w_db w') /\
    w_db w' = swept (t - d1) (t - d2) (t - d3) (w_db w)) w.
Proof.
  intros Hh [Hd1 Hd2 Hd3 _ Hclock] Hbatch Hr. apply wp_intro. intros r w' Hrun.
  pose proof (wp_run _ _ _ _ _ Hrun (retention_conforms settings pruning eq_refl w
    (proj1 (proj1 Hr)))) as Hst.
  pose proof (wp_run _ _ _ _ _ Hrun (retention_run_swept settings w _ _ _ _ _ _ Hd1 Hd2 Hd3
    (Hclock _ d1 ltac:(set_solver)) (Hclock _ d2 ltac:(set_solver)) (Hclock _ d3 ltac:(set_solver))
    Hbatch (proj1 (proj1 Hr)))) as Hsw.
  destruct r as [stats|e]; [|by destruct Hsw as [_ []]]. destruct Hsw as [Hdb _].
  split; [by eexists|]. split; [|done]. by eapply stable_rtc; [apply job_ready_stable| |].
Qed.

Lemma staleness_upkeep first w :
  Healthy -> job_ready (w_db w) ->
  wp (staleness_run (heartbeat_stale_after_seconds settings) notifier first) (fun r w' =>
    let t := clock (w_tick w) in
    (exists counts, r = Ok counts) /\ base (w_db w') /\ only_staleness t (w_db w) (w_db w') /\
    forall n node, nodes (w_db w) !! n = Some node -> has_open (w_db w') n <->
      silent (heartbeat_stale_after_seconds settings) t (nm_last_seen_at node) /\
      (first = true \/ has_open (w_db w) n)) w.
Proof.
  intros Hh [Hsw Hkey]. apply wp_intro. intros r w' Hrun.
  pose proof (wp_run _ _ _ _ _ Hrun (staleness_run_spec _ _ pruning first w Hsw Hkey)) as [Hst Hr].
  pose proof (wp_run _ _ _ _ _ Hrun (staleness_run_frame _ _ first w (proj1 (proj1 Hsw)))) as Hf.
  destruct r as [counts|e]; [|by destruct Hr as [_ []]]. split; [by eexists|].
  split; [exact (base_rtc _ _ _ _ (proj1 Hsw) Hst)|]. by split.
Qed.

(** C19: the three jobs of a pass compose.  With a database that answers, ages that stay within
    the calendar and batches of at least one row, a pass in which
    retention, staleness and reconciliation are due runs all three without an error, and
    afterwards the promises of all of them hold together: the samples and actions are
    exactly those the retention keeps, no action is left dispatched past its timeout, the
    only resolved alerts past their cutoff that nothing refers to are those the pass has
    just resolved, every alert of a rule that fired still does, and a node has an open
    staleness alert exactly when it is silent and the process has swept before or the alert
    was open already. *)
Theorem upkeep_pass now entries first d1 d2 d3 d4 w :
  Healthy -> calendar_ok d1 d2 d3 d4 -> 1 <= retention_batch_size settings ->
  sweepable (w_db w) -> nodes_keyed (w_db w) ->
  (fun e => js_job (en_schedule e)) <$> entries = [RetentionJob; StalenessJob first; ReconciliationJob] ->
  Forall (fun e => en_next_due e <=. now) entries ->
  wp (run_due settings notifier now entries) (fun r w' => exists entries' t1 t2 t3, r = Ok entries' /\
    (fun e => js_job (en_schedule e)) <$> entries' = [RetentionJob; StalenessJob true; ReconciliationJob] /\
    upkept (heartbeat_stale_after_seconds settings) first (t1 - d1) (t1 - d2) (t1 - d3) (t3 - d4) t2 t3
      (w_db w) (w_db w')) w.
Proof.
  intros Hh Hcal Hbatch Hsw Hkey Hjobs Hdue.
  destruct entries as [|e1 [|e2 [|e3 [|]]]]; try done. injection Hjobs as Hj1 Hj2 Hj3.
  apply Forall_cons in Hdue as [Hd1 Hdue]. apply Forall_cons in Hdue as [Hd2 Hdue].
  apply Forall_cons in Hdue as [Hd3 _].
  apply wp_due; [done|]. rewrite Hj1. apply wp_bind.
  eapply wp_mono; [by apply (retention_upkeep d1 d2 d3 d4)|].
  intros r1 w1 ([stats ->] & Hready & Hdb1). apply wp_ret. eexists. split; [done|].
  apply wp_due; [done|]. rewrite Hj2. apply wp_bind.
  eapply wp_mono; [by apply staleness_upkeep|].
  intros r2 w2 ([counts ->] & Hb2 & Hf2 & Hopen2). apply wp_ret. eexists. split; [done|].
  apply wp_due; [done|]. rewrite Hj3. apply wp_bind. destruct Hcal as [_ _ _ Hw4 Hclock].
  eapply wp_mono; [exact (reconciliation_run_spec _ pruning (bump w2) Hb2)|].
  intros r3 w3 [_ Hr3]. specialize (Hr3 d4 _ Hw4 (Hclock _ d4 ltac:(set_solver))).
  destruct r3 as [k|ex]; [|by destruct Hr3 as [_ []]]. destruct Hr3 as (ids & _ & _ & Hids & Hdb3).
  apply wp_ret. eexists. split; [done|]. apply wp_ret. do 3 (eexists; split; [done|]).
  simpl in Hf2, Hopen2, Hids, Hdb3. eexists _, (clock (w_tick w)), _, _. split; [done|]. split; [done|].
  rewrite Hdb1 in Hf2, Hopen2. by eapply upkept_composed.
Qed.
End pass.
