(* ===== verification/SchedulerThread.v ===== *)
(** * The scheduler's thread ([PeriodicJobScheduler] of [collector/jobs/scheduler.py])

    [start], [stop], [run_all_once] and the loop as threads of one process: the thread that
    calls the methods and the loop threads [start] created, interleaved.  They share the
    stop event, the job objects and the database.  A [job.run()] has a beginning and an end,
    so that two runs can be seen to overlap; the database moves at its end, as one loop
    alone would move it ([one_pass_is_run_due]). *)

From stdpp Require Import functions.
From S2P Require Import Prelude PyFloat PyTime Domain Schema Runtime Protocols Tables.
From S2P Require Import Remediation Notifications Lifecycle Settings JobScheduler.

Local Open Scope Z_scope.

(** ** State *)

(** [_Entry]: a reference to a job object, its interval and its due time. *)
Record Slot := { sl_job : nat; sl_interval_seconds : float; sl_next_due : float }.

(** Where a loop thread is in [_run_loop]; a thread that returned is no longer alive. *)
Inductive Loop :=
| Starting                                                  (* entries not built yet *)
| AtWait (entries : list Slot)                              (* about to compute [wait] *)
| Blocked (entries : list Slot)                             (* inside [Event.wait] *)
| Passing (now : float) (done rest : list Slot)             (* in [for entry in entries] *)
| Running (now : float) (done : list Slot) (current : Slot) (rest : list Slot).
                                                            (* inside [job.run()] *)

(** What the thread that owns the scheduler is doing. *)
Inductive Caller :=
| Idle
| Joining (tid : nat)                 (* in [stop], inside [Thread.join] *)
| Sweeping (current : nat) (rest : list nat).   (* in [run_all_once], inside [job.run()] *)

Record Scheduler := mkScheduler {
  _stop_event : bool;
  _thread : option nat;
  loops : gmap nat Loop;        (* the loop threads that are alive *)
  caller : Caller;
  job_objects : nat -> Job;     (* the state of the job objects, by position *)
  s_world : World;
  started : list nat;           (* the jobs whose [run] was called, oldest first *)
  starts : nat;                 (* threads created so far *)
  timeouts : nat;               (* joins that timed out so far *)
}.

Definition set_loops (l : gmap nat Loop) (s : Scheduler) : Scheduler :=
  mkScheduler (_stop_event s) (_thread s) l (caller s) (job_objects s) (s_world s) (started s)
    (starts s) (timeouts s).
Definition set_caller (c : Caller) (s : Scheduler) : Scheduler :=
  mkScheduler (_stop_event s) (_thread s) (loops s) c (job_objects s) (s_world s) (started s)
    (starts s) (timeouts s).
Definition set_world (w : World) (s : Scheduler) : Scheduler :=
  mkScheduler (_stop_event s) (_thread s) (loops s) (caller s) (job_objects s) w (started s)
    (starts s) (timeouts s).
Definition note_started (job : nat) (s : Scheduler) : Scheduler :=
  mkScheduler (_stop_event s) (_thread s) (loops s) (caller s) (job_objects s) (s_world s)
    (started s ++ [job]) (starts s) (timeouts s).

Definition put_loop (tid : nat) (l : Loop) (s : Scheduler) : Scheduler :=
  set_loops (<[tid := l]> (loops s)) s.
Definition exit_loop (tid : nat) (s : Scheduler) : Scheduler :=
  set_loops (delete tid (loops s)) s.

Definition is_blocked (l : Loop) : bool := match l with Blocked _ => true | _ => false end.

(** Whether a loop is inside a [job.run()]. *)
Definition loop_running (l : Loop) : bool := match l with Running _ _ _ _ => true | _ => false end.

Section thread.
Context `{E : Env, !NodeRepository, !MetricsRepository, !AlertRepository,
          !RemediationActionRepository}.
Context (settings : CollectorSettings) (notifier : option Notifier).
Context (_schedules : list JobSchedule).

(** ** The methods *)

(** [PeriodicJobScheduler(schedules)]. *)
Definition Scheduler_init (w : World) : Scheduler :=
  {| _stop_event := false; _thread := None; loops := ∅; caller := Idle;
     job_objects := fun i => default RetentionJob (js_job <$> _schedules !! i);
     s_world := w; started := []; starts := 0; timeouts := 0 |}.

Definition is_running (s : Scheduler) : bool :=
  match _thread s with
  | None => false
  | Some tid => bool_decide (is_Some (loops s !! tid))
  end.

(** [start]: nothing while running; else the event is cleared and a thread created. *)
Definition scheduler_start (s : Scheduler) : Scheduler :=
  if is_running s then s
  else {| _stop_event := false; _thread := Some (starts s);
          loops := <[starts s := Starting]> (loops s); caller := caller s;
          job_objects := job_objects s; s_world := s_world s; started := started s;
          starts := S (starts s); timeouts := timeouts s |}.

(** [stop] up to the join: [Event.set] makes every [wait] in progress return true, and those
    loops return. *)
Definition stop_begin (s : Scheduler) : Scheduler :=
  match _thread s with
  | None => s
  | Some tid =>
      {| _stop_event := true; _thread := _thread s;
         loops := filter (fun kl => is_blocked kl.2 = false) (loops s); caller := Joining tid;
         job_objects := job_objects s; s_world := s_world s; started := started s;
         starts := starts s; timeouts := timeouts s |}
  end.

(** [stop] from the join on: the thread is dead, or [timeout_seconds] have passed. *)
Definition stop_end (tid : nat) (s : Scheduler) : Scheduler :=
  {| _stop_event := _stop_event s; _thread := None; loops := loops s; caller := Idle;
     job_objects := job_objects s; s_world := s_world s; started := started s;
     starts := starts s;
     timeouts := match loops s !! tid with Some _ => S (timeouts s) | None => timeouts s end |}.

(** [_lifespan] of [main.py] on [app.state.job_scheduler]: what happens when the application
    starts, and when it ends (up to the join, after which [stop_end] is all that is left). *)
Definition lifespan_startup (scheduler : option Scheduler) : option Scheduler :=
  scheduler_start <$> scheduler.
Definition lifespan_shutdown (scheduler : option Scheduler) : option Scheduler :=
  stop_begin <$> scheduler.

(** The end of [_run_contained] on a job object. *)
Definition finish_job (job : nat) (s : Scheduler) : Scheduler :=
  let '(r, w) := _run_contained settings notifier (job_objects s job) (s_world s) in
  {| _stop_event := _stop_event s; _thread := _thread s; loops := loops s; caller := caller s;
     job_objects := <[job := match r with Ok j => j | Raise _ => job_objects s job end]>
       (job_objects s);
     s_world := w; started := started s; starts := starts s; timeouts := timeouts s |}.

(** [for schedule in self._schedules]: the next job of [run_all_once], if any. *)
Definition sweep_from (rest : list nat) (s : Scheduler) : Scheduler :=
  match rest with
  | [] => set_caller Idle s
  | job :: rest => note_started job (set_caller (Sweeping job rest) s)
  end.

(** ** The loop *)

(** [[_Entry(schedule, time.monotonic()) for schedule in self._schedules]]. *)
Fixpoint make_slots (i : nat) (schedules : list JobSchedule) : M (list Slot) :=
  match schedules with
  | [] => mret []
  | s :: rest =>
      now ← monotonic_now;
      rest ← make_slots (S i) rest;
      mret ({| sl_job := i; sl_interval_seconds := js_interval_seconds s;
               sl_next_due := fadd now (js_interval_seconds s) |} :: rest)
  end.

Definition rescheduled (e : Slot) (t : float) : Slot :=
  {| sl_job := sl_job e; sl_interval_seconds := sl_interval_seconds e;
     sl_next_due := fadd t (sl_interval_seconds e) |}.

(** One step of the loop thread [tid], which is at [l]. *)
Definition loop_next (tid : nat) (l : Loop) (s : Scheduler) : Scheduler :=
  match l with
  | Starting =>
      match _schedules with
      | [] => exit_loop tid s
      | _ =>
          match make_slots 0 _schedules (s_world s) with
          | (Ok entries, w) => put_loop tid (AtWait entries) (set_world w s)
          | (Raise _, w) => exit_loop tid (set_world w s)
          end
      end
  | AtWait entries =>
      (* [wait = min(...) - time.monotonic(); if self._stop_event.wait(max(wait, 0.0))] *)
      let s := set_world (bump (s_world s)) s in
      if _stop_event s then exit_loop tid s else put_loop tid (Blocked entries) s
  | Blocked entries =>
      (* the wait timed out *)
      let now := monotonic (w_tick (s_world s)) in
      put_loop tid (Passing now [] entries) (set_world (bump (s_world s)) s)
  | Passing now done [] => put_loop tid (AtWait done) s
  | Passing now done (e :: rest) =>
      if fle (sl_next_due e) now
      then note_started (sl_job e) (put_loop tid (Running now done e rest) s)
      else put_loop tid (Passing now (done ++ [e]) rest) s
  | Running now done e rest =>
      let s := finish_job (sl_job e) s in
      let t := monotonic (w_tick (s_world s)) in
      put_loop tid (Passing now (done ++ [rescheduled e t]) rest)
        (set_world (bump (s_world s)) s)
  end.

(** ** Interleavings *)

Inductive sched_step (s : Scheduler) : Scheduler -> Prop :=
| sched_start : caller s = Idle -> sched_step s (scheduler_start s)
| sched_stop : caller s = Idle -> sched_step s (stop_begin s)
| sched_joined tid : caller s = Joining tid -> sched_step s (stop_end tid s)
| sched_sweep : caller s = Idle ->
    sched_step s (sweep_from (seq 0 (length _schedules)) s)
| sched_swept job rest : caller s = Sweeping job rest ->
    sched_step s (sweep_from rest (finish_job job s))
| sched_requests w : sched_step s (set_world w s)   (* requests handled meanwhile *)
| sched_loop tid l : loops s !! tid = Some l -> sched_step s (loop_next tid l s).

(** The states of the process from the construction of the scheduler on. *)
Definition sched_reachable (w : World) (s : Scheduler) : Prop :=
  rtc sched_step (Scheduler_init w) s.

(** The same, executable: who moves next. *)
Inductive Move := MStart | MStop | MJoined | MSweep | MSwept | MLoop (tid : nat).

Definition sched_do (m : Move) (s : Scheduler) : option Scheduler :=
  match m, caller s with
  | MStart, Idle => Some (scheduler_start s)
  | MStop, Idle => Some (stop_begin s)
  | MJoined, Joining tid => Some (stop_end tid s)
  | MSweep, Idle => Some (sweep_from (seq 0 (length _schedules)) s)
  | MSwept, Sweeping job rest => Some (sweep_from rest (finish_job job s))
  | MLoop tid, _ => l ← loops s !! tid; Some (loop_next tid l s)
  | _, _ => None
  end.

Fixpoint sched_script (moves : list Move) (s : Scheduler) : option Scheduler :=
  match moves with
  | [] => Some s
  | m :: moves => s' ← sched_do m s; sched_script moves s'
  end.

Lemma sched_do_step m s s' : sched_do m s = Some s' -> sched_step s s'.
Proof.
  unfold sched_do. destruct m as [| | | | |tid], (caller s) eqn:Ec; try done;
    try (intros [= <-]; by constructor);
    (destruct (loops s !! tid) eqn:El; [|done]; intros [= <-]; by apply sched_loop).
Qed.

Lemma script_reachable w moves s :
  sched_script moves (Scheduler_init w) = Some s -> sched_reachable w s.
Proof.
  unfold sched_reachable. generalize (Scheduler_init w).
  induction moves as [|m moves IH]; intros s0; simpl; [by intros [= ->]|].
  destruct (sched_do m s0) as [s1|] eqn:Em; [|done]. intros Hs.
  eapply rtc_l; [by eapply sched_do_step|by apply IH].
Qed.

(** The state after a script, or the initial one where the script is not possible. *)
Definition after_script (moves : list Move) (w : World) : Scheduler :=
  default (Scheduler_init w) (sched_script moves (Scheduler_init w)).

Lemma after_script_reachable moves w : sched_reachable w (after_script moves w).
Proof.
  unfold after_script. destruct (sched_script moves _) eqn:Es; [by eapply script_reachable|].
  apply rtc_refl.
Qed.

(** The loop thread [tid] alone for [n] steps. *)
Fixpoint loop_steps (n : nat) (tid : nat) (s : Scheduler) : Scheduler :=
  match n with
  | O => s
  | S n => match loops s !! tid with
           | Some l => loop_steps n tid (loop_next tid l s)
           | None => s
           end
  end.

End thread.

#[local] Arguments finish_job : simpl never.

(** ** How many loops are alive *)

Section counting.
Context `{E : Env, !NodeRepository, !MetricsRepository, !AlertRepository,
          !RemediationActionRepository}.
Context (settings : CollectorSettings) (notifier : option Notifier).
Context (_schedules : list JobSchedule).

(** 1 while the thread of [_thread] is alive. *)
Definition current_alive (s : Scheduler) : nat := if is_running s then 1 else 0.

(** A loop that no [_thread] names is one whose join timed out. *)
Record counted (s : Scheduler) : Prop := {
  counted_alive : (size (loops s) <= current_alive s + timeouts s)%nat;
  counted_ids : forall tid, is_Some (loops s !! tid) -> (tid < starts s)%nat;
  counted_current : forall tid, _thread s = Some tid -> (tid < starts s)%nat;
  counted_joining : forall tid, caller s = Joining tid -> _thread s = Some tid;
}.

Lemma size_filter_le {A} (P : nat * A -> Prop) `{!forall x, Decision (P x)} (m : gmap nat A) :
  (size (filter P m) <= size m)%nat.
Proof. apply map_subseteq_size, map_filter_subseteq. Qed.

(** Losing loops other than the current one, or the current one, keeps the count. *)
Lemma alive_filter (P : nat * Loop -> Prop) `{!forall x, Decision (P x)} (m : gmap nat Loop) tid n :
  (size m <= (if bool_decide (is_Some (m !! tid)) then 1 else 0) + n)%nat ->
  (size (filter P m) <= (if bool_decide (is_Some (filter P m !! tid)) then 1 else 0) + n)%nat.
Proof.
  intros Hm. pose proof (size_filter_le P m) as Hle.
  destruct (m !! tid) as [l|] eqn:El.
  - rewrite bool_decide_eq_true_2 in Hm by done.
    destruct (decide (P (tid, l))) as [HP|HP].
    + rewrite bool_decide_eq_true_2; [lia|]. exists l. by apply map_lookup_filter_Some.
    + rewrite bool_decide_eq_false_2.
      2: { intros [l' [? ?]%map_lookup_filter_Some]. by simplify_eq. }
      assert (filter P m ⊆ delete tid m) as Hsub%map_subseteq_size.
      { apply map_subseteq_spec. intros k l' [Hk HPk]%map_lookup_filter_Some.
        apply lookup_delete_Some. split; [|done]. intros ->. by simplify_eq. }
      rewrite map_size_delete, El in Hsub. simpl in Hsub. lia.
  - rewrite bool_decide_eq_false_2 in Hm by (intros [? ?]; done). lia.
Qed.

(** A loop's step changes its own entry among the loops, and none of the counts. *)
Lemma loop_next_frame tid l s :
  let s' := loop_next settings notifier _schedules tid l s in
  _thread s' = _thread s /\ caller s' = caller s /\ starts s' = starts s /\
  timeouts s' = timeouts s /\ _stop_event s' = _stop_event s /\
  ((exists l', loops s' = <[tid := l']> (loops s)) \/ loops s' = delete tid (loops s)).
Proof.
  destruct l as [|es|es|now d [|e rest]|now d e rest]; cbn.
  - destruct _schedules as [|x xs]; [split_and!; eauto|].
    destruct (make_slots 0 (x :: xs) (s_world s)) as [[es|e] w]; split_and!; cbn; eauto.
  - destruct (_stop_event s) eqn:?; split_and!; cbn; eauto.
  - split_and!; eauto.
  - split_and!; eauto.
  - destruct (fle _ _); split_and!; cbn; eauto.
  - unfold finish_job. destruct (_run_contained settings notifier _ _). split_and!; cbn; eauto.
Qed.

Lemma current_alive_eq s :
  current_alive s = match _thread s with
                    | Some tid => if bool_decide (is_Some (loops s !! tid)) then 1 else 0
                    | None => 0 end%nat.
Proof. unfold current_alive, is_running. by destruct (_thread s). Qed.

(** Removing loops, whichever they are, keeps the invariant. *)
Lemma counted_filter (P : nat * Loop -> Prop) `{!forall x, Decision (P x)} s s' :
  counted s -> loops s' = filter P (loops s) -> _thread s' = _thread s ->
  (caller s' = caller s \/ exists tid, _thread s = Some tid /\ caller s' = Joining tid) ->
  starts s' = starts s -> timeouts s' = timeouts s -> counted s'.
Proof.
  intros [Ha Hi Hc Hj] Hl Ht Hca Hs Hto. split.
  - rewrite current_alive_eq in *. rewrite Hl, Ht, Hto. destruct (_thread s) as [tid|].
    + by apply alive_filter.
    + pose proof (size_filter_le P (loops s)). lia.
  - intros tid Hin. rewrite Hl in Hin. rewrite Hs. apply Hi.
    destruct Hin as [l [? _]%map_lookup_filter_Some]. by exists l.
  - intros tid Htid. rewrite Hs. apply Hc. congruence.
  - intros tid Hc'. rewrite Ht. destruct Hca as [Heq|(t & Ht' & Heq)]; [|congruence].
    apply Hj. congruence.
Qed.

Lemma counted_same s s' :
  counted s -> loops s' = loops s -> _thread s' = _thread s ->
  (caller s' = caller s \/ forall tid, caller s' <> Joining tid) ->
  starts s' = starts s -> timeouts s' = timeouts s -> counted s'.
Proof.
  intros [Ha Hi Hc Hj] Hl Ht Hca Hs Hto. split.
  - by rewrite current_alive_eq, Hl, Ht, Hto, <- current_alive_eq.
  - intros tid. rewrite Hl, Hs. apply Hi.
  - intros tid. rewrite Ht, Hs. apply Hc.
  - intros tid Hc'. rewrite Ht. destruct Hca as [Heq|Hno]; [|by destruct (Hno tid)].
    apply Hj. congruence.
Qed.

Lemma counted_loop s s' tid :
  counted s -> is_Some (loops s !! tid) ->
  _thread s' = _thread s /\ caller s' = caller s /\ starts s' = starts s /\
  timeouts s' = timeouts s /\ _stop_event s' = _stop_event s /\
  ((exists l', loops s' = <[tid := l']> (loops s)) \/ loops s' = delete tid (loops s)) ->
  counted s'.
Proof.
  intros Hcnt Hin (Ht & Hca & Hs & Hto & _ & [[l' Hl]|Hl]).
  - destruct Hcnt as [Ha Hi Hc Hj].
    assert (forall k, is_Some (loops s' !! k) <-> is_Some (loops s !! k)) as Hdom.
    { intros k. rewrite Hl, lookup_insert_is_Some'. split; [|by right]. by intros [<-|]. }
    split.
    + rewrite current_alive_eq in *. rewrite Ht, Hto, Hl, map_size_insert_Some by done.
      destruct (_thread s) as [t|]; [|lia]. rewrite <- Hl.
      by rewrite (bool_decide_ext _ _ (Hdom t)).
    + intros k Hk. rewrite Hs. by apply Hi, Hdom.
    + intros k. rewrite Ht, Hs. apply Hc.
    + intros k. rewrite Hca, Ht. apply Hj.
  - apply (counted_filter (fun kl => kl.1 <> tid) s); [done| |done|by left|done|done].
    rewrite Hl. apply map_eq. intros k. apply option_eq. intros l.
    rewrite lookup_delete_Some, map_lookup_filter_Some. naive_solver.
Qed.

Lemma counted_init w : counted (Scheduler_init _schedules w).
Proof.
  split; [|by intros tid [? ?]|done|done].
  change (size (∅ : gmap nat Loop) <= 0)%nat. by rewrite map_size_empty.
Qed.

Lemma counted_start s : counted s -> caller s = Idle -> counted (scheduler_start s).
Proof.
  intros Hcnt Hidle. unfold scheduler_start. destruct (is_running s) eqn:Er; [done|].
  destruct Hcnt as [Ha Hi Hc Hj]. unfold current_alive in Ha. rewrite Er in Ha. simpl in Ha.
  assert (loops s !! starts s = None) as Hnew.
  { destruct (loops s !! starts s) eqn:El; [|done].
    assert (starts s < starts s)%nat by (apply Hi; by eexists). lia. }
  split; cbn.
  - rewrite current_alive_eq. cbn. rewrite bool_decide_eq_true_2.
    + rewrite map_size_insert_None by done. lia.
    + rewrite lookup_insert_eq. by eexists.
  - intros tid [<-|Hin]%lookup_insert_is_Some'; [lia|]. specialize (Hi tid Hin). lia.
  - intros tid [= <-]. lia.
  - intros tid Hc'. congruence.
Qed.

Lemma counted_stop_end tid s : counted s -> caller s = Joining tid -> counted (stop_end tid s).
Proof.
  intros [Ha Hi Hc Hj] Hjoin. split; cbn; [|done|done|done].
  rewrite current_alive_eq in Ha. rewrite (Hj tid Hjoin) in Ha.
  destruct (loops s !! tid); cbn in *; lia.
Qed.

Lemma finish_job_frame job s :
  let s' := finish_job settings notifier job s in
  loops s' = loops s /\ _thread s' = _thread s /\ caller s' = caller s /\
  starts s' = starts s /\ timeouts s' = timeouts s.
Proof. unfold finish_job. by destruct (_run_contained settings notifier _ _). Qed.

Lemma counted_sweep rest s : counted s -> counted (sweep_from rest s).
Proof.
  intros Hc. destruct rest as [|job rest]; (eapply counted_same; [exact Hc|done|done| |done|done]);
    right; by intros tid.
Qed.

Lemma counted_step s s' :
  counted s -> sched_step settings notifier _schedules s s' -> counted s'.
Proof.
  intros Hcnt Hs. destruct Hs as [Hi|Hi|tid Hj|Hi|job rest Hw|w|tid l Hl].
  - by apply counted_start.
  - unfold stop_begin. destruct (_thread s) as [tid|] eqn:Et; [|done].
    apply (counted_filter (fun kl => is_blocked kl.2 = false) s); try done. right. by exists tid.
  - by apply counted_stop_end.
  - by apply counted_sweep.
  - apply counted_sweep. destruct (finish_job_frame job s) as (? & ? & ? & ? & ?).
    eapply counted_same; [exact Hcnt|done|done|by left|done|done].
  - eapply counted_same; [exact Hcnt|done|done|by left|done|done].
  - eapply counted_loop; [exact Hcnt|by exists l|apply loop_next_frame].
Qed.

Lemma counted_reachable w s : sched_reachable settings notifier _schedules w s -> counted s.
Proof.
  unfold sched_reachable. pose proof (counted_init w) as Hc. revert Hc.
  generalize (Scheduler_init _schedules w). intros s0 Hc Hr. revert Hc.
  induction Hr as [|s0 s1 s2 Hs _ IH]; [done|]. intros Hc. apply IH. by eapply counted_step.
Qed.

End counting.

(** ** One loop, running on by itself *)

Section alone.
Context `{E : Env, !NodeRepository, !MetricsRepository, !AlertRepository,
          !RemediationActionRepository}.
Context (settings : CollectorSettings) (notifier : option Notifier).
Context (_schedules : list JobSchedule).

Notation next := (loop_next settings notifier _schedules).
Notation steps := (loop_steps settings notifier _schedules).

Lemma loop_steps_dead n tid s : loops s !! tid = None -> steps n tid s = s.
Proof. intros Hl. destruct n; simpl; [done|]. by rewrite Hl. Qed.

Lemma loop_steps_S n tid l s :
  loops s !! tid = Some l -> steps (S n) tid s = steps n tid (next tid l s).
Proof. intros Hl. simpl. by rewrite Hl. Qed.

Lemma loop_steps_add n m tid s : steps (n + m) tid s = steps m tid (steps n tid s).
Proof.
  revert s. induction n as [|n IH]; intros s; [done|]. simpl.
  destruct (loops s !! tid) as [l|] eqn:El; [apply IH|]. by rewrite loop_steps_dead.
Qed.

Lemma put_loop_lookup tid l s : loops (put_loop tid l s) !! tid = Some l.
Proof. cbn. by rewrite lookup_insert_eq. Qed.

(** The due entries among those a pass has still to look at. *)
Definition due (now : float) (entries : list Slot) : list Slot :=
  filter (fun e => fle (sl_next_due e) now = true) entries.

(** The jobs a loop still runs in the pass it is in. *)
Definition pending_jobs (l : Loop) : list nat :=
  match l with
  | Passing now _ rest | Running now _ _ rest => sl_job <$> due now rest
  | _ => []
  end.

(** More than the steps it needs to look at the stop event again and return. *)
Definition remaining_steps (l : Loop) : nat :=
  match l with
  | Starting => 2
  | AtWait _ | Blocked _ => 1
  | Passing _ _ rest => 2 + 2 * length rest
  | Running _ _ _ rest => 3 + 2 * length rest
  end.

Lemma exit_stops n tid s :
  loops (steps n tid (exit_loop tid s)) !! tid = None /\
  started (steps n tid (exit_loop tid s)) = started s.
Proof.
  assert (loops (exit_loop tid s) !! tid = None) as Hl by apply lookup_delete_eq.
  by rewrite loop_steps_dead.
Qed.

Lemma at_wait_stops n tid es s :
  loops s !! tid = Some (AtWait es) -> _stop_event s = true ->
  loops (steps (S n) tid s) !! tid = None /\ started (steps (S n) tid s) = started s.
Proof.
  intros Hl He. rewrite (loop_steps_S _ _ _ _ Hl). cbn. rewrite He.
  apply (exit_stops n tid (set_world (bump (s_world s)) s)).
Qed.

Lemma due_cons now e rest :
  due now (e :: rest) = if fle (sl_next_due e) now then e :: due now rest else due now rest.
Proof.
  unfold due. rewrite filter_cons.
  destruct (fle _ _) eqn:Ed; [by rewrite decide_True|by rewrite decide_False].
Qed.

Lemma finish_job_frame' job s :
  let s' := finish_job settings notifier job s in
  _stop_event s' = _stop_event s /\ started s' = started s.
Proof. unfold finish_job. by destruct (_run_contained settings notifier _ _). Qed.

(** The end of a job: the loop goes on with the rest of its pass. *)
Lemma running_step n now done e rest tid s :
  loops s !! tid = Some (Running now done e rest) ->
  exists done' s', steps (S n) tid s = steps n tid s' /\
    loops s' !! tid = Some (Passing now done' rest) /\
    _stop_event s' = _stop_event s /\ started s' = started s.
Proof.
  intros Hl. rewrite (loop_steps_S _ _ _ _ Hl). cbn.
  destruct (finish_job_frame' (sl_job e) s) as [He Hs].
  eexists _, _. split; [done|]. split; [apply put_loop_lookup|]. by split.
Qed.

Lemma passing_stops rest now done tid s n :
  loops s !! tid = Some (Passing now done rest) -> _stop_event s = true ->
  (2 + 2 * length rest <= n)%nat ->
  loops (steps n tid s) !! tid = None /\
  started (steps n tid s) = started s ++ (sl_job <$> due now rest).
Proof.
  revert done s n. induction rest as [|e rest IH]; intros done s n Hl He Hn; simpl in Hn.
  - destruct n as [|[|n]]; [lia..|]. rewrite (loop_steps_S _ _ _ _ Hl). cbn [loop_next].
    rewrite app_nil_r. by apply (at_wait_stops n tid done (put_loop tid (AtWait done) s));
      [apply put_loop_lookup|].
  - destruct n as [|[|n]]; [lia..|]. rewrite (loop_steps_S _ _ _ _ Hl). cbn [loop_next].
    rewrite due_cons. destruct (fle _ _).
    + match goal with |- context [steps (S n) tid ?x] => set (s1 := x) end.
      destruct (running_step n now done e rest tid s1) as (done' & s2 & -> & Hl2 & He2 & Hs2);
        [apply put_loop_lookup|].
      destruct (IH done' s2 n Hl2) as [-> ->]; [by rewrite He2|lia|].
      split; [done|]. rewrite Hs2. cbn. by rewrite <- app_assoc.
    + destruct (IH (done ++ [e]) (put_loop tid (Passing now (done ++ [e]) rest) s) (S n))
        as [-> ->]; [apply put_loop_lookup|done|lia|done].
Qed.

Lemma loop_stops tid l s n :
  loops s !! tid = Some l -> _stop_event s = true -> is_blocked l = false ->
  (remaining_steps l <= n)%nat ->
  loops (steps n tid s) !! tid = None /\ started (steps n tid s) = started s ++ pending_jobs l.
Proof.
  intros Hl He Hb Hn. destruct l as [|es|es|now done rest|now done e rest]; cbn in Hb, Hn; try discriminate Hb.
  - destruct n as [|[|n]]; [lia..|]. rewrite (loop_steps_S _ _ _ _ Hl), app_nil_r. cbn [loop_next].
    destruct _schedules as [|x xs] eqn:Es; rewrite <- Es; [apply exit_stops|].
    destruct (make_slots 0 _schedules (s_world s)) as [[es|e] w'].
    + apply (at_wait_stops n tid es (put_loop tid (AtWait es) (set_world w' s)));
        [apply put_loop_lookup|done].
    + apply (exit_stops (S n) tid (set_world w' s)).
  - destruct n as [|n]; [lia|]. rewrite app_nil_r. by apply (at_wait_stops n tid es).
  - by apply (passing_stops rest now done).
  - destruct n as [|n]; [lia|]. destruct (running_step n now done e rest tid s Hl)
      as (done' & s2 & -> & Hl2 & He2 & Hs2).
    destruct (passing_stops rest now done' tid s2 n Hl2) as [-> ->]; [by rewrite He2|lia|].
    by rewrite Hs2.
Qed.

(** While the event is set no loop is inside [Event.wait]. *)
Definition unblocked (s : Scheduler) : Prop :=
  _stop_event s = true -> forall tid l, loops s !! tid = Some l -> is_blocked l = false.

Lemma exit_loop_lookup tid s t l :
  loops (exit_loop tid s) !! t = Some l -> t <> tid /\ loops s !! t = Some l.
Proof. cbn. by intros [? ?]%lookup_delete_Some. Qed.

Lemma put_loop_lookup_Some tid x s t l :
  loops (put_loop tid x s) !! t = Some l -> l = x \/ (t <> tid /\ loops s !! t = Some l).
Proof. cbn. intros [[_ <-]|[? ?]]%lookup_insert_Some; [by left|by right]. Qed.

Lemma loop_next_blocked tid l s tid' l' :
  _stop_event s = true -> loops (next tid l s) !! tid' = Some l' ->
  is_blocked l' = false \/ (tid' <> tid /\ loops s !! tid' = Some l').
Proof.
  intros He. destruct l as [|es|es|now d [|e rest]|now d e rest]; cbn [loop_next].
  - destruct _schedules as [|x xs]; [intros ?%exit_loop_lookup; by right|].
    destruct (make_slots 0 (x :: xs) (s_world s)) as [[es|e] w].
    + intros [->|?]%put_loop_lookup_Some; [by left|by right].
    + intros ?%exit_loop_lookup. by right.
  - cbn [_stop_event set_world]. rewrite He. intros ?%exit_loop_lookup. by right.
  - intros [->|?]%put_loop_lookup_Some; [by left|by right].
  - intros [->|?]%put_loop_lookup_Some; [by left|by right].
  - destruct (fle _ _); [intros [->|?]%(put_loop_lookup_Some _ _ s)|
      intros [->|?]%put_loop_lookup_Some]; (by left) || by right.
  - intros [->|[? Hl]]%put_loop_lookup_Some; [by left|]. right. split; [done|].
    cbn in Hl. by destruct (finish_job_frame settings notifier (sl_job e) s) as [<- _].
Qed.

Lemma unblocked_step s s' :
  unblocked s -> sched_step settings notifier _schedules s s' -> unblocked s'.
Proof.
  intros Hu Hs He. destruct Hs as [_|_|tid _|_|job rest _|w|tid l Hl].
  - unfold scheduler_start in *. destruct (is_running s); [by apply Hu|done].
  - unfold stop_begin in *. destruct (_thread s); [|by apply Hu]. cbn.
    by intros tid' l [_ ?]%map_lookup_filter_Some.
  - by apply Hu.
  - unfold sweep_from in *. destruct (seq _ _); by apply Hu.
  - pose proof (finish_job_frame settings notifier job s) as (Hl & _).
    pose proof (finish_job_frame' job s) as [Hev _]. unfold sweep_from in *.
    destruct rest; cbn in *; rewrite Hl; apply Hu; congruence.
  - by apply Hu.
  - pose proof (loop_next_frame settings notifier _schedules tid l s) as (_ & _ & _ & _ & Hev & _).
    rewrite Hev in He. intros tid' l' Hl'.
    destruct (loop_next_blocked _ _ _ _ _ He Hl') as [|[_ ?]]; [done|by eapply Hu].
Qed.

Lemma unblocked_reachable w s :
  sched_reachable settings notifier _schedules w s -> unblocked s.
Proof.
  unfold sched_reachable. assert (unblocked (Scheduler_init _schedules w)) as Hc by done.
  revert Hc. generalize (Scheduler_init _schedules w). intros s0 Hc Hr. revert Hc.
  induction Hr as [|s0 s1 s2 Hs _ IH]; [done|]. intros Hc. apply IH. by eapply unblocked_step.
Qed.

(** ** A pass, step by step, is [run_due] *)

(** An entry with the state of its job object. *)
Definition entry_view (jobs : nat -> Job) (e : Slot) : Entry :=
  {| en_schedule := {| js_job := jobs (sl_job e); js_interval_seconds := sl_interval_seconds e |};
     en_next_due := sl_next_due e |}.

Definition view (s : Scheduler) (entries : list Slot) : list Entry :=
  entry_view (job_objects s) <$> entries.

#[local] Arguments view : simpl never.

Lemma view_cons s e rest : view s (e :: rest) = entry_view (job_objects s) e :: view s rest.
Proof. done. Qed.

(** The view depends only on the jobs of the entries. *)
Lemma view_ext s s' entries :
  (forall i, i ∈ sl_job <$> entries -> job_objects s' i = job_objects s i) ->
  view s' entries = view s entries.
Proof.
  intros Heq. unfold view. apply list_fmap_ext. intros k e Hk. unfold entry_view.
  rewrite Heq; [done|]. apply list_elem_of_fmap_2. by eapply list_elem_of_lookup_2.
Qed.

Lemma finish_job_run job s :
  exists j w, _run_contained settings notifier (job_objects s job) (s_world s) = (Ok j, w) /\
    job_objects (finish_job settings notifier job s) = <[job := j]> (job_objects s) /\
    s_world (finish_job settings notifier job s) = w.
Proof.
  unfold finish_job. rewrite run_contained_run.
  destruct (run_job settings notifier _ _) as [r w]. by eexists _, _.
Qed.

(** From the beginning of a pass (or its middle, [done] being what it has looked at) a loop
    alone does to the jobs, the entries and the world what [run_due] does. *)
Lemma pass_is_run_due rest now done tid s :
  loops s !! tid = Some (Passing now done rest) -> NoDup (sl_job <$> rest) ->
  _stop_event s = false ->
  exists n rest', let s' := steps n tid s in
    loops s' !! tid = Some (AtWait (done ++ rest')) /\ sl_job <$> rest' = sl_job <$> rest /\
    _stop_event s' = false /\
    run_due settings notifier now (view s rest) (s_world s) = (Ok (view s' rest'), s_world s') /\
    forall i, i ∉ sl_job <$> rest -> job_objects s' i = job_objects s i.
Proof.
  revert done s. induction rest as [|e rest IH]; intros done s Hl Hnd He.
  { exists 1%nat, []. cbn. rewrite Hl. cbn. rewrite lookup_insert_eq, app_nil_r. done. }
  rewrite fmap_cons in Hnd. apply NoDup_cons in Hnd as [Hnot Hnd].
  rewrite view_cons. cbn [run_due en_next_due entry_view]. unfold mbind, M_bind.
  destruct (fle (sl_next_due e) now) eqn:Edue.
  - set (s1 := note_started (sl_job e) (put_loop tid (Running now done e rest) s)).
    assert (next tid (Passing now done (e :: rest)) s = s1) as Hn1 by (cbn; by rewrite Edue).
    assert (loops s1 !! tid = Some (Running now done e rest)) as Hl1 by apply put_loop_lookup.
    assert (job_objects s1 = job_objects s /\ s_world s1 = s_world s /\ _stop_event s1 = false)
      as (Hj1 & Hw1 & He1) by done.
    clearbody s1. set (s2 := next tid (Running now done e rest) s1).
    destruct (finish_job_run (sl_job e) s1) as (j & w & Hrun & Hjobs & Hw).
    rewrite Hj1, Hw1 in Hrun. rewrite Hj1 in Hjobs.
    set (e' := rescheduled e (monotonic (w_tick w))).
    assert (loops s2 !! tid = Some (Passing now (done ++ [e']) rest)) as Hl2.
    { unfold s2. cbn. by rewrite lookup_insert_eq, Hw. }
    assert (job_objects s2 = <[sl_job e := j]> (job_objects s)) as Hj2 by done.
    assert (s_world s2 = bump w) as Hw2 by (unfold s2; cbn; by rewrite Hw).
    assert (_stop_event s2 = false) as He2.
    { unfold s2. cbn. by destruct (finish_job_frame' (sl_job e) s1) as [-> _]. }
    assert (forall n, steps (2 + n) tid s = steps n tid s2) as Hn.
    { intros n. simpl plus. rewrite (loop_steps_S _ _ _ _ Hl), Hn1.
      by rewrite (loop_steps_S _ _ _ _ Hl1). }
    clearbody s2.
    destruct (IH (done ++ [e']) s2 Hl2 Hnd He2) as (n & rest' & Hl' & Hids & He' & Hdue & Hsame).
    exists (2 + n)%nat, (e' :: rest').
    cbn zeta. rewrite Hn. cbn. rewrite Hrun. cbn.
    assert (view s2 rest = view s rest) as Hview.
    { apply view_ext. intros i Hi. rewrite Hj2, fn_lookup_insert_ne; [done|]. by intros <-. }
    rewrite <- Hview, <- Hw2. rewrite Hdue. split; [by rewrite Hl', <- app_assoc|].
    split; [by rewrite Hids|]. split; [done|]. split.
    + rewrite view_cons. unfold entry_view at 1. cbn. rewrite Hsame by done.
      by rewrite Hj2, fn_lookup_insert.
    + intros i [Hne Hni]%not_elem_of_cons. rewrite Hsame, Hj2 by done. by rewrite fn_lookup_insert_ne.
  - destruct (IH (done ++ [e]) (put_loop tid (Passing now (done ++ [e]) rest) s))
      as (n & rest' & Hl' & Hids & He' & Hdue & Hsame); [apply put_loop_lookup|done|done|].
    exists (S n), (e :: rest'). cbn zeta. rewrite (loop_steps_S _ _ _ _ Hl). cbn [loop_next].
    rewrite Edue. cbn. rewrite Hl', <- app_assoc. split; [done|]. split; [by rewrite Hids|].
    split; [done|]. cbn in Hdue. rewrite (view_ext s _ rest) in Hdue by done. rewrite Hdue. split.
    + rewrite view_cons. unfold entry_view at 2. by rewrite Hsame.
    + intros i [Hne Hni]%not_elem_of_cons. by apply Hsame.
Qed.

(** [k] passes from the loop's wait. *)
Lemma passes_are_run_passes k es tid s :
  loops s !! tid = Some (AtWait es) -> NoDup (sl_job <$> es) -> _stop_event s = false ->
  exists n es', let s' := steps n tid s in
    loops s' !! tid = Some (AtWait es') /\
    run_passes settings notifier (repeat false k) (view s es) (s_world s) =
      (Ok (view s' es'), s_world s').
Proof.
  revert es s. induction k as [|k IH]; intros es s Hl Hnd He.
  { by exists 0%nat, es. }
  set (s1 := put_loop tid (Blocked es) (set_world (bump (s_world s)) s)).
  set (now := monotonic (w_tick (s_world s1))).
  set (s2 := put_loop tid (Passing now [] es) (set_world (bump (s_world s1)) s1)).
  destruct (pass_is_run_due es now [] tid s2) as (n & es1 & Hl3 & Hids & He3 & Hdue & _);
    [apply put_loop_lookup|done|done|].
  assert (forall m, steps (2 + m) tid s = steps m tid s2) as Hn2.
  { intros m. simpl plus. rewrite (loop_steps_S _ _ _ _ Hl). cbn [loop_next set_world _stop_event].
    rewrite He. by rewrite (loop_steps_S _ tid (Blocked es)) by apply put_loop_lookup. }
  cbn zeta in *. set (s3 := steps n tid s2) in *.
  destruct (IH es1 s3 Hl3) as (m & es' & Hl' & Hrun); [by rewrite Hids|done|].
  exists (2 + (n + m))%nat, es'. cbn zeta. rewrite Hn2, loop_steps_add.
  fold s3. split; [done|]. cbn [run_passes repeat]. unfold mbind, M_bind. cbn.
  rewrite (view_ext s s2 es) in Hdue by done. cbn in Hdue.
  change (monotonic (S (w_tick (s_world s)))) with now. by rewrite Hdue.
Qed.

(** The entries the loop builds are those of [first_entries]. *)
Lemma make_slots_spec jobs schedules i w :
  (forall k s, schedules !! k = Some s -> jobs (i + k)%nat = js_job s) ->
  exists slots w', make_slots i schedules w = (Ok slots, w') /\
    first_entries schedules w = (Ok (entry_view jobs <$> slots), w') /\
    sl_job <$> slots = seq i (length schedules).
Proof.
  revert i w. induction schedules as [|x xs IH]; intros i w Hjobs; [by eexists [], w|].
  destruct (IH (S i) (bump w)) as (slots & w' & Hm & Hf & Hids).
  { intros k s Hk. rewrite <- (Hjobs (S k) s Hk). f_equal. lia. }
  cbn. unfold mbind, M_bind. cbn. rewrite Hm, Hf. eexists _, _. split; [done|]. split.
  - pose proof (Hjobs 0%nat x eq_refl) as Hx. rewrite Nat.add_0_r in Hx.
    cbn. unfold entry_view at 2. cbn. rewrite Hx. by destruct x.
  - cbn. by rewrite Hids.
Qed.

End alone.

(** ** One lifespan *)

Section lifespan.
Context `{E : Env, !NodeRepository, !MetricsRepository, !AlertRepository,
          !RemediationActionRepository}.
Context (settings : CollectorSettings) (notifier : option Notifier).
Context (schedules : list JobSchedule).

Abbreviation alone n s := (loop_steps settings notifier schedules n 0 s).

(** What the first thread's steps leave as it was. *)
Lemma alone_frame n s :
  _thread (alone n s) = _thread s /\ timeouts (alone n s) = timeouts s /\
  _stop_event (alone n s) = _stop_event s /\
  (dom (loops s) ⊆ {[0%nat]} -> dom (loops (alone n s)) ⊆ {[0%nat]}).
Proof.
  revert s. induction n as [|n IH]; intros s; [done|]. simpl.
  destruct (loops s !! 0%nat) as [l|]; [|done].
  destruct (loop_next_frame settings notifier schedules 0 l s)
    as (Ht & _ & _ & Hto & He & Hl).
  destruct (IH (loop_next settings notifier schedules 0 l s)) as (-> & -> & -> & Hd).
  split; [done|]. split; [done|]. split; [done|]. intros Hs. apply Hd.
  destruct Hl as [[l' ->]| ->]; set_solver.
Qed.

(** The application's lifespan with the thread's own steps in between: after the shutdown
    the thread ends by itself, and the join that waits for it finds nothing left over. *)
Lemma lifespan_leaves_no_thread w n :
  exists s1 s2 m,
    lifespan_startup (Some (Scheduler_init schedules w)) = Some s1 /\
    lifespan_shutdown (Some (alone n s1)) = Some s2 /\
    caller s2 = Joining 0 /\
    let s3 := stop_end 0 (alone m s2) in
    loops s3 = ∅ /\ _thread s3 = None /\ timeouts s3 = 0%nat.
Proof.
  set (s1 := scheduler_start (Scheduler_init schedules w)).
  destruct (alone_frame n s1) as (Ht & Hto & _ & Hd).
  assert (dom (loops s1) ⊆ {[0%nat]}) as Hd1 by (cbn; set_solver).
  specialize (Hd Hd1). exists s1. revert Ht Hto Hd.
  change (timeouts s1) with 0%nat. change (_thread s1) with (Some 0%nat).
  generalize (alone n s1) as a. intros a Ht Hto Hd. set (s2 := stop_begin a).
  assert (_stop_event s2 = true /\ caller s2 = Joining 0 /\ timeouts s2 = 0%nat /\
    dom (loops s2) ⊆ {[0%nat]} /\
    forall l, loops s2 !! 0%nat = Some l -> is_blocked l = false) as (He & Hc & Hto2 & Hd2 & Hb).
  { unfold s2, stop_begin. rewrite Ht. cbn. repeat split; [done| |].
    - etrans; [apply dom_filter_subseteq|exact Hd].
    - by intros l [_ ?]%map_lookup_filter_Some. }
  exists s2, (match loops s2 !! 0%nat with Some l => remaining_steps l | None => 0%nat end).
  split; [done|]. split; [done|]. split; [done|].
  destruct (alone_frame (match loops s2 !! 0%nat with Some l => remaining_steps l | None => 0%nat end) s2)
    as (_ & Hto3 & _ & Hd3). specialize (Hd3 Hd2).
  assert (loops (alone (match loops s2 !! 0%nat with Some l => remaining_steps l | None => 0%nat end) s2)
    !! 0%nat = None) as Hgone.
  { destruct (loops s2 !! 0%nat) as [l|] eqn:El; [|done].
    by destruct (loop_stops settings notifier schedules 0 l s2 (remaining_steps l)); auto. }
  cbn. rewrite Hgone. split; [|split; [done|by rewrite Hto3]].
  apply map_eq. intros k. rewrite lookup_empty. destruct (decide (k = 0%nat)) as [->|Hk]; [done|].
  apply not_elem_of_dom. intros Hin. apply Hd3 in Hin. set_solver.
Qed.

End lifespan.

(** ** Properties *)

Section thread_properties.
Context `{E : Env, !NodeRepository, !MetricsRepository, !AlertRepository,
          !RemediationActionRepository}.

(** How many [job.run()] are in progress. *)
Definition in_progress (s : Scheduler) : nat :=
  size (filter (fun kl => loop_running kl.2 = true) (loops s)) +
  match caller s with Sweeping _ _ => 1 | _ => 0 end.

(** C22: the scheduler's threads, under every interleaving of [start], [stop],
    [run_all_once], the loops and the requests served meanwhile: the loops alive are at
    most one more than the joins that timed out.  So without a timed-out [stop] there is
    one loop at most, and no two jobs run at once unless [run_all_once] is called. *)
Theorem scheduler_loops_bounded settings notifier schedules w s :
  sched_reachable settings notifier schedules w s ->
  (size (loops s) <= 1 + timeouts s)%nat /\
  (timeouts s = 0%nat -> (forall job rest, caller s <> Sweeping job rest) ->
   (in_progress s <= 1)%nat).
Proof.
  intros Hr. apply counted_reachable in Hr as [Ha _ _ _].
  assert (current_alive s <= 1)%nat by (unfold current_alive; destruct (is_running s); lia).
  split; [lia|]. intros Ht Hno. unfold in_progress.
  pose proof (size_filter_le (fun kl => loop_running kl.2 = true) (loops s)).
  destruct (caller s) eqn:Ec; [lia..|by destruct (Hno current rest)].
Qed.

(** C35: [stop] ends a loop.  Once the event is set, a loop left to run returns within the
    steps of its current pass, and the jobs it still runs are exactly those of that pass
    that are due and not yet run: all of them, not only the one in progress. *)
Theorem stop_ends_loop settings notifier schedules w s tid l :
  sched_reachable settings notifier schedules w s ->
  _stop_event s = true -> loops s !! tid = Some l ->
  let s' := loop_steps settings notifier schedules (remaining_steps l) tid s in
  loops s' !! tid = None /\ started s' = started s ++ pending_jobs l.
Proof.
  intros Hr He Hl. apply loop_stops; [done|done| |done].
  by eapply (unblocked_reachable settings notifier schedules).
Qed.

(** One loop thread is [_run_loop].  The thread [start] creates, left to run with the
    event clear, passes through [k] rounds of its loop with the same entries, job objects
    and database as the sequential [_run_loop] whose waits time out [k] times. *)
Lemma loop_thread_is_run_loop settings notifier schedules w k :
  schedules <> [] ->
  exists n entries,
    let s := loop_steps settings notifier schedules n 0
               (scheduler_start (Scheduler_init schedules w)) in
    loops s !! 0%nat = Some (AtWait entries) /\
    _run_loop settings notifier (repeat false k) schedules w =
      (Ok (view s entries), s_world s).
Proof.
  intros Hne. set (s0 := scheduler_start (Scheduler_init schedules w)).
  destruct (make_slots_spec (job_objects s0) schedules 0 w) as (slots & w' & Hm & Hf & Hids).
  { intros i x Hx. cbn. by rewrite Hx. }
  set (s1 := put_loop 0 (AtWait slots) (set_world w' s0)).
  assert (forall m, loop_steps settings notifier schedules (1 + m) 0 s0 =
                    loop_steps settings notifier schedules m 0 s1) as Hstart.
  { intros m. simpl plus.
    rewrite (loop_steps_S _ _ _ m 0%nat Starting s0) by apply put_loop_lookup. cbn [loop_next].
    change (s_world s0) with w. rewrite Hm. by destruct schedules. }
  destruct (passes_are_run_passes settings notifier schedules k slots 0 s1)
    as (n & es & Hl & Hrun); [apply put_loop_lookup|rewrite Hids; apply NoDup_seq|done|].
  exists (1 + n)%nat, es. cbn zeta. rewrite Hstart. split; [done|].
  unfold _run_loop. destruct schedules as [|x xs]; [done|]. unfold mbind, M_bind.
  rewrite Hf. exact Hrun.
Qed.

End thread_properties.
