(* ===== verification/Routes.v ===== *)
(** * The API's endpoints ([collector/api/routes/], [collector/api/schemas.py])

    The response models with their constructors, and the body of each endpoint.  Route
    matching, authentication and the mapping of exceptions to responses are in Api.v. *)

From S2P Require Import Prelude PyFloat PyTime Domain Schema Runtime Protocols Tables.
From S2P Require Import Settings NodeRegistry RemediationService Alerting Ingestion.

Local Open Scope Z_scope.

(** ** Response models *)

Record NodeRead := {
  nd_node_id : string;
  nd_first_seen_at : datetime;
  nd_last_seen_at : datetime;
  nd_is_stale : bool;
}.

Definition NodeRead_from_view (view : NodeView) : NodeRead :=
  {| nd_node_id := nv_node_id view;
     nd_first_seen_at := nv_first_seen_at view;
     nd_last_seen_at := nv_last_seen_at view;
     nd_is_stale := nv_is_stale view |}.

Record AlertRead := {
  al_id : Z;
  al_node_id : string;
  al_rule_key : string;
  al_rule_kind : RuleKind;
  al_severity : Severity;
  al_status : AlertStatus;
  al_description : string;
  al_triggering_value : float;
  al_bound : float;
  al_first_fired_at : datetime;
  al_last_fired_at : datetime;
  al_resolved_at : option datetime;
  al_acknowledged_at : option datetime;
  al_acknowledged_by : option string;
  al_escalated_at : option datetime;
  al_remediated_at : option datetime;
}.

Definition AlertRead_from_view (view : AlertView) : AlertRead :=
  {| al_id := av_id view;
     al_node_id := av_node_id view;
     al_rule_key := av_rule_key view;
     al_rule_kind := av_rule_kind view;
     al_severity := av_severity view;
     al_status := av_status view;
     al_description := av_description view;
     al_triggering_value := av_triggering_value view;
     al_bound := av_bound view;
     al_first_fired_at := av_first_fired_at view;
     al_last_fired_at := av_last_fired_at view;
     al_resolved_at := av_resolved_at view;
     al_acknowledged_at := av_acknowledged_at view;
     al_acknowledged_by := av_acknowledged_by view;
     al_escalated_at := av_escalated_at view;
     al_remediated_at := av_remediated_at view |}.

Record AcknowledgeRequest := { acknowledged_by : string }.

Record RemediationActionRead := {
  rd_id : Z;
  rd_node_id : string;
  rd_alert_id : Z;
  rd_rule_key : string;
  rd_playbook_name : string;
  rd_action_type : PlaybookActionType;
  rd_parameters : gmap string string;
  rd_status : RemediationActionStatus;
  rd_reason : option string;
  rd_created_at : datetime;
  rd_completed_at : option datetime;
}.

Definition RemediationActionRead_from_record (record : RemediationActionRecord)
    : RemediationActionRead :=
  {| rd_id := rr_id record;
     rd_node_id := rr_node_id record;
     rd_alert_id := rr_alert_id record;
     rd_rule_key := rr_rule_key record;
     rd_playbook_name := rr_playbook_name record;
     rd_action_type := rr_action_type record;
     rd_parameters := rr_parameters record;
     rd_status := rr_status record;
     rd_reason := rr_reason record;
     rd_created_at := rr_created_at record;
     rd_completed_at := rr_completed_at record |}.

(** ** Endpoints *)

Section routes.
Context `{E : Env, !NodeRepository, !MetricsRepository, !AlertRepository,
          !RemediationActionRepository}.
Context (stale_after_seconds : float) (service : AlertEvaluationService).

(** [routes/metrics.py]; [get_metrics_ingestion_service] always passes the alert service. *)
Definition receive_metrics (payload : NodeMetricsPayload) : M Ack :=
  ingest stale_after_seconds (Some service) payload.

(** The path of its decorator. *)
Definition receive_metrics_path : string := "/api/v1/metrics".

(** [routes/heartbeat.py]. *)
Definition receive_heartbeat (ping : HeartbeatPing) : M Ack :=
  _ ← record_seen stale_after_seconds (hb_node_id ping) (hb_sent_at ping);
  now ← utc_now;
  mret {| ack_accepted := true; ack_received_at := now; ack_message := None;
          ack_pending_actions := [] |}.

(** [routes/nodes.py]. *)
Definition list_nodes : M (list NodeRead) :=
  views ← NodeRegistry.list_nodes stale_after_seconds; mret (NodeRead_from_view <$> views).
Definition get_node (node_id : string) : M NodeRead :=
  view ← NodeRegistry.get_node stale_after_seconds node_id; mret (NodeRead_from_view view).

(** [routes/alerts.py]. *)
Definition list_alerts (status : option AlertStatus) : M (list AlertRead) :=
  views ← list_alert_views status; mret (AlertRead_from_view <$> views).
Definition get_alert (alert_id : Z) : M AlertRead :=
  view ← Alerting.get_alert alert_id; mret (AlertRead_from_view view).
Definition acknowledge_alert (alert_id : Z) (body : AcknowledgeRequest) : M AlertRead :=
  view ← acknowledge alert_id (acknowledged_by body); mret (AlertRead_from_view view).

(** [routes/remediation_actions.py]. *)
Definition list_remediation_actions (node_id : option string) : M (list RemediationActionRead) :=
  records ← list_action_records node_id; mret (RemediationActionRead_from_record <$> records).
Definition get_remediation_action (action_id : Z) : M RemediationActionRead :=
  record ← get_action action_id; mret (RemediationActionRead_from_record record).
Definition report_remediation_action_result (action_id : Z) (body : ActionResult)
    : M RemediationActionRead :=
  record ← report_result action_id body; mret (RemediationActionRead_from_record record).

(** The path of its decorator, [action_id] filled in. *)
Definition report_remediation_action_result_path (action_id : Z) : string :=
  "/api/v1/remediation-actions/" ++ pretty action_id ++ "/result".

(** [routes/health.py]: [session.execute(text("SELECT 1"))]. *)
Definition healthz : M string :=
  _ ← persistence "database health check failed" (sql_select (fun _ => [tt])); mret "ok".

End routes.
