(* ===== verification/Api.v ===== *)
(** * The HTTP boundary ([collector/api/])

    Token authentication, the mapping of exceptions to responses, and the routes.  A
    request is handled by running the service operation of its route in [M]; the
    framework turns whatever it raises into a response, so handling is total.

    Parsing of requests and of the Authorization header is FastAPI's: a request reaches
    the model as a validated value with the bearer credentials it carries, if any. *)

From S2P Require Import Prelude PyFloat PyTime PyStr Domain Schema Runtime Exceptions Protocols.
From S2P Require Import Tables Rules Remediation Notifications Lifecycle Invariants Conformance.
From S2P Require Import Settings NodeRegistry RemediationService Alerting Ingestion Routes.

Local Open Scope Z_scope.

(** ** Exceptions to responses *)

(** [_status_for]. *)
Definition _status_for (e : Exc) : Z :=
  if isinstance e C_AuthenticationError then 401
  else if isinstance e C_NodeNotFoundError || isinstance e C_AlertNotFoundError ||
          isinstance e C_RemediationActionNotFoundError then 404
  else if isinstance e C_AlertAlreadyResolvedError ||
          isinstance e C_RemediationActionNotDispatchedError then 409
  else if isinstance e C_PersistenceError then 503
  else 500.

(** [type(exc).__name__] and [exc.message] of the Collector's exceptions. *)
Definition exc_name (e : Exc) : string :=
  match e with
  | AuthenticationError => "AuthenticationError"
  | NodeNotFoundError _ => "NodeNotFoundError"
  | AlertNotFoundError _ => "AlertNotFoundError"
  | RemediationActionNotFoundError _ => "RemediationActionNotFoundError"
  | AlertAlreadyResolvedError _ => "AlertAlreadyResolvedError"
  | RemediationActionNotDispatchedError _ _ => "RemediationActionNotDispatchedError"
  | PersistenceError _ => "PersistenceError"
  | ConfigurationError _ => "ConfigurationError"
  | RemediationSafetyError _ => "RemediationSafetyError"
  | RetryableTransportError _ => "RetryableTransportError"
  | FatalTransportError _ => "FatalTransportError"
  | SQLAlchemyError | ValueError _ | OverflowError | OSError _ | OtherException _ =>
      "InternalServerError"
  end.

Definition exc_message (e : Exc) : string :=
  match e with
  | AuthenticationError => "missing or invalid API token"
  | NodeNotFoundError id => "node " ++ repr id ++ " is not registered"
  | AlertNotFoundError id => "alert " ++ pretty id ++ " does not exist"
  | RemediationActionNotFoundError id => "remediation action " ++ pretty id ++ " does not exist"
  | AlertAlreadyResolvedError id => "alert " ++ pretty id ++ " is already resolved"
  | RemediationActionNotDispatchedError id st => "remediation action " ++ pretty id ++
      " is not awaiting a result (status=" ++ repr (RemediationActionStatus_value st) ++ ")"
  | PersistenceError m | ConfigurationError m | RemediationSafetyError m
  | RetryableTransportError m | FatalTransportError m => m
  | SQLAlchemyError | ValueError _ | OverflowError | OSError _ | OtherException _ =>
      "an unexpected error occurred"
  end.

(** ** Requests and responses *)

Inductive Request :=
| ReceiveMetrics (payload : NodeMetricsPayload)
| ReceiveHeartbeat (ping : HeartbeatPing)
| ListNodes
| GetNode (node_id : string)
| ListAlerts (status : option AlertStatus)
| GetAlert (alert_id : Z)
| AcknowledgeAlert (alert_id : Z) (body : AcknowledgeRequest)
| ListActions (node_id : option string)
| GetAction (action_id : Z)
| ReportResult (action_id : Z) (body : ActionResult)
| Healthz.

Inductive Body :=
| BAck (ack : Ack)
| BNodes (nodes : list NodeRead)
| BNode (node : NodeRead)
| BAlerts (alerts : list AlertRead)
| BAlert (alert : AlertRead)
| BActions (actions : list RemediationActionRead)
| BAction (action : RemediationActionRead)
| BStatus (status : string)
| BError (error message : string).

Record Response := { rs_status : Z; rs_body : Body }.

(** The two exception handlers. *)
Definition error_response (e : Exc) : Response :=
  if isinstance e C_ClusterPulseError
  then {| rs_status := _status_for e; rs_body := BError (exc_name e) (exc_message e) |}
  else {| rs_status := 500; rs_body := BError "InternalServerError" "an unexpected error occurred" |}.

(** ** Authentication *)

Definition is_ascii (s : string) : bool :=
  forallb (fun c => (Ascii.N_of_ascii c <? 128)%N) (String.list_ascii_of_string s).

(** [hmac.compare_digest] on two [str]: a [TypeError] unless both are ASCII. *)
Definition compare_digest (a b : string) : Res bool :=
  if is_ascii a && is_ascii b then Ok (bool_decide (a = b))
  else Raise (OtherException "TypeError: comparing strings with non-ASCII characters is not supported").

(** [any(compare_digest(presented, token) for token in tokens)]. *)
Fixpoint any_match (presented : string) (tokens : list string) : Res bool :=
  match tokens with
  | [] => Ok false
  | token :: rest =>
      match compare_digest presented token with
      | Raise e => Raise e
      | Ok true => Ok true
      | Ok false => any_match presented rest
      end
  end.

(** [verify_api_token]; [tokens] lists the token set in its iteration order. *)
Definition verify_api_token (tokens : list string) (credentials : option string) : Res unit :=
  match tokens with
  | [] => Ok tt
  | _ =>
      match any_match (default EmptyString credentials) tokens with
      | Raise e => Raise e
      | Ok true => Ok tt
      | Ok false => Raise AuthenticationError
      end
  end.

Section api.
Context `{E : Env, !NodeRepository, !MetricsRepository, !AlertRepository,
          !RemediationActionRepository}.
Context (settings : CollectorSettings) (service : AlertEvaluationService) (tokens : list string).

(** The endpoint of each route. *)
Definition route (request : Request) : M Body :=
  let stale_after := heartbeat_stale_after_seconds settings in
  match request with
  | ReceiveMetrics payload => BAck <$> receive_metrics stale_after service payload
  | ReceiveHeartbeat ping => BAck <$> receive_heartbeat stale_after ping
  | ListNodes => BNodes <$> list_nodes stale_after
  | GetNode node_id => BNode <$> get_node stale_after node_id
  | ListAlerts status => BAlerts <$> list_alerts status
  | GetAlert alert_id => BAlert <$> get_alert alert_id
  | AcknowledgeAlert alert_id body => BAlert <$> acknowledge_alert alert_id body
  | ListActions node_id => BActions <$> list_remediation_actions node_id
  | GetAction action_id => BAction <$> get_remediation_action action_id
  | ReportResult action_id body => BAction <$> report_remediation_action_result action_id body
  | Healthz => BStatus <$> healthz
  end.

(** Every router but the health check depends on [verify_api_token]. *)
Definition authenticate (request : Request) (credentials : option string) : Res unit :=
  match request with Healthz => Ok tt | _ => verify_api_token tokens credentials end.

Definition handle (credentials : option string) (request : Request) : M Response :=
  m_try (_ ← lift (authenticate request credentials);
         body ← route request;
         mret {| rs_status := 200; rs_body := body |})
    (fun e => mret (error_response e)).

End api.

(** ** Handling a request *)

Section api_specs.
Context `{E : Env, !NodeRepository, !MetricsRepository, !AlertRepository,
          !RemediationActionRepository}.
Context (settings : CollectorSettings) (service : AlertEvaluationService) (tokens : list string).

Lemma conforms_fmap {A B} c (f : A -> B) (m : M A) : conforms c m -> conforms c (f <$> m).
Proof. intros Hm. apply conforms_bind; [done|]. intros a. apply conforms_ret. Qed.

Lemma utc_now_conforms c : conforms c utc_now.
Proof. by apply conforms_same. Qed.

Lemma node_to_view_conforms c x r : conforms c (node_to_view x r).
Proof. apply conforms_bind; [apply utc_now_conforms|]. intros t. apply conforms_ret. Qed.

Lemma views_conforms c x l : conforms c (views x l).
Proof.
  induction l as [|r l IH]; simpl; [apply conforms_ret|].
  apply conforms_bind; [apply node_to_view_conforms|]. intros v.
  apply conforms_bind; [done|]. intros vs. apply conforms_ret.
Qed.

Lemma conforms_read_match {A B} c (m : M (option A)) P (k : A -> M B) e :
  reads m P -> (forall a, conforms c (k a)) ->
  conforms c (m ≫= fun o => match o with None => raise e | Some a => k a end).
Proof.
  intros Hm Hk. apply conforms_bind; [by eapply conforms_reads|].
  intros [a|]; [apply Hk|apply conforms_raise].
Qed.

Lemma route_conforms request :
  conforms (lifecycle_config service) (route settings service request).
Proof.
  destruct request; simpl; apply conforms_fmap;
    unfold receive_metrics, receive_heartbeat, list_nodes, get_node, list_alerts, get_alert,
      acknowledge_alert, list_remediation_actions, get_remediation_action,
      report_remediation_action_result;
    try (apply conforms_bind; [|intros; apply conforms_ret]).
  - apply (ingest_conforms _ (Some service)).
  - apply conforms_bind; [apply record_seen_conforms|]. intros v.
    apply conforms_bind; [apply utc_now_conforms|]. intros t. apply conforms_ret.
  - apply conforms_bind; [eapply conforms_reads, list_all_reads|]. intros l. apply views_conforms.
  - eapply conforms_read_match; [apply node_get_reads|]. intros r. apply node_to_view_conforms.
  - apply conforms_bind; [eapply conforms_reads, list_alerts_reads|]. intros l. apply conforms_ret.
  - eapply conforms_read_match; [apply alert_get_reads|]. intros r. apply conforms_ret.
  - apply acknowledge_conforms.
  - eapply conforms_reads, list_actions_reads.
  - eapply conforms_read_match; [apply action_get_reads|]. intros r. apply conforms_ret.
  - apply report_result_conforms.
  - eapply conforms_reads, select_reads.
Qed.

Lemma handle_conforms credentials request :
  conforms (lifecycle_config service) (handle settings service tokens credentials request).
Proof.
  apply conforms_try; [|intros e; apply conforms_ret].
  apply conforms_bind; [apply conforms_lift|]. intros _.
  apply conforms_bind; [apply route_conforms|]. intros b. apply conforms_ret.
Qed.

(** Handling always ends in a response, and touches nothing when authentication fails. *)
Lemma handle_spec credentials request w :
  wp (handle settings service tokens credentials request) (fun r w' =>
    match authenticate tokens request credentials with
    | Raise e => r = Ok (error_response e) /\ w' = w
    | Ok _ =>
        let '(res, w1) := route settings service request w in
        w' = w1 /\ r = Ok (match res with
                           | Ok body => {| rs_status := 200; rs_body := body |}
                           | Raise e => error_response e
                           end)
    end) w.
Proof.
  unfold handle. apply wp_try, wp_bind, wp_lift.
  destruct (authenticate _ _ _) as [u|e]; [|by apply wp_ret].
  apply wp_bind. apply wp_intro. intros res w1 Hr. rewrite Hr.
  by destruct res as [b|e]; apply wp_ret.
Qed.

End api_specs.

(** ** Who may enter *)

Lemma any_match_ascii presented tokens :
  is_ascii presented = true -> Forall (fun t => is_ascii t = true) tokens ->
  any_match presented tokens = Ok (bool_decide (presented ∈ tokens)).
Proof.
  intros Hp. induction 1 as [|t l Ht Hl IH]; simpl; [done|].
  unfold compare_digest. rewrite Hp, Ht. cbn [andb].
  destruct (decide (presented = t)) as [->|Hne].
  - rewrite bool_decide_true by done. by rewrite bool_decide_true by left.
  - rewrite bool_decide_false, IH by done. f_equal. apply bool_decide_ext. rewrite elem_of_cons. naive_solver.
Qed.

(** ** Properties *)

(** C36: with ASCII tokens and credentials, a request enters exactly when no token is configured
    or it presents a configured one; otherwise it is refused with 401. Credentials outside
    ASCII make [compare_digest] raise, when there is a token to compare with: the caller gets
    a 500 instead of the 401 of a wrong token. *)
Theorem verify_api_token_spec tokens credentials :
  let presented := default EmptyString credentials in
  (Forall (fun t => is_ascii t = true) (presented :: tokens) ->
   verify_api_token tokens credentials =
     if bool_decide (tokens = [] \/ presented ∈ tokens) then Ok tt
     else Raise AuthenticationError) /\
  (is_ascii presented = false -> tokens <> [] ->
   exists e, verify_api_token tokens credentials = Raise e /\
     rs_status (error_response e) = 500 /\ e <> AuthenticationError).
Proof.
  intros presented. unfold verify_api_token. fold presented. split.
  - intros [Hp Ht]%Forall_cons.
    destruct tokens as [|t tokens]; [done|]. rewrite any_match_ascii by done.
    destruct (decide (presented ∈ t :: tokens)) as [Hin|Hno].
    + rewrite !bool_decide_true by auto. done.
    + rewrite !bool_decide_false; [done| |done]. by intros [?|?].
  - intros Hc Hne. destruct tokens as [|t tokens]; [done|].
    unfold any_match, compare_digest. rewrite Hc. simpl. by eexists.
Qed.
