(* ===== verification/Deps.v ===== *)
(** * The providers of a request ([collector/api/deps.py])

    What each route depends on, and what each provider depends on, as the [Depends] defaults
    of their parameters say ([HTTPBearer], on which [verify_api_token] depends too, is
    FastAPI's own).  FastAPI runs the providers of a request, each of them once, a
    provider after those it depends on; which order it takes otherwise is left open. *)

From S2P Require Import Prelude Api.

Inductive Provider :=
| P_settings
| P_rules_config
| P_remediation_policy
| P_notifier
| P_db_session
| P_verify_api_token
| P_node_repository
| P_metrics_repository
| P_alert_repository
| P_remediation_action_repository
| P_node_registry_service
| P_rule_engine
| P_remediation_engine
| P_alert_evaluation_service
| P_remediation_action_service
| P_metrics_ingestion_service.

#[export] Instance Provider_eq_dec : EqDecision Provider.
Proof. solve_decision. Defined.

(** The parameters with a [Depends] default, in their order. *)
Definition depends_on (p : Provider) : list Provider :=
  match p with
  | P_settings | P_rules_config | P_remediation_policy | P_notifier | P_db_session => []
  | P_verify_api_token => [P_settings]
  | P_node_repository | P_metrics_repository | P_alert_repository
  | P_remediation_action_repository => [P_db_session]
  | P_node_registry_service => [P_node_repository; P_settings]
  | P_rule_engine => [P_rules_config; P_metrics_repository]
  | P_remediation_engine => [P_remediation_policy; P_remediation_action_repository; P_settings]
  | P_alert_evaluation_service =>
      [P_rule_engine; P_alert_repository; P_notifier; P_settings; P_remediation_engine]
  | P_remediation_action_service => [P_remediation_action_repository]
  | P_metrics_ingestion_service =>
      [P_metrics_repository; P_node_registry_service; P_alert_evaluation_service]
  end.

(** The parameter of the route's function. *)
Definition endpoint_parameter (request : Request) : Provider :=
  match request with
  | ReceiveMetrics _ => P_metrics_ingestion_service
  | ReceiveHeartbeat _ | ListNodes | GetNode _ => P_node_registry_service
  | ListAlerts _ | GetAlert _ | AcknowledgeAlert _ _ => P_alert_evaluation_service
  | ListActions _ | GetAction _ | ReportResult _ _ => P_remediation_action_service
  | Healthz => P_db_session
  end.

(** [APIRouter(dependencies=...)] of the route's module. *)
Definition router_dependencies (request : Request) : list Provider :=
  match request with Healthz => [] | _ => [P_verify_api_token] end.

Definition route_depends_on (request : Request) : list Provider :=
  router_dependencies request ++ [endpoint_parameter request].

(** Everything the providers [ps] need, a provider after what it depends on; no chain of
    dependencies is longer than five. *)
Fixpoint flatten (depth : nat) (ps : list Provider) : list Provider :=
  match depth with
  | O => ps
  | S depth => ps ≫= fun p => flatten depth (depends_on p) ++ [p]
  end.

Definition needed (request : Request) : list Provider := flatten 5 (route_depends_on request).

(** Nothing is missing: what is needed is closed under [depends_on]. *)
Lemma needed_closed request :
  route_depends_on request ⊆ needed request /\
  Forall (fun p => depends_on p ⊆ needed request) (needed request).
Proof. destruct request; split; apply (bool_decide_unpack _); by vm_compute. Qed.

(** An order in which FastAPI may run the providers of a request: each that is needed, once
    (its value is kept for the request), after those it depends on. *)
Fixpoint well_ordered (seen order : list Provider) : bool :=
  match order with
  | [] => true
  | p :: rest =>
      bool_decide (p ∉ seen) && bool_decide (depends_on p ⊆ seen) && well_ordered (p :: seen) rest
  end.

Definition resolution (request : Request) (order : list Provider) : Prop :=
  well_ordered [] order = true /\ order ⊆ needed request /\ needed request ⊆ order.

(** Depth first, in the order of the parameters. *)
Definition depth_first (request : Request) : list Provider :=
  foldl (fun order p => if bool_decide (p ∈ order) then order else order ++ [p]) [] (needed request).

Lemma depth_first_resolution request : resolution request (depth_first request).
Proof.
  destruct request; (split; [by vm_compute|split; apply (bool_decide_unpack _); by vm_compute]).
Qed.

(** ** What every resolution has in common *)

Lemma resolution_authenticates request order :
  resolution request order -> P_verify_api_token ∈ order <-> request <> Healthz.
Proof.
  intros (_ & Hsub & Hsup). split.
  - intros Hin%Hsub ->. revert Hin. apply (bool_decide_unpack (_ ∉ _)). by vm_compute.
  - intros Hne. apply Hsup. destruct request; try done; apply (bool_decide_unpack _); by vm_compute.
Qed.

(** Every route works on the database. *)
Lemma resolution_session request order : resolution request order -> P_db_session ∈ order.
Proof.
  intros (_ & _ & Hsup). apply Hsup. destruct request; apply (bool_decide_unpack _); by vm_compute.
Qed.

Lemma well_ordered_unseen seen order p :
  well_ordered seen order = true -> p ∈ seen -> p ∉ order.
Proof.
  revert seen. induction order as [|q rest IH]; intros seen Hw Hp; [apply not_elem_of_nil|].
  simpl in Hw. bool_props. apply not_elem_of_cons. split; [congruence|].
  eapply IH; [done|]. by right.
Qed.

Lemma well_ordered_nodup seen order : well_ordered seen order = true -> NoDup order.
Proof.
  revert seen. induction order as [|q rest IH]; intros seen Hw; [constructor|].
  simpl in Hw. bool_props. constructor; [|by eapply IH]. eapply well_ordered_unseen; [done|left].
Qed.

(** ** One session per request *)

(** The sessions an object works on: those of the objects it was built from. *)
Fixpoint provide (session : nat) (order : list Provider) (env : Provider -> gset nat)
    : Provider -> gset nat :=
  match order with
  | [] => env
  | p :: rest =>
      let built := match p with
                   | P_db_session => {[session]}
                   | _ => union_list (env <$> depends_on p)
                   end in
      provide session rest (fun q => if decide (q = p) then built else env q)
  end.

Definition uses_session (p : Provider) : bool := bool_decide (P_db_session ∈ flatten 5 [p]).

Definition works_on (session : nat) (p : Provider) : gset nat :=
  if uses_session p then {[session]} else ∅.

Lemma built_works_on session p :
  p <> P_db_session -> union_list (works_on session <$> depends_on p) = works_on session p.
Proof. intros Hp. destruct p; try done; unfold works_on; simpl; cbn; set_solver. Qed.

Lemma provide_spec session order seen env :
  well_ordered seen order = true -> (forall p, p ∈ seen -> env p = works_on session p) ->
  forall p, p ∈ seen \/ p ∈ order -> provide session order env p = works_on session p.
Proof.
  revert seen env. induction order as [|q rest IH]; intros seen env Hw Henv p Hp; simpl.
  { destruct Hp as [?|[]%not_elem_of_nil]; auto. }
  simpl in Hw. bool_props. apply (IH (q :: seen)); [done| |].
  - intros r Hr. destruct (decide (r = q)) as [->|Hne].
    + assert (union_list (env <$> depends_on q) = union_list (works_on session <$> depends_on q)) as Hu.
      { f_equal. apply list_fmap_ext. intros i d Hd%list_elem_of_lookup_2. auto. }
      rewrite Hu. destruct (decide (q = P_db_session)) as [->|Hq]; [done|].
      rewrite built_works_on by done. by destruct q.
    + apply elem_of_cons in Hr as [?|?]; [done|auto].
  - rewrite elem_of_cons. destruct Hp as [?|[->|?]%elem_of_cons]; auto.
Qed.

(** The service an endpoint is given works on the one session of its request, whatever
    repositories it was built from. *)
Lemma one_session_per_request request order session :
  resolution request order ->
  provide session order (fun _ => ∅) (endpoint_parameter request) = {[session]}.
Proof.
  intros (Hw & _ & Hsup). rewrite (provide_spec session order [] (fun _ => ∅) Hw).
  - by destruct request.
  - by intros p ?%elem_of_nil.
  - right. apply Hsup. apply needed_closed. unfold route_depends_on. apply elem_of_app. right. left.
Qed.
