(* ===== verification/Frames.v ===== *)
(** * What the Collector's operations leave alone

    A relation between the worlds before and after that every repository call keeps is kept
    by every service operation, request and job.  [framed] composes such facts through the
    monad; the classes say what is asked of the repositories. *)

From S2P Require Import Prelude PyFloat PyTime PyStr Domain Schema Runtime Protocols Tables.
From S2P Require Import Rules Remediation Notifications Lifecycle Settings NodeRegistry.
From S2P Require Import RemediationService Alerting Ingestion Reconciliation Staleness.
From S2P Require Import Retention JobScheduler Routes Api.

Local Open Scope Z_scope.

Create HintDb frames.

(** ** Through the monad *)

Section frames.
Context `{E : Env} (R : World -> World -> Prop) `{!PreOrder R}.

Definition framed {A} (m : M A) : Prop := forall w, R w (snd (m w)).

Lemma framed_ret {A} (a : A) : framed (mret a).
Proof. intros w. simpl. reflexivity. Qed.

Lemma framed_raise {A} e : framed (raise (A:=A) e).
Proof. intros w. simpl. reflexivity. Qed.

Lemma framed_lift {A} (r : Res A) : framed (lift r).
Proof. intros w. simpl. reflexivity. Qed.

Lemma framed_bind {A B} (m : M A) (k : A -> M B) :
  framed m -> (forall a, framed (k a)) -> framed (m ≫= k).
Proof.
  intros Hm Hk w. unfold mbind, M_bind. specialize (Hm w).
  destruct (m w) as [[a|e] w1]; [|done]. etrans; [exact Hm|apply Hk].
Qed.

(** The rest is run on what [m] returned. *)
Lemma framed_bind_on {A B} (m : M A) (k : A -> M B) :
  framed m -> (forall a w w', m w = (Ok a, w') -> framed (k a)) -> framed (m ≫= k).
Proof.
  intros Hm Hk w. unfold mbind, M_bind. specialize (Hm w).
  destruct (m w) as [[a|e] w1] eqn:Em; [|done]. etrans; [exact Hm|by eapply Hk].
Qed.

Lemma framed_fmap {A B} (f : A -> B) (m : M A) : framed m -> framed (f <$> m).
Proof. intros Hm. apply framed_bind; [done|]. intros a. apply framed_ret. Qed.

Lemma framed_try {A} (m : M A) h : framed m -> (forall e, framed (h e)) -> framed (m_try m h).
Proof.
  intros Hm Hh w. unfold m_try. specialize (Hm w).
  destruct (m w) as [[a|e] w1]; [done|]. etrans; [exact Hm|apply Hh].
Qed.

Lemma framed_fold {A B} (f : B -> A -> M B) l b :
  (forall b x, framed (f b x)) -> framed (m_fold f b l).
Proof.
  intros Hf. revert b. induction l as [|x l IH]; intros b; [apply framed_ret|].
  by apply framed_bind.
Qed.

Lemma framed_persistence {A} message (m : M A) : framed m -> framed (persistence message m).
Proof.
  intros Hm. apply framed_try; [done|]. intros e. destruct e; apply framed_raise.
Qed.

End frames.

(** A relation between databases, and what the contracts of reads and writes make of it. *)
Definition on_db (Q : Db -> Db -> Prop) (w w' : World) : Prop := Q (w_db w) (w_db w').

#[export] Instance on_db_preorder Q : PreOrder Q -> PreOrder (on_db Q).
Proof.
  intros HQ. unfold on_db. split; [by intros w|]. intros w1 w2 w3 H1 H2. by etrans.
Qed.

Lemma framed_reads `{E : Env} Q {A} (m : M A) P : PreOrder Q -> reads m P -> framed (on_db Q) m.
Proof. intros HQ Hm w. destruct (Hm w) as [[Hdb _] _]. unfold on_db. by rewrite Hdb. Qed.

Lemma framed_writes `{E : Env} Q {A} (m : M A) pre P :
  PreOrder Q -> writes m pre P -> (forall db a db', P db a db' -> Q db db') ->
  framed (on_db Q) m.
Proof.
  intros HQ Hm HP w. destruct (Hm w) as [_ Hr]. unfold on_db.
  destruct (m w) as [[a|e] w']; simpl in *; [by eapply HP|]. by destruct Hr as (_ & -> & _).
Qed.

#[export] Hint Resolve framed_ret framed_raise framed_lift framed_fmap framed_persistence : frames.

#[export] Hint Extern 0 (PreOrder _) => apply _ : frames.

(** One layer of a monadic program. *)
Ltac frame_step :=
  cbv beta iota;
  lazymatch goal with
  | |- framed _ (mbind _ _) => apply framed_bind; [apply _| |intros ?]
  | |- framed _ (m_try _ _) => apply framed_try; [apply _| |intros ?]
  | |- framed _ (m_fold _ _ _) => apply framed_fold; [apply _|intros ? ?]
  | |- framed _ _ => case_match
  end.
Ltac framing := repeat first [ solve [eauto with frames] | frame_step ].

(** ** What is asked of the repositories *)

Section repositories.
Context `{E : Env, !NodeRepository, !MetricsRepository, !AlertRepository,
          !RemediationActionRepository}.
Context (R : World -> World -> Prop).

(** The jobs' calls; [cut]: the cutoffs samples may be pruned at. *)
Class FramedJobs (cut : datetime -> Prop) : Prop := {
  fr_bump : forall w, R w (bump w);
  fr_prune_terminal : forall cutoff n, framed R (prune_terminal_before cutoff n);
  fr_prune_resolved : forall cutoff n, framed R (prune_resolved_before cutoff n);
  fr_prune_samples : forall cutoff n, cut cutoff -> framed R (prune_samples_before cutoff n);
  fr_list_dispatched : forall cutoff, framed R (list_dispatched_before cutoff);
  fr_mark_result : forall id status reason t, framed R (mark_result id status reason t);
}.

(** The other calls; [admits]: the nodes that may be seen. *)
Class FramedCalls (cut : datetime -> Prop) (admits : string -> Prop) : Prop := {
  fr_jobs :: FramedJobs cut;
  fr_notify : forall (n : Notifier) message, framed R (notify n message);
  fr_select : forall A (q : Db -> list A), framed R (sql_select q);
  fr_upsert_seen : forall n t, admits n -> framed R (upsert_seen n t);
  fr_node_get : forall n, framed R (node_get n);
  fr_list_all : framed R list_all;
  fr_bulk_insert : forall n samples t t', framed R (bulk_insert n samples t t');
  fr_find_previous : forall n m t x, framed R (find_previous_sample n m t x);
  fr_find_open : forall n key, framed R (find_open_alert n key);
  fr_create_alert : forall n key kind sev desc v b t,
    framed R (create_alert n key kind sev desc v b t);
  fr_update_last_fired : forall id v t, framed R (update_last_fired id v t);
  fr_resolve : forall id t, framed R (resolve_alert id t);
  fr_acknowledge : forall id by_ t, framed R (Protocols.acknowledge_alert id by_ t);
  fr_escalate : forall id t, framed R (escalate_alert id t);
  fr_mark_remediated : forall id t, framed R (mark_remediated id t);
  fr_alert_get : forall id, framed R (alert_get id);
  fr_list_alerts : forall status, framed R (Protocols.list_alerts status);
  fr_create_action : forall n id key p type_ params status reason t,
    framed R (create_action n id key p type_ params status reason t);
  fr_count_recent : forall n since, framed R (count_recent_actions n since);
  fr_find_last : forall n p, framed R (find_last_action n p);
  fr_action_get : forall id, framed R (action_get id);
  fr_list_actions : forall n, framed R (list_actions n);
}.

End repositories.

#[export] Hint Resolve fr_prune_terminal fr_prune_resolved fr_prune_samples fr_list_dispatched
  fr_mark_result fr_notify fr_select fr_node_get fr_list_all fr_bulk_insert fr_find_previous
  fr_find_open fr_create_alert fr_update_last_fired fr_resolve fr_acknowledge fr_escalate
  fr_mark_remediated fr_alert_get fr_list_alerts fr_create_action fr_count_recent fr_find_last
  fr_action_get fr_list_actions fr_jobs : frames.

(** ** The operations *)

Section operations.
Context `{E : Env, !NodeRepository, !MetricsRepository, !AlertRepository,
          !RemediationActionRepository}.
Context (R : World -> World -> Prop) `{!PreOrder R}.

(** The cutoffs at which the retention job prunes samples. *)
Definition sample_cutoff (settings : CollectorSettings) (cutoff : datetime) : Prop :=
  exists k w w', days_before (clock k) (metrics_retention_days settings) w = (Ok cutoff, w').

Section jobs.
Context (cut : datetime -> Prop) `{!FramedJobs R cut}.

Lemma framed_utc_now : framed R utc_now.
Proof. intros w. exact (fr_bump R w). Qed.

Lemma framed_monotonic_now : framed R monotonic_now.
Proof. intros w. exact (fr_bump R w). Qed.

#[local] Hint Resolve framed_utc_now framed_monotonic_now : frames.

Lemma framed_drain prune cutoff n :
  framed R (prune cutoff n) -> framed R (_drain prune cutoff n).
Proof.
  intros Hp w. unfold _drain. generalize (drain_fuel (w_db w)). intros fuel. revert w.
  assert (forall total, framed R (drain_loop fuel prune cutoff n total)) as Hl.
  { induction fuel as [|fuel IH]; intros total; simpl; framing. }
  unfold drain_with. change (framed R (drain_loop fuel prune cutoff n 0 ≫= fun total =>
    match total with Some total => mret total | None => raise (OtherException "out of fuel") end)).
  framing.
Qed.

#[local] Hint Resolve framed_drain : frames.
#[local] Arguments _drain : simpl never.

Lemma framed_retention settings :
  (forall cutoff, sample_cutoff settings cutoff -> cut cutoff) -> framed R (retention_run settings).
Proof.
  intros Hcut. unfold retention_run.
  assert (forall now d, framed R (days_before now d)) as Hd by (intros; unfold days_before; framing).
  apply framed_bind_on; [done|apply framed_utc_now|]. intros now w w' Hnow.
  unfold utc_now in Hnow. injection Hnow as <- _.
  apply framed_bind; [done|apply Hd|intros c1]. apply framed_bind; [done|framing|intros n1].
  apply framed_bind; [done|apply Hd|intros c2]. apply framed_bind; [done|framing|intros n2].
  apply framed_bind_on; [done|apply Hd|]. intros c3 w3 w3' Hc3.
  apply framed_bind; [done| |intros n3; apply framed_ret, _].
  apply framed_drain. eapply fr_prune_samples; [apply _|]. apply Hcut. by exists (w_tick w), w3, w3'.
Qed.

Lemma framed_reconciliation timeout : framed R (reconciliation_run timeout).
Proof. unfold reconciliation_run, time_out. framing. Qed.

End jobs.

Section calls.
Context (cut : datetime -> Prop) (admits : string -> Prop) `{!FramedCalls R cut admits}.

#[local] Hint Resolve framed_utc_now framed_monotonic_now framed_retention framed_reconciliation : frames.

Lemma framed_notify notifier message : framed R (_notify notifier message).
Proof. unfold _notify. framing. Qed.

#[local] Hint Resolve framed_notify : frames.

Lemma framed_record_seen x n t : admits n -> framed R (record_seen x n t).
Proof. intros Hn. unfold record_seen, node_to_view. framing. by eapply fr_upsert_seen. Qed.

Lemma framed_views x l : framed R (views x l).
Proof. induction l as [|r l IH]; simpl; unfold node_to_view; framing. Qed.

Lemma framed_evaluate e n samples t : framed R (evaluate e n samples t).
Proof. unfold evaluate, evaluate_sample, _evaluate_rate_of_change. framing. Qed.

Lemma framed_decide e n id key t : framed R (Remediation.decide e n id key t).
Proof. unfold Remediation.decide, _check_safety_limits, check_rate_limit. framing. Qed.

#[local] Hint Resolve framed_views framed_evaluate framed_decide : frames.

Lemma framed_apply s n result t : framed R (_apply s n result t).
Proof.
  unfold _apply, _open_or_advance, _open, _resolve, _maybe_escalate, _maybe_remediate. framing.
Qed.

#[local] Hint Resolve framed_apply : frames.

Lemma framed_ingest x service payload :
  admits (np_node_id payload) -> framed R (ingest x service payload).
Proof.
  intros Hn. unfold ingest, _evaluate_rules_best_effort, evaluate_and_apply, apply_result.
  framing. by apply framed_record_seen.
Qed.

Lemma framed_staleness x notifier first : framed R (staleness_run x notifier first).
Proof. unfold staleness_run, sweep_node, silent_description. framing. Qed.

#[local] Hint Resolve framed_staleness : frames.

Section scheduled.
Context (settings : CollectorSettings).
Context (Hcut : forall cutoff, sample_cutoff settings cutoff -> cut cutoff).

Lemma framed_job notifier job : framed R (run_job settings notifier job).
Proof. destruct job; simpl; framing. Qed.

#[local] Hint Resolve framed_job : frames.

Lemma framed_due notifier now entries : framed R (run_due settings notifier now entries).
Proof. induction entries as [|e rest IH]; simpl; unfold _run_contained; framing. Qed.

Lemma framed_once notifier schedules : framed R (run_all_once settings notifier schedules).
Proof. induction schedules as [|s rest IH]; simpl; unfold _run_contained; framing. Qed.

Lemma framed_passes notifier stops entries :
  framed R (run_passes settings notifier stops entries).
Proof.
  revert entries. induction stops as [|stop stops IH]; intros entries; simpl; framing.
  apply framed_due.
Qed.

End scheduled.

Lemma framed_first_entries schedules : framed R (first_entries schedules).
Proof. induction schedules as [|s rest IH]; simpl; framing. Qed.

(** The node a request tells the Collector is alive. *)
Definition sender (request : Request) : option string :=
  match request with
  | ReceiveMetrics payload => Some (np_node_id payload)
  | ReceiveHeartbeat ping => Some (hb_node_id ping)
  | _ => None
  end.

Lemma framed_handle settings service tokens credentials request :
  (forall n, sender request = Some n -> admits n) ->
  framed R (handle settings service tokens credentials request).
Proof.
  intros Hs. apply framed_try; [done| |intros e; apply framed_ret, _].
  apply framed_bind; [done|apply framed_lift, _|]. intros _.
  apply framed_bind; [done| |intros b; apply framed_ret, _].
  destruct request; simpl; apply framed_fmap; try done;
    unfold receive_metrics, receive_heartbeat, list_nodes, get_node, Routes.list_alerts,
      get_alert, acknowledge_alert, list_remediation_actions, get_remediation_action,
      report_remediation_action_result, NodeRegistry.list_nodes, NodeRegistry.get_node,
      list_alert_views, acknowledge, Alerting.get_alert, list_action_records, report_result,
      get_action, node_to_view, healthz; framing.
  - by apply framed_ingest, Hs.
  - by apply framed_record_seen, Hs.
Qed.

End calls.
End operations.
