(* ===== verification/Sessions.v ===== *)
(** * Database sessions ([collector/db/session.py], [get_db_session] of [collector/api/deps.py])

    Every repository works on a SQLAlchemy session, a handle on a pooled connection: a
    request has one from [get_db_session], a run of a job one from the session factory.  The
    other files leave sessions out, as no result depends on them; here the same requests and
    runs are modelled with them, to show that each session opened is closed, whatever the
    code in between raises. *)

From S2P Require Import Prelude PyFloat PyTime Domain Schema Runtime Protocols Tables.
From S2P Require Import Rules Remediation Notifications Lifecycle Settings.
From S2P Require Import RemediationService Alerting Ingestion Reconciliation Staleness.
From S2P Require Import Retention JobScheduler Routes Api Deps.

Local Open Scope Z_scope.

(** ** Sessions and programs that use them *)

(** The sessions that hold a connection, by number, and the next number. *)
Record Sessions := { ss_next : nat; ss_open : gset nat }.

Definition SM (A : Type) : Type := World * Sessions -> Res A * (World * Sessions).

#[export] Instance SM_ret : MRet SM := fun A a x => (Ok a, x).
#[export] Instance SM_bind : MBind SM := fun A B k m x =>
  match m x with
  | (Ok a, x') => k a x'
  | (Raise e, x') => (Raise e, x')
  end.

(** Code that uses no session. *)
Definition s_lift {A} (m : M A) : SM A := fun '(w, ss) =>
  let '(r, w') := m w in (r, (w', ss)).

Definition s_try {A} (m : SM A) (h : Exc -> SM A) : SM A := fun x =>
  match m x with
  | (Ok a, x') => (Ok a, x')
  | (Raise e, x') => h e x'
  end.

(** [try: m  finally: f]. *)
Definition s_finally {A} (m : SM A) (f : SM unit) : SM A := fun x =>
  let '(r, x') := m x in
  match f x' with
  | (Ok _, x'') => (r, x'')
  | (Raise e, x'') => (Raise e, x'')
  end.

(** A call of the factory [create_session_factory] returns. *)
Definition session_factory : SM nat := fun '(w, ss) =>
  (Ok (ss_next ss), (w, {| ss_next := S (ss_next ss); ss_open := {[ss_next ss]} ∪ ss_open ss |})).

(** [session.close()] gives the connection back. *)
Definition session_close (session : nat) : SM unit := fun '(w, ss) =>
  (Ok tt, (w, {| ss_next := ss_next ss; ss_open := ss_open ss ∖ {[session]} |})).

(** Code that works on [session]; one that was closed takes a connection again. *)
Definition on_session {A} (session : nat) (m : M A) : SM A := fun '(w, ss) =>
  let '(r, w') := m w in
  (r, (w', {| ss_next := ss_next ss; ss_open := {[session]} ∪ ss_open ss |})).

(** ** The code that opens sessions *)

Section sessions.
Context `{E : Env, !NodeRepository, !MetricsRepository, !AlertRepository,
          !RemediationActionRepository}.
Context (settings : CollectorSettings) (service : AlertEvaluationService) (tokens : list string).

(** [get_db_session]: FastAPI runs the endpoint where the generator yields. *)
Definition get_db_session {A} (endpoint : nat -> SM A) : SM A :=
  session ← session_factory; s_finally (endpoint session) (session_close session).

(** The providers of a request, in the order the framework takes: the session is open from
    [get_db_session] on, to the end of the request; a token that is refused ends it; the other
    providers build objects and no more.  The endpoint works on the session, if there is one. *)
Fixpoint with_providers {A} (order : list Provider) (token : M unit) (session : option nat)
    (endpoint : option nat -> SM A) : SM A :=
  match order with
  | [] => endpoint session
  | P_db_session :: rest =>
      get_db_session (fun session => with_providers rest token (Some session) endpoint)
  | P_verify_api_token :: rest => _ ← s_lift token; with_providers rest token session endpoint
  | _ :: rest => with_providers rest token session endpoint
  end.

Definition serve_request (order : list Provider) (credentials : option string) (request : Request)
    : SM Response :=
  s_try
    (with_providers order (lift (verify_api_token tokens credentials)) None (fun session =>
       body ← match session with
              | Some session => on_session session (route settings service request)
              | None => s_lift (route settings service request)
              end;
       mret {| rs_status := 200; rs_body := body |}))
    (fun e => mret (error_response e)).

Definition retention_sessions : SM RetentionRunStats :=
  now ← s_lift utc_now;
  let batch_size := retention_batch_size settings in
  session ← session_factory;
  s_finally
    (on_session session
       (actions_cutoff ← days_before now (remediation_actions_retention_days settings);
        actions_deleted ← _drain prune_terminal_before actions_cutoff batch_size;
        alerts_cutoff ← days_before now (resolved_alerts_retention_days settings);
        alerts_deleted ← _drain prune_resolved_before alerts_cutoff batch_size;
        samples_cutoff ← days_before now (metrics_retention_days settings);
        samples_deleted ← _drain prune_samples_before samples_cutoff batch_size;
        mret {| remediation_actions_deleted := actions_deleted; alerts_deleted := alerts_deleted;
                metric_samples_deleted := samples_deleted |}))
    (session_close session).

Definition staleness_sessions (notifier : option Notifier) (first_run_done : bool)
    : SM StalenessCounts :=
  now ← s_lift utc_now;
  session ← session_factory;
  s_finally
    (on_session session
       (nodes ← list_all;
        m_fold (sweep_node (heartbeat_stale_after_seconds settings) notifier first_run_done now)
          {| stale := 0; opened := 0; resolved_count := 0 |} nodes))
    (session_close session).

Definition reconciliation_sessions : SM Z :=
  now ← s_lift utc_now;
  cutoff ← s_lift (timeout ← lift (of_time
                     (timedelta_of_seconds (remediation_dispatch_timeout_seconds settings)));
                   lift (of_time (datetime_sub now timeout)));
  session ← session_factory;
  s_finally (on_session session (over_age ← list_dispatched_before cutoff; m_fold (time_out now) 0 over_age))
    (session_close session).

Definition run_job_sessions (notifier : option Notifier) (job : Job) : SM Job :=
  match job with
  | RetentionJob => _ ← retention_sessions; mret RetentionJob
  | StalenessJob first_run_done =>
      _ ← staleness_sessions notifier first_run_done; mret (StalenessJob true)
  | ReconciliationJob => _ ← reconciliation_sessions; mret ReconciliationJob
  end.

Definition run_contained_sessions (notifier : option Notifier) (job : Job) : SM Job :=
  s_try (run_job_sessions notifier job) (fun _ => mret job).

(** ** Balance *)

(** Session numbers are not used twice. *)
Definition numbered (ss : Sessions) : Prop := forall id, id ∈ ss_open ss -> (id < ss_next ss)%nat.

(** Left to its own, [p] does what [m] does, and ends with the sessions open that were open. *)
Definition balanced {A} (p : SM A) (m : M A) : Prop := forall w ss, numbered ss ->
  let '(r, (w', ss')) := p (w, ss) in
  (r, w') = m w /\ ss_open ss' = ss_open ss /\ numbered ss'.

Lemma balanced_ret {A} (a : A) : balanced (mret a) (mret a).
Proof. intros w ss Hn. by split. Qed.

Lemma balanced_lift {A} (m : M A) : balanced (s_lift m) m.
Proof. intros w ss Hn. unfold s_lift. by destruct (m w). Qed.

Lemma balanced_bind {A B} (p : SM A) (m : M A) (f : A -> SM B) g :
  balanced p m -> (forall a, balanced (f a) (g a)) -> balanced (p ≫= f) (m ≫= g).
Proof.
  intros Hp Hf w ss Hn. specialize (Hp w ss Hn). unfold mbind, SM_bind, M_bind.
  destruct (p (w, ss)) as [[a|e] [w1 ss1]]; destruct Hp as (<- & Ho & Hn1); [|done].
  specialize (Hf a w1 ss1 Hn1). destruct (f a (w1, ss1)) as [r [w2 ss2]].
  destruct Hf as (<- & Ho2 & Hn2). split; [done|]. split; [congruence|done].
Qed.

Lemma balanced_try {A} (p : SM A) (m : M A) h k :
  balanced p m -> (forall e, balanced (h e) (k e)) -> balanced (s_try p h) (m_try m k).
Proof.
  intros Hp Hh w ss Hn. specialize (Hp w ss Hn). unfold s_try, m_try.
  destruct (p (w, ss)) as [[a|e] [w1 ss1]]; destruct Hp as (<- & Ho & Hn1); [done|].
  specialize (Hh e w1 ss1 Hn1). destruct (h e (w1, ss1)) as [r [w2 ss2]].
  destruct Hh as (<- & Ho2 & Hn2). split; [done|]. split; [congruence|done].
Qed.

(** [p] does what [m] does, and may leave [session], which is open, open. *)
Definition balanced_on {A} (session : nat) (p : SM A) (m : M A) : Prop := forall w ss,
  numbered ss -> session ∈ ss_open ss ->
  let '(r, (w', ss')) := p (w, ss) in
  (r, w') = m w /\ ss_open ss' = ss_open ss /\ numbered ss'.

Lemma balanced_on_session {A} session (m : M A) : balanced_on session (on_session session m) m.
Proof.
  intros w ss Hn Hin. unfold on_session. destruct (m w) as [r w']. split; [done|].
  assert ({[session]} ∪ ss_open ss = ss_open ss) as Heq by set_solver.
  split; [exact Heq|]. intros id Hid. apply Hn. by rewrite <- Heq.
Qed.

Lemma balanced_on_bind {A B} session (p : SM A) (m : M A) (f : A -> SM B) g :
  balanced_on session p m -> (forall a, balanced_on session (f a) (g a)) ->
  balanced_on session (p ≫= f) (m ≫= g).
Proof.
  intros Hp Hf w ss Hn Hin. specialize (Hp w ss Hn Hin). unfold mbind, SM_bind, M_bind.
  destruct (p (w, ss)) as [[a|e] [w1 ss1]]; destruct Hp as (<- & Ho & Hn1); [|done].
  specialize (Hf a w1 ss1 Hn1 ltac:(by rewrite Ho)). destruct (f a (w1, ss1)) as [r [w2 ss2]].
  destruct Hf as (<- & Ho2 & Hn2). split; [done|]. split; [congruence|done].
Qed.

Lemma balanced_weaken {A} session (p : SM A) m : balanced p m -> balanced_on session p m.
Proof. intros Hp w ss Hn _. by apply Hp. Qed.

(** A session around a program that is balanced on it. *)
Lemma balanced_session {A} (p : nat -> SM A) (m : M A) :
  (forall session, balanced_on session (p session) m) -> balanced (get_db_session p) m.
Proof.
  intros Hp w ss Hn. unfold get_db_session, mbind, SM_bind, session_factory, s_finally.
  set (ss1 := {| ss_next := _; ss_open := _ |}).
  assert (numbered ss1 /\ ss_next ss ∈ ss_open ss1) as [Hn1 Hin].
  { split; [|simpl; set_solver]. intros id [->%elem_of_singleton|Hid]%elem_of_union; simpl; [lia|].
    specialize (Hn id Hid). lia. }
  specialize (Hp (ss_next ss) w ss1 Hn1 Hin).
  destruct (p (ss_next ss) (w, ss1)) as [r [w2 ss2]]. destruct Hp as (Hr & Ho & Hn2). simpl.
  split; [exact Hr|]. split.
  - rewrite Ho. simpl. apply set_eq. intros id. specialize (Hn id).
    rewrite elem_of_difference, elem_of_union, elem_of_singleton.
    split; [naive_solver|]. intros Hid. split; [by right|]. specialize (Hn Hid). lia.
  - intros id [Hid _]%elem_of_difference. by apply Hn2.
Qed.

(** ** Requests and runs *)

(** Balanced, on the session if there is one. *)
Definition ends {A} (session : option nat) (p : SM A) (m : M A) : Prop :=
  match session with None => balanced p m | Some session => balanced_on session p m end.

Lemma ends_balanced {A} session (p : SM A) m : balanced p m -> ends session p m.
Proof. destruct session; [apply balanced_weaken|done]. Qed.

Lemma ends_bind {A B} session (p : SM A) (m : M A) (f : A -> SM B) g :
  ends session p m -> (forall a, ends session (f a) (g a)) -> ends session (p ≫= f) (m ≫= g).
Proof. destruct session; [apply balanced_on_bind|apply balanced_bind]. Qed.

Lemma providers_without_token {A} order token session (endpoint : option nat -> SM A) m :
  (forall session, ends session (endpoint session) m) -> P_verify_api_token ∉ order ->
  ends session (with_providers order token session endpoint) m.
Proof.
  intros Hend. revert session. induction order as [|p rest IH]; intros session Hno; [apply Hend|].
  apply not_elem_of_cons in Hno as [Hp Hno]. destruct p; try by apply IH.
  - apply ends_balanced, balanced_session. intros s. exact (IH (Some s) Hno).
  - done.
Qed.

Lemma providers_with_token {A} order token session (endpoint : option nat -> SM A) m :
  (forall session, ends session (endpoint session) m) -> NoDup order -> P_verify_api_token ∈ order ->
  ends session (with_providers order token session endpoint) (_ ← token; m).
Proof.
  intros Hend Hnd. revert session. induction Hnd as [|p rest Hp Hnd IH]; intros session Hin.
  { by apply elem_of_nil in Hin. }
  destruct (decide (p = P_verify_api_token)) as [->|Hne].
  - apply ends_bind; [apply ends_balanced, balanced_lift|]. intros _.
    by apply providers_without_token.
  - assert (P_verify_api_token ∈ rest) as Hrest by (by apply elem_of_cons in Hin as [?|?]).
    destruct p; try done; try by apply IH.
    apply ends_balanced, balanced_session. intros s. exact (IH (Some s) Hrest).
Qed.

Lemma request_balanced order credentials request :
  resolution request order ->
  balanced (serve_request order credentials request)
    (handle settings service tokens credentials request).
Proof.
  intros Hr. apply balanced_try; [|intros e; apply balanced_ret].
  set (endpoint := fun session : option nat => _ ≫= _).
  set (m := route settings service request ≫= _).
  assert (forall session, ends session (endpoint session) m) as Hend.
  { intros [session|]; apply ends_bind; [apply balanced_on_session| |apply balanced_lift|];
      intros body; apply ends_balanced, balanced_ret. }
  pose proof (resolution_authenticates request order Hr) as Ht. unfold authenticate.
  destruct request; try (apply (providers_with_token order _ None); [exact Hend|
    eapply well_ordered_nodup, Hr|by apply Ht]).
  apply (providers_without_token order _ None); [exact Hend|]. by intros ?%Ht.
Qed.

Lemma contained_balanced notifier job :
  balanced (run_contained_sessions notifier job) (_run_contained settings notifier job).
Proof.
  apply balanced_try; [|intros e; apply balanced_ret].
  destruct job as [|first|]; (apply balanced_bind; [|intros x; apply balanced_ret]).
  - apply balanced_bind; [apply balanced_lift|]. intros now. apply balanced_session.
    intros session. apply balanced_on_session.
  - apply balanced_bind; [apply balanced_lift|]. intros now. apply balanced_session.
    intros session. apply balanced_on_session.
  - unfold reconciliation_sessions, reconciliation_run.
    apply balanced_bind; [apply balanced_lift|]. intros now. intros w ss Hn.
    assert (balanced
      (cutoff ← s_lift (timeout ← lift (of_time
                     (timedelta_of_seconds (remediation_dispatch_timeout_seconds settings)));
                   lift (of_time (datetime_sub now timeout)));
       get_db_session (fun session => on_session session
         (over_age ← list_dispatched_before cutoff; m_fold (time_out now) 0 over_age)))
      (cutoff ← (timeout ← lift (of_time
                     (timedelta_of_seconds (remediation_dispatch_timeout_seconds settings)));
                   lift (of_time (datetime_sub now timeout)));
       over_age ← list_dispatched_before cutoff; m_fold (time_out now) 0 over_age)) as Hb.
    { apply balanced_bind; [apply balanced_lift|]. intros cutoff. apply balanced_session.
      intros session. apply balanced_on_session. }
    specialize (Hb w ss Hn). revert Hb. unfold get_db_session, mbind, SM_bind, M_bind, lift.
    by destruct (of_time (timedelta_of_seconds _)).
Qed.

(** What the process does with sessions: serve requests, run jobs. *)
Inductive Task :=
| Serve (order : list Provider) (credentials : option string) (request : Request)
| RunJob (notifier : option Notifier) (job : Job).

Definition task_sessions (t : Task) : SM unit :=
  match t with
  | Serve order credentials request => _ ← serve_request order credentials request; mret tt
  | RunJob notifier job => _ ← run_contained_sessions notifier job; mret tt
  end.

(** The same without sessions, as the rest of the development has it. *)
Definition task (t : Task) : M unit :=
  match t with
  | Serve _ credentials request => _ ← handle settings service tokens credentials request; mret tt
  | RunJob notifier job => _ ← _run_contained settings notifier job; mret tt
  end.

Definition run_tasks (tasks : list Task) (x : World * Sessions) : World * Sessions :=
  foldl (fun x t => snd (task_sessions t x)) x tasks.

(** The framework runs the providers of a request in an order their dependencies admit. *)
Definition admitted (t : Task) : Prop :=
  match t with Serve order _ request => resolution request order | RunJob _ _ => True end.

Lemma task_balanced t : admitted t -> balanced (task_sessions t) (task t).
Proof.
  intros Hr. destruct t; (apply balanced_bind; [|intros x; apply balanced_ret]);
    [by apply request_balanced|apply contained_balanced].
Qed.

Lemma tasks_balanced tasks w ss :
  Forall admitted tasks -> numbered ss ->
  let '(w', ss') := run_tasks tasks (w, ss) in
  ss_open ss' = ss_open ss /\ w' = foldl (fun w t => snd (task t w)) w tasks.
Proof.
  unfold run_tasks. intros Hall. revert w ss.
  induction Hall as [|t tasks Hr Hall IH]; intros w ss Hn; [done|]. simpl.
  pose proof (task_balanced t Hr w ss Hn) as Ht.
  destruct (task_sessions t (w, ss)) as [r [w1 ss1]]. destruct Ht as (Hm & Ho & Hn1).
  rewrite <- Hm. specialize (IH w1 ss1 Hn1). simpl in *.
  destruct (foldl _ (w1, ss1) tasks) as [w2 ss2]. rewrite <- Ho. exact IH.
Qed.

(** C23: sessions never leak.  Whatever requests a process serves and whatever jobs it runs,
    whatever they raise and in whichever order, among those that the dependencies admit, the
    framework runs the providers of a request, no session is left open between them; and the
    sessions make no difference: the world is the one the tasks leave without them. *)
Theorem sessions_never_leak tasks w :
  Forall admitted tasks ->
  let '(w', ss') := run_tasks tasks (w, {| ss_next := 0; ss_open := ∅ |}) in
  ss_open ss' = ∅ /\ w' = foldl (fun w t => snd (task t w)) w tasks.
Proof. intros Hall. by apply tasks_balanced. Qed.

End sessions.
