(* ===== verification/ServiceThreads.v ===== *)
(** * The Collector's operations as programs

    The operations that make more than one repository call, again, each call now a call of
    a program of [Threads]: [services/alerting.py], [services/metrics_ingestion.py],
    [services/remediation.py], [rules/engine.py], [remediation/engine.py], the jobs, the
    routes and the request handler.  Each is shown to be, when nothing else runs, the
    operation of the same name in [M]. *)

From S2P Require Import Prelude PyFloat PyTime PyStr Domain Schema Runtime Threads Protocols.
From S2P Require Import Tables Rules Remediation Notifications Lifecycle Settings NodeRegistry.
From S2P Require Import RemediationService Alerting Ingestion Reconciliation Staleness.
From S2P Require Import Retention JobScheduler Routes Api.

Local Open Scope Z_scope.

Section programs.
Context `{E : Env, !NodeRepository, !MetricsRepository, !AlertRepository,
          !RemediationActionRepository}.

(** ** [rules/engine.py] *)

Definition _evaluate_rate_of_change (node_id : string) (rule : RateOfChangeRuleDefinition)
    (sample : MetricSample) (collected_at : datetime) : Prog (option RuleEvaluationResult) :=
  previous ← call (find_previous_sample node_id (ms_metric_type sample) collected_at
                     (rc_window_seconds rule));
  mret (fmap (M:=option) (rate_result rule sample) previous).

Definition evaluate_sample (e : RuleEngine) (node_id : string) (collected_at : datetime)
    (results : list RuleEvaluationResult) (sample : MetricSample)
    : Prog (list RuleEvaluationResult) :=
  let results :=
    match re_threshold_rules e !! ms_metric_type sample with
    | Some rule => results ++ [_evaluate_threshold rule sample]
    | None => results
    end in
  match re_rate_of_change_rules e !! ms_metric_type sample with
  | None => mret results
  | Some rule =>
      rate_result ← _evaluate_rate_of_change node_id rule sample collected_at;
      mret (results ++ option_list rate_result)
  end.

Definition evaluate (e : RuleEngine) (node_id : string) (samples : list MetricSample)
    (collected_at : datetime) : Prog (list RuleEvaluationResult) :=
  p_fold (evaluate_sample e node_id collected_at) [] samples.

(** ** [remediation/engine.py] *)

Definition check_rate_limit (e : RemediationEngine) (node_id : string) (now : datetime)
    : Prog (option string) :=
  since ← p_lift (of_time (datetime_sub now (hours 1)));
  recent_count ← call (count_recent_actions node_id since);
  mret (if Z.leb (_max_actions_per_node_per_hour e) recent_count
        then Some (rate_limit_reason e recent_count) else None).

Definition _check_safety_limits (e : RemediationEngine) (node_id : string)
    (playbook : PlaybookDefinition) (now : datetime) : Prog (option string) :=
  last ← call (find_last_action node_id (pb_playbook_name playbook));
  match last with
  | Some last =>
      let elapsed := total_seconds (now - rr_created_at last) in
      if flt elapsed (_cooldown_seconds e)
      then mret (Some (cooldown_reason e elapsed))
      else check_rate_limit e node_id now
  | None => check_rate_limit e node_id now
  end.

Definition decide (e : RemediationEngine) (node_id : string) (alert_id : Z) (rule_key : string)
    (now : datetime) : Prog (option RemediationActionRecord) :=
  if negb (_enabled e) then mret None
  else match _by_rule_key e !! rule_key with
  | None => mret None
  | Some playbook =>
      blocked_reason ← _check_safety_limits e node_id playbook now;
      let status := match blocked_reason with
                    | Some _ => BLOCKED_BY_SAFETY_LIMIT
                    | None => DISPATCHED
                    end in
      rec ← call (create_action node_id alert_id rule_key (pb_playbook_name playbook)
              (pb_action_type playbook) (pb_parameters playbook) status blocked_reason now);
      mret (Some rec)
  end.

(** ** [services/alerting.py] *)

Definition acknowledge (alert_id : Z) (acknowledged_by : string) : Prog AlertView :=
  current ← call (Alerting.get_alert alert_id);
  match av_status current with
  | RESOLVED => p_raise (AlertAlreadyResolvedError alert_id)
  | FIRING =>
      now ← call utc_now;
      updated ← call (Protocols.acknowledge_alert alert_id acknowledged_by now);
      mret (_to_view updated)
  end.

Section service.
Context (s : AlertEvaluationService).

Definition _maybe_escalate (record : AlertRecord) (fired_at : datetime) : Prog AlertRecord :=
  if negb (_should_escalate s record fired_at) then mret record
  else
    escalated ← call (escalate_alert (ar_id record) fired_at);
    _ ← call (_notify (_notifier s) (format_escalated escalated));
    mret escalated.

Definition _maybe_remediate (node_id : string) (result : RuleEvaluationResult)
    (fired_at : datetime) (record : AlertRecord)
    : Prog (AlertRecord * option RemediationActionRecord) :=
  match _remediation_engine s with
  | Some engine =>
      if negb (_should_remediate s record fired_at) then mret (record, None)
      else
        decision ← decide engine node_id (ar_id record) (rule_key result) fired_at;
        match decision with
        | None => mret (record, None)
        | Some decision =>
            updated ← call (mark_remediated (ar_id record) fired_at);
            mret (updated, match rr_status decision with
                           | DISPATCHED => Some decision
                           | _ => None
                           end)
        end
  | None => mret (record, None)
  end.

Definition _open (node_id : string) (result : RuleEvaluationResult) (fired_at : datetime)
    : Prog AlertRecord :=
  record ← call (create_alert node_id (rule_key result) (rule_kind result) (severity result)
             (description result) (value result) (bound result) fired_at);
  _ ← call (_notify (_notifier s) (format_opened record));
  mret record.

Definition _open_or_advance (node_id : string) (result : RuleEvaluationResult)
    (fired_at : datetime) (open_alert : option AlertRecord)
    : Prog (AlertRecord * option RemediationActionRecord) :=
  match open_alert with
  | None => record ← _open node_id result fired_at; mret (record, None)
  | Some open_alert =>
      advanced ← call (update_last_fired (ar_id open_alert) (value result) fired_at);
      escalated ← _maybe_escalate advanced fired_at;
      _maybe_remediate node_id result fired_at escalated
  end.

Definition _resolve (resolved_at : datetime) (open_alert : AlertRecord) : Prog AlertRecord :=
  record ← call (resolve_alert (ar_id open_alert) resolved_at);
  _ ← call (_notify (_notifier s) (format_resolved record));
  mret record.

Definition _apply (node_id : string) (result : RuleEvaluationResult) (fired_at : datetime)
    : Prog (option AlertView * option RemediationActionRecord) :=
  open_alert ← call (find_open_alert node_id (rule_key result));
  if breached result then
    '(record, dispatched) ← _open_or_advance node_id result fired_at open_alert;
    mret (Some (_to_view record), dispatched)
  else match open_alert with
  | Some open_alert =>
      resolved ← _resolve fired_at open_alert;
      mret (Some (_to_view resolved), None)
  | None => mret (None, None)
  end.

Definition apply_result (node_id : string) (collected_at : datetime) (acc : EvaluationOutcome)
    (result : RuleEvaluationResult) : Prog EvaluationOutcome :=
  '(view, dispatched) ← _apply node_id result collected_at;
  mret {| transitions := transitions acc ++ option_list view;
          dispatched_actions := dispatched_actions acc ++ option_list dispatched |}.

Definition evaluate_and_apply (node_id : string) (samples : list MetricSample)
    (collected_at : datetime) : Prog EvaluationOutcome :=
  results ← evaluate (_rule_engine s) node_id samples collected_at;
  p_fold (apply_result node_id collected_at) {| transitions := []; dispatched_actions := [] |}
    results.

(** ** [services/metrics_ingestion.py], with the alert service it is always given *)

Definition _evaluate_rules_best_effort (payload : NodeMetricsPayload)
    : Prog (list PendingAction) :=
  p_try (outcome ← evaluate_and_apply (np_node_id payload) (np_samples payload)
                     (np_collected_at payload);
         mret (pending_action <$> dispatched_actions outcome))
    (fun _ => mret []).

Definition ingest (stale_after_seconds : float) (payload : NodeMetricsPayload) : Prog Ack :=
  received_at ← call utc_now;
  _ ← call (record_seen stale_after_seconds (np_node_id payload) (np_collected_at payload));
  _ ← call (bulk_insert (np_node_id payload) (np_samples payload) (np_collected_at payload)
              received_at);
  pending_actions ← _evaluate_rules_best_effort payload;
  mret {| ack_accepted := true; ack_received_at := received_at; ack_message := None;
          ack_pending_actions := pending_actions |}.

End service.

(** ** [services/remediation.py] *)

Definition report_result (action_id : Z) (result : ActionResult) : Prog RemediationActionRecord :=
  current ← call (RemediationService.get_action action_id);
  match rr_status current with
  | DISPATCHED =>
      now ← call utc_now;
      call (mark_result action_id (_RESULT_STATUS_TO_ACTION_STATUS (res_status result))
              (res_message result) now)
  | st => p_raise (RemediationActionNotDispatchedError action_id st)
  end.

(** ** [jobs/reconciliation.py] and [jobs/staleness.py] *)

Definition time_out (now : datetime) (timed_out : Z) (action : RemediationActionRecord) : Prog Z :=
  _ ← call (mark_result (rr_id action) FAILED (Some TIMED_OUT_REASON) now);
  mret (timed_out + 1).

Definition reconciliation_run (timeout_seconds : float) : Prog Z :=
  now ← call utc_now;
  timeout ← p_lift (of_time (timedelta_of_seconds timeout_seconds));
  cutoff ← p_lift (of_time (datetime_sub now timeout));
  over_age ← call (list_dispatched_before cutoff);
  p_fold (time_out now) 0 over_age.

Definition sweep_node (stale_after_seconds : float) (notifier : option Notifier)
    (first_run_done : bool) (now : datetime) (acc : StalenessCounts) (node : NodeRecord)
    : Prog StalenessCounts :=
  let silent_seconds := total_seconds (now - nr_last_seen_at node) in
  open_alert ← call (find_open_alert (nr_node_id node) STALENESS_RULE_KEY);
  if fge silent_seconds stale_after_seconds then
    let acc := {| stale := stale acc + 1; opened := opened acc; resolved_count := resolved_count acc |} in
    match open_alert with
    | None =>
        if first_run_done then
          description ← call (silent_description silent_seconds);
          record ← call (create_alert (nr_node_id node) STALENESS_RULE_KEY STALENESS CRITICAL
                           description silent_seconds stale_after_seconds now);
          _ ← call (_notify notifier (format_opened record));
          mret {| stale := stale acc; opened := opened acc + 1; resolved_count := resolved_count acc |}
        else mret acc
    | Some _ => mret acc
    end
  else
    match open_alert with
    | Some open_alert =>
        record ← call (resolve_alert (ar_id open_alert) now);
        _ ← call (_notify notifier (format_resolved record));
        mret {| stale := stale acc; opened := opened acc; resolved_count := resolved_count acc + 1 |}
    | None => mret acc
    end.

Definition staleness_run (stale_after_seconds : float) (notifier : option Notifier)
    (first_run_done : bool) : Prog StalenessCounts :=
  now ← call utc_now;
  nodes ← call list_all;
  p_fold (sweep_node stale_after_seconds notifier first_run_done now)
    {| stale := 0; opened := 0; resolved_count := 0 |} nodes.

(** ** The request handler of [api/] *)

(** A route that makes one repository call is one call. *)
Definition route (settings : CollectorSettings) (service : AlertEvaluationService)
    (request : Request) : Prog Body :=
  match request with
  | ReceiveMetrics payload =>
      BAck <$> ingest service (heartbeat_stale_after_seconds settings) payload
  | AcknowledgeAlert alert_id body =>
      BAlert <$> (view ← acknowledge alert_id (acknowledged_by body);
                  mret (AlertRead_from_view view))
  | ReportResult action_id body =>
      BAction <$> (record ← report_result action_id body;
                   mret (RemediationActionRead_from_record record))
  | _ => call (Api.route settings service request)
  end.

Definition handle (settings : CollectorSettings) (service : AlertEvaluationService)
    (tokens : list string) (credentials : option string) (request : Request) : Prog Response :=
  p_try (_ ← p_lift (authenticate tokens request credentials);
         body ← route settings service request;
         mret {| rs_status := 200; rs_body := body |})
    (fun e => mret (error_response e)).

(** ** Alone, they are the operations *)

Ltac alone :=
  repeat match goal with
  | |- forall _, _ => intro
  | |- implements (_ ≫= _) (_ ≫= _) => apply implements_bind
  | |- implements (match ?x with _ => _ end) _ => destruct x
  | |- implements (let '(_, _) := ?x in _) _ => destruct x
  | |- implements _ _ => by auto with pulse
  end.

Lemma alone_evaluate e node_id samples t :
  implements (evaluate e node_id samples t) (Rules.evaluate e node_id samples t).
Proof.
  apply implements_fold. intros acc x. unfold evaluate_sample, Rules.evaluate_sample.
  destruct (re_rate_of_change_rules e !! _); [|apply implements_ret].
  apply implements_bind; [|auto with pulse]. unfold _evaluate_rate_of_change, Rules._evaluate_rate_of_change. alone.
Qed.

Lemma alone_decide e node_id alert_id key now :
  implements (decide e node_id alert_id key now) (Remediation.decide e node_id alert_id key now).
Proof.
  unfold decide, Remediation.decide, _check_safety_limits, Remediation._check_safety_limits,
    check_rate_limit, Remediation.check_rate_limit. alone.
Qed.

Lemma alone_acknowledge alert_id by_ :
  implements (acknowledge alert_id by_) (Alerting.acknowledge alert_id by_).
Proof. unfold acknowledge, Alerting.acknowledge. alone. Qed.

Lemma alone_apply s node_id result t :
  implements (_apply s node_id result t) (Alerting._apply s node_id result t).
Proof.
  unfold _apply, Alerting._apply. apply implements_bind; [auto with pulse|]. intros o.
  destruct (breached result).
  - apply implements_bind; [|intros []; auto with pulse].
    unfold _open_or_advance, Alerting._open_or_advance. destruct o as [rec|].
    + apply implements_bind; [auto with pulse|]. intros r1. apply implements_bind.
      * unfold _maybe_escalate, Alerting._maybe_escalate. alone.
      * intros r2. unfold _maybe_remediate, Alerting._maybe_remediate.
        destruct (_remediation_engine s) as [e|]; [|auto with pulse].
        apply implements_if; [auto with pulse|].
        apply implements_bind; [apply alone_decide|]. alone.
    + unfold _open, Alerting._open. alone.
  - unfold _resolve, Alerting._resolve. alone.
Qed.

Lemma alone_ingest s stale_after payload :
  implements (ingest s stale_after payload) (Ingestion.ingest stale_after (Some s) payload).
Proof.
  unfold ingest, Ingestion.ingest. do 3 (apply implements_bind; [auto with pulse|intros ?]).
  apply implements_bind; [|auto with pulse].
  unfold _evaluate_rules_best_effort, Ingestion._evaluate_rules_best_effort.
  apply implements_try; [|auto with pulse]. apply implements_bind; [|auto with pulse].
  apply implements_bind; [apply alone_evaluate|]. intros results.
  apply implements_fold. intros acc x. apply implements_bind; [apply alone_apply|alone].
Qed.

Lemma alone_report_result action_id result :
  implements (report_result action_id result) (RemediationService.report_result action_id result).
Proof. unfold report_result, RemediationService.report_result. alone. Qed.

Lemma alone_reconciliation timeout :
  implements (reconciliation_run timeout) (Reconciliation.reconciliation_run timeout).
Proof.
  unfold reconciliation_run, Reconciliation.reconciliation_run.
  do 4 (apply implements_bind; [auto with pulse|intros ?]).
  apply implements_fold. intros ? ?. unfold time_out, Reconciliation.time_out. alone.
Qed.

Lemma alone_staleness stale_after notifier first :
  implements (staleness_run stale_after notifier first)
    (Staleness.staleness_run stale_after notifier first).
Proof.
  unfold staleness_run, Staleness.staleness_run.
  do 2 (apply implements_bind; [auto with pulse|intros ?]).
  apply implements_fold. intros acc n. unfold sweep_node, Staleness.sweep_node. alone.
Qed.

Lemma alone_route settings service request :
  implements (route settings service request) (Api.route settings service request).
Proof.
  destruct request; try apply implements_call; apply implements_fmap.
  - apply alone_ingest.
  - apply implements_bind; [apply alone_acknowledge|auto with pulse].
  - apply implements_bind; [apply alone_report_result|auto with pulse].
Qed.

Lemma alone_handle settings service tokens credentials request :
  implements (handle settings service tokens credentials request)
    (Api.handle settings service tokens credentials request).
Proof.
  apply implements_try; [|auto with pulse]. apply implements_bind; [auto with pulse|].
  intros _. apply implements_bind; [apply alone_route|auto with pulse].
Qed.

End programs.
