(* ===== verification/ConcurrentPush.v ===== *)
(** * A push next to other requests

    The program of a push is safe: whatever the requests of other nodes, the users and the
    scheduler do between its calls, each of its calls is a move of the lifecycle with the
    node's alerts and actions in the state the code believes, up to acknowledgements. *)

From S2P Require Import Prelude PyFloat PyTime PyStr Domain Schema Runtime Threads Protocols.
From S2P Require Import Tables Rules Remediation Notifications Lifecycle Invariants Conformance.
From S2P Require Import Races NodeRegistry Alerting Ingestion Staleness Interference Guarantees.
From S2P Require Import ServiceThreads.

Local Open Scope Z_scope.
Local Open Scope pulse_scope.

Section push.
Context `{E : Env, !NodeRepository, !MetricsRepository, !AlertRepository,
          !RemediationActionRepository}.
Context (s : AlertEvaluationService) (n : string).

Abbreviation c := (lifecycle_config s).
Abbreviation κ := (PushOf n).
Abbreviation rely := (Guarantees.rely c κ).
Abbreviation guar := (Guarantees.guar c κ).
Abbreviation safe := (Threads.safe rely guar).

#[local] Instance push_rely_preorder : PreOrder rely.
Proof. by apply rely_preorder. Qed.

Lemma no_retention : lc_retention c = false.
Proof. done. Qed.

(** ** Assertions *)

(** No action refers to an unstamped alert, but for [x]; the node is registered. *)
Definition resting (x : option Z) (db : Db) : Prop :=
  consistent db /\ (~ ~ Healthy -> unattempted n x db) /\ is_Some (nodes db !! n).

Abbreviation at_rest := (resting None).

Lemma resting_rely x db db' : resting x db -> rely db db' -> resting x db'.
Proof.
  intros (Hc & Hu & Hn) Hr. pose proof (consistent_rely c _ _ _ Hc Hr) as Hc'.
  split; [done|]. split; [|by eapply moves_node; [apply Hr|]].
  intros Hh. eapply unattempted_rely; [apply Hc'|exact Hr|by apply Hu].
Qed.

Lemma resting_tok db : at_rest db -> tok κ db.
Proof. intros (? & ? & _). by split. Qed.

(** Writing an alert: what remains unattempted. *)
Lemma resting_update x y db id a' :
  resting x db -> consistent (set_alerts (<[id := a']> (alerts db)) db) ->
  (mine κ a' -> am_remediated_at a' = None -> Some id <> y ->
   Some id <> x /\ match alerts db !! id with
                   | Some a => mine κ a /\ am_remediated_at a = None
                   | None => True
                   end) ->
  (forall id', id' <> id -> Some id' <> y -> Some id' <> x) ->
  resting y (set_alerts (<[id := a']> (alerts db)) db).
Proof.
  intros (Hc & Hu & Hn) Hc' Hself Hothers. split; [done|]. split; [|done].
  intros Hh id2 a2. simpl. intros [[<- <-]|[Hne Ha2]]%lookup_insert_Some Hm Hrem Hy.
  - destruct (Hself Hm Hrem Hy) as [Hx Hold]. destruct (alerts db !! id) as [a|] eqn:Ea.
    + destruct Hold as [Hma Hra]. exact (Hu Hh _ _ Ea Hma Hra Hx).
    + intros (k & r & Hk & Hal)%referenced_spec. simpl in Hk.
      destruct (proj1 (proj2 (proj2 (proj1 Hc))) _ _ Hk) as [_ [z Hz]]. congruence.
  - apply (Hu Hh _ _ Ha2 Hm Hrem). by apply Hothers.
Qed.

(** ** Calls on the node's alerts *)

Lemma safe_find_open key db :
  key <> STALENESS_RULE_KEY -> at_rest db ->
  safe (call (find_open_alert n key)) (fun r db' => at_rest db' /\
    match r with
    | Ok None => absent n key db'
    | Ok (Some rec) => exists a, rec = alert_to_record a /\ am_rule_key a = key /\
        held κ (am_id a) a db'
    | Raise _ => True
    end) db.
Proof.
  intros Hkey Hdb. eapply safe_reads; [apply find_open_alert_reads|].
  intros db1 R1. pose proof (resting_rely _ _ _ Hdb R1) as Hdb1. split; [|done].
  intros [rec|] Hr db2 R2; (split; [by eapply resting_rely|]).
  - destruct Hr as (id & a & Ha & (Hn & Hk & Hf) & ->). exists a. split; [done|]. split; [done|].
    eapply (held_rely c no_retention); [|exact R2].
    rewrite (proj1 (proj1 (proj1 (proj1 Hdb1))) _ _ Ha).
    split; [split; congruence|]. split; [done|]. exists a. split; [done|reflexivity].
  - eapply absent_rely; [|exact Hr|exact R2]. intros a Hn Hk. split; congruence.
Qed.

(** An update of an alert it holds. *)
Lemma safe_update m f x y a db :
  updates_alert m (am_id a) f -> resting x db -> held κ (am_id a) a db ->
  (forall a', untouched a a' ->
     (am_status a' = FIRING /\ alert_step c a' (f a')) \/ race_alert_step c a' (f a')) ->
  (forall a', untouched a a' -> am_remediated_at (f a') = None -> Some (am_id a) <> y ->
     Some (am_id a) <> x /\ am_remediated_at a' = None) ->
  (forall id', id' <> am_id a -> Some id' <> y -> Some id' <> x) ->
  safe (call m) (fun r db' =>
    match r with
    | Ok rec => resting y db' /\ exists a', untouched a a' /\ rec = alert_to_record (f a') /\
        (am_status (f a') = FIRING -> held κ (am_id (f a')) (f a') db')
    | Raise _ => resting x db' /\ ~ Healthy
    end) db.
Proof.
  intros Hm Hdb Hheld Hst Hself Hothers. eapply safe_writes; [apply Hm|].
  intros db1 R1. pose proof (resting_rely _ _ _ Hdb R1) as Hdb1.
  pose proof (held_rely c no_retention _ _ _ _ _ Hheld R1) as (Hmine & Hf & a1 & Ha1 & Hu1).
  assert (mine κ a1) as Hm1 by by rewrite Hu1. split.
  - intros rec db2 (a' & Ha' & -> & ->). simplify_eq.
    pose proof (guar_update c κ _ _ _ db1 Hm1 Ha1 (Hst _ Hu1)) as Hg. split; [exact Hg|].
    assert (am_id (f a1) = am_id a /\ am_node_id (f a1) = am_node_id a1 /\
      am_rule_key (f a1) = am_rule_key a1) as (Hi & Hn & Hk).
    { rewrite <- (proj1 (proj1 (proj1 (proj1 Hdb1))) _ _ Ha1).
      destruct (Hst _ Hu1) as [[_ Hs]|Hs].
      - by destruct (alert_step_id _ _ _ Hs) as (? & ? & ? & _).
      - by destruct (race_alert_same _ _ _ Hs) as (? & ? & ? & _). }
    intros db3 R3. split.
    + eapply resting_rely; [|exact R3]. eapply resting_update; [exact Hdb1| | |exact Hothers].
      * eapply consistent_moves; [apply Hdb1|apply Hg].
      * intros _ Hrem Hy. rewrite Ha1. destruct (Hself _ Hu1 Hrem Hy). done.
    + exists a1. split; [done|]. split; [done|]. intros Hfire.
      eapply (held_rely c no_retention); [|exact R3]. rewrite Hi. split; [|split; [done|]].
      * destruct Hm1. split; congruence.
      * exists (f a1). simpl. rewrite lookup_insert_eq. split; [done|reflexivity].
  - intros e He Hn db2 R2. split; [by eapply resting_rely|]. intros Hh. apply Hn. split; [done|].
    split; [apply Hdb1|by exists a1].
Qed.

(** Notifying changes nothing and raises nothing. *)
Lemma safe_notify {A} notifier message (p : Prog A) Q db :
  (forall db', rely db db' -> safe p Q db') ->
  safe (call (_notify notifier message) ≫= fun _ => p) Q db.
Proof.
  intros Hp. apply safe_bind; [apply _|]. eapply (safe_same c κ _ (fun r => r = Ok tt)).
  - intros w. apply wp_notify. by intros w' Hdb _.
  - intros r db' -> Hr. by apply Hp.
Qed.

(** A failed write was the database's. *)
Lemma resting_unhealthy x db : resting x db -> ~ Healthy -> at_rest db.
Proof. intros (Hc & _ & Hn) Hh. split; [done|]. split; [|done]. intros Hnn. by destruct Hnn. Qed.

(** ** Escalation *)

(** An alert due for remediation has escalated, when the ages are ordered. *)
Definition settled (t : datetime) (a : AlertModel) : Prop :=
  _should_remediate s (alert_to_record a) t = true ->
  _escalation_after_seconds s <=. _remediation_after_seconds s -> is_Some (am_escalated_at a).

Lemma not_due_settled t a : _should_escalate s (alert_to_record a) t = false -> settled t a.
Proof.
  unfold settled, _should_escalate, _should_remediate. simpl.
  destruct (_remediation_engine s); [|done].
  destruct (am_acknowledged_at a); simpl; [done|]. destruct (am_escalated_at a); simpl; [by eauto|].
  intros Hesc. destruct (am_remediated_at a); simpl; [done|]. unfold fge in *. intros Hrem Hord.
  by rewrite (fle_trans _ _ _ Hord Hrem) in Hesc.
Qed.

Lemma safe_maybe_escalate a t db :
  at_rest db -> held κ (am_id a) a db ->
  safe (_maybe_escalate s (alert_to_record a) t) (fun r db' => at_rest db' /\
    match r with
    | Ok rec => exists a', rec = alert_to_record a' /\ am_rule_key a' = am_rule_key a /\
        held κ (am_id a') a' db' /\ settled t a'
    | Raise _ => True
    end) db.
Proof.
  intros Hdb Hheld. unfold _maybe_escalate.
  destruct (_should_escalate s (alert_to_record a) t) eqn:Edue; cbn [negb].
  2: { intros db' Hr. split; [by eapply resting_rely|]. exists a. split; [done|]. split; [done|].
       split; [by eapply (held_rely c no_retention)|by apply not_due_settled]. }
  assert (am_escalated_at a = None /\ aged a t (lc_escalation_after c)) as [Hesc Hage].
  { revert Edue. unfold _should_escalate, aged. simpl.
    destruct (am_acknowledged_at a), (am_escalated_at a); done. }
  eapply safe_seq.
  - eapply (safe_update _ _ None None a);
      [apply escalate_alert_writes|exact Hdb|exact Hheld|..]; try done.
    intros a' Hu. right. rewrite Hu. apply race_escalate; [apply Hheld|exact Hesc|exact Hage].
  - intros rec db1 [Hr (a' & Hu & -> & Hh)]. apply safe_notify. intros db2 R2 db3 R3.
    assert (rely db1 db3) as R13 by by etrans.
    split; [by eapply resting_rely|]. exists (escalated t a'). split; [done|].
    split; [by rewrite Hu|]. split.
    + eapply (held_rely c no_retention); [|exact R13]. apply Hh. rewrite Hu. apply Hheld.
    + intros _ _. by eexists.
  - intros e db1 [Hr _]. done.
Qed.

(** ** Remediation *)

Lemma safe_check_rate_limit e t (K : Db -> Prop) db :
  (forall db db', K db -> rely db db' -> K db') -> K db ->
  safe (check_rate_limit e n t) (fun r db' => K db' /\
    match r with Ok None => below_rate e db' n t | _ => True end) db.
Proof.
  intros HK Hdb. unfold check_rate_limit.
  destruct (datetime_sub t (hours 1)) as [since|te] eqn:Ed.
  2: { destruct te; intros db' Hr; (split; [by eapply HK|done]). }
  change (safe (call (count_recent_actions n since) ≫= fun recent_count =>
    mret (if Z.leb (_max_actions_per_node_per_hour e) recent_count
          then Some (rate_limit_reason e recent_count) else None))
    (fun r db' => K db' /\ match r with Ok None => below_rate e db' n t | _ => True end) db).
  apply datetime_sub_inv in Ed as ->.
  apply (safe_seq c _ _ _ (fun r db' => K db' /\ match r with
    | Ok m => _max_actions_per_node_per_hour e <= m \/ below_rate e db' n t
    | Raise _ => True end)).
  - eapply safe_reads; [apply count_recent_actions_reads|]. intros db1 R1.
    split; [|intros ex _ _; split; [by eapply HK|done]].
    intros m -> db2 R2. split; [eapply HK; [by eapply HK|done]|].
    destruct (Z.le_gt_cases (_max_actions_per_node_per_hour e)
      (hourly_count db1 n (t - hours 1))) as [|Hlt]; [by left|right].
    by eapply below_rate_rely.
  - intros m db1 [HK1 Hm]. intros db2 R2. split; [by eapply HK|].
    destruct (Z.leb_spec (_max_actions_per_node_per_hour e) m); [done|].
    destruct Hm as [|Hb]; [lia|]. by eapply below_rate_rely.
  - intros ex db1 [HK1 _]. done.
Qed.

Lemma safe_check_limits e p t (K : Db -> Prop) db :
  (forall db db', K db -> rely db db' -> K db') -> K db ->
  safe (_check_safety_limits e n p t) (fun r db' => K db' /\
    match r with
    | Ok None => cooled_down e db' n (pb_playbook_name p) t /\ below_rate e db' n t
    | _ => True
    end) db.
Proof.
  intros HK Hdb. unfold _check_safety_limits.
  pose (elapsed (r : RemediationActionRecord) := total_seconds (t - rr_created_at r)).
  apply (safe_seq c _ _ _ (fun r db' => K db' /\ match r with
    | Ok last => match last with
                 | Some r => flt (elapsed r) (_cooldown_seconds e) = false
                 | None => True
                 end -> cooled_down e db' n (pb_playbook_name p) t
    | Raise _ => True end)).
  - eapply safe_reads; [apply find_last_action_reads|]. intros db1 R1.
    split; [|intros ex _ _; split; [by eapply HK|done]].
    intros last (r & Hlast & ->) db2 R2. split; [eapply HK; [by eapply HK|done]|].
    intros Hf. eapply cooled_down_rely; [exact R2|].
    eapply latest_cooled_down; [exact Hlast|]. by destruct r.
  - intros last db1 [HK1 Hcd].
    assert (match last with
            | Some r => flt (elapsed r) (_cooldown_seconds e) = false
            | None => True end ->
      safe (check_rate_limit e n t) (fun r db' => K db' /\ match r with
        | Ok None => cooled_down e db' n (pb_playbook_name p) t /\ below_rate e db' n t
        | _ => True end) db1) as Hrate.
    { intros Hf. eapply safe_mono.
      - apply (safe_check_rate_limit e t (fun db => K db /\
          cooled_down e db n (pb_playbook_name p) t)); [|by auto].
        intros d d' [? ?] ?. split; [by eapply HK|by eapply cooled_down_rely].
      - intros [[msg|]|ex] db' [[? ?] ?]; auto. }
    destruct last as [r|]; [|by apply Hrate]. fold (elapsed r).
    destruct (flt (elapsed r) (_cooldown_seconds e)) eqn:Ef; [|by apply Hrate].
    intros db2 R2. split; [by eapply HK|done].
  - intros ex db1 [HK1 _]. done.
Qed.

(** What the record told when it was found due still holds of the row. *)
Lemma due_facts e a t :
  _remediation_engine s = Some e -> _should_remediate s (alert_to_record a) t = true ->
  am_remediated_at a = None /\ aged a t (lc_remediation_after c).
Proof.
  unfold _should_remediate, aged. simpl. intros ->.
  by destruct (am_acknowledged_at a), (am_remediated_at a).
Qed.

Lemma due_remediable e a a' t :
  _remediation_engine s = Some e -> _enabled e = true ->
  _should_remediate s (alert_to_record a) t = true -> settled t a ->
  am_status a = FIRING -> untouched a a' -> race_remediable c a' t.
Proof.
  intros He Hen Hdue Hset Hf Hu. destruct (due_facts _ _ _ He Hdue) as [Hrem Hage].
  rewrite Hu. split; [done|]. split; [done|]. split; [done|]. split; [by exists e|].
  intros Hord. by apply Hset.
Qed.

(** Between a decision and its stamp. *)
Definition decided_on (a : AlertModel) (db : Db) : Prop :=
  resting (Some (am_id a)) db /\ held κ (am_id a) a db.

Lemma decided_on_rely a db db' : decided_on a db -> rely db db' -> decided_on a db'.
Proof.
  intros [? ?] ?. split; [by eapply resting_rely|by eapply (held_rely c no_retention)].
Qed.

Lemma safe_create_action e p a t reason db :
  at_rest db -> held κ (am_id a) a db -> settled t a ->
  _remediation_engine s = Some e -> _enabled e = true ->
  _by_rule_key e !! am_rule_key a = Some p ->
  _should_remediate s (alert_to_record a) t = true ->
  (reason = None -> cooled_down e db n (pb_playbook_name p) t /\ below_rate e db n t) ->
  safe (call (create_action n (am_id a) (am_rule_key a) (pb_playbook_name p) (pb_action_type p)
    (pb_parameters p) (match reason with Some _ => BLOCKED_BY_SAFETY_LIMIT
                       | None => DISPATCHED end) reason t))
    (fun r db' => match r with Ok _ => decided_on a db' | Raise _ => at_rest db' end) db.
Proof.
  intros Hdb Hheld Hset He Hen Hp Hdue Hv. eapply safe_writes; [apply create_action_writes|].
  intros db1 R1. pose proof (resting_rely _ _ _ Hdb R1) as Hdb1.
  pose proof (held_rely c no_retention _ _ _ _ _ Hheld R1) as Hheld1.
  destruct Hheld1 as (Hmine & Hf & a1 & Ha1 & Hu1).
  split; [|intros ex _ _ db2 R2; by eapply resting_rely].
  intros rec db2 (k & Hk & _ & -> & Hfk).
  assert (forall r, new_action k n (am_id a) (am_rule_key a) (pb_playbook_name p)
    (pb_action_type p) (pb_parameters p) (match r with Some _ => BLOCKED_BY_SAFETY_LIMIT
      | None => DISPATCHED end) r t = decision_row p k (am_id a) a1 r t) as Hrow.
  { intros r. unfold decision_row. rewrite Hu1. simpl. by rewrite (proj1 Hmine). }
  rewrite Hrow in *. destruct Hdb1 as (Hc1 & Hun & Hn).
  assert (guar db1 (set_actions (<[k := decision_row p k (am_id a) a1 reason t]>
    (remediation_actions db1)) db1)) as Hg.
  { apply (guar_decide _ _ _ _ _ e); try done.
    - rewrite Hu1. apply Hmine.
    - by eapply due_remediable.
    - by rewrite Hu1.
    - intros Hr. destruct (Hv Hr) as [Hc Hb].
      split; [by eapply cooled_down_rely|by eapply below_rate_rely].
    - intros Hh. destruct (due_facts _ _ _ He Hdue) as [Hrem _].
      apply (Hun Hh _ a1 Ha1); [by rewrite Hu1|by rewrite Hu1|done]. }
  split; [exact Hg|]. intros db3 R3. eapply decided_on_rely; [|exact R3]. split.
  - split; [by eapply consistent_moves; [|apply Hg]|]. split; [|done].
    intros Hh id x Hx Hm Hrem Hne. rewrite referenced_spec. simpl.
    intros (j & r & [[<- <-]|[_ Hj]]%lookup_insert_Some & Hal); [simpl in Hal; congruence|].
    apply (Hun Hh id x Hx Hm Hrem); [done|]. apply referenced_spec. eauto.
  - split; [done|]. split; [done|]. by exists a1.
Qed.

(** The decision on an alert it holds: until the stamp, that alert alone has an action and
    no stamp. *)
Lemma safe_decide e a t db :
  at_rest db -> held κ (am_id a) a db -> settled t a ->
  _remediation_engine s = Some e -> _should_remediate s (alert_to_record a) t = true ->
  safe (decide e n (am_id a) (am_rule_key a) t) (fun r db' =>
    match r with
    | Ok (Some _) => decided_on a db' /\ _enabled e = true
    | _ => at_rest db'
    end) db.
Proof.
  intros Hdb Hheld Hset He Hdue. unfold decide.
  destruct (_enabled e) eqn:Een; cbn [negb]; [|intros db' Hr; by eapply resting_rely].
  destruct (_by_rule_key e !! am_rule_key a) as [p|] eqn:Ep; [|intros db' Hr; by eapply resting_rely].
  eapply safe_seq.
  - apply (safe_check_limits e p t (fun db => at_rest db /\ held κ (am_id a) a db)); [|by split].
    intros d d' [? ?] ?. split; [by eapply resting_rely|by eapply (held_rely c no_retention)].
  - intros reason db1 [[Hrest1 Hheld1] Hv]. eapply safe_seq.
    + apply (safe_create_action e p a t reason); try done. by intros ->.
    + intros rec db2 Hr db3 R3. split; [exact (decided_on_rely _ _ _ Hr R3)|done].
    + by intros ex db2 Hr.
  - by intros ex db1 [[? _] _].
Qed.

Lemma safe_maybe_remediate result a t db :
  at_rest db -> held κ (am_id a) a db -> settled t a -> rule_key result = am_rule_key a ->
  safe (_maybe_remediate s n result t (alert_to_record a)) (fun _ => at_rest) db.
Proof.
  intros Hdb Hheld Hset Hkey. unfold _maybe_remediate.
  destruct (_remediation_engine s) as [e|] eqn:Ee; [|intros db' Hr; by eapply resting_rely].
  destruct (_should_remediate s (alert_to_record a) t) eqn:Edue; cbn [negb];
    [|intros db' Hr; by eapply resting_rely].
  rewrite Hkey. eapply safe_seq; [by apply (safe_decide e a)| |done].
  intros [rec|] db1 Hd; [|intros db2 R2; by eapply resting_rely].
  destruct Hd as [[Hrest Hheld1] Hen]. eapply safe_seq.
  - eapply (safe_update _ _ (Some (am_id a)) None a);
      [apply mark_remediated_writes|exact Hrest|exact Hheld1|..].
    + intros a' Hu. right. apply race_stamp. eapply due_remediable; eauto. apply Hheld1.
    + done.
    + intros id' Hne _ [= ?]. done.
  - intros r db2 [Hrest2 _] db3 R3. by eapply resting_rely.
  - intros ex db2 [Hrest2 Hh]. by eapply resting_unhealthy.
Qed.

(** ** The quadrants *)

Lemma safe_open result t db :
  at_rest db -> rule_key result <> STALENESS_RULE_KEY -> absent n (rule_key result) db ->
  safe (_open s n result t) (fun _ => at_rest) db.
Proof.
  intros Hdb Hkey Habs. unfold _open. eapply (safe_seq c _ _ _ (fun _ => at_rest)).
  - eapply safe_writes; [apply create_alert_writes|]. intros db1 R1.
    pose proof (resting_rely _ _ _ Hdb R1) as Hdb1.
    split; [|intros ex _ _ db2 R2; by eapply resting_rely].
    assert (absent n (rule_key result) db1) as Habs1.
    { eapply absent_rely; [|exact Habs|exact R1]. intros a Hn Hk. split; congruence. }
    intros rec db2 (id & Hid & -> & -> & _).
    assert (guar db1 (set_alerts (<[id := new_alert id n (rule_key result) (rule_kind result)
      (severity result) (description result) (value result) (bound result) t]> (alerts db1)) db1))
      as Hg.
    { apply guar_open; [done|done|apply Hdb1|done]. }
    split; [exact Hg|]. intros db3 R3. eapply resting_rely; [|exact R3].
    eapply resting_update; [exact Hdb1|by eapply consistent_moves; [apply Hdb1|apply Hg]| |done].
    intros _ _ _. by rewrite Hid.
  - intros rec db1 Hr. apply safe_notify. intros db2 R2 db3 R3.
    do 2 (eapply resting_rely; [|eassumption]). done.
  - done.
Qed.

Lemma safe_resolve a t db :
  at_rest db -> held κ (am_id a) a db ->
  safe (_resolve s t (alert_to_record a)) (fun _ => at_rest) db.
Proof.
  intros Hdb Hheld. unfold _resolve. eapply safe_seq.
  - eapply (safe_update _ _ None None a); [apply resolve_alert_writes|exact Hdb|exact Hheld|..];
      try done.
    intros a' Hu. left. rewrite Hu. split; [apply Hheld|constructor].
  - intros rec db1 [Hr _]. apply safe_notify. intros db2 R2 db3 R3.
    do 2 (eapply resting_rely; [|eassumption]). done.
  - by intros ex db1 [Hr _].
Qed.

Lemma safe_advance result a t db :
  at_rest db -> held κ (am_id a) a db -> rule_key result = am_rule_key a ->
  safe (_open_or_advance s n result t (Some (alert_to_record a))) (fun _ => at_rest) db.
Proof.
  intros Hdb Hheld Hkey. cbn [_open_or_advance]. eapply safe_seq.
  - eapply (safe_update _ _ None None a); [apply update_last_fired_writes|exact Hdb|exact Hheld|..];
      try done.
    intros a' Hu. left. rewrite Hu. split; [apply Hheld|constructor].
  - intros rec db1 [Hr (a1 & Hu & -> & Hh)]. specialize (Hh ltac:(rewrite Hu; apply Hheld)).
    eapply safe_seq; [by apply safe_maybe_escalate| |by intros ex db2 [? _]].
    intros rec db2 [Hr2 (a2 & -> & Hk2 & Hh2 & Hset)]. apply safe_maybe_remediate; try done.
    rewrite Hk2, Hkey, Hu. done.
  - by intros ex db1 [Hr _].
Qed.

Lemma rest_ret {A} (a : A) db : at_rest db -> safe (mret a) (fun _ => at_rest) db.
Proof. intros Hdb db' Hr. by eapply resting_rely. Qed.

Lemma safe_apply result t db :
  at_rest db -> rule_key result <> STALENESS_RULE_KEY ->
  safe (_apply s n result t) (fun _ => at_rest) db.
Proof.
  intros Hdb Hkey. unfold _apply. eapply safe_seq; [by apply safe_find_open| |by intros ex db1 [? _]].
  intros o db1 [Hrest Ho].
  destruct (breached result).
  - eapply (safe_seq c _ _ _ (fun _ => at_rest)); [|intros [rec d] db2 Hr; by apply rest_ret|done].
    destruct o as [rec|].
    + destruct Ho as (a & -> & Hk & Hheld). by apply safe_advance.
    + eapply (safe_seq c _ _ _ (fun _ => at_rest)); [by apply safe_open| |done].
      intros rec db2 Hr. by apply rest_ret.
  - destruct o as [rec|]; [|by apply rest_ret].
    destruct Ho as (a & -> & Hk & Hheld). eapply (safe_seq c _ _ _ (fun _ => at_rest));
      [by apply safe_resolve|intros rec db2 Hr; by apply rest_ret|done].
Qed.

(** ** The whole push *)

Lemma safe_evaluate e samples t db :
  at_rest db ->
  safe (evaluate e n samples t) (fun r db' =>
    match r with
    | Ok results => at_rest db' /\ Forall (fun x => rule_key x <> STALENESS_RULE_KEY) results
    | Raise _ => at_rest db'
    end) db.
Proof.
  intros Hdb. unfold evaluate. apply safe_fold; [apply _| | |by split].
  2: { intros b d d' [? ?] ?. split; [by eapply resting_rely|done]. }
  intros acc x d _ [Hd Hacc]. unfold evaluate_sample.
  assert (Forall (fun x => rule_key x <> STALENESS_RULE_KEY)
    (match re_threshold_rules e !! ms_metric_type x with
     | Some rule => acc ++ [_evaluate_threshold rule x] | None => acc end)) as Hacc'.
  { destruct (re_threshold_rules e !! _) as [rule|]; [|done]. apply Forall_app. split; [done|].
    apply Forall_singleton. simpl. by destruct (tr_metric_type rule). }
  destruct (re_rate_of_change_rules e !! _) as [rule|].
  2: { intros d' Hr. split; [by eapply resting_rely|done]. }
  apply (safe_seq c _ _ _ (fun r db' => at_rest db' /\ match r with
    | Ok o => Forall (fun x => rule_key x <> STALENESS_RULE_KEY) (option_list o)
    | Raise _ => True end)).
  - unfold _evaluate_rate_of_change. apply (safe_seq c _ _ _ (fun _ => at_rest)).
    + eapply (safe_same c κ _ (fun _ => True)).
      * intros w. eapply wp_mono; [apply find_previous_same|]. by intros r w' [? _].
      * intros r d1 _ Hr. by eapply resting_rely.
    + intros prev d1 Hr d2 R2. split; [by eapply resting_rely|].
      destruct prev; [|constructor]. apply Forall_singleton. simpl. by destruct (rc_metric_type rule).
    + done.
  - intros o d1 [Hr Ho] d2 R2. split; [by eapply resting_rely|]. by apply Forall_app.
  - by intros ex d1 [Hr _].
Qed.

Lemma safe_best_effort payload db :
  np_node_id payload = n -> at_rest db ->
  safe (_evaluate_rules_best_effort s payload) (fun _ => at_rest) db.
Proof.
  intros Hn Hdb. unfold _evaluate_rules_best_effort. rewrite Hn. apply safe_try; [apply _|].
  apply (safe_seq c _ _ _ (fun _ => at_rest)).
  - unfold evaluate_and_apply. eapply safe_seq; [by apply safe_evaluate| |by intros ex d Hr].
    intros results d [Hr Hkeys]. eapply safe_mono.
    + apply (safe_fold rely guar (apply_result s n (np_collected_at payload)) (fun _ => at_rest)
        (fun _ => at_rest)); [|by intros _ d1 d2; apply resting_rely|exact Hr].
      intros acc x d1 Hx Hd1. rewrite Forall_forall in Hkeys.
      apply (safe_seq c _ _ _ (fun _ => at_rest)); [by apply safe_apply; [|apply Hkeys]| |done].
      intros [view disp] d2 Hd2 d3 R3. by eapply resting_rely.
    + by intros [o|ex] d1 Hd1.
  - intros o d Hd d' Hr. by eapply resting_rely.
  - intros ex d Hd. by apply rest_ret.
Qed.

(** From a database in which the node's alerts are settled to another one. *)
Lemma safe_ingest stale_after payload db :
  np_node_id payload = n -> tok κ db ->
  safe (ingest s stale_after payload) (fun _ => tok κ) db.
Proof.
  intros Hn Htok. unfold ingest. apply (safe_seq c _ _ _ (fun _ => tok κ)); [| |done].
  { eapply (safe_same c κ _ (fun _ => True)); [by intros w; split|].
    intros r d _ Hr. eapply tok_rely; [exact Htok|exact Hr]. }
  intros received_at d1 T1. apply (safe_seq c _ _ _ (fun r d =>
    match r with Ok _ => at_rest d | Raise _ => tok κ d end)); [| |done].
  { rewrite Hn. eapply safe_writes; [apply seen_writes|]. intros d2 R2.
    pose proof (tok_rely c _ _ _ T1 R2) as [Hc Hu].
    split; [|intros ex _ _ d3 R3; eapply tok_rely; [by split|exact R3]].
    intros v d3 ->. pose proof (guar_seen c κ n (np_collected_at payload) d2) as Hg.
    split; [exact Hg|]. intros d4 R4. eapply resting_rely; [|exact R4].
    split; [eapply consistent_moves; [exact Hc|apply Hg]|]. split; [exact Hu|].
    simpl. by rewrite lookup_insert_eq. }
  intros v d2 Hd2. apply (safe_seq c _ _ _ (fun _ => at_rest)).
  { rewrite Hn. eapply safe_writes; [apply bulk_insert_writes|]. intros d3 R3.
    pose proof (resting_rely _ _ _ Hd2 R3) as Hd3.
    split; [|intros ex _ _ d4 R4; by eapply resting_rely].
    intros u d4 (ids & Hl & Hnd & Hfresh & ->).
    assert (guar d3 (set_samples (list_to_map (new_samples n (np_collected_at payload) received_at
      ids (np_samples payload)) ∪ metric_samples d3) d3)) as Hg.
    { apply guar_samples; [apply Hd3|done..]. }
    split; [exact Hg|]. intros d5 R5. eapply resting_rely; [|exact R5].
    destruct Hd3 as (Hc & Hu & Hnode).
    split; [eapply consistent_moves; [exact Hc|apply Hg]|]. by split. }
  - intros u d3 Hd3. apply (safe_seq c _ _ _ (fun _ => at_rest));
      [by apply safe_best_effort| |intros ex d4 Hd4; by apply resting_tok].
    intros actions d4 Hd4 d5 R5. apply resting_tok. by eapply resting_rely.
  - intros ex d3 Hd3. by apply resting_tok.
Qed.

End push.
