(* ===== verification/Collector.v ===== *)
(** * The Collector as a whole ([collector/main.py], [collector/api/deps.py])

    The application built from its settings, rules and policy, on the SQLAlchemy
    repositories; and its runs: sequences of HTTP requests and scheduler passes, handled
    one at a time, from an empty database. *)

From S2P Require Import Prelude PyFloat PyTime Domain Schema Runtime Protocols Tables.
From S2P Require Import SqlNodeRepository SqlAlertRepository SqlMetricsRepository.
From S2P Require Import SqlActionRepository Rules Remediation Notifications.
From S2P Require Import Lifecycle Invariants Conformance Settings NodeRegistry.
From S2P Require Import RemediationService Alerting Ingestion Reconciliation Staleness.
From S2P Require Import Retention JobScheduler Api.

Local Open Scope Z_scope.
Local Open Scope pulse_scope.

Section collector.
Context `{E : Env}.

(** ** Wiring *)

(** [_build_notifier]. *)
Definition _build_notifier (settings : CollectorSettings) : option Notifier :=
  if negb (truthy (telegram_bot_token settings)) || negb (truthy (telegram_chat_id settings))
  then None else Some TelegramNotifier.

(** [app.state] after [create_app]. *)
Record App := {
  app_settings : CollectorSettings;
  app_notifier : option Notifier;
  app_scheduler : option (list JobSchedule);
  app_rules : RulesConfig;
  app_policy : list PlaybookDefinition;
}.

(** The loaders, on the [data] the file at [path] holds; one that fails validation becomes a
    [ConfigurationError] (reading and parsing the file are not modelled). *)
Definition load_rules_config (path : string) (data : RulesConfig) : Res RulesConfig :=
  match validate_rules data with
  | Ok c => Ok c
  | Raise _ => Raise (ConfigurationError ("rules config file failed validation: " ++ path))
  end.

Definition load_remediation_policy (path : string) (data : list PlaybookDefinition)
    : Res (list PlaybookDefinition) :=
  match _validate_playbooks data with
  | Ok l => Ok l
  | Raise _ => Raise (ConfigurationError ("remediation policy file failed validation: " ++ path))
  end.

Definition create_app (nan_ok : bool) (settings : CollectorSettings) (rules : RulesConfig)
    (playbooks : list PlaybookDefinition) : Res App :=
  match validate_settings nan_ok settings with
  | Raise e => Raise e
  | Ok settings =>
  match _build_job_scheduler settings with
  | Raise e => Raise e
  | Ok scheduler =>
  match load_rules_config (rules_config_path settings) rules with
  | Raise e => Raise e
  | Ok rules =>
  match load_remediation_policy (remediation_policy_config_path settings) playbooks with
  | Raise e => Raise e
  | Ok policy =>
      Ok {| app_settings := settings; app_notifier := _build_notifier settings;
            app_scheduler := scheduler; app_rules := rules; app_policy := policy |}
  end end end end.

(** The providers of [api/deps.py]: what [app.state] holds, and the objects built from it
    for each request, the repositories being those of the request's session. *)
Definition get_settings (app : App) : CollectorSettings := app_settings app.
Definition get_rules_config (app : App) : RulesConfig := app_rules app.
Definition get_remediation_policy (app : App) : list PlaybookDefinition := app_policy app.
Definition get_notifier (app : App) : option Notifier := app_notifier app.
Definition get_rule_engine (app : App) : RuleEngine := RuleEngine_init (get_rules_config app).

Definition get_remediation_engine (app : App) : RemediationEngine :=
  let s := get_settings app in
  RemediationEngine_init (get_remediation_policy app) (remediation_enabled s)
    (max_remediations_per_node_per_hour s) (remediation_cooldown_seconds s).

(** [get_alert_evaluation_service]. *)
Definition get_alert_evaluation_service (app : App) : AlertEvaluationService :=
  let s := get_settings app in
  {| _rule_engine := get_rule_engine app;
     _notifier := get_notifier app;
     _escalation_after_seconds := escalation_after_seconds s;
     _remediation_engine := Some (get_remediation_engine app);
     _remediation_after_seconds := remediation_after_seconds s |}.

(** Whether the application's scheduler has a retention job. *)
Definition app_prunes (app : App) : bool :=
  existsb (fun s => bool_decide (js_job s = RetentionJob)) (default [] (app_scheduler app)).

Definition app_lifecycle (app : App) : LifecycleConfig :=
  with_retention (app_prunes app) (lifecycle_config (get_alert_evaluation_service app)).

(** ** Runs *)

(** The iteration order of the token set, fixed for the life of a process; one order stands
    for every process of a run, which matters to tokens outside ASCII only. *)
Context (token_order : gset string -> list string).

Inductive Event :=
| HttpRequest (credentials : option string) (request : Request)
| SchedulerPass
| RunAllOnce
| Restart.      (* the process ends between two requests, and a new one is created *)

(** The process: the database world, and the scheduler thread's entries. *)
Record Process := { p_world : World; p_entries : list Entry }.

Definition collector_handle (app : App) (credentials : option string) (request : Request)
    : M Response :=
  handle (app_settings app) (get_alert_evaluation_service app)
    (token_order (token_set (app_settings app))) credentials request.

(** The process after [create_app] and the start of the scheduler, on the database there is:
    what the last process knew of its jobs is gone. *)
Definition boot (app : App) (w : World) : Process :=
  let '(r, w) := first_entries (default [] (app_scheduler app)) w in
  {| p_world := w; p_entries := match r with Ok es => es | Raise _ => [] end |}.

(** One pass of the scheduler's loop. *)
Definition scheduler_pass (app : App) (entries : list Entry) : M (list Entry) :=
  run_passes (app_settings app) (app_notifier app) [false] entries.

(** [run_all_once] runs the jobs the loop's entries hold, so they share what the run leaves of
    each job's state; the due times are the loop's own. *)
Definition with_schedules (entries : list Entry) (schedules : list JobSchedule) : list Entry :=
  zip_with (fun e s => {| en_schedule := s; en_next_due := en_next_due e |}) entries schedules.

Definition run_event (app : App) (p : Process) (ev : Event) : Process :=
  match ev with
  | HttpRequest credentials request =>
      let '(_, w) := collector_handle app credentials request (p_world p) in
      {| p_world := w; p_entries := p_entries p |}
  | SchedulerPass =>
      let '(r, w) := scheduler_pass app (p_entries p) (p_world p) in
      {| p_world := w; p_entries := match r with Ok es => es | Raise _ => p_entries p end |}
  | RunAllOnce =>
      let '(r, w) := run_all_once (app_settings app) (app_notifier app)
                       (en_schedule <$> p_entries p) (p_world p) in
      {| p_world := w;
         p_entries := match r with
                      | Ok schedules => with_schedules (p_entries p) schedules
                      | Raise _ => p_entries p
                      end |}
  | Restart => boot app (p_world p)
  end.

Definition run_events (app : App) (events : list Event) (p : Process) : Process :=
  foldl (run_event app) p events.

(** ** Every run is a run of the lifecycle machine *)

Definition sound (db : Db) : Prop := base db /\ one_firing db /\ nodes_keyed db.

Lemma sound_stable c f : stable c f sound.
Proof.
  intros db db' (Hb & Hone & Hk) Hs.
  split; [by eapply base_stable|split; [by eapply one_firing_stable|by eapply nodes_keyed_stable]].
Qed.

Lemma sound_empty : sound empty_db.
Proof.
  split; [split; [apply keyed_empty|apply foreign_keys_empty]|].
  split; [apply one_firing_empty|apply map_Forall_empty].
Qed.

Lemma sound_ready db : sound db -> job_ready db.
Proof. intros (Hb & Hone & Hk). split; [split|]; done. Qed.

(** The scheduler's entries are of the application's jobs. *)
Definition entries_allowed (app : App) (p : Process) : Prop :=
  Forall (entry_allowed (app_lifecycle app)) (p_entries p).

Lemma first_entries_db schedules w : w_db (snd (first_entries schedules w)) = w_db w.
Proof.
  revert w. induction schedules as [|s rest IH]; intros w; [done|]. simpl.
  unfold mbind, M_bind. simpl. specialize (IH (bump w)).
  by destruct (first_entries rest (bump w)) as [[es|e] w1].
Qed.

Lemma first_entries_schedules schedules w :
  exists es w', first_entries schedules w = (Ok es, w') /\ en_schedule <$> es = schedules.
Proof.
  revert w. induction schedules as [|s rest IH]; intros w; [by exists [], w|]. simpl.
  unfold mbind, M_bind. simpl. destruct (IH (bump w)) as (es & w' & -> & Hes).
  eexists _, _. split; [done|]. by rewrite fmap_cons, Hes.
Qed.

Lemma boot_db app w : w_db (p_world (boot app w)) = w_db w.
Proof.
  unfold boot. pose proof (first_entries_db (default [] (app_scheduler app)) w) as H.
  by destruct (first_entries _ _) as [r w'].
Qed.

Lemma boot_allowed app w : entries_allowed app (boot app w).
Proof.
  unfold boot, entries_allowed.
  destruct (first_entries_schedules (default [] (app_scheduler app)) w) as (es & w' & -> & Hes). simpl.
  apply Forall_forall. intros e He Hj. simpl. unfold app_prunes. rewrite <- Hes.
  apply existsb_exists. exists (en_schedule e).
  split; [by apply list_elem_of_In, list_elem_of_fmap_2|by apply bool_decide_eq_true].
Qed.

Lemma with_schedules_allowed c entries l :
  Forall (fun s => job_allowed c (js_job s)) l ->
  Forall (entry_allowed c) (with_schedules entries l).
Proof.
  intros Hl. revert entries. induction Hl as [|s l Hs Hl IH]; intros [|e entries]; simpl; constructor; auto.
Qed.

Lemma run_event_steps app p ev :
  entries_allowed app p -> sound (w_db (p_world p)) ->
  entries_allowed app (run_event app p ev) /\
  rtc (step (app_lifecycle app) (~ Healthy)) (w_db (p_world p)) (w_db (p_world (run_event app p ev))).
Proof.
  intros Hall Hs. pose proof (sound_ready _ Hs) as Hr. destruct ev as [cr rq| | |]; simpl.
  - destruct (collector_handle app cr rq (p_world p)) as [r w] eqn:Eh. simpl.
    pose proof (handle_conforms (app_settings app) (get_alert_evaluation_service app)
      (token_order (token_set (app_settings app))) cr rq (p_world p) (proj1 Hs)) as Hc.
    split; [done|]. apply steps_with_retention; [done|]. exact (wp_run _ _ _ _ _ Eh Hc).
  - destruct (scheduler_pass app (p_entries p) (p_world p)) as [r w] eqn:Eh. simpl.
    eapply (wp_run _ (fun r w' => entries_allowed app {| p_world := w';
        p_entries := match r with Ok es => es | Raise _ => p_entries p end |} /\
      rtc _ _ (w_db w')) _ _ _ Eh).
    unfold scheduler_pass. simpl. apply wp_bind. unfold wp at 1. simpl.
    apply wp_bind. unfold wp at 1. simpl.
    apply wp_bind. eapply wp_mono; [by apply (run_due_steps _ _ (app_lifecycle app))|].
    intros [es|e] w1 [Hes Hst]; [by apply wp_ret|done].
  - destruct (run_all_once _ _ _ (p_world p)) as [r w] eqn:Eh. simpl.
    eapply (wp_run _ (fun r w' => entries_allowed app {| p_world := w';
        p_entries := match r with Ok l => with_schedules (p_entries p) l | Raise _ => p_entries p end |} /\
      rtc _ _ (w_db w')) _ _ _ Eh).
    eapply wp_mono; [apply (run_all_once_steps _ _ (app_lifecycle app)); [|done]|].
    + by apply Forall_fmap.
    + intros [l|e] w' [Hl Hst]; [|done]. split; [by apply with_schedules_allowed|done].
  - rewrite boot_db. by split; [apply boot_allowed|].
Qed.

Lemma run_events_steps app events p :
  entries_allowed app p -> sound (w_db (p_world p)) ->
  rtc (step (app_lifecycle app) (~ Healthy)) (w_db (p_world p))
    (w_db (p_world (run_events app events p))).
Proof.
  revert p. induction events as [|ev events IH]; intros p Hall Hs; simpl; [done|].
  destruct (run_event_steps app p ev Hall Hs) as [Hall' H1]. etrans; [exact H1|].
  apply IH; [done|]. eapply stable_rtc; [apply sound_stable|done|done].
Qed.

(** The events other than the scheduler's delete nothing, nor do those without a retention job. *)
Definition serves (ev : Event) : Prop :=
  match ev with HttpRequest _ _ | Restart => True | SchedulerPass | RunAllOnce => False end.

Lemma run_event_unpruned app p ev :
  entries_allowed app p -> sound (w_db (p_world p)) -> app_prunes app = false \/ serves ev ->
  rtc (step (lifecycle_config (get_alert_evaluation_service app)) (~ Healthy))
    (w_db (p_world p)) (w_db (p_world (run_event app p ev))).
Proof.
  intros Hall Hs [Hret|Hev].
  - destruct (run_event_steps app p ev Hall Hs) as [_ H]. revert H. apply rtc_subrel.
    unfold app_lifecycle. by rewrite Hret.
  - destruct ev as [cr rq| | |]; simpl in *; [|done..|by rewrite boot_db].
    destruct (collector_handle app cr rq (p_world p)) as [r w] eqn:Eh. simpl.
    pose proof (handle_conforms (app_settings app) (get_alert_evaluation_service app)
      (token_order (token_set (app_settings app))) cr rq (p_world p) (proj1 Hs)) as Hc.
    exact (wp_run _ _ _ _ _ Eh Hc).
Qed.

(** ** A run from the start *)

(** The first process, on an empty database. *)
Definition start (app : App) : Process :=
  boot app {| w_db := empty_db; w_tick := 0; w_posts := [] |}.

Definition db_after (app : App) (events : list Event) : Db :=
  w_db (p_world (run_events app events (start app))).

Lemma start_db app : w_db (p_world (start app)) = empty_db.
Proof. apply boot_db. Qed.

Lemma start_allowed app : entries_allowed app (start app).
Proof. apply boot_allowed. Qed.

Lemma db_after_reachable app events : reachable (app_lifecycle app) (~ Healthy) (db_after app events).
Proof.
  unfold reachable, db_after. rewrite <- (start_db app).
  apply run_events_steps; [apply start_allowed|].
  rewrite start_db. apply sound_empty.
Qed.

(** A run goes on from what it reached. *)
Lemma after_app app events more :
  run_events app (events ++ more) (start app) = run_events app more (run_events app events (start app)).
Proof. unfold run_events. apply foldl_app. Qed.

Lemma run_allowed app events p :
  entries_allowed app p -> sound (w_db (p_world p)) -> entries_allowed app (run_events app events p).
Proof.
  revert p. induction events as [|ev events IH]; intros p Hall Hs; [done|]. simpl.
  destruct (run_event_steps app p ev Hall Hs) as [Hall' H1].
  apply IH; [done|]. eapply stable_rtc; [apply sound_stable|done|done].
Qed.

Lemma db_after_sound app events : sound (db_after app events).
Proof. eapply stable_rtc; [apply sound_stable|apply sound_empty|apply db_after_reachable]. Qed.

Lemma after_allowed app events : entries_allowed app (run_events app events (start app)).
Proof. apply run_allowed; [apply start_allowed|]. rewrite start_db. apply sound_empty. Qed.

Lemma db_after_steps app events more :
  rtc (step (app_lifecycle app) (~ Healthy)) (db_after app events) (db_after app (events ++ more)).
Proof.
  unfold db_after at 2. rewrite after_app.
  apply run_events_steps; [apply after_allowed|apply db_after_sound].
Qed.

Lemma db_after_unpruned app events more :
  app_prunes app = false \/ Forall serves more ->
  rtc (step (lifecycle_config (get_alert_evaluation_service app)) (~ Healthy))
    (db_after app events) (db_after app (events ++ more)).
Proof.
  unfold db_after at 2. rewrite after_app. intros Hmore.
  pose proof (after_allowed app events) as Hall. pose proof (db_after_sound app events) as Hs.
  unfold db_after in *. revert Hall Hs. generalize (run_events app events (start app)) as p.
  induction more as [|ev more IH]; intros p Hall Hs; [done|]. simpl.
  assert ((app_prunes app = false \/ serves ev) /\ (app_prunes app = false \/ Forall serves more))
    as [Hev Hmore'] by (rewrite Forall_cons in Hmore; destruct Hmore as [?|[? ?]]; auto).
  destruct (run_event_steps app p ev Hall Hs) as [Hall' H1].
  etrans; [by apply run_event_unpruned|]. apply IH; [done|done|]. eapply stable_rtc; [apply sound_stable|exact Hs|exact H1].
Qed.

(** An invariant of the machine holds of every database a run reaches. *)
Lemma db_after_invariant app events (I : Db -> Prop) :
  stable (app_lifecycle app) (~ Healthy) I -> I empty_db -> I (db_after app events).
Proof. intros HI H0. eapply stable_rtc; [exact HI|exact H0|apply db_after_reachable]. Qed.

(** Settings that passed validation order the two ages when remediation is on. *)
Lemma created_ordered nan_ok settings rules playbooks app :
  create_app nan_ok settings rules playbooks = Ok app ->
  is_nan (escalation_after_seconds settings) = false ->
  is_nan (remediation_after_seconds settings) = false ->
  ordered (app_lifecycle app).
Proof.
  unfold create_app. intros Hc He Hr.
  pose proof (validate_settings_sound nan_ok settings) as Hv.
  destruct (validate_settings nan_ok settings) as [s|e]; [|done]. destruct Hv as (-> & _ & Hv).
  repeat (case_match; [|done]). injection Hc as <-.
  intros (e & [= <-] & Hen). simpl in *. apply flt_false_fle; [done|done|]. by apply Hv.
Qed.

(** ** Properties *)

(** C1: whatever requests, scheduler passes and restarts the Collector goes through, under
    whatever pattern of database failures, row orders and clock readings, each event takes the
    database from where the last one left it by the guarded transitions of the lifecycle
    machine only, starting from an empty database. *)
Theorem collector_refines_lifecycle app events :
  db_after app [] = empty_db /\
  forall ev, rtc (step (app_lifecycle app) (~ Healthy)) (db_after app events) (db_after app (events ++ [ev])).
Proof. split; [apply start_db|intros ev; apply db_after_steps]. Qed.

(** C2: at no time are two alerts firing for the same node and rule (requests handled one at a
    time): the deduplication of [find_open_alert] before [create_alert]. *)
Theorem one_open_alert_per_condition app events k1 a1 k2 a2 :
  let db := db_after app events in
  alerts db !! k1 = Some a1 -> alerts db !! k2 = Some a2 ->
  am_status a1 = FIRING -> am_status a2 = FIRING ->
  am_node_id a1 = am_node_id a2 -> am_rule_key a1 = am_rule_key a2 -> k1 = k2.
Proof.
  apply (db_after_invariant app events one_firing); [apply one_firing_stable|apply one_firing_empty].
Qed.

(** C3: the hourly Safety Limit: in every window of one hour, the actions dispatched to a node
    (those not blocked) number at most [max_remediations_per_node_per_hour]. *)
Theorem hourly_dispatch_limit app events node_id since :
  Z.of_nat (count (in_hour node_id since) (remediation_actions (db_after app events))) <=
  Z.max 0 (max_remediations_per_node_per_hour (app_settings app)).
Proof.
  apply (db_after_invariant app events (rate_limited (app_lifecycle app)))
    with (e := get_remediation_engine app); [apply rate_limited_stable|apply rate_limited_empty|done].
Qed.

(** C4: the cooldown: two dispatched actions of one playbook on one node were created at least
    [remediation_cooldown_seconds] apart. *)
Theorem dispatch_cooldown app events k1 r1 k2 r2 :
  is_nan (remediation_cooldown_seconds (app_settings app)) = false ->
  let db := db_after app events in
  k1 <> k2 -> remediation_actions db !! k1 = Some r1 -> remediation_actions db !! k2 = Some r2 ->
  rm_node_id r1 = rm_node_id r2 -> rm_playbook_name r1 = rm_playbook_name r2 ->
  rm_status r1 <> BLOCKED_BY_SAFETY_LIMIT -> rm_status r2 <> BLOCKED_BY_SAFETY_LIMIT ->
  rm_created_at r1 <= rm_created_at r2 ->
  remediation_cooldown_seconds (app_settings app) <=.
    total_seconds (rm_created_at r2 - rm_created_at r1).
Proof.
  intros Hnan.
  apply (db_after_invariant app events (cooled (app_lifecycle app)))
    with (e := get_remediation_engine app); [|apply cooled_empty|done].
  apply cooled_stable. by intros e [= <-].
Qed.

(** C16: in an application whose settings passed validation and whose two delays are numbers, an
    alert that was handed to remediation had escalated, so a human was notified first. *)
Theorem remediation_only_after_escalation nan_ok settings rules playbooks app events id a :
  create_app nan_ok settings rules playbooks = Ok app ->
  is_nan (escalation_after_seconds settings) = false ->
  is_nan (remediation_after_seconds settings) = false ->
  alerts (db_after app events) !! id = Some a ->
  is_Some (am_remediated_at a) -> is_Some (am_escalated_at a).
Proof.
  intros Hc He Hr Ha.
  assert (alerts_wf (app_lifecycle app) (db_after app events)) as Hwf.
  { apply db_after_invariant; [apply alerts_wf_stable|apply map_Forall_empty]. }
  apply (Hwf _ _ Ha). by eapply created_ordered.
Qed.

(** C17: with a database that answers, an alert is attempted at most once: no two remediation
    actions refer to one alert, and an alert without a remediation stamp has none. *)
Theorem one_remediation_per_alert app events :
  Healthy -> attempted_once (db_after app events).
Proof.
  intros Hh. pose proof (db_after_reachable app events) as Hr.
  assert (forall db db', step (app_lifecycle app) (~ Healthy) db db' ->
                         step (app_lifecycle app) False db db') as Hweak.
  { intros db db' Hs. destruct Hs; try (by econstructor); done. }
  apply (rtc_subrel _ _ _ _ Hweak) in Hr.
  by apply (stable_rtc _ _ _ _ _ (attempted_once_stable (app_lifecycle app))) in Hr as [_ ?];
    [|split; [apply foreign_keys_empty|apply attempted_once_empty]].
Qed.

(** C27: every row carries its key, every reference names an existing row, alerts and actions are
    well formed: resolved exactly when [resolved_at] is set, acknowledged with a name, a
    blocked action with its reason and no completion, a completed one with its time. *)
Theorem tables_well_formed app events :
  let db := db_after app events in
  keyed db /\ nodes_keyed db /\ foreign_keys db /\ alerts_wf (app_lifecycle app) db /\ actions_wf db.
Proof.
  pose proof (fun I => db_after_invariant app events I) as Hinv.
  split; [apply (Hinv keyed); [apply keyed_stable|apply keyed_empty]|].
  split; [apply (Hinv nodes_keyed); [apply nodes_keyed_stable|apply map_Forall_empty]|].
  split; [apply (Hinv foreign_keys); [apply foreign_keys_stable|apply foreign_keys_empty]|].
  split; [apply (Hinv (alerts_wf _)); [apply alerts_wf_stable|apply map_Forall_empty]|].
  apply (Hinv actions_wf); [apply actions_wf_stable|apply map_Forall_empty].
Qed.

(** C25: an alert's history, between any two times of a run in between which nothing is pruned
    (no retention job is scheduled, or requests and restarts only): its row stays, its node,
    rule and first firing are fixed, a resolved alert is frozen, the escalation and remediation
    stamps are set at most once, and never once it is acknowledged, which it then remains. *)
Theorem alert_history app events more id a :
  app_prunes app = false \/ Forall serves more ->
  alerts (db_after app events) !! id = Some a ->
  exists a', alerts (db_after app (events ++ more)) !! id = Some a' /\ alert_kept a a'.
Proof.
  intros Hmore Hrow. eapply steps_alert_kept; [|by apply db_after_unpruned|exact Hrow]. done.
Qed.


End collector.
