(* ===== verification/Keeping.v ===== *)
(** * What retention leaves in place

    The retention job deletes samples received before its cutoff, the time of its run less
    [metrics_retention_days].  A sample that no cutoff of a run lies after is there until the
    end of the run: no request, no other job and no restart removes it. *)

From S2P Require Import Prelude PyFloat PyTime Domain Schema Runtime Protocols Tables.
From S2P Require Import SqlNodeRepository SqlAlertRepository SqlMetricsRepository.
From S2P Require Import SqlActionRepository Rules Remediation Notifications Lifecycle Settings.
From S2P Require Import Ingestion Dispatch Retention JobScheduler Routes Api Frames Collector.

Local Open Scope Z_scope.

(** Not yet due for deletion, whenever the job runs. *)
Definition young `{E : Env} (settings : CollectorSettings) (received_at : datetime) : Prop :=
  forall cutoff, sample_cutoff settings cutoff -> cutoff <= received_at.

Definition keeps_young `{E : Env} (settings : CollectorSettings) (db db' : Db) : Prop :=
  forall id r, metric_samples db !! id = Some r -> young settings (mm_received_at r) ->
    metric_samples db' !! id = Some r.

#[export] Instance keeps_young_preorder `{E : Env} settings : PreOrder (keeps_young settings).
Proof. split; [by intros db id r|]. intros x y z H1 H2 id r Hr Hy. by apply H2; [apply H1|]. Qed.

Lemma keeps_same `{E : Env} settings db db' :
  metric_samples db' = metric_samples db -> keeps_young settings db db'.
Proof. intros Hs id r. by rewrite Hs. Qed.

Section calls.
Context `{E : Env, !NodeRepository, !MetricsRepository, !AlertRepository,
          !RemediationActionRepository} (settings : CollectorSettings).

Abbreviation R := (on_db (keeps_young settings)).

Lemma young_reads {A} (m : M A) P : reads m P -> framed R m.
Proof. apply framed_reads. apply _. Qed.

(** A write to another table. *)
Lemma young_writes {A} (m : M A) pre P :
  writes m pre P -> (forall db a db', P db a db' -> metric_samples db' = metric_samples db) ->
  framed R m.
Proof. intros Hm HP. eapply framed_writes; [apply _|exact Hm|]. intros. eapply keeps_same, HP; done. Qed.

Lemma young_update m id f : updates_alert m id f -> framed R m.
Proof. intros Hm. eapply young_writes; [exact Hm|]. by intros db a db' (x & _ & _ & ->). Qed.

#[export] Instance young_jobs : FramedJobs R (sample_cutoff settings).
Proof.
  split; intros.
  - apply keeps_same. done.
  - eapply young_writes; [apply prune_terminal_before_writes|]. by intros db k db' (ids & _ & _ & ->).
  - eapply young_writes; [apply prune_resolved_before_writes|]. by intros db k db' (ids & _ & _ & -> & _).
  - eapply framed_writes; [apply _|apply prune_samples_before_writes|].
    intros db k db' (ids & _ & (_ & Hids & _) & ->) id r Hr Hy. simpl. rewrite lookup_without.
    split; [done|]. intros Hin. destruct (Hids id Hin) as (r' & Hr' & Hold).
    simplify_eq. unfold sample_prunable in Hold. simpl in Hold.
    specialize (Hy cutoff ltac:(done)). lia.
  - eapply young_reads, list_dispatched_before_reads.
  - eapply young_writes; [apply mark_result_writes|]. by intros db rec db' (r & _ & _ & ->).
Qed.

Lemma young_find_previous n m t x : framed R (find_previous_sample n m t x).
Proof.
  destruct (timedelta_of_seconds x) as [d|te] eqn:Ed; [destruct (datetime_sub t d) as [since|te] eqn:Es|].
  - by eapply young_reads, find_previous_sample_reads.
  - intros w. erewrite find_previous_sample_time_error by eauto. by apply keeps_same.
  - intros w. erewrite find_previous_sample_time_error by eauto. by apply keeps_same.
Qed.

#[export] Instance young_calls : FramedCalls R (sample_cutoff settings) (fun _ => True).
Proof.
  split; [apply _|intros..].
  - intros w. destruct (notify_total n message w) as (_ & Hdb & _). apply keeps_same. by rewrite Hdb.
  - intros w. unfold sql_select. case_match; by apply keeps_same.
  - eapply young_writes; [apply upsert_seen_writes|]. by intros db rec db' [_ ->].
  - eapply young_reads, node_get_reads.
  - eapply young_reads, list_all_reads.
  - eapply framed_writes; [apply _|apply bulk_insert_writes|].
    intros db u db' (ids & _ & _ & Hfresh & ->) id r Hr _. simpl.
    apply lookup_union_Some_r; [by apply new_samples_fresh|done].
  - apply young_find_previous.
  - eapply young_reads, find_open_alert_reads.
  - eapply young_writes; [apply create_alert_writes|]. by intros db rec db' (id & _ & _ & -> & _).
  - eapply young_update, update_last_fired_writes.
  - eapply young_update, resolve_alert_writes.
  - eapply young_update, acknowledge_alert_writes.
  - eapply young_update, escalate_alert_writes.
  - eapply young_update, mark_remediated_writes.
  - eapply young_reads, alert_get_reads.
  - eapply young_reads, list_alerts_reads.
  - eapply young_writes; [apply create_action_writes|]. by intros db rec db' (k & _ & _ & -> & _).
  - eapply young_reads, count_recent_actions_reads.
  - eapply young_reads, find_last_action_reads.
  - eapply young_reads, action_get_reads.
  - eapply young_reads, list_actions_reads.
Qed.

End calls.

(** ** Runs *)

Section runs.
Context `{E : Env} (token_order : gset string -> list string) (app : App).

Lemma event_keeps p ev :
  keeps_young (app_settings app) (w_db (p_world p))
    (w_db (p_world (run_event token_order app p ev))).
Proof.
  set (R := on_db (keeps_young (app_settings app))).
  set (cut := sample_cutoff (app_settings app)). set (any := fun _ : string => True).
  destruct ev as [cr rq| | |]; simpl.
  - pose proof (framed_handle R cut any (app_settings app) (get_alert_evaluation_service app)
      (token_order (token_set (app_settings app))) cr rq ltac:(done) (p_world p)) as Hf.
    unfold collector_handle. by destruct (handle _ _ _ _ _ _).
  - pose proof (framed_passes R cut any (app_settings app) ltac:(done) (app_notifier app) [false]
      (p_entries p) (p_world p)) as Hf.
    unfold scheduler_pass. by destruct (run_passes _ _ _ _ _).
  - pose proof (framed_once R cut any (app_settings app) ltac:(done) (app_notifier app)
      (en_schedule <$> p_entries p) (p_world p)) as Hf.
    by destruct (run_all_once _ _ _ _).
  - rewrite boot_db. reflexivity.
Qed.

Lemma events_keep events p :
  keeps_young (app_settings app) (w_db (p_world p))
    (w_db (p_world (run_events token_order app events p))).
Proof.
  revert p. induction events as [|ev events IH]; intros p; [reflexivity|]. simpl.
  etrans; [apply event_keeps|apply IH].
Qed.

(** No clock reading of a run is a whole retention period after another: nothing received
    during the run is deleted in it. *)
Definition short_run : Prop := forall k, young (app_settings app) (clock k).

(** Samples are not deleted while it matters. *)
Definition spares_samples : Prop := app_prunes app = false \/ short_run.

End runs.
