(* ===== verification/ConcurrentOthers.v ===== *)
(** * The other threads meet their guarantees

    Acknowledgements, results, reads and heartbeats, which run next to anything, and the
    scheduler's two sweeps: each of their calls moves the database as [guar] allows, and
    they leave it [consistent]. *)

From S2P Require Import Prelude PyFloat PyTime PyStr Domain Schema Runtime Threads Protocols.
From S2P Require Import Tables SqlNodeRepository SqlAlertRepository SqlMetricsRepository.
From S2P Require Import SqlActionRepository Rules Remediation Notifications Lifecycle Invariants.
From S2P Require Import Conformance Races Settings NodeRegistry RemediationService Alerting.
From S2P Require Import Ingestion Reconciliation Staleness Interference Guarantees JobScheduler.
From S2P Require Import Routes Api ServiceThreads.

Local Open Scope Z_scope.
Local Open Scope pulse_scope.

(** ** The other requests *)

Section others.
Context `{E : Env, !NodeRepository, !MetricsRepository, !AlertRepository,
          !RemediationActionRepository}.
Context (c : LifecycleConfig) (Hret : lc_retention c = false).

Abbreviation safe κ := (Threads.safe (rely c κ) (guar c κ)).

Lemma consistent_guar κ db db' : consistent db -> guar c κ db db' -> consistent db'.
Proof. intros Hc [Hm _]. by eapply consistent_moves. Qed.

(** A kind without anything of its own to settle. *)
Definition simple (κ : Kind) : Prop := match κ with PushOf _ => False | _ => True end.

Lemma simple_tok κ db : simple κ -> tok κ db <-> consistent db.
Proof. destruct κ; [done|..]; intros _; (split; [by intros []|by split]). Qed.

Lemma consistent_ret {A} κ (a : A) db : consistent db -> safe κ (mret a) (fun _ => consistent) db.
Proof. intros Hc db' Hr. by eapply consistent_rely. Qed.

(** A call that changes nothing. *)
Lemma safe_quiet {A} κ (m : M A) db :
  (forall w, wp m (fun _ w' => w_db w' = w_db w) w) -> consistent db ->
  safe κ (call m) (fun _ => consistent) db.
Proof.
  intros Hm Hc. eapply (safe_same c κ _ (fun _ => True)); [|by intros r d _ Hr; eapply consistent_rely].
  intros w. eapply wp_mono; [apply Hm|]. by intros r w' ->.
Qed.

(** A write that meets the guarantee. *)
Lemma safe_guar {A} κ (m : M A) pre P db :
  writes m pre P -> consistent db ->
  (forall db1 a db2, consistent db1 -> rely c κ db db1 -> P db1 a db2 -> guar c κ db1 db2) ->
  safe κ (call m) (fun _ => consistent) db.
Proof.
  intros Hm Hc HG. eapply safe_writes; [apply Hm|]. intros db1 R1.
  pose proof (consistent_rely _ _ _ _ Hc R1) as Hc1.
  split; [|by intros e _ _ db2 R2; eapply consistent_rely].
  intros a db2 HP. pose proof (HG _ _ _ Hc1 R1 HP) as Hg. split; [done|].
  intros db3 R3. eapply consistent_rely; [|exact R3]. by eapply consistent_guar.
Qed.

(** *** Acknowledgements and results *)

Lemma safe_acknowledge κ alert_id by_ db :
  consistent db -> safe κ (acknowledge alert_id by_) (fun _ => consistent) db.
Proof.
  intros Hc. unfold acknowledge. apply (safe_seq c _ _ _ (fun _ => consistent)); [| |done].
  { apply safe_quiet; [|done]. intros w. unfold Alerting.get_alert. wp_step alert_get_reads.
    intros [[rec|]|e] w' [[Hdb _] _]; done. }
  intros view d1 C1. destruct (av_status view); [|intros d2 R2; by eapply consistent_rely].
  apply (safe_seq c _ _ _ (fun _ => consistent)); [by apply safe_quiet| |done].
  intros now d2 C2. apply (safe_seq c _ _ _ (fun _ => consistent)); [| |done].
  - eapply safe_guar; [apply acknowledge_alert_writes|done|].
    intros d3 rec d4 _ _ (a & Ha & _ & ->). by apply guar_acknowledge.
  - intros rec d3 C3. by apply consistent_ret.
Qed.

Lemma safe_complete κ id st reason t db :
  consistent db -> let_through id db -> st = EXECUTED \/ st = FAILED ->
  safe κ (call (mark_result id st reason t)) (fun _ => consistent) db.
Proof.
  intros Hc Hl Hst. eapply safe_guar; [apply mark_result_writes|done|].
  intros d1 rec d2 _ R1 (r & Hr & _ & ->).
  destruct (let_through_rely c Hret _ _ _ _ Hl R1) as (r' & Hr' & Hb). simplify_eq.
  by apply guar_complete.
Qed.

Lemma safe_report κ action_id result db :
  consistent db -> safe κ (report_result action_id result) (fun _ => consistent) db.
Proof.
  intros Hc. unfold report_result.
  apply (safe_seq c _ _ _ (fun r d => consistent d /\
    match r with Ok rec => rr_status rec = DISPATCHED -> let_through action_id d
            | Raise _ => True end)); [| |by intros e d [? _]].
  { apply safe_call. intros w Hw. unfold RemediationService.get_action.
    wp_step action_get_reads. intros [o|e] w' [[Hdb _] Hr].
    2: { rewrite Hdb. split; [apply guar_refl|]. intros d Rd. split; [|done].
         eapply consistent_rely; [|exact Rd]. by eapply consistent_rely. }
    subst o. assert (consistent (w_db w)) as Cw by by eapply consistent_rely.
    destruct (remediation_actions (w_db w) !! action_id) as [r|] eqn:Er; simpl.
    - apply wp_ret. rewrite Hdb. split; [apply guar_refl|]. intros d Rd.
      split; [by eapply consistent_rely|]. intros Hd. eapply (let_through_rely c Hret); [|exact Rd].
      exists r. split; [done|]. intros Hb. simpl in Hd. congruence.
    - apply wp_raise. rewrite Hdb. split; [apply guar_refl|]. intros d Rd.
      split; [|done]. by eapply consistent_rely. }
  intros rec d1 [C1 Hl]. destruct (rr_status rec) eqn:Est;
    try (intros d2 R2; by eapply consistent_rely).
  specialize (Hl eq_refl).
  apply (safe_seq c _ _ _ (fun _ d => consistent d /\ let_through action_id d)); [| |by intros e d [? _]].
  - eapply (safe_same c κ _ (fun _ => True)); [by intros w; split|]. intros r d _ Hr.
    split; [by eapply consistent_rely|by eapply (let_through_rely c Hret)].
  - intros now d2 [C2 L2]. apply safe_complete; [done|done|]. destruct (res_status result); auto.
Qed.

(** *** The scheduler's sweeps *)

(** The actions to be timed out, each of which was let through. *)
Definition awaiting (ids : list Z) (db : Db) : Prop :=
  consistent db /\ Forall (fun id => let_through id db) ids.

Lemma awaiting_rely κ ids db db' : awaiting ids db -> rely c κ db db' -> awaiting ids db'.
Proof.
  intros [Hc Hl] Hr. split; [by eapply consistent_rely|]. eapply Forall_impl; [exact Hl|].
  intros id Hid. exact (let_through_rely c Hret _ _ _ _ Hid Hr).
Qed.

Lemma awaiting_guar κ ids db db' : awaiting ids db -> guar c κ db db' -> awaiting ids db'.
Proof.
  intros [Hc Hl] Hg. split; [by eapply consistent_guar|]. eapply Forall_impl; [exact Hl|].
  intros id Hid. exact (let_through_moves c Hret _ _ _ Hid (proj1 Hg)).
Qed.

Lemma safe_time_out κ ids now k rec db :
  rr_id rec ∈ ids -> awaiting ids db ->
  safe κ (time_out now k rec) (fun _ => awaiting ids) db.
Proof.
  intros Hin Hdb. unfold time_out. apply (safe_seq c _ _ _ (fun _ => awaiting ids)); [| |done].
  2: { intros r d Hd d' Rd. by eapply awaiting_rely. }
  eapply safe_writes; [apply mark_result_writes|]. intros d1 R1.
  assert (awaiting ids d1) as A1 by by eapply awaiting_rely.
  split; [|intros e _ _ d2 R2; by eapply awaiting_rely].
  intros rc d2 (r & Hr & _ & ->).
  pose proof (proj1 (Forall_forall _ _) (proj2 A1) _ Hin) as (r' & Hr' & Hb). simplify_eq.
  assert (guar c κ d1 (set_actions (<[rr_id rec := completed FAILED (Some TIMED_OUT_REASON)
    now r]> (remediation_actions d1)) d1)) as Hg by (apply guar_complete; [done|done|by right]).
  split; [exact Hg|]. intros d3 R3. exact (awaiting_rely _ _ _ _ (awaiting_guar _ _ _ _ A1 Hg) R3).
Qed.

Lemma safe_reconciliation κ timeout db :
  consistent db -> safe κ (reconciliation_run timeout) (fun _ => consistent) db.
Proof.
  intros Hc. unfold reconciliation_run. apply (safe_seq c _ _ _ (fun _ => consistent));
    [by apply safe_quiet| |done].
  intros now d1 C1. apply (safe_seq c _ _ _ (fun _ => consistent));
    [intros d2 R2; by eapply consistent_rely| |done].
  intros td d2 C2. apply (safe_seq c _ _ _ (fun _ => consistent));
    [intros d3 R3; by eapply consistent_rely| |done].
  intros cutoff d3 C3. apply (safe_seq c _ _ _ (fun r d =>
    match r with Ok l => awaiting (rr_id <$> l) d | Raise _ => consistent d end)); [| |done].
  - eapply safe_reads; [apply list_dispatched_before_reads|]. intros d4 R4.
    assert (consistent d4) as C4 by by eapply consistent_rely. split; [|done].
    intros l Hl d5 R5. eapply awaiting_rely; [|exact R5]. split; [done|]. rewrite Hl.
    apply Forall_forall. intros id (rec & -> & (r & -> & Hin)%list_elem_of_fmap)%list_elem_of_fmap.
    apply list_elem_of_filter in Hin as [[Hd _] [k Hk]%elem_of_rows]. exists r. simpl.
    rewrite (proj2 (proj1 (proj1 C4)) _ _ Hk). split; [done|]. congruence.
  - intros l d4 A4. eapply safe_mono.
    + apply (safe_fold (rely c κ) (guar c κ) (time_out now) (fun _ => awaiting (rr_id <$> l))
        (fun _ => consistent)); [| |exact A4].
      * intros k rec d Hin Ad. eapply safe_mono; [apply safe_time_out; [|exact Ad]|].
        { by apply list_elem_of_fmap_2. }
        by intros [?|?] d' [? ?].
      * intros k d d' Ad Rd. by eapply awaiting_rely.
    + intros [k|e] d Hd; [apply Hd|done].
Qed.

Lemma safe_sweep_node stale_after notifier first now acc node db :
  consistent db ->
  safe Scheduler (sweep_node stale_after notifier first now acc node) (fun _ => consistent) db.
Proof.
  intros Hc. unfold sweep_node. set (key := STALENESS_RULE_KEY).
  apply (safe_seq c _ _ _ (fun r d => consistent d /\ match r with
    | Ok None => absent (nr_node_id node) key d
    | Ok (Some rec) => exists a, rec = alert_to_record a /\ held Scheduler (am_id a) a d
    | Raise _ => True end)); [| |by intros e d [? _]].
  - eapply safe_reads; [apply find_open_alert_reads|]. intros d1 R1.
    assert (consistent d1) as C1 by by eapply consistent_rely. split; [|done].
    intros [rec|] Hr d2 R2; (split; [by eapply consistent_rely|]).
    + destruct Hr as (id & a & Ha & (Hn & Hk & Hf) & ->). exists a. split; [done|].
      eapply (held_rely c Hret); [|exact R2]. rewrite (proj1 (proj1 (proj1 C1)) _ _ Ha).
      split; [done|]. split; [done|]. exists a. split; [done|reflexivity].
    + eapply absent_rely; [|exact Hr|exact R2]. by intros a _ Hk.
  - intros o d1 [C1 Ho]. destruct (fge _ stale_after).
    + destruct o as [rec|]; [by apply consistent_ret|]. destruct first; [|by apply consistent_ret].
      apply (safe_seq c _ _ _ (fun r d => consistent d /\ absent (nr_node_id node) key d));
        [| |by intros e d [? _]].
      { eapply (safe_same c _ _ (fun _ => True)).
        - intros w. unfold silent_description. by destruct (float_trunc _).
        - intros r d _ Rd. split; [by eapply consistent_rely|].
          eapply absent_rely; [|exact Ho|exact Rd]. by intros a _ Hk. }
      intros desc d2 [C2 Habs]. apply (safe_seq c _ _ _ (fun _ => consistent)).
      * eapply safe_writes; [apply create_alert_writes|]. intros d3 R3.
        assert (consistent d3) as C3 by by eapply consistent_rely.
        split; [|by intros e _ _ d4 R4; eapply consistent_rely].
        intros rec d4 (id & Hid & -> & -> & Hfk).
        assert (guar c Scheduler d3 (set_alerts (<[id := new_alert id (nr_node_id node) key
          STALENESS CRITICAL desc (total_seconds (now - nr_last_seen_at node)) stale_after now]>
          (alerts d3)) d3)) as Hg.
        { apply guar_open; [done|done| |].
          - exact (proj1 Hfk id _ (lookup_insert_eq _ _ _)).
          - eapply absent_rely; [|exact Habs|exact R3]. by intros a _ Hk. }
        split; [exact Hg|]. intros d5 R5. eapply consistent_rely; [|exact R5].
        by eapply consistent_guar.
      * intros rec d3 C3. apply (safe_seq c _ _ _ (fun _ => consistent));
          [apply safe_quiet; [|done]; intros w; by apply wp_notify| |done].
        intros u d4 C4. by apply consistent_ret.
      * done.
    + destruct o as [rec|]; [|by apply consistent_ret]. destruct Ho as (a & -> & Hheld).
      apply (safe_seq c _ _ _ (fun _ => consistent)).
      * eapply safe_guar; [apply resolve_alert_writes|done|].
        intros d2 rec d3 C2 R2 (a1 & Ha1 & _ & ->).
        destruct (held_rely c Hret _ _ _ _ _ Hheld R2) as (Hm & Hf & a2 & Ha2 & Hu).
        simpl in Ha1. simplify_eq. apply (guar_update c Scheduler _ a1); [by rewrite Hu|done|].
        left. split; [by rewrite Hu|constructor].
      * intros rec d2 C2. apply (safe_seq c _ _ _ (fun _ => consistent));
          [apply safe_quiet; [|done]; intros w; by apply wp_notify| |done].
        intros u d4 C4. by apply consistent_ret.
      * done.
Qed.

Lemma safe_staleness stale_after notifier first db :
  consistent db ->
  safe Scheduler (staleness_run stale_after notifier first) (fun _ => consistent) db.
Proof.
  intros Hc. unfold staleness_run. apply (safe_seq c _ _ _ (fun _ => consistent));
    [by apply safe_quiet| |done].
  intros now d1 C1. apply (safe_seq c _ _ _ (fun _ => consistent)); [| |done].
  { apply safe_quiet; [|done]. intros w. eapply wp_mono; [apply list_all_reads|].
    by intros r w' [[? _] _]. }
  intros l d2 C2. eapply safe_mono; [apply (safe_fold (rely c Scheduler) (guar c Scheduler)
    (sweep_node stale_after notifier first now) (fun _ => consistent) (fun _ => consistent))|].
  - intros acc x d _ Cd. eapply safe_mono; [by apply safe_sweep_node|]. by intros [?|?] d'.
  - intros acc d d' Cd Rd. by eapply consistent_rely.
  - done.
  - by intros [?|?] d.
Qed.

(** *** Requests of one call *)

(** A request that is neither a push, nor an acknowledgement, nor a result. *)
Definition one_call (request : Request) : Prop :=
  match request with
  | ReceiveMetrics _ | AcknowledgeAlert _ _ | ReportResult _ _ => False
  | _ => True
  end.

Lemma quiet_views stale_after l w : wp (views stale_after l) (fun _ w' => w_db w' = w_db w) w.
Proof.
  revert w. induction l as [|r l IH]; intros w; [done|]. simpl. apply wp_bind.
  unfold node_to_view. apply wp_bind. unfold wp at 1. simpl. apply wp_ret. apply wp_bind.
  eapply wp_mono; [apply IH|]. by intros [vs|e] w' Hdb.
Qed.

(** It reads, or a heartbeat marks its node as seen. *)
Lemma one_call_db settings service request w :
  one_call request ->
  wp (Api.route settings service request) (fun _ w' => w_db w' = w_db w \/
    exists n t, w_db w' = set_nodes (<[n := seen_node (nodes (w_db w) !! n) n t]>
      (nodes (w_db w))) (w_db w)) w.
Proof.
  intros Hone. destruct request; try done; cbn [Api.route]; unfold fmap, M_fmap; apply wp_bind.
  - unfold receive_heartbeat. wp_step seen_writes. intros [v|e] w' [_ Hr]; [|left; apply Hr].
    right. exists (hb_node_id ping), (hb_sent_at ping). exact Hr.
  - unfold list_nodes, NodeRegistry.list_nodes. do 2 apply wp_bind.
    eapply wp_mono; [apply list_all_reads|]. intros [l|e] w' [[Hdb _] _]; [|by left].
    eapply wp_mono; [apply quiet_views|]. intros [vs|e] w2 Hdb2; left; simpl; congruence.
  - unfold get_node, NodeRegistry.get_node. do 2 apply wp_bind.
    eapply wp_mono; [apply node_get_reads|]. intros [[r|]|e] w' [[Hdb _] _]; by left.
  - unfold list_alerts, list_alert_views. do 2 apply wp_bind.
    eapply wp_mono; [apply list_alerts_reads|]. intros [l|e] w' [[Hdb _] _]; by left.
  - unfold get_alert, Alerting.get_alert. do 2 apply wp_bind.
    eapply wp_mono; [apply alert_get_reads|]. intros [[r|]|e] w' [[Hdb _] _]; by left.
  - unfold list_remediation_actions, list_action_records. apply wp_bind.
    eapply wp_mono; [apply list_actions_reads|]. intros [l|e] w' [[Hdb _] _]; by left.
  - unfold get_remediation_action, get_action. do 2 apply wp_bind.
    eapply wp_mono; [apply action_get_reads|]. intros [[r|]|e] w' [[Hdb _] _]; by left.
  - unfold healthz. apply wp_bind. eapply wp_mono; [apply select_reads|].
    intros [l|e] w' [[Hdb _] _]; by left.
Qed.

Lemma safe_one_call κ settings service request db :
  one_call request -> consistent db ->
  safe κ (call (Api.route settings service request)) (fun _ => consistent) db.
Proof.
  intros Hone Hc. apply safe_call. intros w Hw.
  assert (consistent (w_db w)) as Cw by by eapply consistent_rely.
  eapply wp_mono; [by apply one_call_db|]. intros r w' Hdb.
  assert (guar c κ (w_db w) (w_db w')) as Hg.
  { destruct Hdb as [-> |(n & t & ->)]; [apply guar_refl|apply guar_seen]. }
  split; [exact Hg|]. intros d Rd. eapply consistent_rely; [|exact Rd]. by eapply consistent_guar.
Qed.

Lemma safe_shared_route settings service request db :
  (forall p, request <> ReceiveMetrics p) -> consistent db ->
  safe Shared (route settings service request) (fun _ => consistent) db.
Proof.
  intros Hnot Hc. destruct request as [p| | | | | |id body| | |id body|];
    try (by apply safe_one_call).
  - by destruct (Hnot p).
  - apply (safe_seq c _ _ _ (fun _ => consistent)); [| |done].
    + apply (safe_seq c _ _ _ (fun _ => consistent)); [by apply safe_acknowledge| |done].
      intros v d Cd. by apply consistent_ret.
    + intros v d Cd. by apply consistent_ret.
  - apply (safe_seq c _ _ _ (fun _ => consistent)); [| |done].
    + apply (safe_seq c _ _ _ (fun _ => consistent)); [by apply safe_report| |done].
      intros v d Cd. by apply consistent_ret.
    + intros v d Cd. by apply consistent_ret.
Qed.

End others.
