(* ===== verification/Concurrent.v ===== *)
(** * The Collector with concurrent requests

    The pool of [main.py]'s application: the request threads of FastAPI and the scheduler's
    thread, on one database.  A node's Agent sends its next push when the last one is
    answered, and the scheduler runs one job at a time: that is the only order assumed.
    The retention job's drains are not in the pool. *)

From S2P Require Import Prelude PyFloat PyTime Domain Schema Runtime Threads Protocols.
From S2P Require Import Tables SqlNodeRepository SqlAlertRepository SqlMetricsRepository.
From S2P Require Import SqlActionRepository Rules Remediation Notifications Lifecycle Invariants.
From S2P Require Import Conformance Races Settings NodeRegistry RemediationService Alerting.
From S2P Require Import Ingestion Reconciliation Staleness Interference Guarantees JobScheduler.
From S2P Require Import Routes Api ServiceThreads ConcurrentPush ConcurrentOthers Collector.

Local Open Scope Z_scope.
Local Open Scope pulse_scope.

Section concurrent.
Context `{E : Env}.
Context (token_order : gset string -> list string) (app : App).

(** ** Jobs of the pool *)

(** What the process is given to do: a request, or a run of one of the scheduler's two
    sweeps, contained as [_run_contained] does. *)
Inductive Work :=
| HandleRequest (credentials : option string) (request : Request)
| SweepStaleness (first_run_done : bool)
| SweepReconciliation.

(** A push by its node, a sweep for the scheduler. *)
Definition work_kind (work : Work) : Kind :=
  match work with
  | HandleRequest _ (ReceiveMetrics payload) => PushOf (np_node_id payload)
  | HandleRequest _ _ => Shared
  | SweepStaleness _ | SweepReconciliation => Scheduler
  end.

Definition contained {A} (p : Prog A) : Prog unit :=
  p_try (p ≫= fun _ => mret tt) (fun _ => mret tt).

Definition work_program (work : Work) : Prog unit :=
  match work with
  | HandleRequest credentials request =>
      handle (get_settings app) (get_alert_evaluation_service app)
        (token_order (token_set (get_settings app))) credentials request ≫= fun _ => mret tt
  | SweepStaleness first_run_done =>
      contained (staleness_run (heartbeat_stale_after_seconds (get_settings app))
                   (get_notifier app) first_run_done)
  | SweepReconciliation =>
      contained (reconciliation_run (remediation_dispatch_timeout_seconds (get_settings app)))
  end.

(** Two pushes of one node, or two jobs of the scheduler, are never handled at once. *)
Definition serialized (κ : Kind) (threads : gmap nat Thread) : bool :=
  shared κ || bool_decide (map_Forall (fun _ t => th_kind t <> κ) threads).

Definition serve := pool_step work_kind work_program serialized.

Definition idle : Pool (Kind:=Kind) :=
  {| pl_threads := ∅; pl_world := {| w_db := empty_db; w_tick := 0; w_posts := [] |} |}.

(** The databases concurrent service reaches. *)
Definition served (db : Db) : Prop := exists P, rtc serve idle P /\ w_db (pl_world P) = db.

Definition serve_moves (moves : list PoolMove) : Pool (Kind:=Kind) :=
  pool_run work_kind work_program serialized moves idle.

Lemma served_run moves : served (w_db (pl_world (serve_moves moves))).
Proof. eexists. split; [apply pool_run_steps|reflexivity]. Qed.

Lemma served_start moves : rtc serve idle (serve_moves moves).
Proof. apply pool_run_steps. Qed.

Lemma served_more moves more : rtc serve (serve_moves moves) (serve_moves (moves ++ more)).
Proof. unfold serve_moves, pool_run. rewrite foldl_app. apply pool_run_steps. Qed.

(** ** Every program is safe *)

Abbreviation c := (lifecycle_config (get_alert_evaluation_service app)).
Abbreviation safe κ := (Threads.safe (rely c κ) (guar c κ)).

Lemma safe_contained {A} κ (p : Prog A) db :
  safe κ p (fun _ => tok κ) db -> safe κ (contained p) (fun _ => tok κ) db.
Proof.
  intros Hp. apply safe_try; [apply _|]. apply safe_bind; [apply _|].
  eapply safe_mono; [exact Hp|]. intros [a|e] d Hd d' Hr; by eapply tok_rely.
Qed.

Lemma safe_handle κ tokens credentials request db :
  tok κ db ->
  (forall d, tok κ d -> safe κ (route (get_settings app) (get_alert_evaluation_service app) request)
     (fun _ => tok κ) d) ->
  safe κ (handle (get_settings app) (get_alert_evaluation_service app) tokens credentials request)
    (fun _ => tok κ) db.
Proof.
  intros Ht Hroute. unfold handle. apply safe_try; [apply _|]. apply safe_bind; [apply _|].
  intros d1 R1. pose proof (tok_rely c _ _ _ Ht R1) as T1. destruct (authenticate _ _ _) as [u|e].
  - apply safe_bind; [apply _|]. eapply safe_mono; [by apply Hroute|].
    intros [b|e] d2 T2 d3 R3; by eapply tok_rely.
  - intros d2 R2. by eapply tok_rely.
Qed.

Lemma safe_push payload db :
  tok (PushOf (np_node_id payload)) db ->
  safe (PushOf (np_node_id payload))
    (route (get_settings app) (get_alert_evaluation_service app) (ReceiveMetrics payload))
    (fun _ => tok (PushOf (np_node_id payload))) db.
Proof.
  intros Ht. apply safe_bind; [apply _|]. eapply safe_mono; [by apply safe_ingest|].
  intros [a|e] d Hd; [|done]. intros d' Hr. by eapply tok_rely.
Qed.

(** A kind that need not settle anything keeps its token by keeping the database consistent. *)
Lemma safe_simple {A} κ (p : Prog A) db :
  simple κ -> tok κ db -> (consistent db -> safe κ p (fun _ => consistent) db) ->
  safe κ p (fun _ => tok κ) db.
Proof.
  intros Hk Ht Hp. eapply safe_mono; [exact (Hp (proj1 (simple_tok κ db Hk) Ht))|].
  intros r d Hd. exact (proj2 (simple_tok κ d Hk) Hd).
Qed.

Lemma safe_route credentials request db :
  let κ := work_kind (HandleRequest credentials request) in
  tok κ db ->
  safe κ (route (get_settings app) (get_alert_evaluation_service app) request) (fun _ => tok κ) db.
Proof.
  destruct request; [by apply safe_push|..]; intros κ Ht;
    (apply safe_simple; [done..|]; by apply safe_shared_route).
Qed.

Lemma work_safe work db :
  tok (work_kind work) db ->
  safe (work_kind work) (work_program work) (fun _ => tok (work_kind work)) db.
Proof.
  intros Ht. destruct work as [cr rq| |].
  - apply safe_bind; [apply _|]. eapply safe_mono.
    + apply safe_handle; [exact Ht|]. intros d. apply safe_route.
    + intros [a|e] d Td; [|done]. intros d' Rd. by eapply tok_rely.
  - apply safe_contained, safe_simple; [done..|]. by apply safe_staleness.
  - apply safe_contained, safe_simple; [done..|]. by apply safe_reconciliation.
Qed.

(** ** The pool is sound *)

Lemma serialized_alone κ threads :
  serialized κ threads = true -> shared κ = false -> alone_of κ threads.
Proof.
  unfold serialized. intros Hs Hk. rewrite Hk in Hs. simpl in Hs.
  apply bool_decide_eq_true in Hs. intros i t Hi. exact (Hs i t Hi).
Qed.

Lemma tok_empty κ : tok κ empty_db.
Proof.
  split.
  - split; [split; [apply keyed_empty|apply foreign_keys_empty]|].
    intros k r a Hk. simpl in Hk. by rewrite lookup_empty in Hk.
  - destruct κ; [|done..]. intros _ id a Ha. simpl in Ha. by rewrite lookup_empty in Ha.
Qed.

Abbreviation sound := (sound_pool shared (rely c) (guar c) tok).

Lemma served_sound P : rtc serve idle P -> sound empty_db P.
Proof.
  intros Hr.
  apply (pool_sound work_kind work_program serialized shared (rely c) (guar c) tok) with
    (w := pl_world idle); [..|exact Hr].
  - exact serialized_alone.
  - intros κ κ' d d'. apply guar_rely.
  - intros κ d d'. apply tok_rely.
  - exact work_safe.
  - intros κ. apply tok_empty.
Qed.

Lemma moves_from P P' :
  rtc serve idle P -> rtc serve P P' ->
  rtc (guaranteed (guar c)) (w_db (pl_world P)) (w_db (pl_world P')).
Proof.
  intros Hp. apply (sound_moves work_kind work_program serialized shared (rely c) (guar c) tok)
    with (db0 := empty_db); [..|by apply served_sound].
  - exact serialized_alone.
  - intros κ κ' d d'. apply guar_rely.
  - intros κ d d'. apply tok_rely.
  - exact work_safe.
Qed.

Lemma guaranteed_moves db db' : rtc (guaranteed (guar c)) db db' -> rtc (move c (~ Healthy)) db db'.
Proof.
  induction 1 as [|d1 d2 d3 [κ H12] _ IH]; [done|]. etrans; [apply H12|exact IH].
Qed.

Lemma served_guaranteed db : served db -> rtc (guaranteed (guar c)) empty_db db.
Proof. intros (P & Hr & <-). by apply (sp_moves _ _ _ _ _ _ (served_sound P Hr)). Qed.

Lemma served_moves db : served db -> rtc (move c (~ Healthy)) empty_db db.
Proof. intros Hs%served_guaranteed. by apply guaranteed_moves. Qed.

(** An invariant of the machine and of its races holds of every database served. *)
Lemma served_invariant (I : Db -> Prop) db :
  stable c (~ Healthy) I -> race_stable c I -> I empty_db -> served db -> I db.
Proof. intros H1 H2 H0 Hs. eapply moves_stable; [done..|by apply served_moves]. Qed.

Lemma served_once db : Healthy -> served db -> once db.
Proof.
  intros Hh Hs%served_guaranteed.
  assert (once empty_db) as H0.
  { intros k1 r1 k2 r2 Hk. simpl in Hk. by rewrite lookup_empty in Hk. }
  revert H0 Hs. generalize empty_db. induction 2 as [|d1 d2 d3 [κ H12] _ IH]; [done|].
  apply IH, H12; [by intros []|done].
Qed.

(** ** One at a time *)

(** The operation a job of the pool stands for, as [Collector.v] runs it. *)
Definition handled (work : Work) : M unit :=
  match work with
  | HandleRequest credentials request =>
      _ ← collector_handle token_order app credentials request; mret tt
  | SweepStaleness first_run_done =>
      _ ← _run_contained (get_settings app) (get_notifier app) (StalenessJob first_run_done); mret tt
  | SweepReconciliation =>
      _ ← _run_contained (get_settings app) (get_notifier app) ReconciliationJob; mret tt
  end.

Lemma run_contained_unit {A} (p : Prog A) m job job' w :
  implements p m ->
  run (contained p) w = (m_try (_ ← m; mret job') (fun _ => mret (job : Job)) ≫= fun _ => mret tt) w.
Proof.
  intros Hp. unfold contained. rewrite run_try, run_bind, Hp.
  unfold mbind, M_bind, m_try. by destruct (m w) as [[a|e] w'].
Qed.

Lemma alone_work work : implements (work_program work) (handled work).
Proof.
  intros w. destruct work as [cr rq| |]; cbn [work_program handled].
  - rewrite run_bind, alone_handle. unfold mbind at 1, M_bind. unfold collector_handle, get_settings.
    by destruct (Api.handle _ _ _ _ _ _) as [[a|e] w'].
  - apply run_contained_unit, alone_staleness.
  - apply run_contained_unit, alone_reconciliation.
Qed.

(** Alone, an operation moves the database as the guarantee of its kind allows. *)
Lemma handled_guaranteed work w :
  tok (work_kind work) (w_db w) ->
  guar c (work_kind work) (w_db w) (w_db (snd (handled work w))).
Proof.
  intros Ht. rewrite <- alone_work.
  apply (safe_runs (rely c (work_kind work)) _ _ _ w (work_safe work (w_db w) Ht)).
Qed.

Definition one_at_a_time (works : list Work) (w : World) : World :=
  foldl (fun w work => snd (handled work w)) w works.

(** A program with the pool to itself runs to its end. *)
Lemma pool_runs κ (p : Prog unit) w :
  rtc serve {| pl_threads := {[ 0%nat := {| th_kind := κ; th_prog := p |} ]}; pl_world := w |}
    {| pl_threads := ∅; pl_world := snd (run p w) |}.
Proof.
  revert w. induction p as [r|B m k IH]; intros w.
  - apply rtc_once. exists (Leave 0). simpl. by rewrite lookup_singleton_eq, delete_singleton_eq.
  - simpl. destruct (m w) as [r w'] eqn:Em. eapply rtc_l; [|apply IH].
    exists (Advance 0). simpl. by rewrite lookup_singleton_eq, Em, insert_singleton_eq.
Qed.

Lemma pool_handles work w :
  rtc serve {| pl_threads := ∅; pl_world := w |}
    {| pl_threads := ∅; pl_world := snd (handled work w) |}.
Proof.
  rewrite <- alone_work. eapply rtc_l; [|apply pool_runs].
  exists (Arrive 0 work). simpl. rewrite lookup_empty. unfold serialized.
  rewrite bool_decide_eq_true_2 by apply map_Forall_empty. by rewrite orb_true_r.
Qed.

(** ** Properties *)

(** C8: however the repository calls of concurrent requests and of the scheduler's staleness and
    reconciliation sweeps interleave, pushes of one node not overlapping and sweeps neither,
    under whatever pattern of database failures, row orders and clock readings: from any pool
    that service reaches to any later one, the database moves only by the lifecycle machine's
    transitions and by the races, namely an acknowledgement, a result or an escalation that
    comes late, and a decision recorded before its stamp. *)
Theorem concurrent_service_refines_lifecycle P P' :
  rtc serve idle P -> rtc serve P P' ->
  rtc (move c (~ Healthy)) (w_db (pl_world P)) (w_db (pl_world P')).
Proof. intros Hp Hm. by apply guaranteed_moves, moves_from. Qed.

(** C5: under concurrent service too, no two alerts fire for one node and rule, as long as a node
    does not push while its last push is being handled. *)
Theorem concurrent_one_open_alert db k1 a1 k2 a2 :
  served db -> alerts db !! k1 = Some a1 -> alerts db !! k2 = Some a2 ->
  am_status a1 = FIRING -> am_status a2 = FIRING ->
  am_node_id a1 = am_node_id a2 -> am_rule_key a1 = am_rule_key a2 -> k1 = k2.
Proof.
  intros Hs. revert k1 a1 k2 a2. change (one_firing db).
  apply served_invariant; [apply one_firing_stable|apply race_one_firing|apply one_firing_empty|done].
Qed.

(** C6: under concurrent service too, as long as a node does not push while its last push is
    being handled, both Safety Limits hold: at most [max_remediations_per_node_per_hour]
    actions are dispatched to a node in any hour, and two of one playbook at least
    [remediation_cooldown_seconds] apart (a NaN cooldown apart). *)
Theorem concurrent_safety_limits db :
  served db ->
  (forall node_id since,
     Z.of_nat (count (in_hour node_id since) (remediation_actions db)) <=
     Z.max 0 (max_remediations_per_node_per_hour (app_settings app))) /\
  (is_nan (remediation_cooldown_seconds (app_settings app)) = false ->
   forall k1 r1 k2 r2, k1 <> k2 ->
     remediation_actions db !! k1 = Some r1 -> remediation_actions db !! k2 = Some r2 ->
     rm_node_id r1 = rm_node_id r2 -> rm_playbook_name r1 = rm_playbook_name r2 ->
     rm_status r1 <> BLOCKED_BY_SAFETY_LIMIT -> rm_status r2 <> BLOCKED_BY_SAFETY_LIMIT ->
     rm_created_at r1 <= rm_created_at r2 ->
     remediation_cooldown_seconds (app_settings app) <=.
       total_seconds (rm_created_at r2 - rm_created_at r1)).
Proof.
  intros Hs. split.
  - apply (served_invariant (rate_limited c) db) with (e := get_remediation_engine app);
      [apply rate_limited_stable|apply race_rate_limited|apply rate_limited_empty|done..].
  - intros Hnan. assert (forall e, lc_engine c = Some e -> is_nan (_cooldown_seconds e) = false) as Hc
      by by intros e [= <-].
    apply (served_invariant (cooled c) db) with (e := get_remediation_engine app);
      [by apply cooled_stable|by apply race_cooled|apply cooled_empty|done..].
Qed.

(** C7: under concurrent service with a database that answers, and as long as a node does not
    push while its last push is being handled, no two remediation actions refer
    to one alert, although the decision and its stamp are two transactions. *)
Theorem concurrent_one_remediation db k1 r1 k2 r2 :
  Healthy -> served db ->
  remediation_actions db !! k1 = Some r1 -> remediation_actions db !! k2 = Some r2 ->
  rm_alert_id r1 = rm_alert_id r2 -> k1 = k2.
Proof. intros Hh Hs. by apply served_once. Qed.

(** Handling requests and sweeps one at a time, as [Collector.v] does, is one of the
    interleavings of the pool: every job then does what the operation it stands for does. *)
Lemma one_at_a_time_is_served works w :
  rtc serve {| pl_threads := ∅; pl_world := w |}
    {| pl_threads := ∅; pl_world := one_at_a_time works w |}.
Proof.
  revert w. induction works as [|work works IH]; intros w; [done|].
  etrans; [apply pool_handles|apply IH].
Qed.

End concurrent.
