(* ===== verification/StressLoad.v ===== *)
(** * The load generator ([scripts/stress_load.py]) and the shipped rules
    ([collector/rules/default_rules.json])

    The payloads of the virtual agents, the loop that sends them, the steps of a run with
    their figures, and the configuration the Collector ships with.  The script promises that
    its run opens no alerts, its values being far below the shipped thresholds, and that its
    rows are easy to delete afterwards.  The HTTP client, the clocks and the order in which
    the agents' coroutines run are the conditions of a step; argparse itself, the layout of
    the printed line, and errors of the client other than [httpx.HTTPError], which would end
    the run, are not modelled. *)

From stdpp Require Import sorting.
From Stdlib Require Import SpecFloat Ascii.
From S2P Require Import Prelude PyFloat PyTime PyStr Domain Schema Runtime RefEnv Protocols Tables.
From S2P Require Import SqlNodeRepository SqlAlertRepository SqlMetricsRepository.
From S2P Require Import SqlActionRepository Rules Remediation Lifecycle Invariants Settings.
From S2P Require Import NodeRegistry Alerting Ingestion Routes Api Collector.

Local Open Scope Z_scope.
Local Open Scope pulse_scope.

(** ** The shipped configuration *)

Definition default_rules : RulesConfig :=
  {| threshold_rules :=
       [{| tr_metric_type := CPU_USAGE_PERCENT; tr_comparison := GREATER_THAN;
           tr_threshold := float_of_Z 90; tr_severity := CRITICAL;
           tr_description := "CPU usage above 90%" |};
        {| tr_metric_type := MEMORY_USAGE_PERCENT; tr_comparison := GREATER_THAN;
           tr_threshold := float_of_Z 90; tr_severity := CRITICAL;
           tr_description := "Memory usage above 90%" |};
        {| tr_metric_type := DISK_USAGE_PERCENT; tr_comparison := GREATER_THAN;
           tr_threshold := float_of_Z 85; tr_severity := WARNING;
           tr_description := "Disk usage above 85%" |}];
     rate_of_change_rules :=
       [{| rc_metric_type := CPU_USAGE_PERCENT; rc_comparison := GREATER_THAN;
           rc_max_delta := float_of_Z 30; rc_window_seconds := float_of_Z 300;
           rc_severity := WARNING;
           rc_description := "CPU usage increased by more than 30 percentage points within 5 minutes" |}] |}.

(** [collector/remediation/default_playbooks.json]. *)
Definition default_playbooks : list PlaybookDefinition :=
  [{| pb_rule_key := "threshold:disk.usage_percent";
      pb_playbook_name := "clear_reclaimable_tmp_directory";
      pb_action_type := CLEAR_DIRECTORY;
      pb_parameters := {["path" := "/tmp/clusterpulse-reclaimable"]};
      pb_description := "Clear a reclaimable temp/cache directory when a disk-usage alert escalates unresolved. Only takes effect once an operator adds this exact path to the Agent's own CLUSTERPULSE_AGENT_REMEDIATION_ALLOWED_DIRECTORIES allowlist - the Agent refuses any path it wasn't independently configured to trust." |}].

(** The Collector as it comes: no background job, no notifier. *)
Definition shipped_app `{Env} : App :=
  {| app_settings := default_settings; app_notifier := None; app_scheduler := None;
     app_rules := default_rules; app_policy := default_playbooks |}.

(** The shipped files and the default settings pass validation, and the shipped playbook is
    for a shipped rule. *)
Lemma shipped_configuration_loads `{Env} nan_ok :
  create_app nan_ok default_settings default_rules default_playbooks = Ok shipped_app /\
  Forall (fun p => pb_rule_key p ∈ (rule_key_of THRESHOLD ∘ tr_metric_type) <$> threshold_rules default_rules)
    default_playbooks.
Proof. split; [by destruct nan_ok; vm_compute|by apply (bool_decide_unpack _)]. Qed.

(** ** The virtual agents *)

Definition stress_sample (metric_type : MetricType) (value : float) (unit : string) : MetricSample :=
  {| ms_metric_type := metric_type; ms_value := value; ms_unit := unit; ms_labels := ∅ |}.

Definition PAYLOAD_SAMPLES : list MetricSample :=
  [stress_sample CPU_USAGE_PERCENT (SFdiv prec emax (float_of_Z 25) (float_of_Z 2)) "percent";
   stress_sample MEMORY_USAGE_PERCENT (float_of_Z 41) "percent";
   stress_sample DISK_USAGE_PERCENT (float_of_Z 33) "percent";
   stress_sample NETWORK_BYTES_SENT (float_of_Z 1024) "bytes";
   stress_sample NETWORK_BYTES_RECV (float_of_Z 2048) "bytes"].

Definition stress_payload (node_id : string) (collected_at : datetime) : NodeMetricsPayload :=
  {| np_node_id := node_id; np_collected_at := collected_at; np_samples := PAYLOAD_SAMPLES;
     np_collection_errors := [] |}.

(** What one iteration meets: the monotonic and the wall clock, how long the request took, and
    the status code it was answered with, [None] for an [httpx.HTTPError]. *)
Record Iteration := {
  it_monotonic : float;
  it_now : datetime;
  it_elapsed : float;
  it_response : option Z;
}.

(** [_virtual_agent]: what it posts, and what it appends to [results]. *)
Fixpoint _virtual_agent (node_id : string) (stop_at : float) (iterations : list Iteration)
    : list NodeMetricsPayload * list (float * Z) :=
  match iterations with
  | [] => ([], [])
  | it :: rest =>
      if flt (it_monotonic it) stop_at then
        let '(posted, results) := _virtual_agent node_id stop_at rest in
        (stress_payload node_id (it_now it) :: posted,
         (it_elapsed it, default 0 (it_response it)) :: results)
      else ([], [])
  end.

(** ** The figures of a step *)

(** The order of [sorted]: no latency is NaN. *)
Definition float_le (x y : float) : Prop := x <=. y.

#[export] Instance float_le_dec : RelDecision float_le.
Proof. intros x y. unfold float_le. apply _. Defined.

(** [ordered[min(int(len(ordered) * pct / 100), len(ordered) - 1)]].  The quotient is exact: a
    list has fewer than 2^46 elements. *)
Definition _percentile (latencies : list float) (pct : Z) : float :=
  match latencies with
  | [] => float_of_Z 0
  | _ =>
      let ordered := merge_sort float_le latencies in
      let n := Z.of_nat (length ordered) in
      let index := Z.min (n * pct / 100) (n - 1) in
      default (float_of_Z 0) (ordered !! Z.to_nat index)
  end.

(** [statistics.fmean]: the exact sum of the values, rounded once, over their number.  The
    latencies are differences of two clock readings and hence finite. *)
Definition exact (x : float) : Z :=
  match x with
  | S754_finite sign m e => (if sign then -1 else 1) * Z.pos m * 2 ^ (e + 1074)
  | _ => 0
  end.

Definition fmean (values : list float) : float :=
  let total := binary_normalize prec emax (foldr Z.add 0 (exact <$> values)) (-1074) false in
  SFdiv prec emax total (float_of_Z (Z.of_nat (length values))).

(** What a step prints; times in milliseconds. *)
Record StepFigures := {
  sf_agents : Z;
  sf_requests : Z;
  sf_ok : Z;
  sf_errors : gmap Z Z;
  sf_p50 : float;
  sf_p95 : float;
  sf_p99 : float;
  sf_mean : float;
}.

Definition with_code (code : Z) (results : list (float * Z)) : Z :=
  Z.of_nat (length (filter (fun r => r.2 = code) results)).

(** The end of [_run_step]: [results] has what all the agents appended. *)
Definition step_figures (agents : Z) (results : list (float * Z)) : StepFigures :=
  let latencies := results.*1 in
  let codes : gset Z := list_to_set (filter (fun c => c <> 200) results.*2) in
  let ms (x : float) := fmul x (float_of_Z 1000) in
  {| sf_agents := agents;
     sf_requests := Z.of_nat (length results);
     sf_ok := with_code 200 results;
     sf_errors := set_to_map (fun code => (code, with_code code results)) codes;
     sf_p50 := ms (_percentile latencies 50);
     sf_p95 := ms (_percentile latencies 95);
     sf_p99 := ms (_percentile latencies 99);
     sf_mean := match latencies with [] => float_of_Z 0 | _ => ms (fmean latencies) end |}.

(** ** A run *)

(** [f"stress-{n:04d}"]. *)
Definition pad4 (digits : string) : string :=
  (String.concat EmptyString (replicate (4 - String.length digits) "0"%string) ++ digits)%string.

Definition node_name (n : nat) : string := ("stress-" ++ pad4 (pretty (Z.of_nat n)))%string.

Example node_names : node_name <$> [0; 42; 12345]%nat = ["stress-0000"; "stress-0042"; "stress-12345"].
Proof. vm_compute. reflexivity. Qed.

(** What a step meets: its deadline, what each agent's iterations meet, and the order in which
    the agents' appends to [results] are interleaved. *)
Record Conditions := {
  cd_stop_at : float;
  cd_met : nat -> list Iteration;
  cd_merge : list (list (float * Z)) -> list (float * Z);
  cd_merge_all : forall l, cd_merge l ≡ₚ concat l;
}.

(** [_run_step]: what is posted, agent by agent, and what is printed. *)
Definition _run_step (c : Conditions) (agents : Z) : list NodeMetricsPayload * StepFigures :=
  let runs := (fun n => _virtual_agent (node_name n) (cd_stop_at c) (cd_met c n)) <$>
                seq 0 (Z.to_nat agents) in
  (concat runs.*1, step_figures agents (cd_merge c runs.*2)).

(** [int(s)], for text in ASCII. *)
Definition digit_value (c : Ascii.ascii) : option Z :=
  let n := Ascii.N_of_ascii c in
  if (48 <=? n)%N && (n <=? 57)%N then Some (Z.of_N (n - 48)) else None.

Fixpoint read_digits (acc : Z) (after_digit : bool) (s : string) : option Z :=
  match s with
  | EmptyString => if after_digit then Some acc else None
  | String.String c s' =>
      match digit_value c with
      | Some d => read_digits (10 * acc + d) true s'
      | None => if after_digit && Ascii.eqb c "_"%char then read_digits acc false s' else None
      end
  end.

Definition int_of_str (s : string) : Res Z :=
  match (match strip s with
         | String.String "+"%char rest => read_digits 0 false rest
         | String.String "-"%char rest => Z.opp <$> read_digits 0 false rest
         | digits => read_digits 0 false digits
         end) with
  | Some n => Ok n
  | None => Raise (ValueError ("invalid literal for int() with base 10: " ++ repr s)%string)
  end.

(** The loop of [main]: a part that is no integer is met only when its turn comes. *)
Fixpoint run_steps (conditions : nat -> Conditions) (i : nat) (steps : list string)
    : list (list NodeMetricsPayload * StepFigures) * option Exc :=
  match steps with
  | [] => ([], None)
  | s :: rest =>
      match int_of_str s with
      | Raise e => ([], Some e)
      | Ok agents =>
          let '(done, e) := run_steps conditions (S i) rest in
          (_run_step (conditions i) agents :: done, e)
      end
  end.

(** [main] after [parse_args]; the exit status is 0 unless an error escapes. *)
Definition main (conditions : nat -> Conditions) (steps : string)
    : list (list NodeMetricsPayload * StepFigures) * Res Z :=
  let '(done, e) := run_steps conditions 0 (split_on ","%char steps) in
  (done, match e with None => Ok 0 | Some e => Raise e end).

Definition DEFAULT_STEPS : string := "10,25,50,100".

(** Two agents, then one, then what is not a number. *)
Definition two_agents : Conditions :=
  let it m e c := {| it_monotonic := float_of_Z m; it_now := 0; it_elapsed := float_of_Z e;
                     it_response := c |} in
  {| cd_stop_at := float_of_Z 10;
     cd_met := fun n => if Nat.eqb n 0 then [it 0 3 (Some 200); it 5 1 None; it 10 2 (Some 200)]
                        else [it 0 2 (Some 503)];
     cd_merge := @concat _;
     cd_merge_all := fun l => reflexivity (concat l) |}.

Example two_agents_figures :
  let f := (_run_step two_agents 2).2 in
  (sf_requests f, sf_ok f, map_to_list (sf_errors f), sf_p50 f, sf_p99 f, sf_mean f) =
  (3, 1, [(503, 1); (0, 1)], float_of_Z 2000, float_of_Z 3000, float_of_Z 2000).
Proof. vm_compute. reflexivity. Qed.

Example main_stops_late :
  let '(done, r) := main (fun _ => two_agents) " 2,1,x,3" in
  (fun step => (length step.1, sf_requests step.2)) <$> done = [(3%nat, 3); (2%nat, 2)] /\
  r = Raise (ValueError "invalid literal for int() with base 10: 'x'").
Proof. vm_compute. split; reflexivity. Qed.

Example default_steps :
  sf_agents ∘ snd <$> (main (fun _ => two_agents) DEFAULT_STEPS).1 = [10; 25; 50; 100].
Proof. vm_compute. reflexivity. Qed.

(** Every post is counted once: as accepted, or under the code it was answered with. *)
Lemma posts_counted node_id stop_at its :
  length (_virtual_agent node_id stop_at its).2 = length (_virtual_agent node_id stop_at its).1.
Proof.
  induction its as [|it rest IH]; [done|]. simpl. destruct (flt _ _); [|done].
  destruct (_virtual_agent node_id stop_at rest) as [posted results]. simpl in *. by f_equal.
Qed.

Lemma step_requests c agents :
  sf_requests (_run_step c agents).2 = Z.of_nat (length (_run_step c agents).1).
Proof.
  unfold _run_step. cbn [fst snd step_figures sf_requests]. f_equal.
  rewrite (Permutation_length (cd_merge_all c _)).
  induction (seq 0 (Z.to_nat agents)) as [|n l IH]; [done|]. simpl. rewrite !length_app.
  f_equal; [apply posts_counted|exact IH].
Qed.

(** A percentile is one of the latencies. *)
Lemma percentile_member latencies pct :
  latencies <> [] -> 0 <= pct -> _percentile latencies pct ∈ latencies.
Proof.
  intros Hne Hp. destruct latencies as [|x l]; [done|]. unfold _percentile.
  set (ordered := merge_sort float_le (x :: l)).
  assert (ordered ≡ₚ x :: l) as Hperm by apply merge_sort_Permutation.
  pose proof (Permutation_length Hperm) as Hlen. simpl in Hlen.
  set (i := Z.min _ _).
  assert (0 <= i < Z.of_nat (length ordered)) as Hi.
  { unfold i. assert (0 <= Z.of_nat (length ordered) * pct / 100) by (apply Z.div_pos; lia). lia. }
  destruct (lookup_lt_is_Some_2 ordered (Z.to_nat i)) as [y Hy]; [lia|].
  rewrite Hy. simpl. rewrite <- Hperm. by eapply list_elem_of_lookup_2.
Qed.

Lemma with_code_pos code results : 0 < with_code code results <-> code ∈ results.*2.
Proof.
  unfold with_code. rewrite list_elem_of_fmap. split.
  - destruct (filter _ results) as [|r l] eqn:Ef; simpl; [lia|]. intros _. exists r.
    assert (r ∈ filter (fun r => r.2 = code) results) as [Hr Hin]%list_elem_of_filter
      by (rewrite Ef; left). done.
  - intros (r & -> & Hr).
    assert (r ∈ filter (fun x => x.2 = r.2) results) as Hin by by apply list_elem_of_filter.
    destruct (filter _ results); [by apply elem_of_nil in Hin|simpl; lia].
Qed.

(** The error table has exactly the other codes that occurred, each with its number. *)
Lemma errors_counted agents results code n :
  sf_errors (step_figures agents results) !! code = Some n <->
  code <> 200 /\ n = with_code code results /\ 0 < n.
Proof.
  simpl. rewrite lookup_set_to_map by done. setoid_rewrite elem_of_list_to_set.
  setoid_rewrite list_elem_of_filter. split.
  - intros (c & [Hne Hc] & [= -> <-]). by rewrite with_code_pos.
  - intros (Hne & -> & Hn). exists code. by rewrite with_code_pos in Hn.
Qed.

(** ** A run leaves no trace *)

(** [node_id LIKE 'stress-%']. *)
Definition is_stress (node_id : string) : Prop := String.prefix "stress-" node_id = true.

#[export] Instance is_stress_dec node_id : Decision (is_stress node_id).
Proof. unfold is_stress. apply _. Defined.

Lemma node_name_stress n : is_stress (node_name n).
Proof. unfold is_stress, node_name. generalize (pad4 (pretty (Z.of_nat n))). by intros []. Qed.

(** The two DELETE statements of the script's safety notes, in their order. *)
Definition delete_stress_samples (db : Db) : Db :=
  set_samples (filter (fun kr => ~ is_stress (mm_node_id kr.2)) (metric_samples db)) db.
Definition delete_stress_nodes (db : Db) : Db :=
  set_nodes (filter (fun kr => ~ is_stress kr.1) (nodes db)) db.
Definition clean_up (db : Db) : Db := delete_stress_nodes (delete_stress_samples db).

(** No node, and hence no row, of a virtual agent. *)
Definition unstressed (db : Db) : Prop := map_Forall (fun n _ => ~ is_stress n) (nodes db).

Lemma clean_up_unstressed db : foreign_keys db -> unstressed db -> clean_up db = db.
Proof.
  intros (_ & _ & Hfk) Hun. unfold clean_up, delete_stress_nodes, delete_stress_samples.
  destruct db as [ns al ms ac]. unfold unstressed in Hun. simpl in *. unfold set_nodes, set_samples. simpl.
  f_equal; apply map_filter_id; intros k r Hk; simpl; [by apply (Hun _ _ Hk)|].
  destruct (Hfk _ _ Hk) as [node Hn]. by apply (Hun _ _ Hn).
Qed.

Section run.
Context `{E : Env}.
Context (token_order : gset string -> list string) (app : App) (db0 : Db).
Context (Hkeys : foreign_keys db0) (Hclean : unstressed db0).

(** What the run adds goes with [clean_up], and every sample of its nodes is a virtual agent's. *)
Definition quiet (db : Db) : Prop :=
  alerts db = alerts db0 /\ remediation_actions db = remediation_actions db0 /\
  clean_up db = db0 /\
  map_Forall (fun _ r => is_stress (mm_node_id r) -> exists s, s ∈ PAYLOAD_SAMPLES /\
    mm_metric_type r = ms_metric_type s /\ mm_value r = ms_value s) (metric_samples db).

Definition engine : RuleEngine := RuleEngine_init default_rules.

Definition unbreached (r : RuleEvaluationResult) : Prop := breached r = false.

Lemma payload_cases (P : MetricSample -> Prop) :
  Forall P PAYLOAD_SAMPLES -> forall s, s ∈ PAYLOAD_SAMPLES -> P s.
Proof. intros HP. by apply Forall_forall. Qed.

(** No threshold is reached. *)
Lemma thresholds_unbreached s : s ∈ PAYLOAD_SAMPLES ->
  forall rule, re_threshold_rules engine !! ms_metric_type s = Some rule ->
  unbreached (_evaluate_threshold rule s).
Proof.
  revert s. refine (payload_cases _ _).
  repeat constructor; intros rule Hr; vm_compute in Hr; try discriminate Hr;
    injection Hr as <-; by vm_compute.
Qed.

(** A metric has the same value every time, so it does not change. *)
Lemma rates_unbreached s : s ∈ PAYLOAD_SAMPLES ->
  forall s', s' ∈ PAYLOAD_SAMPLES -> ms_metric_type s' = ms_metric_type s ->
  forall rule, re_rate_of_change_rules engine !! ms_metric_type s = Some rule ->
  evaluate_comparison (rc_comparison rule) (fsub (ms_value s) (ms_value s')) (rc_max_delta rule) = false.
Proof.
  revert s. refine (payload_cases _ _). repeat constructor; refine (payload_cases _ _);
    repeat constructor;
    intros Hm rule Hr; try discriminate Hm; vm_compute in Hr; try discriminate Hr;
    injection Hr as <-; by vm_compute.
Qed.

Lemma rate_unbreached node_id s rule t w :
  s ∈ PAYLOAD_SAMPLES -> quiet (w_db w) -> is_stress node_id ->
  re_rate_of_change_rules engine !! ms_metric_type s = Some rule ->
  wp (_evaluate_rate_of_change node_id rule s t) (fun r w' => w_db w' = w_db w /\
    match r with Ok o => Forall unbreached (option_list o) | Raise _ => True end) w.
Proof.
  intros Hs (_ & _ & _ & Hq) Hn Hr. unfold _evaluate_rate_of_change. apply wp_bind.
  destruct (timedelta_of_seconds (rc_window_seconds rule)) as [d|te] eqn:Ed;
    [destruct (datetime_sub t d) as [since|te] eqn:Es|].
  - eapply wp_mono; [by eapply find_previous_sample_reads|]. intros [o|e] w' [[Hdb _] Ho]; [|done].
    apply wp_ret. split; [done|]. destruct Ho as (prev & Hlast & ->).
    destruct prev as [p|]; simpl; [|constructor]. apply Forall_singleton.
    destruct Hlast as ([k Hk] & (Hnode & Hm & _) & _).
    destruct (Hq _ _ Hk) as (s' & Hs' & Hm' & Hv); [by rewrite Hnode|]. unfold unbreached. simpl. rewrite Hv.
    apply (rates_unbreached s Hs s' Hs'); [congruence|done].
  - unfold wp. erewrite find_previous_sample_time_error by eauto. by destruct te.
  - unfold wp. erewrite find_previous_sample_time_error by eauto. by destruct te.
Qed.

(** The results so far stay unbreached, and nothing is written. *)
Definition all_unbreached (db : Db) (r : Res (list RuleEvaluationResult)) (w : World) : Prop :=
  w_db w = db /\ match r with Ok l => Forall unbreached l | Raise _ => True end.

Lemma sample_unbreached node_id t acc s w :
  quiet (w_db w) -> is_stress node_id -> s ∈ PAYLOAD_SAMPLES -> Forall unbreached acc ->
  wp (evaluate_sample engine node_id t acc s) (all_unbreached (w_db w)) w.
Proof.
  intros Hq Hn Hs Hacc. unfold evaluate_sample.
  set (acc' := match re_threshold_rules engine !! ms_metric_type s with Some _ => _ | None => _ end).
  assert (Forall unbreached acc') as Hacc'.
  { unfold acc'. destruct (re_threshold_rules engine !! _) as [rule|] eqn:Er; [|done].
    apply Forall_app. split; [done|]. apply Forall_singleton. by apply thresholds_unbreached. }
  destruct (re_rate_of_change_rules engine !! _) as [rule|] eqn:Er; [|by apply wp_ret].
  apply wp_bind. eapply wp_mono; [by apply rate_unbreached|].
  intros [o|e] w1 [Hw1 Ho]; [|by split]. apply wp_ret. split; [done|]. by apply Forall_app.
Qed.

Lemma evaluate_unbreached node_id t w :
  quiet (w_db w) -> is_stress node_id ->
  wp (evaluate engine node_id PAYLOAD_SAMPLES t) (all_unbreached (w_db w)) w.
Proof.
  intros Hq Hn. unfold evaluate.
  assert (forall l acc w0, l ⊆ PAYLOAD_SAMPLES -> Forall unbreached acc -> w_db w0 = w_db w ->
    wp (m_fold (evaluate_sample engine node_id t) acc l) (all_unbreached (w_db w)) w0) as Hall;
    [|by apply Hall; [|constructor|]].
  induction l as [|s l IH]; intros acc w0 Hsub Hacc Hw; [by apply wp_ret|].
  apply wp_bind. eapply wp_mono.
  - apply sample_unbreached; [by rewrite Hw|done|apply Hsub; left|done].
  - intros [acc1|e] w1 [Hw1 Ha]; [|split; [congruence|done]].
    apply IH; [|done|congruence]. intros x Hx. apply Hsub. by right.
Qed.

(** An unbreached rule without an open alert changes nothing. *)
Lemma apply_quiet service node_id result t w :
  quiet (w_db w) -> is_stress node_id -> unbreached result ->
  wp (_apply service node_id result t) (fun _ w' => w_db w' = w_db w) w.
Proof.
  intros [Ha _] Hn Hb. unfold _apply. wp_step find_open_alert_reads.
  intros [o|e] w' [[Hdb _] Ho]; [|done]. rewrite Hb. destruct o as [rec|]; [|by apply wp_ret].
  destruct Ho as (id & a & Hid & (Han & _) & _). rewrite Ha in Hid.
  destruct (proj1 Hkeys _ _ Hid) as [node Hnode]. rewrite Han in Hnode. by destruct (Hclean _ _ Hnode).
Qed.

Lemma apply_all_quiet service node_id t l acc w :
  quiet (w_db w) -> is_stress node_id -> Forall unbreached l ->
  wp (m_fold (apply_result service node_id t) acc l) (fun _ w' => w_db w' = w_db w) w.
Proof.
  revert acc w. induction l as [|r l IH]; intros acc w Hq Hn Hl; [done|].
  apply Forall_cons in Hl as [Hr Hl]. simpl. do 2 apply wp_bind.
  eapply wp_mono; [by apply apply_quiet|]. intros [[view disp]|e] w1 Hw1; [|done].
  apply wp_ret. eapply wp_mono; [apply IH; [by rewrite Hw1|done|done]|]. intros r2 w2. congruence.
Qed.

Lemma quiet_seen node_id t db :
  is_stress node_id -> quiet db ->
  quiet (set_nodes (<[node_id := seen_node (nodes db !! node_id) node_id t]> (nodes db)) db).
Proof.
  intros Hn (Ha & Hr & Hc & Hq). split; [done|]. split; [done|]. split; [|done]. rewrite <- Hc.
  unfold clean_up, delete_stress_nodes, delete_stress_samples, set_nodes, set_samples. simpl.
  f_equal. rewrite map_filter_insert_False by (simpl; auto).
  apply map_filter_delete_not. intros x _. simpl. auto.
Qed.

Lemma quiet_samples node_id ids received collected db :
  is_stress node_id -> quiet db -> (forall id, id ∈ ids -> metric_samples db !! id = None) ->
  quiet (set_samples (list_to_map (new_samples node_id collected received ids PAYLOAD_SAMPLES) ∪
           metric_samples db) db).
Proof.
  intros Hn (Ha & Hr & Hc & Hq) Hfresh.
  set (new := new_samples node_id collected received ids PAYLOAD_SAMPLES).
  assert (forall k r, (list_to_map new : gmap Z MetricSampleModel) !! k = Some r ->
    k ∈ ids /\ exists s, s ∈ PAYLOAD_SAMPLES /\ r = new_sample node_id collected received k s) as Hnew.
  { intros k r Hk%elem_of_list_to_map_2. apply list_elem_of_lookup in Hk as [i Hi].
    apply lookup_zip_with_Some in Hi as (id & s & [= -> ->] & Hid & Hs).
    split; [by eapply list_elem_of_lookup_2|]. exists s. split; [by eapply list_elem_of_lookup_2|done]. }
  split; [done|]. split; [done|]. split.
  - rewrite <- Hc. unfold clean_up, delete_stress_nodes, delete_stress_samples, set_nodes, set_samples.
    simpl. f_equal. rewrite map_filter_union.
    + rewrite (proj2 (map_empty_filter _ _)); [by rewrite map_empty_union|].
      intros k r Hk. destruct (Hnew k r Hk) as (_ & s & _ & ->). simpl. auto.
    + apply map_disjoint_spec. intros k r r' Hk Hk'. destruct (Hnew k r Hk) as [Hid _].
      by rewrite (Hfresh k Hid) in Hk'.
  - intros k r. simpl. intros [Hk|[_ Hk]]%lookup_union_Some_raw; [|by eapply Hq]. intros _.
    destruct (Hnew k r Hk) as (_ & s & Hs & ->). by exists s.
Qed.

Context (Hrules : app_rules app = default_rules).

Lemma ingest_quiet stale_after node_id t w :
  is_stress node_id -> quiet (w_db w) ->
  wp (ingest stale_after (Some (get_alert_evaluation_service app)) (stress_payload node_id t))
    (fun _ w' => quiet (w_db w')) w.
Proof.
  intros Hn Hq. unfold ingest. apply wp_bind. unfold wp at 1. simpl.
  wp_step seen_writes. intros [v|e] w1 [_ Hw1].
  2: { by destruct Hw1 as (_ & -> & _). }
  assert (quiet (w_db w1)) as Hq1 by (rewrite Hw1; by apply quiet_seen). clear Hw1.
  wp_step bulk_insert_writes. intros [u|e] w2 [_ Hw2].
  2: { by destruct Hw2 as (_ & -> & _). }
  assert (quiet (w_db w2)) as Hq2.
  { destruct Hw2 as (ids & _ & _ & Hfresh & ->). by apply quiet_samples. }
  apply wp_bind. apply (wp_mono _ (fun _ w' => w_db w' = w_db w2)).
  - unfold _evaluate_rules_best_effort. apply wp_try. apply wp_bind. unfold evaluate_and_apply.
    apply wp_bind. change (_rule_engine _) with (get_rule_engine app).
    unfold get_rule_engine, get_rules_config. rewrite Hrules.
    eapply wp_mono; [by apply evaluate_unbreached|]. intros [l|e] w3 [Hw3 Hl]; [|by apply wp_ret].
    eapply wp_mono; [apply apply_all_quiet; [by rewrite Hw3|done|done]|].
    intros [o|e] w4 Hw4; apply wp_ret; congruence.
  - intros [p|e] w3 Hw3; [apply wp_ret|]; by rewrite Hw3.
Qed.

(** An event of the run: a post of one of its steps reaches the Collector. *)
Definition stress_event (ev : Event) : Prop :=
  exists c agents payload credentials,
    payload ∈ (_run_step c agents).1 /\ ev = HttpRequest credentials (ReceiveMetrics payload).

Lemma posted_payload node_id stop_at iterations payload :
  payload ∈ (_virtual_agent node_id stop_at iterations).1 ->
  exists t, payload = stress_payload node_id t.
Proof.
  induction iterations as [|it rest IH]; simpl; [by intros ?%elem_of_nil|].
  destruct (flt _ _); [|by intros ?%elem_of_nil].
  destruct (_virtual_agent node_id stop_at rest) as [posted results]. simpl in *.
  intros [->|Hin]%elem_of_cons; [by eexists|by apply IH].
Qed.

Lemma step_payload c agents payload :
  payload ∈ (_run_step c agents).1 ->
  exists n t, payload = stress_payload (node_name n) t.
Proof.
  unfold _run_step. cbn [fst]. rewrite list_elem_of_In. intros (l & Hl & Hin)%in_concat.
  apply list_elem_of_In in Hl, Hin. apply list_elem_of_fmap in Hl as (run & -> & Hrun).
  apply list_elem_of_fmap in Hrun as (n & -> & _). exists n. by eapply posted_payload.
Qed.

Lemma stress_event_quiet p ev :
  stress_event ev -> quiet (w_db (p_world p)) ->
  quiet (w_db (p_world (run_event token_order app p ev))).
Proof.
  intros (c & agents & payload & cr & Hin & ->) Hq.
  apply step_payload in Hin as (n & t & ->). simpl.
  destruct (collector_handle _ _ _ _ (p_world p)) as [r w] eqn:Eh. simpl.
  eapply (wp_run _ (fun _ w' => quiet (w_db w')) _ _ _ Eh).
  unfold collector_handle, handle. apply wp_try. apply wp_bind.
  destruct (authenticate _ _ _) as [u|e]; [|done]. apply wp_lift. do 2 apply wp_bind.
  eapply wp_mono; [apply ingest_quiet; [apply node_name_stress|done]|].
  intros [a|e] w1 Hq1; [|done]. apply wp_ret. by apply wp_ret.
Qed.

Lemma stress_events_quiet events p :
  Forall stress_event events -> quiet (w_db (p_world p)) ->
  quiet (w_db (p_world (run_events token_order app events p))).
Proof.
  intros Hall. revert p. induction Hall as [|ev events Hev _ IH]; intros p Hq; [done|].
  apply IH. by apply stress_event_quiet.
Qed.

End run.

(** C40: a run of the load generator leaves no trace.  On a Collector with the rules it ships
    with, whatever it went through before, as long as no node had a virtual agent's name: the
    pushes of the run, from however many virtual agents, however often and whatever the
    database does, change no alert and no remediation action, and deleting the rows of the
    [stress-] nodes, as the script says, gives back the database as it was. *)
Theorem stress_run_leaves_no_trace `{E : Env} token_order app history events :
  app_rules app = default_rules -> Forall stress_event events ->
  let before := db_after token_order app history in
  let after := db_after token_order app (history ++ events) in
  unstressed before ->
  alerts after = alerts before /\ remediation_actions after = remediation_actions before /\
  clean_up after = before.
Proof.
  intros Hrules Hall before after Hun.
  assert (foreign_keys before) as Hfk.
  { apply db_after_invariant; [apply foreign_keys_stable|apply foreign_keys_empty]. }
  assert (quiet before after) as (Ha & Hr & Hc & _); [|done].
  unfold after, db_after, run_events. rewrite foldl_app.
  apply (stress_events_quiet token_order app before Hfk Hun Hrules events); [done|].
  split; [done|]. split; [done|]. split; [by apply clean_up_unstressed|].
  intros k r Hk Hs. destruct (proj2 (proj2 Hfk) _ _ Hk) as [node Hn]. by destruct (Hun _ _ Hn).
Qed.

(** ** A concrete run *)

#[local] Existing Instance ref_env.

Definition busy_iterations : list Iteration :=
  [{| it_monotonic := float_of_Z 0; it_now := ref_start; it_elapsed := float_of_Z 1;
      it_response := Some 200 |};
   {| it_monotonic := float_of_Z 5; it_now := ref_start + seconds 5; it_elapsed := float_of_Z 1;
      it_response := Some 200 |}].

Definition busy_conditions : Conditions :=
  {| cd_stop_at := float_of_Z 45; cd_met := fun _ => busy_iterations; cd_merge := @concat _;
     cd_merge_all := fun l => reflexivity (concat l) |}.

(** Two virtual agents push after a real node did, its disk full. *)
Definition stress_history : list Event :=
  [HttpRequest None (ReceiveMetrics
     {| np_node_id := "n1"; np_collected_at := ref_start;
        np_samples := [stress_sample DISK_USAGE_PERCENT (float_of_Z 95) "percent"];
        np_collection_errors := [] |})].

Definition stress_events : list Event :=
  (fun p => HttpRequest None (ReceiveMetrics p)) <$> (_run_step busy_conditions 2).1.

Lemma stress_run_leaves_no_trace_witness :
  let before := db_after elements shipped_app stress_history in
  let after := db_after elements shipped_app (stress_history ++ stress_events) in
  (size (alerts before) = 1%nat /\ size (metric_samples after) = 21%nat) /\
  alerts after = alerts before /\ remediation_actions after = remediation_actions before /\
  clean_up after = before.
Proof.
  split; [vm_compute; split; reflexivity|].
  apply (stress_run_leaves_no_trace elements shipped_app stress_history stress_events); [reflexivity| |].
  - apply Forall_fmap, Forall_forall. intros p Hp. exists busy_conditions, 2, p, None. by split.
  - apply (bool_decide_unpack _). vm_compute. exact I.
Defined.
