(* ===== verification/Scenario.v ===== *)
(** * A concrete run

    The Collector on the reference environment: one threshold rule on the CPU, one
    playbook, and four pushes of a busy node half an hour apart.  The witnesses of the
    whole-system properties evaluate it. *)

From S2P Require Import Prelude PyFloat PyTime Domain Schema Runtime RefEnv Protocols Tables.
From S2P Require Import Rules Remediation Notifications Lifecycle Invariants Conformance.
From S2P Require Import SqlNodeRepository SqlAlertRepository SqlMetricsRepository.
From S2P Require Import SqlActionRepository Settings NodeRegistry RemediationService Alerting.
From S2P Require Import Ingestion Progress Reconciliation Staleness Retention JobScheduler Upkeep.
From S2P Require Import SchedulerThread.
From S2P Require Import Api Deps Sessions Collector.

Local Open Scope Z_scope.
Local Open Scope pulse_scope.

#[local] Existing Instance ref_env.

Definition demo_settings : CollectorSettings :=
  {| environment := DEV;
     api_tokens := "secret";
     heartbeat_stale_after_seconds := DEFAULT_HEARTBEAT_STALE_AFTER_SECONDS;
     rules_config_path := _DEFAULT_RULES_CONFIG_PATH;
     telegram_bot_token := Some "token";
     telegram_chat_id := Some "chat";
     escalation_after_seconds := DEFAULT_ESCALATION_AFTER_SECONDS;
     remediation_enabled := true;
     remediation_policy_config_path := _DEFAULT_REMEDIATION_POLICY_PATH;
     remediation_after_seconds := DEFAULT_REMEDIATION_AFTER_SECONDS;
     max_remediations_per_node_per_hour := DEFAULT_MAX_REMEDIATIONS_PER_NODE_PER_HOUR;
     remediation_cooldown_seconds := DEFAULT_REMEDIATION_COOLDOWN_SECONDS;
     retention_enabled := true;
     metrics_retention_days := DEFAULT_METRICS_RETENTION_DAYS;
     resolved_alerts_retention_days := DEFAULT_RESOLVED_ALERTS_RETENTION_DAYS;
     remediation_actions_retention_days := DEFAULT_REMEDIATION_ACTIONS_RETENTION_DAYS;
     retention_interval_seconds := DEFAULT_RETENTION_INTERVAL_SECONDS;
     retention_batch_size := DEFAULT_RETENTION_BATCH_SIZE;
     staleness_alerting_enabled := true;
     staleness_check_interval_seconds := DEFAULT_STALENESS_CHECK_INTERVAL_SECONDS;
     remediation_reconciliation_enabled := true;
     reconciliation_interval_seconds := DEFAULT_RECONCILIATION_INTERVAL_SECONDS;
     remediation_dispatch_timeout_seconds := DEFAULT_REMEDIATION_DISPATCH_TIMEOUT_SECONDS |}.

Definition demo_rule : ThresholdRuleDefinition :=
  {| tr_metric_type := CPU_USAGE_PERCENT; tr_comparison := GREATER_THAN;
     tr_threshold := float_of_Z 90; tr_severity := CRITICAL; tr_description := "CPU high" |}.

Definition demo_memory_rule : ThresholdRuleDefinition :=
  {| tr_metric_type := MEMORY_USAGE_PERCENT; tr_comparison := GREATER_THAN_OR_EQUAL;
     tr_threshold := float_of_Z 90; tr_severity := WARNING; tr_description := "memory high" |}.

Definition demo_rules : RulesConfig :=
  {| threshold_rules := [demo_rule; demo_memory_rule]; rate_of_change_rules := [] |}.

Definition demo_playbook : PlaybookDefinition :=
  {| pb_rule_key := "threshold:cpu.usage_percent"; pb_playbook_name := "clear_tmp";
     pb_action_type := CLEAR_DIRECTORY; pb_parameters := {["path" := "/tmp/cache"]};
     pb_description := "free some space" |}.

Definition demo_memory_playbook : PlaybookDefinition :=
  {| pb_rule_key := "threshold:memory.usage_percent"; pb_playbook_name := "clear_tmp";
     pb_action_type := NOOP; pb_parameters := ∅; pb_description := "free some memory" |}.

Definition demo_app : App :=
  {| app_settings := demo_settings; app_notifier := _build_notifier demo_settings;
     app_scheduler := None; app_rules := demo_rules; app_policy := [demo_playbook; demo_memory_playbook] |}.

Definition percent_sample (m : MetricType) : MetricSample :=
  {| ms_metric_type := m; ms_value := float_of_Z 95; ms_unit := "percent"; ms_labels := ∅ |}.

(** The node pushes samples at 95 percent, [m] minutes into the run. *)
Definition busy_push (m : Z) (metrics : list MetricType) : Event :=
  HttpRequest (Some "secret") (ReceiveMetrics
    {| np_node_id := "n1"; np_collected_at := ref_start + minutes m;
       np_samples := percent_sample <$> metrics; np_collection_errors := [] |}).

(** The CPU is busy from the start, the memory from minute 30; the Collector is restarted
    after minute 15. *)
Definition demo_events : list Event :=
  [busy_push 0 [CPU_USAGE_PERCENT]; busy_push 15 [CPU_USAGE_PERCENT]; Restart;
   busy_push 30 [CPU_USAGE_PERCENT; MEMORY_USAGE_PERCENT];
   busy_push 45 [MEMORY_USAGE_PERCENT]; busy_push 60 [MEMORY_USAGE_PERCENT]].

Definition demo_order (X : gset string) : list string := elements X.

Definition demo_after : Db := db_after demo_order demo_app demo_events.

Example demo_alert_row :
  (fun a => (am_status a, am_escalated_at a, am_remediated_at a)) <$> alerts demo_after !! 1 =
  Some (FIRING, Some (ref_start + minutes 15), Some (ref_start + minutes 30)).
Proof. vm_compute. reflexivity. Qed.

Example demo_action_row :
  (fun r => (rm_status r, rm_alert_id r, rm_created_at r)) <$>
    remediation_actions demo_after !! 1 = Some (DISPATCHED, 1, ref_start + minutes 30).
Proof. vm_compute. reflexivity. Qed.

Example demo_second_action :
  (fun r => (rm_status r, rm_alert_id r, rm_created_at r)) <$>
    remediation_actions demo_after !! 2 = Some (DISPATCHED, 2, ref_start + minutes 60).
Proof. vm_compute. reflexivity. Qed.

(** The row of the demonstration run under a key. *)
Definition demo_alert_at (k : Z) : AlertModel :=
  default (demo_alert 0 0) (alerts demo_after !! k).
Definition demo_action_at (k : Z) : RemediationActionModel :=
  default (demo_action 0 0 DISPATCHED 0) (remediation_actions demo_after !! k).

(** ** Witnesses *)

Lemma one_open_alert_per_condition_witness : 1 = 1.
Proof.
  apply (one_open_alert_per_condition demo_order demo_app demo_events
           1 (demo_alert_at 1) 1 (demo_alert_at 1)); vm_compute; reflexivity.
Defined.

Lemma dispatch_cooldown_witness :
  float_of_Z 1800 <=. total_seconds (minutes 30).
Proof.
  apply (dispatch_cooldown demo_order demo_app demo_events 1 (demo_action_at 1) 2 (demo_action_at 2));
    vm_compute; try reflexivity; discriminate.
Defined.

(** The application [create_app] builds from the demonstration's configuration. *)
Definition ok_or {A} (d : A) (r : Res A) : A := match r with Ok a => a | Raise _ => d end.

Lemma ok_or_ok {A} (d : A) r : is_ok r = true -> r = Ok (ok_or d r).
Proof. by destruct r. Qed.

Definition demo_created : App :=
  ok_or demo_app (create_app false demo_settings demo_rules [demo_playbook; demo_memory_playbook]).

Definition created_alert : AlertModel :=
  default (demo_alert 0 0) (alerts (db_after demo_order demo_created demo_events) !! 1).

Lemma remediation_only_after_escalation_witness : is_Some (am_escalated_at created_alert).
Proof.
  apply (remediation_only_after_escalation demo_order false demo_settings demo_rules
    [demo_playbook; demo_memory_playbook] demo_created demo_events 1 created_alert).
  - apply ok_or_ok. vm_compute. reflexivity.
  - vm_compute. reflexivity.
  - vm_compute. reflexivity.
  - vm_compute. reflexivity.
  - vm_compute. eexists. reflexivity.
Defined.

Lemma one_remediation_per_alert_witness : attempted_once demo_after.
Proof. apply (one_remediation_per_alert demo_order demo_app demo_events ref_env_healthy). Defined.

(** ** Witnesses of the components' properties, on the demonstration rows *)

Lemma demo_fk : foreign_keys demo_db.
Proof. by apply (bool_decide_unpack _). Qed.

Lemma demo_base : base demo_db.
Proof.
  split; [|exact demo_fk]. unfold keyed. split; by apply (bool_decide_unpack _).
Qed.

Lemma demo_one_firing : one_firing demo_db.
Proof.
  assert (forall k a, alerts demo_db !! k = Some a -> am_status a = FIRING -> k = 1) as H1.
  { intros k a Hk. unfold demo_db in Hk. simpl in Hk.
    apply lookup_insert_Some in Hk as [[<- <-]|[_ Ha]]; [done|].
    by apply lookup_singleton_Some in Ha as [<- _]. }
  intros k1 a1 k2 a2 Ha1 Ha2 Hf1 Hf2 _ _. by rewrite (H1 k1 a1), (H1 k2 a2).
Qed.

Lemma demo_nodes_keyed : nodes_keyed demo_db.
Proof. unfold nodes_keyed. by apply (bool_decide_unpack _). Qed.

(** The lifecycle of the demonstration's application. *)
Definition demo_config : LifecycleConfig := app_lifecycle demo_app.

(** After the demonstration run the first alert is acknowledged, its action reported as executed,
    twice, and the Collector restarted. *)
Definition demo_later : list Event :=
  [HttpRequest (Some "secret") (AcknowledgeAlert 1 {| Routes.acknowledged_by := "ops" |});
   HttpRequest (Some "secret") (ReportResult 1 {| res_status := RESULT_EXECUTED; res_message := None |});
   Restart;
   HttpRequest (Some "secret") (ReportResult 1 {| res_status := RESULT_FAILED; res_message := None |});
   busy_push 90 [CPU_USAGE_PERCENT]].

Lemma alert_history_witness :
  am_acknowledged_by <$> alerts (db_after demo_order demo_app (demo_events ++ demo_later)) !! 1 =
    Some (Some "ops"%string) /\
  exists a', alerts (db_after demo_order demo_app (demo_events ++ demo_later)) !! 1 = Some a' /\
    alert_kept (demo_alert_at 1) a'.
Proof.
  split; [vm_compute; reflexivity|].
  apply (alert_history demo_order demo_app demo_events demo_later 1 (demo_alert_at 1));
    [right; repeat constructor|vm_compute; reflexivity].
Defined.


Definition demo_service : AlertEvaluationService := get_alert_evaluation_service demo_app.

Definition demo_result : RuleEvaluationResult :=
  {| rule_key := "threshold:cpu.usage_percent"; rule_kind := THRESHOLD; severity := CRITICAL;
     description := "CPU high"; breached := true; value := float_of_Z 95; bound := float_of_Z 90 |}.

Lemma apply_quadrants_witness :
  wp (_apply demo_service "n1" demo_result ref_start) (fun r w' =>
    match r with
    | Ok (view, dispatched) =>
        apply_outcome demo_service "n1" demo_result ref_start demo_world view dispatched w'
    | Raise e => limits_failure ref_start e
    end) demo_world.
Proof. apply apply_quadrants; [exact demo_base|by eexists]. Defined.

Lemma due_monotone_witness :
  let record := alert_to_record (demo_alert 1 ref_start) in
  _should_remediate demo_service record (ref_start + hours 2) = true.
Proof.
  apply (due_monotone demo_service (alert_to_record (demo_alert 1 ref_start))
           (ref_start + hours 1) (ref_start + hours 2)); [by vm_compute|by vm_compute].
Defined.

Lemma report_result_spec_witness :
  let result := {| res_status := RESULT_EXECUTED; res_message := None |} in
  wp (report_result 1 result) (fun r w' => report_outcome 1 result demo_world r w' \/
    exists e, r = Raise e /\ is_persistence e /\ ~ Healthy /\ same_state demo_world w') demo_world.
Proof. apply report_result_spec. exact demo_fk. Defined.

Definition demo_push : NodeMetricsPayload :=
  {| np_node_id := "n2"; np_collected_at := ref_start;
     np_samples := [percent_sample CPU_USAGE_PERCENT]; np_collection_errors := [] |}.

Lemma ingest_acknowledged_witness :
  wp (ingest (float_of_Z 90) (Some demo_service) demo_push) (fun r w' =>
    match r with
    | Ok ack => ack_accepted ack = true /\
        exists db1, persisted demo_push (ack_received_at ack) demo_db db1 /\
          rtc (step (config (Some demo_service)) (~ Healthy)) db1 (w_db w')
    | Raise e => is_persistence e /\ ~ Healthy
    end) demo_world.
Proof. apply ingest_acknowledged. exact demo_base. Defined.

Lemma staleness_sweep_witness :
  wp (staleness_run (float_of_Z 90) None true) (fun r w' =>
    match r with
    | Ok _ => let now := clock (w_tick demo_world) in forall n node, nodes demo_db !! n = Some node ->
        has_open (w_db w') n <-> silent (float_of_Z 90) now (nm_last_seen_at node) /\
                                 (true = true \/ has_open demo_db n)
    | Raise e => is_persistence e /\ ~ Healthy
    end) demo_world.
Proof.
  apply staleness_sweep; [split; [exact demo_base|exact demo_one_firing]|exact demo_nodes_keyed].
Defined.

(** The demonstration's entries, all due. *)
Definition due_entries : list Entry :=
  (fun job => {| en_schedule := {| js_job := job; js_interval_seconds := float_of_Z 60 |};
                 en_next_due := float_of_Z 0 |})
  <$> [RetentionJob; StalenessJob false; ReconciliationJob].

Lemma demo_calendar :
  calendar_ok demo_settings (days 90) (days 30) (days 7) (minutes 30).
Proof.
  split; [vm_compute; reflexivity..|]. intros n d Hd.
  assert (0 <= d <= days 90) as Hrange.
  { rewrite !elem_of_cons, elem_of_nil in Hd. unfold days, minutes, seconds, us_per_second in *. lia. }
  unfold datetime_sub. cbn [clock ref_env RefEnv]. revert Hrange.
  unfold ref_start, days, min_datetime, max_datetime, seconds, us_per_second. intros Hrange.
  rewrite (proj2 (Z.leb_le _ _)) by lia. by rewrite (proj2 (Z.leb_le _ _)) by lia.
Qed.

Lemma upkeep_pass_witness :
  wp (run_due demo_settings None (float_of_Z 100) due_entries) (fun r w' =>
    exists entries' t1 t2 t3, r = Ok entries' /\
    (fun e => js_job (en_schedule e)) <$> entries' =
      [RetentionJob; StalenessJob true; ReconciliationJob] /\
    upkept (heartbeat_stale_after_seconds demo_settings) false (t1 - days 90) (t1 - days 30)
      (t1 - days 7) (t3 - minutes 30) t2 t3 demo_db (w_db w')) demo_world.
Proof.
  apply (upkeep_pass demo_settings None (float_of_Z 100) due_entries false); [apply ref_env_healthy
    |exact demo_calendar|vm_compute; discriminate|split; [exact demo_base|exact demo_one_firing]
    |exact demo_nodes_keyed|reflexivity|repeat constructor].
Defined.

Definition demo_timeout : datetime := ref_start - minutes 15.

Lemma reconciliation_sweep_witness :
  wp (reconciliation_run (float_of_Z 900)) (fun r w' =>
    match r with
    | Ok n => exists ids, n = Z.of_nat (length ids) /\ NoDup ids /\
        (forall id, id ∈ ids <-> exists a,
           remediation_actions (w_db demo_world) !! id = Some a /\ dispatched_before demo_timeout a) /\
        w_db w' = set_actions (timed_out_rows (clock (w_tick demo_world)) ids
                    (remediation_actions (w_db demo_world))) (w_db demo_world)
    | Raise e => is_persistence e /\ ~ Healthy
    end) demo_world.
Proof.
  apply (reconciliation_sweep (float_of_Z 900) (minutes 15) demo_timeout demo_world);
    [by vm_compute|by vm_compute|exact demo_base].
Defined.

Definition demo_cutoff (d : Z) : datetime := ref_start - days d.

Lemma retention_sweep_witness :
  wp (retention_run demo_settings) (fun r w' =>
    match r with
    | Ok stats =>
        w_db w' = swept (demo_cutoff 90) (demo_cutoff 30) (demo_cutoff 7) (w_db demo_world) /\
        let db1 := set_actions (kept (action_prunable (demo_cutoff 90))
                                  (remediation_actions (w_db demo_world))) (w_db demo_world) in
        remediation_actions_deleted stats =
          removed (action_prunable (demo_cutoff 90)) (remediation_actions (w_db demo_world)) /\
        alerts_deleted stats =
          removed (alert_prunable db1 (demo_cutoff 30)) (alerts (w_db demo_world)) /\
        metric_samples_deleted stats =
          removed (sample_prunable (demo_cutoff 7)) (metric_samples (w_db demo_world))
    | Raise e => is_persistence e /\ ~ Healthy
    end) demo_world.
Proof.
  apply (retention_sweep demo_settings demo_world (days 90) (days 30) (days 7)
           (demo_cutoff 90) (demo_cutoff 30) (demo_cutoff 7));
    [by vm_compute|by vm_compute|by vm_compute|by vm_compute|by vm_compute|by vm_compute
    |by vm_compute|exact demo_base].
Defined.

(** A push, a request with the wrong token, a health check, and a run of each job; FastAPI's
    order for the first, and the token before the session for the second. *)
Definition demo_tasks : list Task :=
  [Serve (depth_first (ReceiveMetrics demo_push)) (Some "secret") (ReceiveMetrics demo_push);
   Serve [P_settings; P_verify_api_token; P_db_session; P_node_repository; P_node_registry_service]
     (Some "wrong") ListNodes;
   Serve (depth_first Healthz) None Healthz;
   RunJob None RetentionJob; RunJob None (StalenessJob false); RunJob None ReconciliationJob].

Lemma sessions_never_leak_witness :
  let '(w', ss') := run_tasks demo_settings demo_service ["secret"] demo_tasks
                      (demo_world, {| ss_next := 0; ss_open := ∅ |}) in
  ss_open ss' = ∅ /\
  w' = foldl (fun w t => snd (task demo_settings demo_service ["secret"] t w)) demo_world demo_tasks.
Proof.
  apply (sessions_never_leak demo_settings demo_service ["secret"] demo_tasks demo_world).
  constructor; [apply depth_first_resolution|]. constructor.
  { split; [by vm_compute|split; apply (bool_decide_unpack _); by vm_compute]. }
  constructor; [apply depth_first_resolution|]. repeat constructor.
Defined.

(** The last byte of a non-ASCII header value. *)
Definition accented : string := String.String (Ascii.ascii_of_N 233) EmptyString.

Lemma verify_api_token_spec_witness :
  verify_api_token ["secret"] (Some "guess") = Raise AuthenticationError /\
  exists e, verify_api_token ["secret"] (Some accented) = Raise e /\
    rs_status (error_response e) = 500 /\ e <> AuthenticationError.
Proof.
  split.
  - rewrite (proj1 (verify_api_token_spec ["secret"] (Some "guess"))); [by vm_compute|].
    repeat constructor.
  - apply (verify_api_token_spec ["secret"] (Some accented)); by vm_compute.
Defined.

(** ** The scheduler's thread *)

(** Two jobs, one second apart on a clock that advances a second per reading. *)
Definition demo_schedules : list JobSchedule :=
  [{| js_job := StalenessJob false; js_interval_seconds := float_of_Z 1 |};
   {| js_job := ReconciliationJob; js_interval_seconds := float_of_Z 1 |}].

(** A loop up to its first [job.run()], and [stop] called then. *)
Definition demo_scheduler : Scheduler :=
  after_script demo_settings None demo_schedules
    [MStart; MLoop 0; MLoop 0; MLoop 0; MLoop 0; MStop] demo_world.

Definition demo_loop : Loop := default Starting (loops demo_scheduler !! 0%nat).

Lemma scheduler_loops_bounded_witness :
  (size (loops demo_scheduler) <= 1)%nat /\ (in_progress demo_scheduler <= 1)%nat.
Proof.
  destruct (scheduler_loops_bounded demo_settings None demo_schedules demo_world demo_scheduler)
    as [Hl Hp]; [apply after_script_reachable|].
  split; [exact Hl|]. apply Hp; [vm_compute; reflexivity|].
  vm_compute. intros job rest H. discriminate H.
Defined.

(** The job in progress and the other due job of the pass, and then the loop is gone. *)
Lemma stop_ends_loop_witness :
  let s' := loop_steps demo_settings None demo_schedules (remaining_steps demo_loop) 0
              demo_scheduler in
  loops s' !! 0%nat = None /\ started s' = started demo_scheduler ++ [1%nat].
Proof.
  apply (stop_ends_loop demo_settings None demo_schedules demo_world demo_scheduler 0 demo_loop);
    [apply after_script_reachable | vm_compute; reflexivity | vm_compute; reflexivity].
Defined.

