(* ===== verification/ConcurrentScenario.v ===== *)
(** * Interleaved requests

    The demonstration's application serving two nodes at once: their pushes advance call by
    call in turns, next to an acknowledgement and the scheduler's sweeps.  The witnesses of
    the properties of concurrent service evaluate it. *)

From S2P Require Import Prelude PyFloat PyTime Domain Schema Runtime Threads RefEnv Protocols.
From S2P Require Import Tables SqlNodeRepository SqlAlertRepository SqlMetricsRepository.
From S2P Require Import SqlActionRepository Rules Remediation Notifications Lifecycle Invariants.
From S2P Require Import Races Settings Alerting Routes Interference Api Collector Concurrent Scenario.

Local Open Scope Z_scope.
Local Open Scope pulse_scope.

#[local] Existing Instance ref_env.

(** The node pushes its CPU at 95 percent, [m] minutes into the run. *)
Definition cpu_push (node_id : string) (m : Z) : Work :=
  HandleRequest (Some "secret") (ReceiveMetrics
    {| np_node_id := node_id; np_collected_at := ref_start + minutes m;
       np_samples := [percent_sample CPU_USAGE_PERCENT]; np_collection_errors := [] |}).

Definition ack_first : Work :=
  HandleRequest (Some "secret") (AcknowledgeAlert 1 {| acknowledged_by := "ops" |}).

(** The jobs get threads 0, 1, ... and take turns until they are done. *)
Definition in_turns (works : list Work) : list PoolMove :=
  imap Arrive works ++ concat (replicate 40 (imap (fun i _ => Advance i) works)) ++
  imap (fun i _ => Leave i) works.

(** Both nodes push at once, three times; the last two times next to the sweeps, and the last
    time next to an acknowledgement of the first alert. *)
Definition first_round : list PoolMove := in_turns [cpu_push "n1" 0; cpu_push "n2" 0].
Definition later_rounds : list PoolMove :=
  in_turns [cpu_push "n1" 15; SweepReconciliation; cpu_push "n2" 15] ++
  in_turns [cpu_push "n1" 30; cpu_push "n2" 30; ack_first; SweepStaleness true].
Definition two_nodes : list PoolMove := first_round ++ later_rounds.

Definition served_db : Db := w_db (pl_world (serve_moves demo_order demo_app two_nodes)).

Lemma served_demo : served demo_order demo_app served_db.
Proof. apply served_run. Qed.

(** The first alert is acknowledged in time, the second remediated. *)
Example served_alerts :
  (fun a => (am_node_id a, am_acknowledged_by a, am_remediated_at a)) <$> rows (alerts served_db) =
  [("n2", None, Some (ref_start + minutes 30)); ("n1", Some "ops", None)]%string.
Proof. vm_compute. reflexivity. Qed.

Definition served_alert (k : Z) : AlertModel := default (demo_alert 0 0) (alerts served_db !! k).
Definition served_action (k : Z) : RemediationActionModel :=
  default (demo_action 0 0 DISPATCHED 0) (remediation_actions served_db !! k).

(** ** Witnesses *)

(** From the end of the first round on. *)
Lemma concurrent_service_refines_lifecycle_witness :
  rtc (move (lifecycle_config (get_alert_evaluation_service demo_app)) (~ Healthy))
    (w_db (pl_world (serve_moves demo_order demo_app first_round))) served_db.
Proof.
  exact (concurrent_service_refines_lifecycle demo_order demo_app
    (serve_moves demo_order demo_app first_round) (serve_moves demo_order demo_app two_nodes)
    (served_start demo_order demo_app first_round)
    (served_more demo_order demo_app first_round later_rounds)).
Defined.

Lemma concurrent_one_open_alert_witness : 1 = 1.
Proof.
  apply (concurrent_one_open_alert demo_order demo_app served_db 1 (served_alert 1) 1 (served_alert 1)
    served_demo); vm_compute; reflexivity.
Defined.

(** One action dispatched to each of two nodes in the last hour. *)
Lemma concurrent_safety_limits_witness :
  Z.of_nat (count (in_hour "n2" ref_start) (remediation_actions served_db)) = 1 /\
  Z.of_nat (count (in_hour "n2" ref_start) (remediation_actions served_db)) <= 3.
Proof.
  split; [vm_compute; reflexivity|].
  exact (proj1 (concurrent_safety_limits demo_order demo_app served_db served_demo) "n2" ref_start).
Defined.

Lemma concurrent_one_remediation_witness : 1 = 1.
Proof.
  apply (concurrent_one_remediation demo_order demo_app served_db 1 (served_action 1) 1
    (served_action 1) ref_env_healthy served_demo); vm_compute; reflexivity.
Defined.
