(* ===== verification/Divergences.v ===== *)
(** * Where the behaviour departs from what is documented

    Runs of the model on the reference environment that show the limits of the system's
    guarantees: a write that fails between two commits, pushes that overlap, an acknowledgement
    that comes during a push, a result that arrives after its action was timed out, and three places where the code and the
    documents disagree. *)

From S2P Require Import Prelude PyFloat PyTime Domain Schema Runtime Threads RefEnv Protocols Tables.
From S2P Require Import Rules Remediation Notifications Lifecycle Invariants Conformance.
From S2P Require Import SqlNodeRepository SqlAlertRepository SqlMetricsRepository.
From S2P Require Import SqlActionRepository Settings NodeRegistry RemediationService Alerting.
From S2P Require Import Ingestion Reconciliation Staleness Retention JobScheduler SchedulerThread.
From S2P Require Import Api Collector Concurrent Scenario ConcurrentScenario.

Local Open Scope Z_scope.

(** ** A failure between two commits *)

(** The reference environment whose 30th interaction fails: the commit of [mark_remediated],
    after that of [create_action]. *)
Definition faulty_env : Env := RefEnv (fun n => Nat.eqb n 30) ref_start.

Definition faulty_app : @App faulty_env :=
  {| app_settings := demo_settings; app_notifier := _build_notifier demo_settings;
     app_scheduler := None; app_rules := demo_rules; app_policy := [demo_playbook] |}.

(** One alert, breached at minutes 0, 15, 30 and 61. *)
Definition cpu_events : list Event :=
  (fun m => busy_push m [CPU_USAGE_PERCENT]) <$> [0; 15; 30; 61].

(** The alert is remediated twice: its stamp was lost with the failed commit, so once the
    cooldown had elapsed the next push dispatched again. *)
Lemma failed_stamp_dispatches_twice :
  (fun r => (rm_alert_id r, rm_status r, rm_created_at r)) <$>
    rows (remediation_actions (@db_after faulty_env demo_order faulty_app cpu_events)) =
  [(1, DISPATCHED, ref_start + minutes 61); (1, DISPATCHED, ref_start + minutes 30)].
Proof. vm_compute. reflexivity. Qed.

#[local] Existing Instance ref_env.

(** ** Pushes of one node that overlap *)

(** Two pushes of one node handled at the same time, if nothing kept them apart. *)
Definition overlapping_pushes : World :=
  pl_world (pool_run work_kind (work_program demo_order demo_app) (fun _ _ => true)
    (in_turns [cpu_push "n1" 0; cpu_push "n1" 0]) idle).

(** Both look for the open alert before either creates it: two alerts fire for one condition,
    and the notifier reported it twice. *)
Lemma overlapping_pushes_open_twice :
  ((fun a => (am_node_id a, am_rule_key a, am_status a)) <$> rows (alerts (w_db overlapping_pushes)) =
   [("n1", "threshold:cpu.usage_percent", FIRING); ("n1", "threshold:cpu.usage_percent", FIRING)])%string /\
  length (w_posts overlapping_pushes) = 2%nat.
Proof. by vm_compute. Qed.

(** ** An acknowledgement during a push *)

(** The third push has read the alert, five calls in, when the acknowledgement is handled. *)
Definition until_acknowledged : list PoolMove :=
  in_turns [cpu_push "n1" 0] ++ in_turns [cpu_push "n1" 15] ++
  [Arrive 0 (cpu_push "n1" 30)] ++ replicate 5 (Advance 0) ++
  [Arrive 1 ack_first] ++ replicate 10 (Advance 1) ++ [Leave 1].

Definition db_of (moves : list PoolMove) : Db :=
  w_db (pl_world (serve_moves demo_order demo_app moves)).

(** The name and the number of actions, as soon as it is answered and after the push. *)
Definition acknowledged_actions (db : Db) : option (option string) * nat :=
  (am_acknowledged_by <$> alerts db !! 1, size (remediation_actions db)).

(** The alert is acknowledged before anything is decided, and is remediated all the same. *)
Lemma late_acknowledgement_is_remediated :
  acknowledged_actions (db_of until_acknowledged) = (Some (Some "ops"), 0%nat) /\
  acknowledged_actions (db_of (until_acknowledged ++ replicate 40 (Advance 0))) =
    (Some (Some "ops"), 1%nat).
Proof. by vm_compute. Qed.

(** ** A result after the timeout *)

(** The sweep fails the action as timed out; the Agent's result, arriving later, is refused with
    409 and the row keeps the timeout's reason. *)
Definition late_report : M RemediationActionRecord :=
  _ ← reconciliation_run (float_of_Z 900);
  report_result 1 {| res_status := RESULT_EXECUTED; res_message := None |}.

Lemma late_result_is_refused :
  let '(r, w) := late_report demo_world in
  r = Raise (RemediationActionNotDispatchedError 1 FAILED) /\
  _status_for (RemediationActionNotDispatchedError 1 FAILED) = 409 /\
  (fun a => (rm_status a, rm_reason a)) <$> remediation_actions (w_db w) !! 1 =
    Some (FAILED, Some TIMED_OUT_REASON).
Proof. by vm_compute. Qed.

(** ** A node exactly at the staleness threshold *)

(** At the boundary the staleness job finds the node silent while its view is not stale. *)
Lemma staleness_boundary last_seen :
  let now := last_seen + seconds 90 in
  silent (float_of_Z 90) now last_seen /\
  nv_is_stale (node_view (float_of_Z 90) now (node_to_record (demo_node last_seen))) = false.
Proof.
  simpl. unfold silent. simpl. replace (last_seen + seconds 90 - last_seen) with (seconds 90) by lia.
  by vm_compute.
Qed.

(** ** A clock that was wrong *)

(** A push with an older timestamp moves [last_seen_at] backwards: it is the sender's clock that
    is stored, not the time of receipt. *)
Lemma last_seen_moves_backwards :
  nm_last_seen_at <$> nodes (w_db (snd (record_seen (float_of_Z 90) "n1"
    (ref_start - hours 1) demo_world))) !! "n1" = Some (ref_start - hours 1).
Proof. by vm_compute. Qed.

(** ** What the hourly limit counts *)

(** An engine that allows two actions per hour, with no cooldown. *)
Definition eager_engine (max_per_hour : Z) : RemediationEngine :=
  RemediationEngine_init [demo_playbook] true max_per_hour (float_of_Z 0).

(** Three blocked attempts of the last hour and no dispatched one. *)
Definition blocked_world : World :=
  world_of (set_actions
    ((fun k => demo_action k 1 BLOCKED_BY_SAFETY_LIMIT (ref_start - minutes 10)) <$>
       {[1 := 1; 2 := 2; 3 := 3]}) demo_db).

(** Blocked attempts use up the limit: nothing was dispatched, and the next attempt is refused. *)
Lemma blocked_attempts_count :
  rm_status <$> remediation_actions (w_db (snd (Remediation.decide (eager_engine 3) "n1" 1
    "threshold:cpu.usage_percent" ref_start blocked_world))) !! 4 = Some BLOCKED_BY_SAFETY_LIMIT.
Proof. by vm_compute. Qed.

(** ** Two loops at once *)

(** A [stop] whose join times out during a job forgets the thread; the next [start] clears the
    event the old loop has not seen, and two loops run, here inside the same job. *)
Definition restarted_scheduler : Scheduler :=
  after_script demo_settings None demo_schedules
    [MStart; MLoop 0; MLoop 0; MLoop 0; MLoop 0; MStop; MJoined;
     MStart; MLoop 1; MLoop 1; MLoop 1; MLoop 1] demo_world.

Lemma restart_after_timeout_overlaps :
  sched_reachable demo_settings None demo_schedules demo_world restarted_scheduler /\
  (timeouts restarted_scheduler, in_progress restarted_scheduler, started restarted_scheduler) =
    (1, 2, [0; 0])%nat.
Proof. split; [apply after_script_reachable|by vm_compute]. Qed.

(** [run_all_once] runs its jobs in the thread that calls it, whatever the loop is doing. *)
Definition swept_scheduler : Scheduler :=
  after_script demo_settings None demo_schedules
    [MStart; MLoop 0; MLoop 0; MLoop 0; MLoop 0; MSweep] demo_world.

Lemma run_all_once_overlaps :
  sched_reachable demo_settings None demo_schedules demo_world swept_scheduler /\
  (timeouts swept_scheduler, in_progress swept_scheduler, started swept_scheduler) =
    (0, 2, [0; 0])%nat.
Proof. split; [apply after_script_reachable|by vm_compute]. Qed.
