(* ===== verification/Disk.v ===== *)
(** * The Agent's disk

    A tree of directories, files and links, as the map from the place of every node to what
    is there.  A place is the list of names that lead to it from the root, links followed. *)

From S2P Require Import Prelude.

(** A [str] read from a file: its code points. *)
Abbreviation text := (list N) (only parsing).

Abbreviation Place := (list string) (only parsing).

(** A node as [os.path.isdir] and [os.path.islink] tell them apart.  A file holds text, or
    bytes that are no UTF-8. *)
Inductive Node :=
| PlainFile (content : option text)
| Directory
| Symlink (to_directory : bool).

#[export] Instance Node_eq_dec : EqDecision Node.
Proof. solve_decision. Defined.

Abbreviation Disk := (gmap (list string) Node) (only parsing).

(** [k] seen from [p]: the names that lead from [p] to it. *)
Fixpoint seen_from (p k : Place) : option Place :=
  match p, k with
  | [], _ => Some k
  | x :: p', y :: k' => if decide (x = y) then seen_from p' k' else None
  | _ :: _, [] => None
  end.

Lemma seen_from_Some p k rest : seen_from p k = Some rest <-> k = p ++ rest.
Proof.
  revert k. induction p as [|x p IH]; intros k; simpl; [naive_solver|].
  destruct k as [|y k]; [naive_solver|]. destruct (decide (x = y)) as [->|Hne]; [|naive_solver].
  rewrite IH. naive_solver.
Qed.

(** [k] is [p] or lies in it. *)
Definition within (p k : Place) : Prop := is_Some (seen_from p k).

(** [k] lies in the directory [p]. *)
Definition inside (p k : Place) : Prop := exists x rest, k = p ++ x :: rest.

#[export] Instance within_dec p k : Decision (within p k).
Proof. unfold within. apply _. Defined.

Lemma within_prefix p k : within p k <-> p `prefix_of` k.
Proof.
  unfold within. split.
  - intros [rest Hr]. apply seen_from_Some in Hr. by exists rest.
  - intros [rest ->]. exists rest. by apply seen_from_Some.
Qed.

Lemma within_refl p : within p p.
Proof. by apply within_prefix. Qed.

Lemma within_child p x k : within (p ++ [x]) k -> inside p k.
Proof. intros [rest ->%seen_from_Some]. exists x, rest. by rewrite <- app_assoc. Qed.

(** The directory a place is in, and the last of its names. *)
Definition parent (p : Place) : Place := take (pred (length p)) p.
Definition base_name (p : Place) : option string := last p.

Lemma parent_base p x : base_name p = Some x -> p = parent p ++ [x].
Proof.
  unfold base_name, parent. destruct p as [|y p _] using rev_ind; [done|].
  rewrite last_snoc, length_app. simpl. intros [= ->].
  replace (pred (length p + 1)) with (length p) by lia. by rewrite take_app_length.
Qed.

Lemma parent_prefix p : parent p `prefix_of` p.
Proof. unfold parent. apply prefix_take. Qed.

(** The directories above a place, the root apart, from the top. *)
Definition above (p : Place) : list Place := (fun k => take k p) <$> seq 1 (pred (length p)).

Lemma elem_of_above p k :
  k ∈ above p <-> k <> [] /\ k <> p /\ k `prefix_of` p.
Proof.
  unfold above. rewrite list_elem_of_fmap. split.
  - intros (n & -> & Hn). rewrite elem_of_seq in Hn.
    assert (length (take n p) = n) as Hl by (rewrite length_take; lia).
    split; [intros He; rewrite He in Hl; simpl in Hl; lia|].
    split; [intros He; rewrite He in Hl; lia|apply prefix_take].
  - intros (Hk & Hne & [rest ->]). exists (length k). split; [by rewrite take_app_length|].
    rewrite elem_of_seq, length_app. destruct k as [|x k]; [done|].
    destruct rest as [|y rest]; [by rewrite app_nil_r in Hne|]. simpl. lia.
Qed.

Lemma parent_above p : parent p <> [] -> parent p ∈ above p.
Proof.
  intros Hne. apply elem_of_above. split; [done|]. split; [|apply parent_prefix].
  intros He. apply Hne. apply (f_equal length) in He. unfold parent in *.
  rewrite length_take in He. destruct p as [|x p]; [done|]. simpl in He. lia.
Qed.

(** A place and the directories above it, the root apart, from the top. *)
Definition levels (p : Place) : list Place := (fun k => take k p) <$> seq 1 (length p).

Lemma levels_parent p : levels (parent p) = above p.
Proof.
  unfold levels, above, parent. rewrite length_take, Nat.min_l by lia.
  apply list_fmap_ext. intros i k Hk%list_elem_of_lookup_2. apply elem_of_seq in Hk.
  rewrite take_take. f_equal. lia.
Qed.

(** The directory [p] can be used: it is the root or a directory. *)
Definition is_dir (d : Disk) (p : Place) : bool :=
  match p with [] => true | _ => bool_decide (d !! p = Some Directory) end.

Lemma is_dir_parent d p :
  Forall (fun k => d !! k = Some Directory) (above p) -> is_dir d (parent p) = true.
Proof.
  intros Ha. destruct (parent p) as [|x l] eqn:Ep; [done|].
  apply bool_decide_eq_true. rewrite <- Ep. rewrite Forall_forall in Ha.
  apply Ha, parent_above. by rewrite Ep.
Qed.

(** The names in a directory. *)
Definition child_name (p k : Place) : option string :=
  match seen_from p k with Some [x] => Some x | _ => None end.
Definition children (d : Disk) (p : Place) : list string := omap (child_name p) (map_to_list d).*1.

Lemma elem_of_children d p x : x ∈ children d p <-> is_Some (d !! (p ++ [x])).
Proof.
  unfold children. rewrite list_elem_of_omap. split.
  - intros (k & Hk & Hc). apply list_elem_of_fmap in Hk as ([k' v] & -> & Hk).
    apply elem_of_map_to_list in Hk. unfold child_name in Hc. simpl in Hc.
    destruct (seen_from p k') as [[|y [|]]|] eqn:Ef; try done. injection Hc as <-.
    apply seen_from_Some in Ef as ->. by exists v.
  - intros [v Hv]. exists (p ++ [x]). split.
    + apply list_elem_of_fmap. exists (p ++ [x], v). split; [done|]. by apply elem_of_map_to_list.
    + unfold child_name. by rewrite (proj2 (seen_from_Some p (p ++ [x]) [x]) eq_refl).
Qed.

Lemma children_NoDup d p : NoDup (children d p).
Proof.
  unfold children. pose proof (NoDup_fst_map_to_list d) as Hnd.
  induction Hnd as [|k l Hk _ IH]; csimpl; [constructor|].
  destruct (child_name p k) as [x|] eqn:Ek; [|done]. constructor; [|done].
  rewrite list_elem_of_omap. intros (k' & Hk' & Ek').
  enough (k' = k) by congruence. unfold child_name in Ek, Ek'.
  destruct (seen_from p k) as [[|a [|]]|] eqn:E1; try done.
  destruct (seen_from p k') as [[|a' [|]]|] eqn:E2; try done.
  apply seen_from_Some in E1, E2. congruence.
Qed.

(** The places of a subtree. *)
Definition subtree (d : Disk) (p : Place) : list Place := filter (within p) (map_to_list d).*1.

Lemma elem_of_subtree d p k : k ∈ subtree d p <-> within p k /\ is_Some (d !! k).
Proof.
  unfold subtree. rewrite list_elem_of_filter, list_elem_of_fmap. split.
  - intros [Hw ([k' v] & -> & Hk)]. apply elem_of_map_to_list in Hk. split; [done|by exists v].
  - intros [Hw [v Hv]]. split; [done|]. exists (k, v). split; [done|]. by apply elem_of_map_to_list.
Qed.

(** [path.with_suffix(path.suffix + ".tmp")]: the name with the suffix at its end; an empty
    name has none. *)
Definition with_suffix_tmp (p : Place) : option Place :=
  (fun x => parent p ++ [(x ++ ".tmp")%string]) <$> base_name p.

Lemma tmp_differs p t : with_suffix_tmp p = Some t -> ~ t `prefix_of` p.
Proof.
  unfold with_suffix_tmp. destruct (base_name p) as [x|] eqn:En; [|done]. intros [= <-] Hp.
  rewrite (parent_base p x En) in Hp at 2. apply prefix_app_inv in Hp.
  destruct Hp as [rest Hr]. injection Hr as Hx _.
  assert (String.length x = String.length (x ++ ".tmp")) as Hl by (by rewrite <- Hx).
  clear -Hl. induction x as [|c x IH]; simpl in *; [done|]. apply IH. congruence.
Qed.

Lemma tmp_parent p t : with_suffix_tmp p = Some t -> parent t = parent p.
Proof.
  unfold with_suffix_tmp. destruct (base_name p); [|done]. intros [= <-].
  unfold parent at 1. rewrite length_app. simpl.
  replace (pred _) with (length (parent p)) by lia. by rewrite take_app_length.
Qed.
