(* ===== verification/AgentRuntime.v ===== *)
(** * The Agent's runtime: files, HTTP, and the state monad

    The Agent's code runs in [AM], a state monad over the [AgentWorld] with the same
    exceptions as the Collector.  The file system's failures, the answers of the network,
    the JSON codec and the retry library are the parameter [AgentEnv]. *)

From S2P Require Import Prelude PyFloat PyTime Domain Schema Runtime.
From S2P Require Import Disk.

Local Open Scope Z_scope.

(** What an HTTP request can end in: a response with its status and its body read as an
    [Ack] if it is one, or one of httpx's errors. *)
Inductive HttpOutcome :=
| HttpResponse (status_code : Z) (body : option Ack)
| HttpTimeout                      (* httpx.TimeoutException *)
| HttpConnectError                 (* httpx.ConnectError *)
| HttpOtherError (name : string).  (* ReadError, WriteError, RemoteProtocolError, ... *)

(** No value of the payload is NaN or infinite: JSON has no such numbers, and pydantic
    writes them as [null]. *)
Definition is_finite (x : float) : bool :=
  match x with
  | SpecFloat.S754_nan | SpecFloat.S754_infinity _ => false
  | _ => true
  end.

Definition finite_payload (p : NodeMetricsPayload) : Prop :=
  Forall (fun s => is_finite (ms_value s) = true) (np_samples p).

(** A POST as the Collector receives it: its path, its [Authorization] header and the model
    its JSON body was dumped from. *)
Inductive HttpBody :=
| PostMetrics (payload : NodeMetricsPayload)
| PostResult (action_id : Z) (result : ActionResult).

Record ClientRequest := {
  cr_endpoint : string;
  cr_authorization : option string;
  cr_body : HttpBody;
}.

Record AgentWorld := {
  aw_disk : Disk;
  aw_tick : nat;                                          (* external interactions so far *)
  aw_sent : list ClientRequest;                           (* every request, oldest first *)
  aw_accepted : list NodeMetricsPayload;                  (* payloads answered below 400 *)
  aw_reports : list (Z * ActionResult);                   (* results answered below 400 *)
  aw_executed : list Z;                                   (* the actions handed to the executor *)
}.

Definition AM (A : Type) : Type := AgentWorld -> Res A * AgentWorld.

#[export] Instance AM_ret : MRet AM := fun A a w => (Ok a, w).
#[export] Instance AM_bind : MBind AM := fun A B k m w =>
  match m w with
  | (Ok a, w') => k a w'
  | (Raise e, w') => (Raise e, w')
  end.

Definition a_raise {A} (e : Exc) : AM A := fun w => (Raise e, w).

Definition a_try {A} (m : AM A) (h : Exc -> AM A) : AM A := fun w =>
  match m w with
  | (Ok a, w') => (Ok a, w')
  | (Raise e, w') => h e w'
  end.

Fixpoint a_iter {A} (f : A -> AM unit) (l : list A) : AM unit :=
  match l with
  | [] => mret tt
  | x :: l' => f x ≫= fun _ => a_iter f l'
  end.

Class AgentEnv := {
  (** pydantic's [model_dump_json] and [model_validate_json]. *)
  dump : NodeMetricsPayload -> text;
  parse : text -> option NodeMetricsPayload;
  parse_dump : forall p, finite_payload p -> parse (dump p) = Some p;
  (** JSON text: an object, control characters escaped. *)
  dump_object : forall p, head (dump p) = Some 123%N;
  dump_printable : forall p, Forall (fun c => 32 <= c)%N (dump p);

  (** Whether the file-system call of the n-th interaction succeeds, and what a write of a
      text that fails leaves: the file untouched, or some content. *)
  fs_ok : nat -> bool;
  torn_write : nat -> text -> option (option text);
  (** The place a path leads to, its links followed.  The links on the way to the paths the
      Agent is configured with are not changed while it runs. *)
  realpath : string -> Place;
  (** The order of [os.listdir], and that in which [shutil.rmtree] removes the nodes of a
      directory: those in a directory before the directory. *)
  listdir_order : nat -> list string -> list string;
  listdir_permutes : forall n l, listdir_order n l ≡ₚ l;
  rmtree_order : nat -> list Place -> list Place;
  rmtree_permutes : forall n l, rmtree_order n l ≡ₚ l;
  rmtree_children_first : forall n l i j p k,
    rmtree_order n l !! i = Some p -> rmtree_order n l !! j = Some k -> inside p k -> (j < i)%nat;
  (** What the last request of a sequence ends in: the answer may depend on all of them. *)
  http : list ClientRequest -> HttpOutcome;

  (** tenacity's [retry(reraise=True, stop=stop_after_attempt(n),
      retry=retry_if_exception_type(RetryableTransportError))]; waiting is not modelled. *)
  retrying : forall A : Type, Z -> AM A -> AM A;
  retrying_spec : forall A attempts (f : AM A) w,
    retrying A attempts f w =
      match f w with
      | (Raise (RetryableTransportError m), w') =>
          if attempts <=? 1 then (Raise (RetryableTransportError m), w')
          else retrying A (attempts - 1) f w'
      | r => r
      end;

  (** [psutil]'s readings, and [datetime.now(timezone.utc)]. *)
  cpu_percent : nat -> Res float;
  virtual_memory : nat -> Res (float * Z * Z);            (* percent, used, available *)
  disk_usage : nat -> string -> Res (float * Z * Z);      (* percent, used, free *)
  net_io_counters : nat -> Res (Z * Z);                   (* bytes sent, received *)
  agent_clock : nat -> datetime;
  (** [str(exc)]. *)
  exc_text : Exc -> string;
}.

Definition tick (w : AgentWorld) : AgentWorld :=
  {| aw_disk := aw_disk w; aw_tick := S (aw_tick w);
     aw_sent := aw_sent w; aw_accepted := aw_accepted w; aw_reports := aw_reports w;
     aw_executed := aw_executed w |}.

Definition with_disk (d : Disk) (w : AgentWorld) : AgentWorld :=
  {| aw_disk := d; aw_tick := aw_tick w;
     aw_sent := aw_sent w; aw_accepted := aw_accepted w; aw_reports := aw_reports w;
     aw_executed := aw_executed w |}.

(** One more request on the wire. *)
Definition posted (request : ClientRequest) (w : AgentWorld) : AgentWorld :=
  {| aw_disk := aw_disk w; aw_tick := S (aw_tick w);
     aw_sent := aw_sent w ++ [request]; aw_accepted := aw_accepted w;
     aw_reports := aw_reports w; aw_executed := aw_executed w |}.

(** An action is handed to the executor. *)
Definition note_executed (action_id : Z) (w : AgentWorld) : AgentWorld :=
  {| aw_disk := aw_disk w; aw_tick := aw_tick w;
     aw_sent := aw_sent w; aw_accepted := aw_accepted w; aw_reports := aw_reports w;
     aw_executed := aw_executed w ++ [action_id] |}.

(** Nothing was sent, and no action handed to the executor. *)
Definition same_traffic (w w' : AgentWorld) : Prop :=
  aw_sent w' = aw_sent w /\ aw_accepted w' = aw_accepted w /\ aw_reports w' = aw_reports w /\
  aw_executed w' = aw_executed w.

#[export] Instance same_traffic_preorder : PreOrder same_traffic.
Proof.
  split; [by intros w|]. intros w1 w2 w3 (?&?&?&?) (?&?&?&?). repeat split; congruence.
Qed.

(** ** Frames: a relation of worlds that an operation keeps *)

Definition keeps {A} (R : AgentWorld -> AgentWorld -> Prop) (m : AM A) : Prop :=
  forall w, R w (snd (m w)).

Section frames.
Context (R : AgentWorld -> AgentWorld -> Prop) `{!PreOrder R}.

Lemma keeps_ret {A} (a : A) : keeps R (mret a).
Proof. intros w. simpl. reflexivity. Qed.

Lemma keeps_raise {A} (e : Exc) : keeps R (a_raise e : AM A).
Proof. intros w. simpl. reflexivity. Qed.

Lemma keeps_bind {A B} (m : AM A) (k : A -> AM B) :
  keeps R m -> (forall a, keeps R (k a)) -> keeps R (m ≫= k).
Proof.
  intros Hm Hk w. unfold mbind, AM_bind. specialize (Hm w).
  destruct (m w) as [[a|e] w1]; [|done]. etrans; [exact Hm|apply Hk].
Qed.

Lemma keeps_try {A} (m : AM A) h : keeps R m -> (forall e, keeps R (h e)) -> keeps R (a_try m h).
Proof.
  intros Hm Hh w. unfold a_try. specialize (Hm w).
  destruct (m w) as [[a|e] w1]; [done|]. etrans; [exact Hm|apply Hh].
Qed.

Lemma keeps_iter {A} (f : A -> AM unit) l : (forall x, keeps R (f x)) -> keeps R (a_iter f l).
Proof.
  intros Hf. induction l as [|x l IH]; [apply keeps_ret|]. by apply keeps_bind; [|intros _].
Qed.

End frames.
