(* ===== verification/Files.v ===== *)
(** * File-system calls of the Agent

    What [pathlib], [os] and [shutil] do to the disk, as far as [agent/buffer.py] and
    [agent/remediation/actions/clear_directory.py] use them. *)

From S2P Require Import Prelude PyFloat PyTime Domain Schema Runtime Disk AgentRuntime.

Section files.
Context `{AgentEnv}.

Definition os_error {A} : AM A := fun w => (Raise (OSError EmptyString), tick w).

(** One call on the disk, which succeeds when the file system does. *)
Definition disk_call (d : Disk) : AM unit := fun w =>
  if fs_ok (aw_tick w) then (Ok tt, tick (with_disk d w)) else os_error w.

(** ** [pathlib] *)

(** [read_text(encoding="utf-8")]: bytes that are no UTF-8 are a [UnicodeDecodeError], which is
    a [ValueError]. *)
Definition path_read_text (p : Place) : AM text := fun w =>
  match aw_disk w !! p with
  | Some (PlainFile content) =>
      if fs_ok (aw_tick w) then
        match content with
        | Some t => (Ok t, tick w)
        | None => (Raise (ValueError "'utf-8' codec can't decode"), tick w)
        end
      else os_error w
  | _ => os_error w
  end.

(** [write_text]: a failure may leave anything in the file. *)
Definition path_write_text (p : Place) (t : text) : AM unit := fun w =>
  match aw_disk w !! p with
  | None | Some (PlainFile _) =>
      if is_dir (aw_disk w) (parent p) then
        if fs_ok (aw_tick w) then (Ok tt, tick (with_disk (<[p := PlainFile (Some t)]> (aw_disk w)) w))
        else os_error (match torn_write (aw_tick w) t with
                       | Some content => with_disk (<[p := PlainFile content]> (aw_disk w)) w
                       | None => w
                       end)
      else os_error w
  | Some Directory | Some (Symlink _) => os_error w
  end.

(** [src.replace(dst)] of a file: [rename], which replaces a file in one step. *)
Definition path_replace (src dst : Place) : AM unit := fun w =>
  match aw_disk w !! src, aw_disk w !! dst with
  | Some (PlainFile content), (None | Some (PlainFile _)) =>
      if is_dir (aw_disk w) (parent dst)
      then disk_call (<[dst := PlainFile content]> (delete src (aw_disk w))) w else os_error w
  | _, _ => os_error w
  end.

Definition place_exists (p : Place) (d : Disk) : bool :=
  match p with [] => true | _ => bool_decide (is_Some (d !! p)) end.
Definition path_exists (p : Place) : AM bool := fun w => (Ok (place_exists p (aw_disk w)), w).

(** [mkdir(exist_ok=True)] of one directory whose parent is there. *)
Definition mkdir_level (p : Place) : AM unit := fun w =>
  match aw_disk w !! p with
  | Some Directory => (Ok tt, w)
  | Some _ => os_error w
  | None => disk_call (<[p := Directory]> (aw_disk w)) w
  end.

(** [mkdir(parents=True, exist_ok=True)]. *)
Definition path_mkdir (p : Place) : AM unit := a_iter mkdir_level (levels p).

(** [touch()] of a file that is not there. *)
Definition path_touch (p : Place) : AM unit := fun w =>
  if is_dir (aw_disk w) (parent p) then disk_call (<[p := PlainFile (Some [])]> (aw_disk w)) w
  else os_error w.

(** ** [os] and [shutil] *)

(** [os.path.isdir] follows links, [os.path.islink] does not. *)
Definition isdir (p : Place) (d : Disk) : bool :=
  match d !! p with Some Directory | Some (Symlink true) => true | _ => false end.
Definition islink (p : Place) (d : Disk) : bool :=
  match d !! p with Some (Symlink _) => true | _ => false end.

(** [os.listdir]: the names, or an [OSError] for what is no directory. *)
Definition os_listdir (p : Place) : AM (list string) := fun w =>
  if is_dir (aw_disk w) p && fs_ok (aw_tick w)
  then (Ok (listdir_order (aw_tick w) (children (aw_disk w) p)), tick w) else os_error w.

(** [os.remove] refuses a directory. *)
Definition os_remove (p : Place) : AM unit := fun w =>
  match aw_disk w !! p with
  | Some Directory | None => os_error w
  | Some _ => disk_call (delete p (aw_disk w)) w
  end.

(** One [unlink] or [rmdir] of a removal. *)
Definition remove_node (p : Place) : AM unit := fun w => disk_call (delete p (aw_disk w)) w.

(** [shutil.rmtree]: the nodes of the subtree one by one, up to the first failure; it refuses
    what is no directory, links included, and does not follow those inside. *)
Definition shutil_rmtree (p : Place) : AM unit := fun w =>
  if bool_decide (aw_disk w !! p = Some Directory)
  then a_iter remove_node (rmtree_order (aw_tick w) (subtree (aw_disk w) p)) w else os_error w.

(** ** What the calls change *)

(** Nothing was sent, and no node outside [P] differs. *)
Definition changes_in (P : Place -> Prop) (w w' : AgentWorld) : Prop :=
  same_traffic w w' /\ forall k, ~ P k -> aw_disk w' !! k = aw_disk w !! k.

#[export] Instance changes_in_preorder P : PreOrder (changes_in P).
Proof.
  split; [by intros w|]. intros w1 w2 w3 [T1 H1] [T2 H2]. split; [by etrans|].
  intros k Hk. rewrite H2; auto.
Qed.

(** Nothing was sent, and no node appeared or differs, except that some inside [P] are gone. *)
Definition removes_in (P : Place -> Prop) (w w' : AgentWorld) : Prop :=
  changes_in P w w' /\ forall k, aw_disk w' !! k = aw_disk w !! k \/ aw_disk w' !! k = None.

#[export] Instance removes_in_preorder P : PreOrder (removes_in P).
Proof.
  split; [split; [done|by left]|]. intros w1 w2 w3 [C1 H1] [C2 H2]. split; [by etrans|].
  intros k. destruct (H2 k) as [->|]; [apply H1|by right].
Qed.

Lemma changes_weaken (P Q : Place -> Prop) w w' :
  (forall k, P k -> Q k) -> changes_in P w w' -> changes_in Q w w'.
Proof. intros HPQ [Ht Hd]. split; [done|]. intros k Hk. apply Hd. auto. Qed.

Lemma changes_disk (P : Place -> Prop) (d : Disk) w :
  (forall k, ~ P k -> d !! k = aw_disk w !! k) -> changes_in P w (tick (with_disk d w)).
Proof. intros Hd. split; [done|exact Hd]. Qed.

Lemma write_text_changes (P : Place -> Prop) p t :
  P p -> keeps (changes_in P) (path_write_text p t).
Proof.
  intros Hp w. assert (forall n, changes_in P w (tick (with_disk (<[p := n]> (aw_disk w)) w))) as Hd.
  { intros n. apply changes_disk. intros k Hk. apply lookup_insert_ne. by intros ->. }
  unfold path_write_text. destruct (_ !! p) as [[]|]; try done;
    (destruct (is_dir _ _); [|done]); (destruct (fs_ok _); [by apply Hd|]);
    destruct (torn_write _ t); try done; by apply Hd.
Qed.

Lemma replace_changes (P : Place -> Prop) src dst :
  P src -> P dst -> keeps (changes_in P) (path_replace src dst).
Proof.
  intros Hs Hd w. unfold path_replace, disk_call.
  destruct (_ !! src) as [[]|]; try done. destruct (_ !! dst) as [[]|]; try done;
    (destruct (is_dir _ _); [|done]); (destruct (fs_ok _); [|done]); apply changes_disk;
    intros k Hk; rewrite lookup_insert_ne, lookup_delete_ne; try done; by intros ->.
Qed.

(** Nothing was sent, and nothing changed but that some missing nodes of [P] are directories. *)
Definition creates_in (P : Place -> Prop) (w w' : AgentWorld) : Prop :=
  same_traffic w w' /\ forall k, aw_disk w' !! k = aw_disk w !! k \/
    (P k /\ aw_disk w !! k = None /\ aw_disk w' !! k = Some Directory).

#[export] Instance creates_in_preorder P : PreOrder (creates_in P).
Proof.
  split; [split; [done|by left]|]. intros w1 w2 w3 [T1 H1] [T2 H2]. split; [by etrans|].
  intros k. destruct (H1 k) as [E1|(?&?&?)], (H2 k) as [E2|(?&?&?)]; rewrite ?E2 in *;
    rewrite ?E1 in *; auto; congruence.
Qed.

Lemma mkdir_levels_create (P : Place -> Prop) l :
  Forall P l -> keeps (creates_in P) (a_iter mkdir_level l).
Proof.
  induction 1 as [|k l Hk Hl IH]; [intros w; split; [done|by left]|].
  apply keeps_bind; [apply _| |by intros _]. intros w. unfold mkdir_level, disk_call, os_error.
  destruct (aw_disk w !! k) as [[]|] eqn:Ek; try (split; [done|by left]).
  destruct (fs_ok _); (split; [done|]); intros k'; [|by left]. simpl.
  destruct (decide (k' = k)) as [->|Hne]; [right; by rewrite lookup_insert_eq|left].
  by rewrite lookup_insert_ne.
Qed.

Lemma mkdir_creates p : keeps (creates_in (fun k => k ∈ levels p)) (path_mkdir p).
Proof. apply mkdir_levels_create, Forall_forall. auto. Qed.

(** The directories are there: nothing to do. *)
Lemma mkdir_done p w :
  Forall (fun k => aw_disk w !! k = Some Directory) (levels p) -> path_mkdir p w = (Ok tt, w).
Proof.
  unfold path_mkdir. induction 1 as [|k l Hk Hl IH]; [done|]. simpl.
  unfold mbind, AM_bind, mkdir_level. by rewrite Hk.
Qed.

Lemma delete_removes (P : Place -> Prop) p w :
  P p -> removes_in P w (snd (disk_call (delete p (aw_disk w)) w)).
Proof.
  intros Hp. unfold disk_call. destruct (fs_ok _); simpl; [|split; [done|by left]].
  split; [apply changes_disk; intros k Hk; rewrite lookup_delete_ne; [done|by intros ->]|].
  intros k. destruct (decide (k = p)) as [->|Hne]; [right; apply lookup_delete_eq|].
  left. by apply lookup_delete_ne.
Qed.

Lemma remove_removes (P : Place -> Prop) p : P p -> keeps (removes_in P) (os_remove p).
Proof.
  intros Hp w. unfold os_remove. destruct (_ !! p) as [[]|];
    try (split; [done|by left]); by apply delete_removes.
Qed.

Lemma remove_nodes_removes (P : Place -> Prop) l :
  Forall P l -> keeps (removes_in P) (a_iter remove_node l).
Proof.
  induction 1 as [|k l Hk Hl IH]; [intros w; split; [done|by left]|].
  apply keeps_bind; [apply _| |by intros _]. intros w. by apply delete_removes.
Qed.

Lemma rmtree_removes (P : Place -> Prop) p :
  (forall k, within p k -> P k) -> keeps (removes_in P) (shutil_rmtree p).
Proof.
  intros Hp w. unfold shutil_rmtree. destruct (bool_decide _); [|split; [done|by left]].
  apply remove_nodes_removes, Forall_forall. intros k Hk.
  rewrite rmtree_permutes in Hk. apply elem_of_subtree in Hk as [Hk _]. by apply Hp.
Qed.

(** A removal that ends normally leaves nothing of the subtree. *)
Lemma remove_nodes_gone l w w' :
  a_iter remove_node l w = (Ok tt, w') -> forall k, k ∈ l -> aw_disk w' !! k = None.
Proof.
  revert w. induction l as [|p l IH]; intros w Hrun k Hk; [by apply elem_of_nil in Hk|].
  simpl in Hrun. unfold mbind, AM_bind, remove_node at 1, disk_call in Hrun.
  destruct (fs_ok _); [|done]. apply elem_of_cons in Hk as [->|Hk]; [|by eapply IH].
  pose proof (remove_nodes_removes (fun _ => True) l ltac:(by apply Forall_true)
    (tick (with_disk (delete p (aw_disk w)) w))) as [_ Hr].
  rewrite Hrun in Hr. simpl in Hr. destruct (Hr p) as [->|]; [apply lookup_delete_eq|done].
Qed.

Lemma rmtree_gone p w w' :
  shutil_rmtree p w = (Ok tt, w') -> aw_disk w' !! p = None.
Proof.
  unfold shutil_rmtree. destruct (bool_decide _) eqn:Hp; [|done]. apply bool_decide_eq_true in Hp.
  intros Hrun. apply (remove_nodes_gone _ _ _ Hrun). rewrite rmtree_permutes.
  apply elem_of_subtree. split; [apply within_refl|by eexists].
Qed.

(** A disk that answers every call lets everything there is be removed. *)
Lemma rmtree_answers p w :
  (forall n, fs_ok n = true) -> aw_disk w !! p = Some Directory ->
  exists w', shutil_rmtree p w = (Ok tt, w').
Proof.
  intros Hfs Hp. unfold shutil_rmtree. rewrite bool_decide_true by done.
  generalize (rmtree_order (aw_tick w) (subtree (aw_disk w) p)). intros l. clear Hp.
  revert w. induction l as [|k l IH]; intros w; [by exists w|]. simpl.
  unfold mbind, AM_bind, remove_node at 1, disk_call. rewrite Hfs. apply IH.
Qed.

Lemma os_remove_answers p w :
  (forall n, fs_ok n = true) -> is_Some (aw_disk w !! p) -> aw_disk w !! p <> Some Directory ->
  exists w', os_remove p w = (Ok tt, w').
Proof.
  intros Hfs [n Hn] Hd. unfold os_remove, disk_call. rewrite Hn, Hfs.
  destruct n; [by eexists|done|by eexists].
Qed.

Lemma os_remove_gone p w w' : os_remove p w = (Ok tt, w') -> aw_disk w' !! p = None.
Proof.
  unfold os_remove, disk_call. destruct (_ !! p) as [[]|]; try done; destruct (fs_ok _); try done;
    intros [= <-]; apply lookup_delete_eq.
Qed.

End files.
