(* ===== verification/Buffer.v ===== *)
(** * The Agent's buffer ([agent/buffer.py])

    Undelivered payloads in a file, one JSON document a line, the oldest first and at most
    [max_entries].  As long as the file can be read and written, [enqueue] and [drain]
    implement a bounded first-in first-out queue of payloads; the file is written anew beside
    it and renamed, so that it always holds the old queue or the new one. *)

From S2P Require Import Prelude PyFloat PyTime Domain Schema Runtime Disk AgentRuntime Files.

Local Open Scope Z_scope.

(** ** Lines *)

(** The line boundaries of [str.splitlines] other than the pair CR LF. *)
Definition is_boundary (c : N) : bool :=
  bool_decide (c ∈ [10; 11; 12; 13; 28; 29; 30; 133; 8232; 8233]%N).

(** [splitlines()], with the current line reversed in [line]. *)
Fixpoint splitlines_from (line : text) (s : text) : list text :=
  match s with
  | [] => match line with [] => [] | _ => [reverse line] end
  | c :: s' =>
      if is_boundary c then
        match c, s' with
        | 13%N, 10%N :: s'' => reverse line :: splitlines_from [] s''
        | _, _ => reverse line :: splitlines_from [] s'
        end
      else splitlines_from (c :: line) s'
  end.

Definition splitlines (s : text) : list text := splitlines_from [] s.

(** The code points [str.strip] removes. *)
Definition is_space_point (c : N) : bool :=
  bool_decide (c ∈ [9; 10; 11; 12; 13; 28; 29; 30; 31; 32; 133; 160; 5760; 8192; 8193; 8194; 8195;
                    8196; 8197; 8198; 8199; 8200; 8201; 8202; 8232; 8233; 8239; 8287; 12288]%N).

(** [not line.strip()]. *)
Definition is_blank (line : text) : bool := forallb is_space_point line.

(** The attributes of [FileBuffer]. *)
Record FileBuffer := { _path : string; _max_entries : Z }.

Section buffer.
Context `{AgentEnv}.

Definition buffer_place (b : FileBuffer) : Place := realpath (_path b).

(** [__init__]: the directories above the file, and an empty file if there is none. *)
Definition FileBuffer_init (path : string) (max_entries : Z) : AM FileBuffer :=
  let self := {| _path := path; _max_entries := max_entries |} in
  _ ← path_mkdir (parent (buffer_place self));
  there ← path_exists (buffer_place self);
  _ ← (if there : bool then mret tt else path_touch (buffer_place self));
  mret self.

(** The loop of [_read_all]: blank lines and corrupt entries are skipped. *)
Fixpoint parse_lines (lines : list text) : list NodeMetricsPayload :=
  match lines with
  | [] => []
  | line :: rest =>
      if is_blank line then parse_lines rest
      else match parse line with
           | Some p => p :: parse_lines rest
           | None => parse_lines rest
           end
  end.

(** The join of the documents with newlines, and a final one. *)
Fixpoint join_lines (entries : list NodeMetricsPayload) : text :=
  match entries with
  | [] => []
  | [e] => dump e
  | e :: rest => dump e ++ [10%N] ++ join_lines rest
  end.

Definition content (entries : list NodeMetricsPayload) : text :=
  join_lines entries ++ match entries with [] => [] | _ => [10%N] end.

(** [entries[:n]] and [entries[n:]]: a negative [n] counts from the end. *)
Definition slice_point {A} (n : Z) (l : list A) : nat :=
  Z.to_nat (if n <? 0 then Z.of_nat (length l) + n else n).

Section methods.
Context (b : FileBuffer).

(** A file that cannot be read counts as an empty one. *)
Definition _read_all : AM (list NodeMetricsPayload) :=
  a_try (text ← path_read_text (buffer_place b); mret (parse_lines (splitlines text)))
    (fun e => match e with OSError _ => mret [] | _ => a_raise e end).

(** [tmp_path], whose computation is outside the [try], and its two calls. *)
Definition _write_all (entries : list NodeMetricsPayload) : AM unit :=
  match with_suffix_tmp (buffer_place b) with
  | None => a_raise (ValueError "Path has an empty name")
  | Some tmp_path =>
      a_try (_ ← path_write_text tmp_path (content entries);
             path_replace tmp_path (buffer_place b))
        (fun e => match e with OSError _ => mret tt | _ => a_raise e end)
  end.

Definition enqueue (payload : NodeMetricsPayload) : AM unit :=
  entries ← _read_all;
  let entries := entries ++ [payload] in
  let entries := if _max_entries b <? Z.of_nat (length entries)
                 then drop (Z.to_nat (Z.of_nat (length entries) - _max_entries b)) entries
                 else entries in
  _write_all entries.

Definition drain (max_items : Z) : AM (list NodeMetricsPayload) :=
  entries ← _read_all;
  let k := slice_point max_items entries in
  _ ← _write_all (drop k entries);
  mret (take k entries).

(** [__len__]. *)
Definition buffer_len : AM Z := entries ← _read_all; mret (Z.of_nat (length entries)).

End methods.

(** The protocol [MetricsBuffer], and the class that satisfies it by its shape. *)
Record MetricsBuffer := {
  mb_enqueue : NodeMetricsPayload -> AM unit;
  mb_drain : Z -> AM (list NodeMetricsPayload);
  mb_len : AM Z;
}.

Definition FileBuffer_methods (b : FileBuffer) : MetricsBuffer :=
  {| mb_enqueue := enqueue b; mb_drain := drain b; mb_len := buffer_len b |}.

(** ** The queue the file stands for *)

(** A payload whose document the file format preserves: finite values, and none of the three
    line boundaries that JSON leaves unescaped. *)
Definition storable (p : NodeMetricsPayload) : Prop :=
  finite_payload p /\ Forall (fun c => c ∉ [133; 8232; 8233]%N) (dump p).

Lemma storable_no_boundary p :
  storable p -> Forall (fun c => is_boundary c = false) (dump p).
Proof.
  intros [_ Hb]. pose proof (dump_printable p) as Hp.
  induction Hb as [|c l Hc Hl IH]; [constructor|]. apply Forall_cons in Hp as [Hp Hps].
  constructor; [|by apply IH]. apply bool_decide_eq_false. intros Hin.
  rewrite !elem_of_cons, elem_of_nil in Hin. rewrite !not_elem_of_cons in Hc.
  intuition (congruence || lia).
Qed.

Lemma splitlines_line line doc rest :
  Forall (fun c => is_boundary c = false) doc ->
  splitlines_from line (doc ++ [10%N] ++ rest) = (reverse line ++ doc) :: splitlines_from [] rest.
Proof.
  revert line. induction doc as [|c doc IH]; intros line Hdoc; simpl.
  - by rewrite app_nil_r.
  - apply Forall_cons in Hdoc as [Hc Hdoc]. rewrite Hc, IH by done.
    by rewrite reverse_cons, <- app_assoc.
Qed.

Lemma content_cons p q : content (p :: q) = dump p ++ [10%N] ++ content q.
Proof. unfold content. destruct q as [|p' q]; simpl; [done|]. by rewrite <- !app_assoc. Qed.

Lemma dump_not_blank p : is_blank (dump p) = false.
Proof.
  pose proof (dump_object p) as Hh. destruct (dump p) as [|c l]; [done|].
  simpl in Hh. by injection Hh as ->.
Qed.

(** The file format round-trips: what [_write_all] writes, [_read_all] reads back, entry by
    entry and in order. *)
Lemma content_read q : Forall storable q -> parse_lines (splitlines (content q)) = q.
Proof.
  induction 1 as [|p q Hp Hq IH]; [done|]. unfold splitlines in *.
  rewrite content_cons, splitlines_line by by apply storable_no_boundary.
  simpl. rewrite dump_not_blank, (parse_dump p) by apply Hp. by rewrite IH.
Qed.

(** The abstract bounded queue. *)
Definition push (max_entries : Z) (q : list NodeMetricsPayload) (p : NodeMetricsPayload)
    : list NodeMetricsPayload :=
  let q' := q ++ [p] in
  if max_entries <? Z.of_nat (length q')
  then drop (Z.to_nat (Z.of_nat (length q') - max_entries)) q' else q'.

(** The file at [p] holds the queue [q]: it can be reached, nothing but a file is in the way of
    the temporary one, and its lines are the entries. *)
Record holds (p : Place) (w : AgentWorld) (q : list NodeMetricsPayload) : Prop := {
  holds_above : Forall (fun k => aw_disk w !! k = Some Directory) (above p);
  holds_tmp : exists tmp, with_suffix_tmp p = Some tmp /\
    (aw_disk w !! tmp = None \/ exists c, aw_disk w !! tmp = Some (PlainFile c));
  holds_file : exists t, aw_disk w !! p = Some (PlainFile (Some t)) /\
    parse_lines (splitlines t) = q;
  holds_storable : Forall storable q;
}.

(** The nodes a buffer needs are as they were, but that its temporary file may be gone. *)
Definition spares (p : Place) (w w' : AgentWorld) : Prop :=
  (forall k, k `prefix_of` p -> aw_disk w' !! k = aw_disk w !! k) /\
  (forall k, with_suffix_tmp p = Some k ->
     aw_disk w' !! k = aw_disk w !! k \/ aw_disk w' !! k = None).

#[export] Instance spares_preorder p : PreOrder (spares p).
Proof.
  split; [split; [done|by left]|]. intros w1 w2 w3 [A1 B1] [A2 B2]. split.
  - intros k Hk. rewrite A2, A1; done.
  - intros k Hk. destruct (B2 k Hk) as [->|]; [by apply B1|by right].
Qed.

Lemma same_disk_spares p w w' : aw_disk w' = aw_disk w -> spares p w w'.
Proof. intros Hd. split; intros k _; rewrite Hd; [done|by left]. Qed.

(** Removing what is elsewhere spares the buffer. *)
Lemma removes_spares (P : Place -> Prop) p w w' :
  (forall k, P k -> ~ k `prefix_of` p) -> removes_in P w w' -> spares p w w'.
Proof.
  intros HP [[_ Hd] Hr]. split; [intros k Hk; apply Hd; intros HPk; by apply (HP k)|].
  intros k _. apply Hr.
Qed.

Lemma holds_spares p w w' q : spares p w w' -> holds p w q -> holds p w' q.
Proof.
  intros [Hk Ht] [Ha (tmp & Htmp & Hfree) (t & Hf & Hq) Hst]. split; [| | |done].
  - rewrite Forall_forall in Ha |- *. intros k Hin. rewrite Hk; [by apply Ha|].
    by apply elem_of_above in Hin as (_ & _ & ?).
  - exists tmp. split; [done|]. destruct (Ht tmp Htmp) as [->|]; [done|by left].
  - exists t. by rewrite Hk.
Qed.

Lemma holds_same p w w' q : aw_disk w' = aw_disk w -> holds p w q -> holds p w' q.
Proof. intros Hd. by apply holds_spares, same_disk_spares. Qed.

Lemma holds_tick p w q : holds p w q -> holds p (tick w) q.
Proof. by intros []. Qed.

Section queue.
Context (b : FileBuffer).
Abbreviation p := (buffer_place b).

Lemma read_run w q :
  holds p w q -> _read_all b w = (Ok (if fs_ok (aw_tick w) then q else []), tick w).
Proof.
  intros [_ _ (t & Hf & Hq) _]. unfold _read_all, a_try, mbind, AM_bind, path_read_text.
  rewrite Hf. destruct (fs_ok _); [|done]. simpl. by rewrite Hq.
Qed.

(** Writing the temporary file, whether it succeeds, fails or is never followed by the rename,
    leaves the buffer as it was. *)
Lemma write_tmp_holds tmp t w q :
  with_suffix_tmp p = Some tmp -> holds p w q ->
  let '(r, w') := path_write_text tmp t w in
  holds p w' q /\ same_traffic w w' /\
  match r with
  | Ok _ => aw_disk w' !! tmp = Some (PlainFile (Some t))
  | Raise e => (exists m, e = OSError m) /\ fs_ok (aw_tick w) = false
  end.
Proof.
  intros Htmp Hq. pose proof Hq as [Ha (tmp' & Htmp' & Hfree) (t0 & Hf & Hl) Hst].
  assert (tmp' = tmp) as -> by congruence. pose proof (tmp_differs _ _ Htmp) as Hne.
  assert (forall c, holds p (tick (with_disk (<[tmp := PlainFile c]> (aw_disk w)) w)) q) as Hw.
  { intros c. split; simpl; [|exists tmp; split; [done|right; exists c; apply lookup_insert_eq]| |done].
    - rewrite Forall_forall in Ha |- *. intros k Hk. rewrite lookup_insert_ne; [by apply Ha|].
      intros ->. by apply elem_of_above in Hk as (_ & _ & ?).
    - exists t0. rewrite lookup_insert_ne; [done|]. by intros ->. }
  unfold path_write_text, os_error. rewrite (tmp_parent _ _ Htmp), (is_dir_parent _ _ Ha).
  destruct Hfree as [-> |[c ->]]; (destruct (fs_ok _) eqn:Efs;
    [split; [apply Hw|split; [done|apply lookup_insert_eq]]|
     split; [destruct (torn_write _ t); [apply Hw|by apply holds_tick]|
             split; [by destruct (torn_write _ t)|split; [by eexists|done]]]]).
Qed.

(** The rename puts the new queue in its place, at once. *)
Lemma replace_holds tmp w q q' :
  with_suffix_tmp p = Some tmp -> holds p w q -> Forall storable q' ->
  aw_disk w !! tmp = Some (PlainFile (Some (content q'))) ->
  let '(r, w') := path_replace tmp p w in
  same_traffic w w' /\
  match r with
  | Ok _ => holds p w' q'
  | Raise e => holds p w' q /\ (exists m, e = OSError m) /\ fs_ok (aw_tick w) = false
  end.
Proof.
  intros Htmp Hq Hq' Hc. pose proof Hq as [Ha _ (t0 & Hf & _) _].
  pose proof (tmp_differs _ _ Htmp) as Hne. unfold path_replace, disk_call, os_error.
  rewrite Hc, Hf, (is_dir_parent _ _ Ha). destruct (fs_ok _) eqn:Efs.
  - split; [done|]. split; simpl; [| | |done].
    + rewrite Forall_forall in Ha |- *. intros k Hk. pose proof Hk as (_ & Hkp & Hpre)%elem_of_above.
      rewrite lookup_insert_ne, lookup_delete_ne; [by apply Ha|by intros ->|done].
    + exists tmp. split; [done|]. left. rewrite lookup_insert_ne; [apply lookup_delete_eq|].
      intros He. apply Hne. by rewrite He.
    + exists (content q'). rewrite lookup_insert_eq. split; [done|]. by apply content_read.
  - split; [done|]. split; [by apply holds_tick|]. split; [by eexists|done].
Qed.

(** Writing never fails, and leaves the new queue or, when the disk fails, the old one. *)
Lemma write_run w q q' :
  holds p w q -> Forall storable q' ->
  exists w', _write_all b q' w = (Ok tt, w') /\ same_traffic w w' /\
    (holds p w' q \/ holds p w' q') /\ ((forall n, fs_ok n = true) -> holds p w' q').
Proof.
  intros Hq Hq'. pose proof Hq as [_ (tmp & Htmp & _) _ _]. unfold _write_all. rewrite Htmp.
  unfold a_try, mbind, AM_bind. pose proof (write_tmp_holds tmp (content q') w q Htmp Hq) as Hw.
  destruct (path_write_text tmp (content q') w) as [[u|e] w1].
  - destruct Hw as (Hq1 & T1 & Hc). pose proof (replace_holds tmp w1 q q' Htmp Hq1 Hq' Hc) as Hr.
    destruct (path_replace tmp p w1) as [[[]|e] w2]; destruct Hr as [T2 Hr].
    + exists w2. split; [done|]. split; [by etrans|]. auto.
    + destruct Hr as (Hq2 & [m ->] & Hno). exists w2. split; [done|]. split; [by etrans|].
      split; [by left|]. intros Hfs. by rewrite Hfs in Hno.
  - destruct Hw as (Hq1 & T1 & [m ->] & Hno). exists w1. split; [done|]. split; [done|].
    split; [by left|]. intros Hfs. by rewrite Hfs in Hno.
Qed.

Lemma push_storable m q x : Forall storable q -> storable x -> Forall storable (push m q x).
Proof.
  intros Hq Hx. unfold push. assert (Forall storable (q ++ [x])).
  { apply Forall_app. split; [done|by constructor]. }
  destruct (_ <? _); [by apply Forall_drop|done].
Qed.

(** What [_read_all] yields when the file holds [q]. *)
Definition read_entries (w : AgentWorld) (q : list NodeMetricsPayload) : list NodeMetricsPayload :=
  if fs_ok (aw_tick w) then q else [].

Lemma read_storable w q : Forall storable q -> Forall storable (read_entries w q).
Proof. intros Hq. unfold read_entries. by destruct (fs_ok _). Qed.

Lemma enqueue_run x w q :
  holds p w q -> storable x ->
  exists w', enqueue b x w = (Ok tt, w') /\ same_traffic w w' /\
    (holds p w' q \/ holds p w' (push (_max_entries b) (read_entries w q) x)) /\
    ((forall n, fs_ok n = true) -> holds p w' (push (_max_entries b) q x)).
Proof.
  intros Hq Hx. unfold enqueue, mbind, AM_bind. rewrite (read_run w q Hq).
  destruct (write_run (tick w) q (push (_max_entries b) (read_entries w q) x)) as (w' & Hrun & Ht & Ho & Hfs).
  - by apply holds_tick.
  - apply push_storable; [apply read_storable, Hq|done].
  - exists w'. split; [exact Hrun|]. split; [done|]. split; [done|]. intros Hok.
    specialize (Hfs Hok). unfold read_entries in Hfs. by rewrite Hok in Hfs.
Qed.

Lemma drain_run n w q :
  holds p w q ->
  exists w', drain b n w = (Ok (take (slice_point n (read_entries w q)) (read_entries w q)), w') /\
    same_traffic w w' /\
    (holds p w' q \/ holds p w' (drop (slice_point n (read_entries w q)) (read_entries w q))) /\
    ((forall n, fs_ok n = true) -> holds p w' (drop (slice_point n q) q)).
Proof.
  intros Hq. unfold drain, mbind, AM_bind. rewrite (read_run w q Hq).
  change (if fs_ok (aw_tick w) then q else []) with (read_entries w q).
  destruct (write_run (tick w) q (drop (slice_point n (read_entries w q)) (read_entries w q)))
    as (w' & Hrun & Ht & Ho & Hfs).
  - by apply holds_tick.
  - apply Forall_drop, read_storable, Hq.
  - exists w'. rewrite Hrun. split; [done|]. split; [done|]. split; [done|]. intros Hok.
    specialize (Hfs Hok). unfold read_entries in Hfs. by rewrite Hok in Hfs.
Qed.

Section healthy_disk.
Context (fs_always : forall n, fs_ok n = true).

Lemma enqueue_holds q x w :
  holds p w q -> storable x ->
  exists w', enqueue b x w = (Ok tt, w') /\ same_traffic w w' /\
    holds p w' (push (_max_entries b) q x).
Proof.
  intros Hq Hx. destruct (enqueue_run x w q Hq Hx) as (w' & Hrun & Ht & _ & Hh). exists w'. auto.
Qed.

Lemma enqueue_all_holds l q w :
  holds p w q -> Forall storable l ->
  exists w', a_iter (enqueue b) l w = (Ok tt, w') /\ same_traffic w w' /\
    holds p w' (foldl (push (_max_entries b)) q l).
Proof.
  intros Hq Hl. revert q w Hq. induction Hl as [|x l Hx Hl IH]; intros q w Hq; [by exists w|].
  destruct (enqueue_holds q x w Hq Hx) as (w1 & He & T1 & Hq1). simpl. unfold mbind, AM_bind.
  rewrite He. destruct (IH _ w1 Hq1) as (w2 & -> & T2 & Hq2). exists w2.
  split; [done|]. split; [by etrans|done].
Qed.

End healthy_disk.

(** ** What the methods change on the disk *)

Definition own_file (k : Place) : Prop := k = p \/ with_suffix_tmp p = Some k.

Lemma read_all_world w : snd (_read_all b w) = tick w.
Proof.
  unfold _read_all, a_try, mbind, AM_bind, path_read_text.
  destruct (_ !! p) as [[[t|]| |]|]; try done; by destruct (fs_ok _).
Qed.

Lemma read_all_changes P : keeps (changes_in P) (_read_all b).
Proof. intros w. by rewrite read_all_world. Qed.

Lemma write_all_changes entries : keeps (changes_in own_file) (_write_all b entries).
Proof.
  unfold _write_all. destruct (with_suffix_tmp p) as [tmp|] eqn:Et; [|apply keeps_raise, _].
  apply keeps_try; [apply _| |].
  - apply keeps_bind; [apply _|apply write_text_changes; by right|]. intros _.
    apply replace_changes; [by right|by left].
  - intros e. destruct e; try (apply keeps_ret, _); apply keeps_raise, _.
Qed.

Lemma enqueue_changes x : keeps (changes_in own_file) (enqueue b x).
Proof.
  apply keeps_bind; [apply _|apply read_all_changes|]. intros l. apply write_all_changes.
Qed.

Lemma drain_changes n : keeps (changes_in own_file) (drain b n).
Proof.
  apply keeps_bind; [apply _|apply read_all_changes|]. intros l.
  apply keeps_bind; [apply _|apply write_all_changes|]. intros _. apply keeps_ret, _.
Qed.

Lemma enqueue_traffic x : keeps same_traffic (enqueue b x).
Proof. intros w. apply enqueue_changes. Qed.

Lemma enqueue_all_traffic l : keeps same_traffic (a_iter (enqueue b) l).
Proof. apply keeps_iter; [apply _|]. apply enqueue_traffic. Qed.

Lemma drain_traffic n : keeps same_traffic (drain b n).
Proof. intros w. apply drain_changes. Qed.

End queue.

(** Building the buffer creates what is missing and nothing else. *)
Lemma init_creates path m w :
  let p := realpath path in
  let w' := snd (FileBuffer_init path m w) in
  same_traffic w w' /\ forall k, aw_disk w' !! k = aw_disk w !! k \/
    (aw_disk w !! k = None /\
     (k ∈ above p /\ aw_disk w' !! k = Some Directory \/
      k = p /\ aw_disk w' !! k = Some (PlainFile (Some [])))).
Proof.
  intros p. unfold FileBuffer_init, mbind, AM_bind. unfold buffer_place. simpl. fold p.
  pose proof (mkdir_creates (parent p) w) as [T1 H1].
  rewrite levels_parent in H1.
  destruct (path_mkdir (parent p) w) as [r w1]. simpl in T1, H1.
  assert (forall k, aw_disk w1 !! k = aw_disk w !! k \/ aw_disk w !! k = None /\
    (k ∈ above p /\ aw_disk w1 !! k = Some Directory \/
     k = p /\ aw_disk w1 !! k = Some (PlainFile (Some [])))) as Hc by (intros k; naive_solver).
  destruct r as [[]|e]; [|done]. unfold path_exists.
  destruct (place_exists p (aw_disk w1)) eqn:Ex; [done|].
  unfold path_touch, disk_call, os_error. destruct (is_dir _ _); [|done].
  simpl. destruct (fs_ok _); [|done]. simpl.
  split; [done|]. intros k. destruct (decide (k = p)) as [->|Hne].
  - right. rewrite lookup_insert_eq. split; [|by right].
    assert (aw_disk w1 !! p = None) as Hn.
    { unfold place_exists in Ex. destruct p; [done|]. apply bool_decide_eq_false in Ex.
      by apply eq_None_not_Some. }
    destruct (H1 p) as [<-|(_ & ? & _)]; done.
  - rewrite lookup_insert_ne by done. apply Hc.
Qed.

(** The file is there: building the buffer changes nothing. *)
Lemma init_done path m w q :
  holds (realpath path) w q ->
  FileBuffer_init path m w = (Ok {| _path := path; _max_entries := m |}, w).
Proof.
  intros [Ha _ (t & Hf & _) _]. unfold FileBuffer_init, mbind, AM_bind, buffer_place. simpl.
  rewrite mkdir_done by by rewrite levels_parent.
  unfold path_exists. assert (place_exists (realpath path) (aw_disk w) = true) as ->; [|done].
  unfold place_exists. destruct (realpath path); [done|]. apply bool_decide_eq_true. by eexists.
Qed.

(** The newest entries, at most [max_entries] of them. *)
Lemma push_bounded m q x :
  0 <= m -> Z.of_nat (length (push m q x)) <= m /\ suffix (push m q x) (q ++ [x]).
Proof.
  intros Hm. unfold push. destruct (Z.ltb_spec m (Z.of_nat (length (q ++ [x])))).
  - rewrite length_drop. split; [lia|]. eexists. symmetry. apply take_drop.
  - split; [done|]. done.
Qed.

End buffer.

(** ** Properties *)

Section buffer_properties.
Context `{AgentEnv}.

(** A sequence of calls on a buffer, as a client of the protocol makes them. *)
Inductive BufferCall :=
| Enqueue (payload : NodeMetricsPayload)
| Drain (max_items : Z)
| Len.

Inductive BufferAnswer :=
| Stored
| Drained (payloads : list NodeMetricsPayload)
| Length (n : Z).

Definition call (b : MetricsBuffer) (c : BufferCall) : AM BufferAnswer :=
  match c with
  | Enqueue p => _ ← mb_enqueue b p; mret Stored
  | Drain n => l ← mb_drain b n; mret (Drained l)
  | Len => n ← mb_len b; mret (Length n)
  end.

Fixpoint calls (b : MetricsBuffer) (l : list BufferCall) : AM (list BufferAnswer) :=
  match l with
  | [] => mret []
  | c :: rest => a ← call b c; more ← calls b rest; mret (a :: more)
  end.

(** The specification: a queue of at most [max_entries] payloads; a negative [max_items] counts
    from its end. *)
Definition queue_call (max_entries : Z) (q : list NodeMetricsPayload) (c : BufferCall)
    : BufferAnswer * list NodeMetricsPayload :=
  match c with
  | Enqueue p => (Stored, push max_entries q p)
  | Drain n => (Drained (take (slice_point n q) q), drop (slice_point n q) q)
  | Len => (Length (Z.of_nat (length q)), q)
  end.

Fixpoint queue_calls (max_entries : Z) (q : list NodeMetricsPayload) (l : list BufferCall)
    : list BufferAnswer * list NodeMetricsPayload :=
  match l with
  | [] => ([], q)
  | c :: rest =>
      let '(a, q1) := queue_call max_entries q c in
      let '(more, q2) := queue_calls max_entries q1 rest in (a :: more, q2)
  end.

(** The payloads put in are ones the file format preserves. *)
Definition legal (c : BufferCall) : Prop :=
  match c with Enqueue x => storable x | Drain _ | Len => True end.

Lemma call_refines b c w q :
  (forall n, fs_ok n = true) -> legal c -> holds (buffer_place b) w q ->
  exists w', call (FileBuffer_methods b) c w = (Ok (queue_call (_max_entries b) q c).1, w') /\
    holds (buffer_place b) w' (queue_call (_max_entries b) q c).2.
Proof.
  intros Hfs Hc Hq.
  assert (read_entries w q = q) as Hr by (unfold read_entries; by rewrite Hfs).
  destruct c as [x|n|];
    cbn [call FileBuffer_methods mb_enqueue mb_drain mb_len queue_call fst snd];
    unfold mbind, AM_bind.
  - destruct (enqueue_run b x w q Hq Hc) as (w' & -> & _ & _ & Hh). exists w'. auto.
  - destruct (drain_run b n w q Hq) as (w' & -> & _ & _ & Hh). rewrite Hr. exists w'. auto.
  - unfold buffer_len, mbind, AM_bind. rewrite (read_run b w q Hq), Hfs.
    eexists. split; [done|]. by apply holds_tick.
Qed.

(** The payloads put in, and those handed out. *)
Definition put_in (l : list BufferCall) : list NodeMetricsPayload :=
  omap (fun c => match c with Enqueue p => Some p | _ => None end) l.
Fixpoint handed_out (l : list BufferAnswer) : list NodeMetricsPayload :=
  match l with
  | [] => []
  | Drained ps :: rest => ps ++ handed_out rest
  | _ :: rest => handed_out rest
  end.

(** First in, first out: what is handed out and what then remains keep the order of arrival,
    nothing twice; what remains is the newest. *)
Lemma queue_order max_entries l q :
  0 <= max_entries ->
  let '(answers, q') := queue_calls max_entries q l in
  handed_out answers ++ q' `sublist_of` q ++ put_in l /\ suffix q' (q ++ put_in l).
Proof.
  intros Hm. revert q. induction l as [|c l IH]; intros q; simpl.
  { rewrite app_nil_r. split; done. }
  destruct c as [p|n|]; simpl.
  - specialize (IH (push max_entries q p)). destruct (queue_calls _ _ l) as [more q'].
    destruct (push_bounded max_entries q p Hm) as [_ [k Hk]]. simpl. destruct IH as [Hs [k' Hk']].
    change (q ++ p :: put_in l) with (q ++ [p] ++ put_in l). rewrite app_assoc, Hk, <- app_assoc.
    split; [by apply sublist_inserts_l|]. exists (k ++ k'). by rewrite Hk', app_assoc.
  - generalize (slice_point n q). intros i.
    specialize (IH (drop i q)). destruct (queue_calls _ _ l) as [more q'].
    simpl. destruct IH as [Hs [k' Hk']]. rewrite <- (take_drop i q) at 2 3.
    rewrite <- !app_assoc. split; [by apply sublist_app|].
    exists (take i q ++ k'). by rewrite Hk', app_assoc.
  - specialize (IH q). by destruct (queue_calls _ _ l) as [more q'].
Qed.

(** C38: the buffer is a bounded first-in first-out queue.  While the file can be read and
    written, any sequence of calls on it that puts in payloads the file format preserves (finite
    values, and none of the line boundaries U+0085, U+2028 and U+2029, which JSON leaves as
    they are) is answered as by the queue that [enqueue] extends at its end, evicting the oldest
    beyond [max_entries], and [drain] shortens at its front, and the file then holds that queue.
    So what is handed out and what then remains keep the order in which it was put in, what
    remains is the newest of it, and never more than [max_entries] payloads, unless the file
    held more at the start. *)
Theorem buffer_refines_queue b l w q :
  0 <= _max_entries b -> (forall n, fs_ok n = true) -> Forall legal l ->
  holds (buffer_place b) w q ->
  exists answers q' w', queue_calls (_max_entries b) q l = (answers, q') /\
    calls (FileBuffer_methods b) l w = (Ok answers, w') /\ holds (buffer_place b) w' q' /\
    handed_out answers ++ q' `sublist_of` q ++ put_in l /\ suffix q' (q ++ put_in l) /\
    Z.of_nat (length q') <= Z.max (_max_entries b) (Z.of_nat (length q)).
Proof.
  intros Hm Hfs Hl Hq. set (m := _max_entries b) in *. pose proof (queue_order m l q Hm) as Ho.
  assert (exists w', calls (FileBuffer_methods b) l w = (Ok (queue_calls m q l).1, w') /\
    holds (buffer_place b) w' (queue_calls m q l).2 /\
    Z.of_nat (length (queue_calls m q l).2) <= Z.max m (Z.of_nat (length q)))
    as (w' & Hrun & Hq' & Hlen).
  2: { destruct (queue_calls m q l) as [answers q'], Ho. exists answers, q', w'. by split_and!. }
  clear Ho. revert w q Hq. induction Hl as [|c l Hc Hl IH]; intros w q Hq.
  { exists w. split; [done|]. split; [done|]. simpl. lia. }
  destruct (call_refines b c w q Hfs Hc Hq) as (w1 & Hrun & Hq1). fold m in Hrun, Hq1.
  simpl. unfold mbind, AM_bind. rewrite Hrun.
  assert (Z.of_nat (length (queue_call m q c).2) <= Z.max m (Z.of_nat (length q))) as Hlen.
  { destruct c as [x|n|]; simpl; [|rewrite length_drop; lia|lia].
    destruct (push_bounded m q x Hm). lia. }
  destruct (queue_call m q c) as [a q1]. simpl in *.
  destruct (IH w1 q1 Hq1) as (w' & -> & Hq' & Hlen').
  destruct (queue_calls m q1 l) as [more q2]. simpl in *.
  exists w'. split; [done|]. split; [done|]. lia.
Qed.

(** A new process that reads the buffer finds [q], if the file can be read at all. *)
Definition found_on_restart (b : FileBuffer) (w : AgentWorld) (q : list NodeMetricsPayload) : Prop :=
  (b' ← FileBuffer_init (_path b) (_max_entries b); _read_all b') w =
    (Ok (if fs_ok (aw_tick w) then q else []), tick w).

Lemma holds_found b w q : holds (buffer_place b) w q -> found_on_restart b w q.
Proof.
  intros Hq. unfold found_on_restart, mbind, AM_bind. rewrite (init_done _ _ _ q) by done.
  by rewrite (read_run _ _ q).
Qed.


(** A read error is taken for an empty buffer: when the file cannot be read but can be
    written, adding one payload replaces everything buffered by it. *)
Lemma unreadable_buffer_is_lost b w q x :
  1 <= _max_entries b -> storable x -> holds (buffer_place b) w q ->
  fs_ok (aw_tick w) = false -> fs_ok (S (aw_tick w)) = true -> fs_ok (S (S (aw_tick w))) = true ->
  holds (buffer_place b) (snd (enqueue b x w)) [x].
Proof.
  intros Hm Hx Hq Hr Hw1 Hw2. unfold enqueue, mbind, AM_bind. rewrite (read_run b w q Hq), Hr.
  cbn zeta. assert (push (_max_entries b) [] x = [x]) as Hp.
  { unfold push. destruct (Z.ltb_spec (_max_entries b) (Z.of_nat (length ([] ++ [x])))) as [Hlt|];
      [simpl in Hlt; lia|done]. }
  unfold push in Hp. rewrite Hp. apply holds_tick in Hq. pose proof Hq as [_ (tmp & Htmp & _) _ _].
  unfold _write_all. rewrite Htmp. unfold a_try, mbind, AM_bind.
  pose proof (write_tmp_holds b tmp (content [x]) (tick w) q Htmp Hq) as Hw.
  destruct (path_write_text tmp (content [x]) (tick w)) as [[u|e] w1] eqn:Ew.
  2: { destruct Hw as (_ & _ & _ & Hno). simpl in Hno. congruence. }
  destruct Hw as (Hq1 & _ & Hc).
  assert (aw_tick w1 = S (S (aw_tick w))) as Ht.
  { unfold path_write_text, os_error in Ew. repeat (case_match; try done); by simplify_eq. }
  pose proof (replace_holds b tmp w1 q [x] Htmp Hq1 ltac:(by constructor) Hc) as Hrep.
  destruct (path_replace tmp _ w1) as [[v|e] w2]; destruct Hrep as [_ Hrep]; [done|].
  destruct Hrep as (_ & _ & Hno). congruence.
Qed.

(** Bytes that are no UTF-8 are not skipped like other corrupt entries: the error is a
    [ValueError], which [_read_all] does not catch there. *)
Lemma undecodable_buffer_raises b x w :
  aw_disk w !! buffer_place b = Some (PlainFile None) -> fs_ok (aw_tick w) = true ->
  exists m w', enqueue b x w = (Raise (ValueError m), w').
Proof.
  intros Hd Hfs. unfold enqueue, _read_all, a_try, mbind, AM_bind, path_read_text.
  rewrite Hd, Hfs. by eexists _, _.
Qed.

End buffer_properties.
