(* ===== verification/Transport.v ===== *)
(** * HttpTransport ([agent/transport/http_client.py])

    One POST classified by its outcome, and the retrying operations built on it. *)

From S2P Require Import Prelude PyFloat PyTime Domain Schema Runtime Exceptions Disk AgentRuntime Files.

Local Open Scope Z_scope.

(** The attributes of [HttpTransport]: the client's headers and the retry policy's bound. *)
Record HttpTransport := {
  _authorization : option string;
  _retry_attempts : Z;
}.

(** [HttpTransport.__init__]: no header without a token, or with an empty one. *)
Definition HttpTransport_init (auth_token : option string) (retry_attempts : Z) : HttpTransport :=
  {| _authorization :=
       match auth_token with
       | Some token => if bool_decide (token = EmptyString) then None
                       else Some ("Bearer " ++ token)%string
       | None => None
       end;
     _retry_attempts := retry_attempts |}.

Definition _METRICS_ENDPOINT : string := "/api/v1/metrics".
Definition _REMEDIATION_ACTIONS_ENDPOINT : string := "/api/v1/remediation-actions".

Section transport.
Context `{AgentEnv} (t : HttpTransport).

(** The POST of [_post]. *)
Definition request_to (endpoint : string) (body : HttpBody) : ClientRequest :=
  {| cr_endpoint := endpoint; cr_authorization := _authorization t; cr_body := body |}.

(** [_post]: the response's body; [record] notes that the server accepted the request. *)
Definition _post (record : AgentWorld -> AgentWorld) (endpoint : string) (json_body : HttpBody)
    : AM (option Ack) := fun w =>
  let w := posted (request_to endpoint json_body) w in
  match http (aw_sent w) with
  | HttpTimeout => (Raise (RetryableTransportError "collector request timed out"), w)
  | HttpConnectError => (Raise (RetryableTransportError "collector connection failed"), w)
  | HttpOtherError name => (Raise (OtherException name), w)
  | HttpResponse status_code body =>
      if HTTP_SERVER_ERROR_THRESHOLD <=? status_code
      then (Raise (RetryableTransportError "collector returned a server error"), w)
      else if HTTP_CLIENT_ERROR_THRESHOLD <=? status_code
      then (Raise (FatalTransportError "collector rejected the payload"), w)
      else (Ok body, record w)
  end.

Definition accept (payload : NodeMetricsPayload) (w : AgentWorld) : AgentWorld :=
  {| aw_disk := aw_disk w; aw_tick := aw_tick w; aw_sent := aw_sent w;
     aw_accepted := aw_accepted w ++ [payload]; aw_reports := aw_reports w;
     aw_executed := aw_executed w |}.

Definition accept_report (action_id : Z) (result : ActionResult) (w : AgentWorld) : AgentWorld :=
  {| aw_disk := aw_disk w; aw_tick := aw_tick w; aw_sent := aw_sent w;
     aw_accepted := aw_accepted w; aw_reports := aw_reports w ++ [(action_id, result)];
     aw_executed := aw_executed w |}.

(** [_send_once]: a body that is no [Ack] is a [ValidationError]. *)
Definition _send_once (payload : NodeMetricsPayload) : AM Ack :=
  body ← _post (accept payload) _METRICS_ENDPOINT (PostMetrics payload);
  match body with
  | Some ack => mret ack
  | None => a_raise (ValueError "validation error for Ack")
  end.

Definition _report_action_result_once (action_id : Z) (result : ActionResult) : AM unit :=
  let endpoint := (_REMEDIATION_ACTIONS_ENDPOINT ++ "/" ++ pretty action_id ++ "/result")%string in
  _ ← _post (accept_report action_id result) endpoint (PostResult action_id result); mret tt.

Definition send (payload : NodeMetricsPayload) : AM Ack :=
  retrying Ack (_retry_attempts t) (_send_once payload).

Definition report_action_result (action_id : Z) (result : ActionResult) : AM unit :=
  retrying unit (_retry_attempts t) (_report_action_result_once action_id result).

(** The request of [_send_once]. *)
Definition push_request (payload : NodeMetricsPayload) : ClientRequest :=
  request_to _METRICS_ENDPOINT (PostMetrics payload).

(** The request of [_report_action_result_once]. *)
Definition report_request (action_id : Z) (result : ActionResult) : ClientRequest :=
  request_to (_REMEDIATION_ACTIONS_ENDPOINT ++ "/" ++ pretty action_id ++ "/result")%string
    (PostResult action_id result).

End transport.

(** ** Classification and retries *)

(** How one outcome is classified. *)
Inductive Verdict := Accepted (body : option Ack) | Retry | Reject | Crash (name : string).

Definition classify (o : HttpOutcome) : Verdict :=
  match o with
  | HttpTimeout | HttpConnectError => Retry
  | HttpOtherError name => Crash name
  | HttpResponse status_code body =>
      if HTTP_SERVER_ERROR_THRESHOLD <=? status_code then Retry
      else if HTTP_CLIENT_ERROR_THRESHOLD <=? status_code then Reject
      else Accepted body
  end.

Definition is_retryable (e : Exc) : bool :=
  match e with RetryableTransportError _ => true | _ => false end.
Definition is_fatal (e : Exc) : bool :=
  match e with FatalTransportError _ => true | _ => false end.
(** [TransportError]. *)
Definition is_transport (e : Exc) : bool := is_retryable e || is_fatal e.

(** They are what the [except] clauses of the Agent select by class. *)
Lemma transport_by_class e :
  is_retryable e = isinstance e C_RetryableTransportError /\
  is_fatal e = isinstance e C_FatalTransportError /\
  is_transport e = isinstance e C_TransportError.
Proof. by destruct e. Qed.

(** [k] requests, all the same. *)
Fixpoint attempts (k : nat) (request : ClientRequest) (w : AgentWorld) : AgentWorld :=
  match k with O => w | S k' => attempts k' request (posted request w) end.

Lemma attempts_S k r w : attempts (S k) r w = posted r (attempts k r w).
Proof. revert w. induction k as [|k IH]; intros w; simpl; [done|]. by rewrite <- IH. Qed.

(** Requests change the log and the clock only. *)
Lemma attempts_frame k r w :
  let w' := attempts k r w in
  aw_sent w' = aw_sent w ++ replicate k r /\ aw_disk w' = aw_disk w /\
  aw_accepted w' = aw_accepted w /\ aw_reports w' = aw_reports w /\
  aw_executed w' = aw_executed w.
Proof.
  revert w. induction k as [|k IH]; intros w; simpl; [by rewrite app_nil_r|].
  destruct (IH (posted r w)) as (-> & -> & -> & -> & ->). simpl. by rewrite <- app_assoc.
Qed.

Section transport_specs.
Context `{AgentEnv}.

(** How the [i]-th of a run of equal requests ends, from zero. *)
Definition attempt_verdict (w : AgentWorld) (r : ClientRequest) (i : nat) : Verdict :=
  classify (http (aw_sent w ++ replicate (S i) r)).

Lemma attempt_verdict_later w r i :
  attempt_verdict (posted r w) r i = attempt_verdict w r (S i).
Proof. unfold attempt_verdict. simpl. by rewrite <- app_assoc. Qed.

Lemma send_once_spec t p w :
  let r := push_request t p in
  match attempt_verdict w r 0 with
  | Accepted (Some ack) => _send_once t p w = (Ok ack, accept p (posted r w))
  | Accepted None => exists m, _send_once t p w = (Raise (ValueError m), accept p (posted r w))
  | Retry => exists m, _send_once t p w = (Raise (RetryableTransportError m), posted r w)
  | Reject => exists m, _send_once t p w = (Raise (FatalTransportError m), posted r w)
  | Crash name => _send_once t p w = (Raise (OtherException name), posted r w)
  end.
Proof.
  unfold attempt_verdict, _send_once, _post, classify, mbind, AM_bind. simpl.
  change (request_to t _METRICS_ENDPOINT (PostMetrics p)) with (push_request t p).
  destruct (http _) as [st body| | |name]; [|by eexists..|done].
  destruct (_ <=? st); [by eexists|]. destruct (_ <=? st); [by eexists|].
  destruct body; simpl; by eauto.
Qed.

Lemma report_once_spec t id res w :
  let r := report_request t id res in
  match attempt_verdict w r 0 with
  | Accepted _ =>
      _report_action_result_once t id res w = (Ok tt, accept_report id res (posted r w))
  | Retry => exists m,
      _report_action_result_once t id res w = (Raise (RetryableTransportError m), posted r w)
  | Reject => exists m,
      _report_action_result_once t id res w = (Raise (FatalTransportError m), posted r w)
  | Crash name => _report_action_result_once t id res w = (Raise (OtherException name), posted r w)
  end.
Proof.
  unfold attempt_verdict, _report_action_result_once, _post, classify, mbind, AM_bind.
  cbn [replicate]. fold (report_request t id res).
  change (aw_sent w ++ [report_request t id res]) with (aw_sent (posted (report_request t id res) w)).
  destruct (http _) as [st body| | |name]; [|by eexists..|done].
  destruct (_ <=? st); [by eexists|]. destruct (_ <=? st); [by eexists|done].
Qed.

(** The send made [k + 1] attempts, all but the last of them retryable. *)
Definition send_outcome (retry_attempts : Z) (p : NodeMetricsPayload) (r : ClientRequest)
    (w : AgentWorld) (res : Res Ack) (w' : AgentWorld) : Prop :=
  exists k, (Z.of_nat (S k) <= Z.max 1 retry_attempts) /\
    (forall i, (i < k)%nat -> attempt_verdict w r i = Retry) /\
    match attempt_verdict w r k with
    | Accepted (Some ack) => res = Ok ack /\ w' = accept p (attempts (S k) r w)
    | Accepted None => (exists m, res = Raise (ValueError m)) /\
        w' = accept p (attempts (S k) r w)
    | Retry => (exists m, res = Raise (RetryableTransportError m)) /\ w' = attempts (S k) r w /\
        Z.of_nat (S k) = Z.max 1 retry_attempts
    | Reject => (exists m, res = Raise (FatalTransportError m)) /\ w' = attempts (S k) r w
    | Crash name => res = Raise (OtherException name) /\ w' = attempts (S k) r w
    end.

Lemma send_outcome_later n p r w res w' :
  1 < n -> attempt_verdict w r 0 = Retry ->
  send_outcome (n - 1) p r (posted r w) res w' -> send_outcome n p r w res w'.
Proof.
  intros Hn H0 (k & Hk & Hi & Hr). exists (S k). split; [lia|]. split.
  - intros [|i] Hlt; [done|]. rewrite <- attempt_verdict_later. apply (Hi i). lia.
  - rewrite <- attempt_verdict_later. revert Hr.
    destruct (attempt_verdict (posted r w) r k) as [[ack|]| | |name]; try done.
    intros (Hm & Hw & Hlast). split; [done|]. split; [done|]. lia.
Qed.

Lemma send_outcome_first n p r w res w' :
  match attempt_verdict w r 0 with
  | Accepted (Some ack) => res = Ok ack /\ w' = accept p (posted r w)
  | Accepted None => (exists m, res = Raise (ValueError m)) /\ w' = accept p (posted r w)
  | Retry => (exists m, res = Raise (RetryableTransportError m)) /\ w' = posted r w /\ n <= 1
  | Reject => (exists m, res = Raise (FatalTransportError m)) /\ w' = posted r w
  | Crash name => res = Raise (OtherException name) /\ w' = posted r w
  end -> send_outcome n p r w res w'.
Proof.
  intros Hr. exists 0%nat. split; [lia|]. split; [lia|].
  destruct (attempt_verdict w r 0) as [[ack|]| | |name]; try done.
  destruct Hr as (? & ? & ?). split; [done|]. split; [done|lia].
Qed.

Lemma send_spec t p w :
  let '(res, w') := send t p w in
  send_outcome (_retry_attempts t) p (push_request t p) w res w'.
Proof.
  unfold send. generalize (_retry_attempts t). intros n0.
  remember (Z.to_nat n0) as n eqn:En. revert n0 w En.
  induction n as [n IH] using lt_wf_ind. intros n0 w ->.
  rewrite retrying_spec. pose proof (send_once_spec t p w) as Hs. cbn zeta in Hs.
  destruct (attempt_verdict w (push_request t p) 0) as [[ack|]| | |name] eqn:Ec;
    [|destruct Hs as [m Hs]..|]; rewrite Hs;
    try (apply send_outcome_first; rewrite Ec; by eauto).
  destruct (Z.leb_spec n0 1); [apply send_outcome_first; rewrite Ec; by eauto|].
  specialize (IH (Z.to_nat (n0 - 1)) ltac:(lia) (n0 - 1) (posted (push_request t p) w) eq_refl).
  destruct (retrying Ack (n0 - 1) (_send_once t p) (posted (push_request t p) w)) as [res w'].
  by apply send_outcome_later.
Qed.

(** What a send leaves of the world, whatever its outcome. *)
Lemma send_outcome_frame n p r w res w' :
  send_outcome n p r w res w' ->
  aw_disk w' = aw_disk w /\ aw_executed w' = aw_executed w /\ aw_reports w' = aw_reports w /\
  (exists k, aw_sent w' = aw_sent w ++ replicate (S k) r /\
     (forall i, (i < k)%nat -> attempt_verdict w r i = Retry) /\
     match res with
     | Ok ack => attempt_verdict w r k = Accepted (Some ack) /\ aw_accepted w' = aw_accepted w ++ [p]
     | Raise e => attempt_verdict w r k = Accepted None /\ aw_accepted w' = aw_accepted w ++ [p] /\
           is_transport e = false \/
         (attempt_verdict w r k = Retry /\ is_retryable e = true \/
          attempt_verdict w r k = Reject /\ is_fatal e = true \/
          (exists name, attempt_verdict w r k = Crash name) /\ is_transport e = false) /\
         aw_accepted w' = aw_accepted w
     end).
Proof.
  intros (k & _ & Hi & Hr). destruct (attempts_frame (S k) r w) as (Hse & Hf & Ha & Hrep & Hex).
  destruct (attempt_verdict w r k) as [[ack|]| | |name] eqn:Ev.
  - destruct Hr as [-> ->]. simpl in *. split_and!; try done. exists k. by rewrite Ha.
  - destruct Hr as [[m ->] ->]. simpl in *. split_and!; try done. exists k.
    split; [done|]. split; [done|]. left. by rewrite Ha.
  - destruct Hr as ([m ->] & -> & _). split_and!; try done. exists k. split; [done|].
    split; [done|]. right. split; [|done]. by left.
  - destruct Hr as ([m ->] & ->). split_and!; try done. exists k. split; [done|].
    split; [done|]. right. split; [|done]. right. by left.
  - destruct Hr as (-> & ->). split_and!; try done. exists k. split; [done|].
    split; [done|]. right. split; [|done]. right. right. by eauto.
Qed.

(** A send makes at most [retry_attempts] requests (at least one): it goes on only after
    time-outs, refused connections and 5xx answers, stops at the first answer below 500 or
    other error, and reports a retryable failure only when every allowed attempt was. *)
Lemma send_retries t p w :
  send_outcome (_retry_attempts t) p (push_request t p) w (fst (send t p w)) (snd (send t p w)).
Proof. pose proof (send_spec t p w) as Hs. by destruct (send t p w). Qed.

End transport_specs.
