(* ===== verification/Executor.v ===== *)
(** * PlaybookExecutor and its actions
    ([agent/remediation/executor.py], [agent/remediation/actions/])

    The catalogue of actions the Agent runs, the allowlist that guards the destructive one,
    and the executor that turns every refusal or failure into a result. *)

From S2P Require Import Prelude PyFloat PyTime PyStr Domain Schema Runtime Disk AgentRuntime Files.

Local Open Scope Z_scope.

Section executor.
Context `{AgentEnv} (allowed_directories : gset string).

Definition execute_noop : ActionResult :=
  {| res_status := RESULT_EXECUTED; res_message := Some "noop" |}.

Definition clear_entry (dir : Place) (entry : string) : AM unit := fun w =>
  let entry_path := dir ++ [entry] in
  if isdir entry_path (aw_disk w) && negb (islink entry_path (aw_disk w))
  then shutil_rmtree entry_path w else os_remove entry_path w.

Definition _clear_directory_contents (path : string) : AM Z :=
  let dir := realpath path in
  entries ← os_listdir dir;
  _ ← a_iter (clear_entry dir) entries;
  mret (Z.of_nat (length entries)).

Definition execute_clear_directory (parameters : gmap string string) : AM ActionResult :=
  let path := default EmptyString (parameters !! "path") in
  if bool_decide (path = EmptyString) || bool_decide (path ∉ allowed_directories)
  then a_raise (RemediationSafetyError ("path " ++ repr path ++
         " is not in this Agent's remediation_allowed_directories allowlist")%string)
  else
    removed ← _clear_directory_contents path;
    mret {| res_status := RESULT_EXECUTED;
            res_message := Some ("removed " ++ pretty removed ++ " entries from " ++ path)%string |}.

Definition _dispatch (action : PendingAction) : AM ActionResult :=
  match pa_action_type action with
  | NOOP => mret execute_noop
  | CLEAR_DIRECTORY => execute_clear_directory (pa_parameters action)
  | RESTART_SERVICE => a_raise (RemediationSafetyError ("action_type " ++
      repr (PlaybookActionType_value (pa_action_type action)) ++
      " is not supported by this Agent's executor")%string)
  end.

(** [execute]: only a safety refusal or an [OSError] becomes a failed result. *)
Definition execute (action : PendingAction) : AM ActionResult := fun w =>
  a_try (_dispatch action) (fun e =>
    match e with
    | RemediationSafetyError _ | OSError _ =>
        mret {| res_status := RESULT_FAILED; res_message := Some (exc_text e) |}
    | _ => a_raise e
    end) (note_executed (pa_action_id action) w).

(** ** Clearing a directory *)

(** The operation fails with [OSError]s only. *)
Definition os_failures {A} (m : AM A) : Prop :=
  forall w e, fst (m w) = Raise e -> exists text, e = OSError text.

Lemma os_failures_bind {A B} (m : AM A) (k : A -> AM B) :
  os_failures m -> (forall a, os_failures (k a)) -> os_failures (m ≫= k).
Proof.
  intros Hm Hk w e. unfold mbind, AM_bind. specialize (Hm w).
  destruct (m w) as [[a|e1] w1]; [apply Hk|]. intros [= <-]. by apply Hm.
Qed.

Lemma os_failures_iter {A} (f : A -> AM unit) l :
  (forall x, os_failures (f x)) -> os_failures (a_iter f l).
Proof.
  intros Hf. induction l as [|x l IH]; [by intros w e|]. by apply os_failures_bind; [|intros _].
Qed.

Lemma disk_call_failures d : os_failures (disk_call d).
Proof. intros w e. unfold disk_call. destruct (fs_ok _); [done|]. intros [= <-]. by eexists. Qed.

Lemma clear_entry_failures dir entry : os_failures (clear_entry dir entry).
Proof.
  intros w. unfold clear_entry, shutil_rmtree, os_remove. destruct (isdir _ _ && _).
  - destruct (bool_decide _); [|intros e [= <-]; by eexists]. apply os_failures_iter.
    intros p w1. apply disk_call_failures.
  - destruct (_ !! _) as [[]|]; try apply disk_call_failures; intros e [= <-]; by eexists.
Qed.

Lemma listdir_failures p : os_failures (os_listdir p).
Proof. intros w e. unfold os_listdir. destruct (_ && _); [done|]. intros [= <-]. by eexists. Qed.

Lemma clear_directory_failures path : os_failures (_clear_directory_contents path).
Proof.
  apply os_failures_bind; [apply listdir_failures|]. intros entries.
  apply os_failures_bind; [apply os_failures_iter, clear_entry_failures|by intros _ w e].
Qed.

Lemma clear_entry_within dir entry : keeps (removes_in (within (dir ++ [entry]))) (clear_entry dir entry).
Proof.
  intros w. unfold clear_entry. destruct (isdir _ _ && _).
  - by apply rmtree_removes.
  - apply remove_removes, within_refl.
Qed.

Lemma clear_entry_removes dir entry : keeps (removes_in (inside dir)) (clear_entry dir entry).
Proof.
  intros w. destruct (clear_entry_within dir entry w) as [Hc Hr]. split; [|done].
  eapply changes_weaken; [|exact Hc]. intros k. apply within_child.
Qed.

Lemma clear_directory_removes path :
  keeps (removes_in (inside (realpath path))) (_clear_directory_contents path).
Proof.
  apply keeps_bind; [apply _| |intros entries; apply keeps_bind; [apply _| |]].
  - intros w. unfold os_listdir. destruct (_ && _); (split; [done|by left]).
  - apply keeps_iter; [apply _|]. intros x. apply clear_entry_removes.
  - intros _. apply keeps_ret, _.
Qed.

Lemma clear_entries_gone dir entries w w' :
  a_iter (clear_entry dir) entries w = (Ok tt, w') ->
  forall x, x ∈ entries -> aw_disk w' !! (dir ++ [x]) = None.
Proof.
  revert w. induction entries as [|en entries IH]; intros w Hrun x Hx; [by apply elem_of_nil in Hx|].
  simpl in Hrun. unfold mbind, AM_bind in Hrun.
  destruct (clear_entry dir en w) as [[[]|e] w1] eqn:Ec; [|done].
  apply elem_of_cons in Hx as [->|Hx]; [|by eapply IH].
  assert (aw_disk w1 !! (dir ++ [en]) = None) as H1.
  { unfold clear_entry in Ec. destruct (isdir _ _ && _); [by eapply rmtree_gone|by eapply os_remove_gone]. }
  pose proof (keeps_iter (removes_in (inside dir)) (clear_entry dir) entries
    (clear_entry_removes dir) w1) as [_ Hr].
  rewrite Hrun in Hr. simpl in Hr. by destruct (Hr (dir ++ [en])) as [->|].
Qed.

(** A clearing that ends normally leaves the directory empty, and counts what was in it. *)
Lemma clear_directory_empties path w n w' :
  _clear_directory_contents path w = (Ok n, w') ->
  n = Z.of_nat (length (children (aw_disk w) (realpath path))) /\
  children (aw_disk w') (realpath path) = [].
Proof.
  intros Hrun. pose proof (clear_directory_removes path w) as [_ Hr]. rewrite Hrun in Hr. simpl in Hr.
  unfold _clear_directory_contents, os_listdir, mbind, AM_bind in Hrun.
  destruct (_ && _); [|done]. set (dir := realpath path) in *.
  destruct (a_iter _ _ _) as [[[]|e] w1] eqn:Ei; [|done]. injection Hrun as <- <-.
  split; [by rewrite listdir_permutes|].
  destruct (children (aw_disk w1) dir) as [|x l] eqn:Ec; [done|exfalso].
  assert (is_Some (aw_disk w1 !! (dir ++ [x]))) as [v Hv].
  { apply elem_of_children. rewrite Ec. left. }
  rewrite (clear_entries_gone _ _ _ _ Ei x) in Hv; [done|].
  rewrite listdir_permutes. apply elem_of_children. exists v.
  destruct (Hr (dir ++ [x])) as [He|He]; congruence.
Qed.

(** A disk that answers every call lets every entry there is be removed. *)
Lemma clear_entry_answers dir entry w :
  (forall n, fs_ok n = true) -> is_Some (aw_disk w !! (dir ++ [entry])) ->
  exists w', clear_entry dir entry w = (Ok tt, w').
Proof.
  intros Hfs Hin. unfold clear_entry, isdir, islink.
  destruct (aw_disk w !! (dir ++ [entry])) as [[c| |[]]|] eqn:En; simpl.
  2: { by apply rmtree_answers. }
  all: apply os_remove_answers; [done|by rewrite En|by rewrite En].
Qed.

Lemma clear_entries_answer dir entries w :
  (forall n, fs_ok n = true) -> NoDup entries ->
  (forall x, x ∈ entries -> is_Some (aw_disk w !! (dir ++ [x]))) ->
  exists w', a_iter (clear_entry dir) entries w = (Ok tt, w').
Proof.
  intros Hfs Hnd. revert w. induction Hnd as [|en entries Hen Hnd IH]; intros w Hin; [by exists w|].
  simpl. unfold mbind, AM_bind.
  destruct (clear_entry_answers dir en w Hfs) as [w1 Hw1]; [apply Hin; left|].
  pose proof (clear_entry_within dir en w) as [[_ Hc] _]. rewrite Hw1 in *. simpl in Hc.
  apply IH. intros x Hx. rewrite Hc; [apply Hin; by right|].
  intros [rest Hk]. apply seen_from_Some in Hk. rewrite <- app_assoc in Hk.
  apply app_inv_head in Hk. by injection Hk as -> _.
Qed.

Lemma clear_directory_answers path w :
  (forall n, fs_ok n = true) -> is_dir (aw_disk w) (realpath path) = true ->
  exists n w', _clear_directory_contents path w = (Ok n, w').
Proof.
  intros Hfs Hd. unfold _clear_directory_contents, os_listdir, mbind, AM_bind.
  rewrite Hd, Hfs. simpl. set (entries := listdir_order _ _).
  assert (entries ≡ₚ children (aw_disk w) (realpath path)) as Hp by apply listdir_permutes.
  destruct (clear_entries_answer (realpath path) entries (tick w) Hfs) as [w' ->]; [| |by eexists _, _].
  - rewrite Hp. apply children_NoDup.
  - intros x Hx. rewrite Hp in Hx. by apply elem_of_children.
Qed.

(** ** Executing *)

(** The nodes in the directories of the allowlist. *)
Definition clearable (k : Place) : Prop :=
  exists path, path ∈ allowed_directories /\ inside (realpath path) k.

(** The directory an action names. *)
Definition named_directory (action : PendingAction) : string :=
  default EmptyString (pa_parameters action !! "path").

Lemma execute_allowed action w0 :
  pa_action_type action = CLEAR_DIRECTORY ->
  named_directory action <> EmptyString /\ named_directory action ∈ allowed_directories ->
  let w := note_executed (pa_action_id action) w0 in
  let dir := realpath (named_directory action) in
  exists res w', execute action w0 = (Ok res, w') /\ removes_in (inside dir) w w' /\
    (res_status res = RESULT_EXECUTED ->
       children (aw_disk w') dir = [] /\
       res_message res = Some ("removed " ++ pretty (Z.of_nat (length (children (aw_disk w) dir))) ++
         " entries from " ++ named_directory action)%string) /\
    ((forall n, fs_ok n = true) -> is_dir (aw_disk w) dir = true -> res_status res = RESULT_EXECUTED).
Proof.
  unfold execute, _dispatch, a_try, execute_clear_directory. intros -> [Hne Hin].
  set (w := note_executed _ w0). set (path := named_directory action).
  change (default EmptyString _) with path.
  rewrite (bool_decide_false (path = EmptyString)),
    (bool_decide_false (path ∉ allowed_directories)) by auto.
  cbn [orb]. unfold mbind, AM_bind.
  pose proof (clear_directory_removes path w) as Hr.
  pose proof (clear_directory_failures path w) as Hf.
  destruct (_clear_directory_contents path w) as [[n|e] w'] eqn:Ec; simpl in Hr, Hf.
  - destruct (clear_directory_empties _ _ _ _ Ec) as [-> Hempty]. by eexists _, _.
  - destruct (Hf e eq_refl) as [m ->]. eexists _, _. split; [done|]. split; [done|].
    split; [done|]. intros Hfs Hd. destruct (clear_directory_answers path w Hfs Hd) as (n & w2 & Ha).
    congruence.
Qed.

Lemma execute_refused action w0 :
  pa_action_type action = CLEAR_DIRECTORY ->
  ~ (named_directory action <> EmptyString /\ named_directory action ∈ allowed_directories) ->
  exists res, execute action w0 = (Ok res, note_executed (pa_action_id action) w0) /\
    res_status res = RESULT_FAILED.
Proof.
  unfold execute, _dispatch, a_try, execute_clear_directory. intros -> Hno.
  set (path := named_directory action) in *. change (default EmptyString _) with path.
  assert (bool_decide (path = EmptyString) || bool_decide (path ∉ allowed_directories) = true) as ->.
  { destruct (decide (path = EmptyString)); [by rewrite bool_decide_true|].
    rewrite (bool_decide_true (path ∉ allowed_directories)); [by rewrite orb_true_r|]. tauto. }
  by eexists.
Qed.

(** Executing never raises, sends nothing, and removes nodes of the allowlist's directories
    only. *)
Lemma execute_removes action w :
  exists res w', execute action w = (Ok res, w') /\
    removes_in clearable (note_executed (pa_action_id action) w) w'.
Proof.
  assert (forall w0, removes_in clearable w0 w0) as Hrefl by (intros w0; reflexivity).
  destruct (pa_action_type action) eqn:Ea.
  1, 3: unfold execute, _dispatch, a_try; rewrite Ea; by eexists _, _.
  destruct (decide (named_directory action <> EmptyString /\
                    named_directory action ∈ allowed_directories)) as [Hin|Hno].
  - destruct (execute_allowed action w Ea Hin) as (res & w' & Hx & [Hc Hr] & _).
    exists res, w'. split; [done|]. split; [|done].
    eapply changes_weaken; [|exact Hc]. intros k Hk. exists (named_directory action).
    by split; [apply Hin|].
  - destruct (execute_refused action w Ea Hno) as (res & -> & _). by eexists _, _.
Qed.

Lemma execute_total_data action w :
  exists res w', execute action w = (Ok res, w') /\
    same_traffic (note_executed (pa_action_id action) w) w'.
Proof.
  destruct (execute_removes action w) as (res & w' & Hx & [[Ht _] _]). by exists res, w'.
Qed.

(** C33: executing an action always ends in a result.  A no-op changes nothing and is reported as
    executed; [restart_service], and a directory that is missing from the parameters or not
    in the Agent's own allowlist, is refused with nothing touched; of an allowed directory
    nodes are removed and nothing else changes, and when the result is executed the
    directory is empty and the message says how many entries it had; it is executed whenever
    the path is a directory and the disk answers every call. *)
Theorem execute_total action w0 :
  let w := note_executed (pa_action_id action) w0 in
  exists res w', execute action w0 = (Ok res, w') /\
  match pa_action_type action with
  | NOOP => res_status res = RESULT_EXECUTED /\ w' = w
  | RESTART_SERVICE => res_status res = RESULT_FAILED /\ w' = w
  | CLEAR_DIRECTORY =>
      let path := named_directory action in
      if bool_decide (path <> EmptyString /\ path ∈ allowed_directories) then
        removes_in (inside (realpath path)) w w' /\
        (res_status res = RESULT_EXECUTED ->
           children (aw_disk w') (realpath path) = [] /\
           res_message res = Some ("removed " ++
             pretty (Z.of_nat (length (children (aw_disk w) (realpath path)))) ++
             " entries from " ++ path)%string) /\
        ((forall n, fs_ok n = true) -> is_dir (aw_disk w) (realpath path) = true ->
           res_status res = RESULT_EXECUTED)
      else res_status res = RESULT_FAILED /\ w' = w
  end.
Proof.
  intros w. destruct (pa_action_type action) eqn:Ea.
  1, 3: unfold execute, _dispatch, a_try; rewrite Ea; by eexists _, _.
  destruct (decide (named_directory action <> EmptyString /\
                    named_directory action ∈ allowed_directories)) as [Hin|Hin]; cbv zeta.
  - rewrite bool_decide_true by done. by apply execute_allowed.
  - rewrite bool_decide_false by done. destruct (execute_refused action w0 Ea Hin) as (res & -> & Hf). by eexists _, _.
Qed.

End executor.
