(* ===== verification/AgentConfig.v ===== *)
(** * The Agent's settings ([agent/config.py], [shared/config/base.py])

    The fields of [AgentSettings] with their defaults, as they are after pydantic has read
    the environment; no field has a constraint. *)

From S2P Require Import Prelude PyFloat PyStr Domain Settings.

Local Open Scope Z_scope.

Definition DEFAULT_COLLECTION_INTERVAL_SECONDS : float := float_of_Z 30.
Definition DEFAULT_HTTP_TIMEOUT_SECONDS : float := float_of_Z 10.
Definition DEFAULT_HTTP_RETRY_ATTEMPTS : Z := 3.
Definition DEFAULT_HTTP_RETRY_MIN_WAIT_SECONDS : float := float_of_Z 1.
Definition DEFAULT_HTTP_RETRY_MAX_WAIT_SECONDS : float := float_of_Z 10.

Record AgentSettings := {
  as_environment : Environment;
  as_service_name : string;
  as_log_level : string;
  node_id : string;
  collector_base_url : string;
  collection_interval_seconds : float;
  auth_token : option string;
  http_timeout_seconds : float;
  http_retry_attempts : Z;
  http_retry_min_wait_seconds : float;
  http_retry_max_wait_seconds : float;
  buffer_path : string;
  buffer_max_entries : Z;
  agent_remediation_enabled : bool;
  remediation_allowed_directories : string;
}.

(** The settings of an empty environment, on the host [hostname]. *)
Definition default_agent_settings (hostname : string) : AgentSettings :=
  {| as_environment := DEV; as_service_name := "clusterpulse"; as_log_level := "INFO";
     node_id := hostname;
     collector_base_url := "http://localhost:8000";
     collection_interval_seconds := DEFAULT_COLLECTION_INTERVAL_SECONDS;
     auth_token := None;
     http_timeout_seconds := DEFAULT_HTTP_TIMEOUT_SECONDS;
     http_retry_attempts := DEFAULT_HTTP_RETRY_ATTEMPTS;
     http_retry_min_wait_seconds := DEFAULT_HTTP_RETRY_MIN_WAIT_SECONDS;
     http_retry_max_wait_seconds := DEFAULT_HTTP_RETRY_MAX_WAIT_SECONDS;
     buffer_path := "./agent_buffer.jsonl";
     buffer_max_entries := DEFAULT_BUFFER_MAX_ENTRIES;
     agent_remediation_enabled := false;
     remediation_allowed_directories := EmptyString |}.

(** [remediation_allowed_directory_set]. *)
Definition remediation_allowed_directory_set (s : AgentSettings) : gset string :=
  list_to_set (filter (fun p => p <> EmptyString)
    (strip <$> split_on (Ascii.ascii_of_N 44) (remediation_allowed_directories s))).
