(* ===== verification/RefAgent.v ===== *)
(** * A concrete Agent environment

    A codec for payloads (their code in the binary digits of a number, after a brace), a disk
    that fails as a function says, a network given by a function, and the retry policy as
    tenacity runs it.  The witnesses of the Agent's properties use it. *)

From Stdlib Require Import SpecFloat.
From stdpp Require Import sorting.
From S2P Require Import Prelude PyFloat PyTime PyStr Domain Schema Runtime Disk AgentRuntime Files.

Local Open Scope Z_scope.

(** ** Payloads as numbers *)

#[local] Instance float_countable : Countable spec_float.
Proof.
  refine (inj_countable'
    (fun x => match x with
              | S754_zero s => inl (inl s)
              | S754_infinity s => inl (inr s)
              | S754_nan => inr (inl tt)
              | S754_finite s m e => inr (inr (s, m, e))
              end)
    (fun c => match c with
              | inl (inl s) => S754_zero s
              | inl (inr s) => S754_infinity s
              | inr (inl _) => S754_nan
              | inr (inr (s, m, e)) => S754_finite s m e
              end) _).
  by intros [].
Defined.

#[local] Instance sample_eq_dec : EqDecision MetricSample.
Proof. solve_decision. Defined.

#[local] Instance sample_countable : Countable MetricSample.
Proof.
  refine (inj_countable'
    (fun s => (ms_metric_type s, ms_value s, ms_unit s, ms_labels s))
    (fun '(m, v, u, l) => {| ms_metric_type := m; ms_value := v; ms_unit := u; ms_labels := l |}) _).
  by intros [].
Defined.

#[local] Instance payload_eq_dec : EqDecision NodeMetricsPayload.
Proof. solve_decision. Defined.

#[local] Instance payload_countable : Countable NodeMetricsPayload.
Proof.
  refine (inj_countable'
    (fun p => (np_node_id p, np_collected_at p, np_samples p, np_collection_errors p))
    (fun '(n, c, s, e) => {| np_node_id := n; np_collected_at := c; np_samples := s;
                             np_collection_errors := e |}) _).
  by intros [].
Defined.

(** A positive as binary digits, most significant last. *)
Fixpoint digits (p : positive) : text :=
  match p with
  | xH => []
  | xO p' => 48%N :: digits p'
  | xI p' => 49%N :: digits p'
  end.

Fixpoint of_digits (l : text) : positive :=
  match l with
  | [] => xH
  | c :: l' => if N.eqb c 48 then xO (of_digits l') else xI (of_digits l')
  end.

Lemma of_digits_digits p : of_digits (digits p) = p.
Proof. induction p as [p IH|p IH|]; simpl; by rewrite ?IH. Qed.

Definition ref_dump (p : NodeMetricsPayload) : text := 123%N :: digits (encode p).
Definition ref_parse (t : text) : option NodeMetricsPayload :=
  match t with 123%N :: l => decode (of_digits l) | _ => None end.

Lemma ref_parse_dump p : ref_parse (ref_dump p) = Some p.
Proof. unfold ref_parse, ref_dump. by rewrite of_digits_digits, decode_encode. Qed.

Lemma digits_range p : Forall (fun c => c = 48 \/ c = 49)%N (digits p).
Proof. induction p; simpl; constructor; auto. Qed.

Lemma ref_dump_printable p : Forall (fun c => 32 <= c)%N (ref_dump p).
Proof.
  constructor; [lia|]. eapply Forall_impl; [apply digits_range|]. simpl. intros c [-> | ->]; lia.
Qed.

Lemma ref_dump_plain p : Forall (fun c => c ∉ [133; 8232; 8233]%N) (ref_dump p).
Proof.
  assert (forall c, c = 123 \/ c = 48 \/ c = 49 -> c ∉ [133; 8232; 8233])%N as Hc.
  { intros c [-> | [-> | ->]]; rewrite !not_elem_of_cons; (repeat split; try done; apply not_elem_of_nil). }
  constructor; [apply Hc; auto|]. eapply Forall_impl; [apply digits_range|]. simpl. intros c [?|?]; auto.
Qed.

(** ** The retry policy *)

Fixpoint retry_loop {A} (n : nat) (f : AM A) : AM A := fun w =>
  match f w with
  | (Raise (RetryableTransportError m), w') =>
      match n with
      | O => (Raise (RetryableTransportError m), w')
      | S n' => retry_loop n' f w'
      end
  | r => r
  end.

Definition ref_retrying (A : Type) (attempts : Z) (f : AM A) : AM A :=
  retry_loop (Z.to_nat (attempts - 1)) f.

Lemma ref_retrying_spec A attempts (f : AM A) w :
  ref_retrying A attempts f w =
    match f w with
    | (Raise (RetryableTransportError m), w') =>
        if attempts <=? 1 then (Raise (RetryableTransportError m), w')
        else ref_retrying A (attempts - 1) f w'
    | r => r
    end.
Proof.
  unfold ref_retrying. destruct (Z.leb_spec attempts 1).
  - replace (Z.to_nat (attempts - 1)) with 0%nat by lia. simpl.
    destruct (f w) as [[a|[]] w']; done.
  - replace (Z.to_nat (attempts - 1)) with (S (Z.to_nat (attempts - 1 - 1))) by lia. simpl.
    destruct (f w) as [[a|[]] w']; done.
Qed.

(** ** Paths and orders *)

(** The names between the slashes; the paths of the environment have no links. *)
Definition ref_realpath (path : string) : Place :=
  filter (fun x => x <> EmptyString /\ x <> "."%string) (split_on (Ascii.ascii_of_N 47) path).

(** Deeper places first. *)
Definition deeper (p k : Place) : Prop := (length k <= length p)%nat.

#[local] Instance deeper_dec : RelDecision deeper.
Proof. intros p k. unfold deeper. apply _. Defined.
#[local] Instance deeper_total : Total deeper.
Proof. intros p k. unfold deeper. lia. Qed.
#[local] Instance deeper_trans : Transitive deeper.
Proof. intros p k l. unfold deeper. lia. Qed.

Definition ref_rmtree_order (_ : nat) (l : list Place) : list Place := merge_sort deeper l.

Lemma ref_rmtree_permutes n l : ref_rmtree_order n l ≡ₚ l.
Proof. apply merge_sort_Permutation. Qed.

Lemma sorted_depth l i j p k :
  StronglySorted deeper l -> l !! i = Some p -> l !! j = Some k -> inside p k -> (j < i)%nat.
Proof.
  intros Hs Hi Hj (x & rest & ->). destruct (decide (j < i)%nat) as [|Hge]; [done|exfalso].
  assert (i = j \/ i < j)%nat as [->|Hlt] by lia.
  { rewrite Hi in Hj. injection Hj as Hj. apply (f_equal length) in Hj.
    rewrite length_app in Hj. simpl in Hj. lia. }
  revert i j Hi Hj Hge Hlt. induction Hs as [|y l Hl IH Hy]; intros i j Hi Hj Hge Hlt; [done|].
  destruct j as [|j]; [lia|]. destruct i as [|i]; simpl in *; [|by apply (IH i j); [..|lia|lia]].
  injection Hi as ->. rewrite Forall_forall in Hy. specialize (Hy _ (list_elem_of_lookup_2 _ _ _ Hj)).
  unfold deeper in Hy. rewrite length_app in Hy. simpl in Hy. lia.
Qed.

Lemma ref_rmtree_children_first n l i j p k :
  ref_rmtree_order n l !! i = Some p -> ref_rmtree_order n l !! j = Some k -> inside p k ->
  (j < i)%nat.
Proof. apply sorted_depth. unfold ref_rmtree_order. apply (StronglySorted_merge_sort deeper). Qed.

(** ** The environment *)

Section ref_agent.
Context (disk : nat -> bool) (network : list ClientRequest -> HttpOutcome).

Definition RefAgent : AgentEnv :=
  {| dump := ref_dump;
     parse := ref_parse;
     parse_dump := fun p _ => ref_parse_dump p;
     dump_object := fun _ => eq_refl;
     dump_printable := ref_dump_printable;
     fs_ok := disk;
     torn_write := fun _ _ => Some None;
     realpath := ref_realpath;
     listdir_order := fun _ l => l;
     listdir_permutes := fun _ _ => reflexivity _;
     rmtree_order := ref_rmtree_order;
     rmtree_permutes := ref_rmtree_permutes;
     rmtree_children_first := ref_rmtree_children_first;
     http := network;
     retrying := ref_retrying;
     retrying_spec := ref_retrying_spec;
     cpu_percent := fun _ => Ok (float_of_Z 12);
     virtual_memory := fun _ => Ok (float_of_Z 50, 1000, 1000);
     disk_usage := fun _ _ => Ok (float_of_Z 70, 700, 300);
     net_io_counters := fun _ => Ok (10, 20);
     agent_clock := fun n => Z.of_nat n;
     exc_text := fun _ => "error" |}.

End ref_agent.

Definition demo_payload (t : datetime) : NodeMetricsPayload :=
  {| np_node_id := "n1"; np_collected_at := t; np_samples := []; np_collection_errors := [] |}.

(** An Agent whose buffer file [/var/buffer.jsonl] holds [file], with a cache of three files. *)
Definition agent_disk (file : text) : Disk :=
  {[ ["var"] := Directory; ["var"; "buffer.jsonl"] := PlainFile (Some file);
     ["tmp"] := Directory; ["tmp"; "cache"] := Directory;
     ["tmp"; "cache"; "a"] := PlainFile (Some []); ["tmp"; "cache"; "b"] := Directory;
     ["tmp"; "cache"; "b"; "c"] := PlainFile None; ["tmp"; "cache"; "link"] := Symlink true ]}.

Definition agent_world (file : text) : AgentWorld :=
  {| aw_disk := agent_disk file; aw_tick := 0; aw_sent := []; aw_accepted := [];
     aw_reports := []; aw_executed := [] |}.
