(* ===== verification/Agent.v ===== *)
(** * The Agent ([agent/scheduler.py], [agent/collectors/])

    One cycle: redeliver what is buffered, collect, deliver the fresh payload, and run the
    actions its acknowledgement carries. *)

From S2P Require Import Prelude PyFloat PyTime PyStr Domain Schema Runtime Disk AgentRuntime Files.
From S2P Require Import Buffer Transport Executor.

Local Open Scope Z_scope.

Definition DEFAULT_DISK_MOUNT_PATH : string := "/".

(** ** Collectors *)

Definition sample (m : MetricType) (x : float) (unit_ : string) (labels : gmap string string)
    : MetricSample :=
  {| ms_metric_type := m; ms_value := x; ms_unit := unit_; ms_labels := labels |}.

Definition cpu_samples (usage_percent : float) : list MetricSample :=
  [sample CPU_USAGE_PERCENT usage_percent "percent" ∅].

Definition memory_samples (vm : float * Z * Z) : list MetricSample :=
  let '(percent, used, available) := vm in
  [sample MEMORY_USAGE_PERCENT percent "percent" ∅;
   sample MEMORY_USED_BYTES (float_of_Z used) "bytes" ∅;
   sample MEMORY_AVAILABLE_BYTES (float_of_Z available) "bytes" ∅].

Definition disk_samples (mount_path : string) (usage : float * Z * Z) : list MetricSample :=
  let '(percent, used, free) := usage in
  let labels := {["mount_point" := mount_path]} in
  [sample DISK_USAGE_PERCENT percent "percent" labels;
   sample DISK_USED_BYTES (float_of_Z used) "bytes" labels;
   sample DISK_FREE_BYTES (float_of_Z free) "bytes" labels].

Definition network_samples (counters : Z * Z) : list MetricSample :=
  let '(bytes_sent, bytes_recv) := counters in
  [sample NETWORK_BYTES_SENT (float_of_Z bytes_sent) "bytes" ∅;
   sample NETWORK_BYTES_RECV (float_of_Z bytes_recv) "bytes" ∅].

Section agent.
Context `{AgentEnv}.

(** One reading of psutil, turned into samples. *)
Definition reading {A} (f : nat -> Res A) (k : A -> list MetricSample) : AM (list MetricSample) :=
  fun w => match f (aw_tick w) with
           | Ok a => (Ok (k a), tick w)
           | Raise e => (Raise e, tick w)
           end.

(** The collectors of [build_scheduler], by class name. *)
Definition default_collectors : list (string * AM (list MetricSample)) :=
  [("CpuCollector", reading cpu_percent cpu_samples);
   ("MemoryCollector", reading virtual_memory memory_samples);
   ("DiskCollector", reading (fun n => disk_usage n DEFAULT_DISK_MOUNT_PATH)
                       (disk_samples DEFAULT_DISK_MOUNT_PATH));
   ("NetworkCollector", reading net_io_counters network_samples)].

(** The attributes of [AgentScheduler]. *)
Record AgentScheduler := {
  _node_id : string;
  _collectors : list (string * AM (list MetricSample));
  _transport : HttpTransport;
  _buffer : FileBuffer;
  _interval_seconds : float;
  _executor : option (gset string);
}.

Section scheduler.
Context (s : AgentScheduler).

(** The loop of [_drain_buffer] over the drained batch. *)
Fixpoint redeliver (drained : list NodeMetricsPayload) : AM unit :=
  match drained with
  | [] => mret tt
  | payload :: rest => fun w =>
      match send (_transport s) payload w with
      | (Ok _, w') => redeliver rest w'
      | (Raise e, w') =>
          if is_fatal e then redeliver rest w'
          else if is_transport e then a_iter (enqueue (_buffer s)) (payload :: rest) w'
          else (Raise e, w')
      end
  end.

Definition _drain_buffer : AM unit :=
  drained ← drain (_buffer s) DEFAULT_BUFFER_DRAIN_BATCH_SIZE; redeliver drained.

(** The loop of [_collect], with its two accumulators. *)
Fixpoint collect_from (collectors : list (string * AM (list MetricSample)))
    (samples : list MetricSample) (errors : list string)
    : AM (list MetricSample * list string) :=
  match collectors with
  | [] => mret (samples, errors)
  | (name, collect) :: rest => fun w =>
      match collect w with
      | (Ok more, w') => collect_from rest (samples ++ more) errors w'
      | (Raise e, w') =>
          collect_from rest samples (errors ++ [(name ++ ": " ++ exc_text e)%string]) w'
      end
  end.

(** [NodeMetricsPayload(...)], its [collected_at] defaulting to now. *)
Definition make_payload (samples : list MetricSample) (errors : list string)
    : AM NodeMetricsPayload := fun w =>
  (Ok {| np_node_id := _node_id s; np_collected_at := agent_clock (aw_tick w);
         np_samples := samples; np_collection_errors := errors |}, tick w).

Definition _collect : AM NodeMetricsPayload :=
  '(samples, errors) ← collect_from (_collectors s) [] []; make_payload samples errors.

Definition _report_action_result (action_id : Z) (result : ActionResult) : AM unit :=
  a_try (report_action_result (_transport s) action_id result)
    (fun e => if is_transport e then mret tt else a_raise e).

Definition _execute_pending_actions (ack : Ack) : AM unit :=
  match _executor s with
  | None => mret tt
  | Some allowed =>
      a_iter (fun action => result ← execute allowed action;
                            _report_action_result (pa_action_id action) result)
        (ack_pending_actions ack)
  end.

Definition _deliver (payload : NodeMetricsPayload) : AM unit := fun w =>
  match send (_transport s) payload w with
  | (Ok ack, w') => _execute_pending_actions ack w'
  | (Raise e, w') =>
      if is_fatal e then (Ok tt, w')
      else if is_transport e then enqueue (_buffer s) payload w'
      else (Raise e, w')
  end.

Definition run_once : AM unit :=
  _ ← _drain_buffer; payload ← _collect; _deliver payload.

(** [time.sleep(seconds)]: Python refuses a NaN, a time out of range, and a negative one. *)
Definition time_sleep (seconds : float) : AM unit := fun w =>
  let ns := fmul seconds (float_of_Z 1000000000) in
  if is_nan seconds then (Raise (ValueError "Invalid value NaN (not a number)"), w)
  else if negb (fle (float_of_Z (- 2 ^ 63)) ns && flt ns (float_of_Z (2 ^ 63)))
  then (Raise OverflowError, w)
  else if flt seconds (float_of_Z 0)
  then (Raise (ValueError "sleep length must be non-negative"), w)
  else (Ok tt, tick w).

(** [run_forever]: [stops] are the answers of the successive [should_stop] calls. *)
Fixpoint run_forever (stops : list bool) : AM unit :=
  match stops with
  | [] | true :: _ => mret tt
  | false :: stops' => _ ← run_once; _ ← time_sleep (_interval_seconds s); run_forever stops'
  end.

End scheduler.

(** ** Collection *)

(** The samples of the collectors that answered, and an error per one that did not. *)
Fixpoint collected (collectors : list (string * AM (list MetricSample))) (w : AgentWorld)
    : list MetricSample * list string * AgentWorld :=
  match collectors with
  | [] => ([], [], w)
  | (name, collect) :: rest =>
      match collect w with
      | (Ok more, w') => let '(ss, es, w'') := collected rest w' in (more ++ ss, es, w'')
      | (Raise e, w') =>
          let '(ss, es, w'') := collected rest w' in (ss, (name ++ ": " ++ exc_text e)%string :: es, w'')
      end
  end.

Lemma collect_from_spec collectors samples errors w :
  collect_from collectors samples errors w =
    let '(ss, es, w') := collected collectors w in (Ok (samples ++ ss, errors ++ es), w').
Proof.
  revert samples errors w. induction collectors as [|[name f] rest IH]; intros samples errors w; simpl.
  { by rewrite !app_nil_r. }
  destruct (f w) as [[more|e] w1]; rewrite IH; destruct (collected rest w1) as [[ss es] w2];
    by rewrite <- app_assoc.
Qed.

(** ** The buffer's content through a delivery *)

(** A send leaves the disk alone. *)
Lemma send_disk t p w r w' : send t p w = (r, w') -> aw_disk w' = aw_disk w.
Proof.
  intros Hs. pose proof (send_spec t p w) as Ho. rewrite Hs in Ho.
  by apply send_outcome_frame in Ho as [? _].
Qed.

(** Where the scheduler's buffer is. *)
Abbreviation buffer_of s := (buffer_place (_buffer s)).
Abbreviation room s := (_max_entries (_buffer s)).

(** The buffer is not in a directory that the Agent may clear. *)
Definition apart (allowed : gset string) (p : Place) : Prop :=
  forall k, clearable allowed k -> ~ k `prefix_of` p.

Definition buffer_apart (s : AgentScheduler) : Prop :=
  match _executor s with None => True | Some allowed => apart allowed (buffer_of s) end.

Lemma execute_spares allowed p action w :
  apart allowed p -> exists res w', execute allowed action w = (Ok res, w') /\
    same_traffic (note_executed (pa_action_id action) w) w' /\ spares p w w'.
Proof.
  intros Hp. destruct (execute_removes allowed action w) as (res & w' & Hx & Hr).
  exists res, w'. split; [done|]. split; [apply Hr|].
  exact (removes_spares _ p _ _ Hp Hr).
Qed.

Section healthy_disk.
Context (fs_always : forall n, fs_ok n = true).

(** What a redelivery leaves of the batch: the part from the first retryable failure on,
    behind what was not drained; or nothing, when the transport raises anything else. *)
Lemma redeliver_holds s batch q w :
  holds (buffer_of s) w q -> Forall storable batch ->
  let '(r, w') := redeliver s batch w in
  match r with
  | Ok _ => exists k, (k <= length batch)%nat /\
      holds (buffer_of s) w' (foldl (push (room s)) q (drop k batch))
  | Raise e => is_transport e = false /\ holds (buffer_of s) w' q
  end.
Proof.
  intros Hq Hb. revert w Hq. induction Hb as [|p batch Hp Hb IH]; intros w Hq; simpl.
  { exists 0%nat. by split. }
  destruct (send (_transport s) p w) as [[ack|e] w1] eqn:Es;
    pose proof (holds_same _ _ _ _ (send_disk _ _ _ _ _ Es) Hq) as Hq1.
  - specialize (IH w1 Hq1). destruct (redeliver s batch w1) as [[u|e] w2]; [|done].
    destruct IH as (k & Hk & Hh). exists (S k). split; [lia|done].
  - destruct (is_fatal e) eqn:Ef; [|destruct (is_transport e) eqn:Et; [|done]].
    + specialize (IH w1 Hq1). destruct (redeliver s batch w1) as [[u|e'] w2]; [|done].
      destruct IH as (k & Hk & Hh). exists (S k). split; [lia|done].
    + destruct (enqueue_all_holds (_buffer s) fs_always (p :: batch) q w1 Hq1) as (w2 & Hi & _ & Hh);
        [by constructor|]. simpl in Hi |- *. rewrite Hi. exists 0%nat. split; [lia|done].
Qed.

Lemma drain_holds b q w :
  holds (buffer_place b) w q ->
  exists w', drain b DEFAULT_BUFFER_DRAIN_BATCH_SIZE w = (Ok (take 50 q), w') /\
    same_traffic w w' /\ holds (buffer_place b) w' (drop 50 q).
Proof.
  intros Hq. destruct (drain_run b DEFAULT_BUFFER_DRAIN_BATCH_SIZE w q Hq) as (w' & -> & Ht & _ & Hh).
  exists w'. unfold read_entries. rewrite fs_always. split; [done|]. split; [done|]. by apply Hh.
Qed.

End healthy_disk.
End agent.

Abbreviation buffer_of s := (buffer_place (_buffer s)).
Abbreviation room s := (_max_entries (_buffer s)).

(** ** Properties *)

(** Retrying keeps what every attempt keeps. *)
Lemma retrying_keeps `{AgentEnv} {A} (P : AgentWorld -> Prop) attempts (f : AM A) w :
  (forall w, P w -> P (snd (f w))) -> P w -> P (snd (retrying A attempts f w)).
Proof.
  intros Hf. remember (Z.to_nat attempts) as n eqn:En. revert attempts w En.
  induction n as [n IH] using lt_wf_ind. intros attempts w -> Hw.
  rewrite retrying_spec. specialize (Hf w Hw). destruct (f w) as [[a|e] w1]; [done|].
  destruct e; try done. destruct (Z.leb_spec attempts 1); [done|].
  apply (IH (Z.to_nat (attempts - 1))); [lia|done|done].
Qed.

Section agent_properties.
Context `{AgentEnv}.

(** The request carries an action's result. *)
Definition is_report (r : ClientRequest) : bool :=
  match cr_body r with PostResult _ _ => true | PostMetrics _ => false end.

(** Actions [ids] were begun and results sent; the accepted payloads are untouched. *)
Definition acted (ids : list Z) (w w' : AgentWorld) : Prop :=
  aw_accepted w' = aw_accepted w /\
  aw_executed w' = aw_executed w ++ ids /\
  exists reqs, aw_sent w' = aw_sent w ++ reqs /\ Forall (fun r => is_report r = true) reqs.

Lemma acted_refl w : acted [] w w.
Proof. repeat split; try by rewrite app_nil_r. exists []. by rewrite app_nil_r. Qed.

Lemma acted_trans ids ids' w1 w2 w3 :
  acted ids w1 w2 -> acted ids' w2 w3 -> acted (ids ++ ids') w1 w3.
Proof.
  intros (Ha & He & rs & Hs & Hr) (Ha' & He' & rs' & Hs' & Hr').
  split; [congruence|]. split; [by rewrite He', He, <- app_assoc|].
  exists (rs ++ rs'). rewrite Hs', Hs, <- app_assoc. split; [done|]. by apply Forall_app.
Qed.

Lemma report_acted s id res w : acted [] w (snd (_report_action_result s id res w)).
Proof.
  assert (acted [] w (snd (report_action_result (_transport s) id res w))) as Hk.
  { unfold report_action_result. apply retrying_keeps; [|apply acted_refl]. intros w0 Hw0.
    rewrite <- (app_nil_r []). eapply acted_trans; [exact Hw0|].
    unfold _report_action_result_once, _post, mbind, AM_bind.
    assert (forall r, is_report r = true -> acted [] w0 (posted r w0)) as Hsent.
    { intros r Hr. repeat split; try by rewrite app_nil_r. exists [r]. split; [done|by constructor]. }
    destruct (http _) as [st body| | |name]; [|by apply Hsent..].
    destruct (_ <=? st); [by apply Hsent|]. by destruct (_ <=? st); apply Hsent. }
  unfold _report_action_result, a_try. destruct (report_action_result _ id res w) as [[u|e] w1];
    [done|by destruct (is_transport e)].
Qed.

Lemma pending_acted s ack w :
  exists ids, ids `prefix_of` (pa_action_id <$> ack_pending_actions ack) /\
    acted ids w (snd (_execute_pending_actions s ack w)).
Proof.
  unfold _execute_pending_actions.
  destruct (_executor s) as [allowed|]; [|exists []; split; [apply prefix_nil|apply acted_refl]].
  revert w. induction (ack_pending_actions ack) as [|a l IH]; intros w.
  { exists []. split; [apply prefix_nil|apply acted_refl]. }
  simpl. unfold mbind, AM_bind.
  destruct (execute_total_data allowed a w) as (res & w1 & -> & Ht).
  assert (acted [pa_action_id a] w w1) as H1.
  { destruct Ht as (Hs & Ha & _ & He). split; [done|]. split; [done|].
    exists []. by rewrite app_nil_r. }
  pose proof (report_acted s (pa_action_id a) res w1) as H2.
  destruct (_report_action_result s (pa_action_id a) res w1) as [[u|e] w2]; simpl in *.
  - destruct (IH w2) as (ids & Hp & H3). exists (pa_action_id a :: ids).
    split; [by apply prefix_cons|]. pose proof (acted_trans _ _ _ _ _ H1 H2) as H12.
    exact (acted_trans _ _ _ _ _ H12 H3).
  - exists [pa_action_id a]. split; [apply prefix_cons, prefix_nil|].
    exact (acted_trans _ _ _ _ _ H1 H2).
Qed.

(** Reporting leaves the disk alone; so executing what an acknowledgement carries spares the
    buffer, when that is apart from the directories that may be cleared. *)
Lemma report_disk s id res w : aw_disk (snd (_report_action_result s id res w)) = aw_disk w.
Proof.
  assert (aw_disk (snd (report_action_result (_transport s) id res w)) = aw_disk w) as Hk.
  { unfold report_action_result.
    apply (retrying_keeps (fun w' => aw_disk w' = aw_disk w)); [|done]. intros w0 <-.
    unfold _report_action_result_once, _post, mbind, AM_bind.
    destruct (http _) as [st body| | |name]; [|done..]. destruct (_ <=? st); [done|].
    by destruct (_ <=? st). }
  unfold _report_action_result, a_try. destruct (report_action_result _ id res w) as [[u|e] w1];
    [done|by destruct (is_transport e)].
Qed.

Lemma pending_spares s ack :
  buffer_apart s -> keeps (spares (buffer_of s)) (_execute_pending_actions s ack).
Proof.
  unfold buffer_apart, _execute_pending_actions. destruct (_executor s) as [allowed|]; [|intros _; apply keeps_ret, _].
  intros Hp. apply keeps_iter; [apply _|]. intros a w. unfold mbind, AM_bind.
  destruct (execute_spares allowed _ a w Hp) as (res & w1 & -> & _ & H1).
  etrans; [exact H1|]. apply same_disk_spares, report_disk.
Qed.

(** A collection always yields a payload: the samples of the collectors that answered, in
    order, and one error for each that raised. *)
Lemma collect_isolates s w :
  _collect s w =
    let '(samples, errors, w1) := collected (_collectors s) w in
    (Ok {| np_node_id := _node_id s; np_collected_at := agent_clock (aw_tick w1);
           np_samples := samples; np_collection_errors := errors |}, tick w1).
Proof.
  unfold _collect, mbind, AM_bind. rewrite collect_from_spec.
  by destruct (collected (_collectors s) w) as [[ss es] w1].
Qed.

(** A delivered payload is accepted by the Collector, or rejected for good, and the buffer is
    as it was; after a retryable failure it is the newest buffered entry; only an error
    outside the transport's classes loses it. *)
Lemma deliver_never_loses_on_outage s q p w :
  (forall n, fs_ok n = true) -> buffer_apart s -> holds (buffer_of s) w q -> storable p ->
  let '(r, w') := _deliver s p w in
  match fst (send (_transport s) p w) with
  | Ok _ => aw_accepted w' = aw_accepted w ++ [p] /\ holds (buffer_of s) w' q
  | Raise e =>
      if is_fatal e then r = Ok tt /\ holds (buffer_of s) w' q
      else if is_retryable e then r = Ok tt /\ holds (buffer_of s) w' (push (room s) q p)
      else r = Raise e /\ holds (buffer_of s) w' q
  end.
Proof.
  intros Hfs Hap Hq Hp. unfold _deliver.
  destruct (send (_transport s) p w) as [[ack|e] w1] eqn:Es;
    pose proof (holds_same _ _ _ _ (send_disk _ _ _ _ _ Es) Hq) as Hq1; simpl.
  - destruct (pending_acted s ack w1) as (ids & _ & Ha & _).
    pose proof (pending_spares s ack Hap w1) as Hsp.
    destruct (_execute_pending_actions s ack w1) as [r w2]. simpl in *.
    split; [|by eapply holds_spares]. rewrite Ha.
    pose proof (send_spec (_transport s) p w) as Ho. rewrite Es in Ho.
    by apply send_outcome_frame in Ho as (_ & _ & _ & k & _ & _ & _ & Hacc).
  - unfold is_transport. destruct (is_fatal e) eqn:Ef; [done|]. rewrite orb_false_r.
    destruct (is_retryable e); [|done].
    by destruct (enqueue_holds (_buffer s) Hfs q p w1 Hq1 Hp) as (w2 & -> & _ & Hh).
Qed.

(** Redelivering the buffer: the entries of the batch from the first retryable failure on go
    back, behind the entries that were not drained; when the transport raises an error of
    another class, the whole rest of the batch is lost with it. *)
Lemma redelivery_outcome s q w :
  (forall n, fs_ok n = true) -> holds (buffer_of s) w q ->
  let '(r, w') := _drain_buffer s w in
  match r with
  | Ok _ => exists k, (k <= length (take 50 q))%nat /\
      holds (buffer_of s) w' (foldl (push (room s)) (drop 50 q) (drop k (take 50 q)))
  | Raise e => is_transport e = false /\ holds (buffer_of s) w' (drop 50 q)
  end.
Proof.
  intros Hfs Hq. unfold _drain_buffer, mbind, AM_bind.
  destruct (drain_holds Hfs (_buffer s) q w Hq) as (w1 & -> & _ & Hq1).
  apply (redeliver_holds Hfs); [done|]. apply Forall_take, (holds_storable _ _ _ Hq).
Qed.

(** A buffer with room takes a list at its end. *)
Lemma push_room m q l :
  Z.of_nat (length (q ++ l)) <= m -> foldl (push m) q l = q ++ l.
Proof.
  revert q. induction l as [|p l IH]; intros q Hm; simpl; [by rewrite app_nil_r|].
  rewrite length_app in Hm. simpl in Hm.
  assert (push m q p = q ++ [p]) as ->.
  { unfold push. rewrite length_app. simpl.
    destruct (Z.ltb_spec m (Z.of_nat (length q + 1))); [lia|done]. }
  rewrite IH; [by rewrite <- app_assoc|]. rewrite !length_app. simpl. lia.
Qed.

Lemma send_down t p w :
  (forall log, classify (http log) = Retry) ->
  exists m, fst (send t p w) = Raise (RetryableTransportError m).
Proof.
  intros Hdown. pose proof (send_spec t p w) as Ho.
  destruct (send t p w) as [r w']. destruct Ho as (k & _ & _ & Hr).
  unfold attempt_verdict in Hr. rewrite Hdown in Hr. destruct Hr as [[m ->] _]. by exists m.
Qed.

(** An outage reorders the buffer: when the Collector is unreachable, a cycle moves the oldest
    fifty entries behind all the others, so "oldest first" no longer holds for a buffer that
    is longer than one batch. *)
Lemma outage_rotates_buffer s q w :
  (forall n, fs_ok n = true) -> holds (buffer_of s) w q -> Z.of_nat (length q) <= room s ->
  (forall log, classify (http log) = Retry) ->
  exists w', _drain_buffer s w = (Ok tt, w') /\ holds (buffer_of s) w' (drop 50 q ++ take 50 q).
Proof.
  intros Hfs Hq Hroom Hdown. unfold _drain_buffer, mbind, AM_bind.
  destruct (drain_holds Hfs (_buffer s) q w Hq) as (w1 & -> & _ & Hq1).
  assert (Forall storable (take 50 q)) as Hst by (apply Forall_take, (holds_storable _ _ _ Hq)).
  destruct (take 50 q) as [|p batch] eqn:Et.
  { eexists. split; [done|]. by rewrite app_nil_r. }
  simpl. destruct (send (_transport s) p w1) as [r w2] eqn:Es.
  destruct (send_down (_transport s) p w1 Hdown) as [m Hm]. rewrite Es in Hm. simpl in Hm.
  subst r. simpl. pose proof (holds_same _ _ _ _ (send_disk _ _ _ _ _ Es) Hq1) as Hq2.
  destruct (enqueue_all_holds (_buffer s) Hfs (p :: batch) _ _ Hq2 Hst) as (w3 & He & _ & Hh).
  simpl in He. exists w3. split; [exact He|]. rewrite push_room in Hh; [done|].
  rewrite <- Et, length_app, length_drop, length_take. lia.
Qed.

(** An httpx error that is neither a time-out nor a refused connection (a connection lost
    while reading the answer, say) is not a [TransportError]: met on the first redelivery, it
    ends the cycle, and with it the process, and the whole batch is gone from the buffer. *)
Lemma lost_connection_loses_batch s q p batch name w :
  (forall n, fs_ok n = true) -> holds (buffer_of s) w q -> take 50 q = p :: batch ->
  http (aw_sent w ++ [push_request (_transport s) p]) = HttpOtherError name ->
  exists w', run_once s w = (Raise (OtherException name), w') /\ holds (buffer_of s) w' (drop 50 q).
Proof.
  intros Hfs Hq Ht Hh. unfold run_once, _drain_buffer, mbind, AM_bind.
  destruct (drain_holds Hfs (_buffer s) q w Hq) as (w1 & -> & (Hsent & _) & Hq1). rewrite Ht. simpl.
  unfold send. rewrite retrying_spec. pose proof (send_once_spec (_transport s) p w1) as Hs.
  unfold attempt_verdict in Hs. cbn [replicate] in Hs. rewrite Hsent, Hh in Hs. cbn in Hs.
  rewrite Hs. simpl. eexists. split; [done|]. by apply (holds_same _ w1).
Qed.

End agent_properties.
