(* ===== verification/AgentMain.v ===== *)
(** * The Agent's process ([agent/main.py])

    The scheduler wired from the settings, and the loop until a signal asks for shutdown;
    what a whole run of the process may do to the machine it runs on. *)

From S2P Require Import Prelude PyFloat PyTime PyStr Domain Schema Runtime Disk AgentRuntime Files.
From S2P Require Import Buffer Transport Executor Settings AgentConfig Agent.

Local Open Scope Z_scope.

(** [_handle_shutdown_signal] and [_should_stop]: the module's flag, set once and for all. *)
Definition _handle_shutdown_signal (_shutdown_requested : bool) : bool := true.
Definition _should_stop (_shutdown_requested : bool) : bool := _shutdown_requested.

(** The answers of the successive [_should_stop] calls; [signals]: whether a signal arrived
    before each of them. *)
Fixpoint stop_answers (_shutdown_requested : bool) (signals : list bool) : list bool :=
  match signals with
  | [] => []
  | signal :: rest =>
      let flag := if signal : bool then _handle_shutdown_signal _shutdown_requested
                  else _shutdown_requested in
      _should_stop flag :: stop_answers flag rest
  end.

Lemma no_signal n : stop_answers false (replicate n false) = replicate n false.
Proof. induction n as [|n IH]; [done|]. simpl. by rewrite IH. Qed.

Section main.
Context `{AgentEnv}.

(** The scheduler of the settings, its buffer given. *)
Definition scheduler_with (settings : AgentSettings) (buffer : FileBuffer) : AgentScheduler :=
  {| _node_id := node_id settings;
     _collectors := default_collectors;
     _transport := HttpTransport_init (auth_token settings) (http_retry_attempts settings);
     _buffer := buffer;
     _interval_seconds := collection_interval_seconds settings;
     _executor := if agent_remediation_enabled settings
                  then Some (remediation_allowed_directory_set settings) else None |}.

Definition build_scheduler (settings : AgentSettings) : AM AgentScheduler :=
  buffer ← FileBuffer_init (buffer_path settings) (buffer_max_entries settings);
  mret (scheduler_with settings buffer).

(** [main], from the settings on: an error while building ends it. *)
Definition agent_main (settings : AgentSettings) (signals : list bool) : AM unit :=
  scheduler ← build_scheduler settings; run_forever scheduler (stop_answers false signals).

(** The scheduler [build_scheduler] builds, when it does. *)
Definition scheduler_of (settings : AgentSettings) : AgentScheduler :=
  scheduler_with settings
    {| _path := buffer_path settings; _max_entries := buffer_max_entries settings |}.

(** Where the buffer is. *)
Definition settings_place (settings : AgentSettings) : Place := realpath (buffer_path settings).

(** The lives of an Agent: its process is run again and again, each time with its settings and
    until a signal between two of its cycles or an error ends it; what remains between two runs
    is the disk. *)
Definition agent_lives (lives : list (AgentSettings * list bool)) (w : AgentWorld) : AgentWorld :=
  foldl (fun w '(settings, signals) => snd (agent_main settings signals w)) w lives.

End main.

(** The runs are all on the node [n]. *)
Definition of_node (n : string) (lives : list (AgentSettings * list bool)) : Prop :=
  Forall (fun life => node_id life.1 = n) lives.

(** ** Frames: what every operation of a cycle keeps *)

Section frames.
Context `{AgentEnv} (R : AgentWorld -> AgentWorld -> Prop) `{!PreOrder R}.

Lemma keeps_retrying {A} n (m : AM A) : keeps R m -> keeps R (retrying A n m).
Proof.
  intros Hm w. apply retrying_keeps; [|reflexivity]. intros w0 Hw0. etrans; [exact Hw0|apply Hm].
Qed.

(** What a scheduler needs of a frame. *)
Record cycle_frame (s : AgentScheduler) : Prop := {
  frame_tick w : R w (tick w);
  frame_write entries : keeps R (_write_all (_buffer s) entries);
  frame_posted r w : R w (posted r w);
  frame_accept p w : R w (accept p w);
  frame_report id res w : R w (accept_report id res w);
  frame_execute allowed action : _executor s = Some allowed -> keeps R (execute allowed action);
  frame_collectors : Forall (fun c => keeps R c.2) (_collectors s);
}.

Context (s : AgentScheduler) (F : cycle_frame s).

Lemma keeps_post record endpoint body :
  (forall w, R w (record w)) -> keeps R (_post (_transport s) record endpoint body).
Proof.
  intros Hr w. unfold _post. pose proof (frame_posted s F) as Hs.
  destruct (http _) as [st b| | |name]; [|apply Hs..].
  destruct (_ <=? st); [apply Hs|]. destruct (_ <=? st); [apply Hs|].
  etrans; [apply Hs|apply Hr].
Qed.

Lemma keeps_send p : keeps R (send (_transport s) p).
Proof.
  apply keeps_retrying, keeps_bind; [apply _|apply keeps_post, (frame_accept s F)|].
  intros [ack|]; [apply keeps_ret, _|]. intros w. simpl. reflexivity.
Qed.

Lemma keeps_read_all : keeps R (_read_all (_buffer s)).
Proof. intros w. rewrite read_all_world. apply (frame_tick s F). Qed.

Lemma keeps_enqueue p : keeps R (enqueue (_buffer s) p).
Proof.
  apply keeps_bind; [apply _|apply keeps_read_all|]. intros l. apply (frame_write s F).
Qed.

Lemma keeps_drain n : keeps R (drain (_buffer s) n).
Proof.
  apply keeps_bind; [apply _|apply keeps_read_all|]. intros l.
  apply keeps_bind; [apply _|apply (frame_write s F)|]. intros _. apply keeps_ret, _.
Qed.

Lemma keeps_drain_buffer : keeps R (_drain_buffer s).
Proof.
  apply keeps_bind; [apply _|apply keeps_drain|].
  intros batch. induction batch as [|p batch IH]; [apply keeps_ret, _|].
  intros w. simpl. pose proof (keeps_send p w) as Hs.
  destruct (send (_transport s) p w) as [[ack|e] w1]; simpl in Hs.
  - etrans; [exact Hs|apply IH].
  - destruct (is_fatal e); [etrans; [exact Hs|apply IH]|].
    destruct (is_transport e); [|done]. etrans; [exact Hs|].
    apply (keeps_iter R (enqueue (_buffer s)) (p :: batch)), keeps_enqueue.
Qed.

Lemma keeps_collect : keeps R (_collect s).
Proof.
  intros w. rewrite collect_isolates. pose proof (frame_collectors s F) as Hc.
  assert (R w (collected (_collectors s) w).2) as Hw.
  { induction Hc as [|[name f] l Hf Hl IH] in w |- *; [simpl; reflexivity|]. simpl.
    specialize (Hf w). simpl in Hf. destruct (f w) as [[more|e] w1]; simpl in Hf;
      specialize (IH w1); destruct (collected l w1) as [[ss es] w2]; simpl in *; by etrans. }
  destruct (collected (_collectors s) w) as [[ss es] w1]. simpl in *.
  etrans; [exact Hw|apply (frame_tick s F)].
Qed.

Lemma keeps_pending ack : keeps R (_execute_pending_actions s ack).
Proof.
  unfold _execute_pending_actions. destruct (_executor s) as [allowed|] eqn:Ee; [|apply keeps_ret, _].
  apply keeps_iter; [apply _|]. intros action. apply keeps_bind; [apply _|by apply (frame_execute s F)|]. intros res.
  apply keeps_try; [apply _| |].
  - apply keeps_retrying, keeps_bind; [apply _|apply keeps_post, (frame_report s F)|].
    intros ?. apply keeps_ret, _.
  - intros e. destruct (is_transport e); [apply keeps_ret, _|]. intros w. simpl. reflexivity.
Qed.

Lemma keeps_deliver p : keeps R (_deliver s p).
Proof.
  intros w. unfold _deliver. pose proof (keeps_send p w) as Hs.
  destruct (send (_transport s) p w) as [[ack|e] w1]; simpl in Hs.
  - etrans; [exact Hs|apply keeps_pending].
  - destruct (is_fatal e); [done|]. destruct (is_transport e); [|done].
    etrans; [exact Hs|apply keeps_enqueue].
Qed.

Lemma keeps_run_forever stops : keeps R (run_forever s stops).
Proof.
  induction stops as [|[] stops IH]; [apply keeps_ret, _..|]. simpl.
  apply keeps_bind; [apply _| |intros _; apply keeps_bind; [apply _| |by intros _]].
  - apply keeps_bind; [apply _|apply keeps_drain_buffer|]. intros _.
    apply keeps_bind; [apply _|apply keeps_collect|apply keeps_deliver].
  - intros w. unfold time_sleep. destruct (is_nan _); [simpl; reflexivity|].
    destruct (negb _); [simpl; reflexivity|].
    destruct (flt _ _); [simpl; reflexivity|apply (frame_tick s F)].
Qed.

End frames.

(** ** Properties *)

Section main_properties.
Context `{AgentEnv}.

Lemma reading_frame {A} (R : AgentWorld -> AgentWorld -> Prop) (f : nat -> Res A) k :
  (forall w, R w (tick w)) -> keeps R (reading f k).
Proof. intros Ht w. unfold reading. destruct (f _); apply Ht. Qed.

Lemma default_collectors_frame (R : AgentWorld -> AgentWorld -> Prop) :
  (forall w, R w (tick w)) -> Forall (fun c => keeps R c.2) default_collectors.
Proof. intros Ht. repeat constructor; by apply reading_frame. Qed.

Lemma build_scheduler_run settings w :
  build_scheduler settings w =
    match FileBuffer_init (buffer_path settings) (buffer_max_entries settings) w with
    | (Ok _, w') => (Ok (scheduler_of settings), w')
    | (Raise e, w') => (Raise e, w')
    end.
Proof.
  unfold build_scheduler, FileBuffer_init, mbind, AM_bind.
  destruct (path_mkdir _ w) as [[u|e] w1]; [|done]. unfold path_exists.
  destruct (place_exists _ _); [done|]. by destruct (path_touch _ w1) as [[v|e] w2].
Qed.

(** A run of the process keeps what building the buffer and the cycles keep. *)
Lemma keeps_agent_main (R : AgentWorld -> AgentWorld -> Prop) `{!PreOrder R} settings signals :
  keeps R (FileBuffer_init (buffer_path settings) (buffer_max_entries settings)) ->
  cycle_frame R (scheduler_of settings) -> keeps R (agent_main settings signals).
Proof.
  intros Hi F w. unfold agent_main, mbind, AM_bind. rewrite build_scheduler_run.
  specialize (Hi w). destruct (FileBuffer_init _ _ w) as [[b|e] w1]; [|done].
  etrans; [exact Hi|]. by apply keeps_run_forever.
Qed.

(** With the buffer in its place the process starts at once. *)
Lemma agent_main_starts settings signals w q :
  holds (settings_place settings) w q ->
  agent_main settings signals w = run_forever (scheduler_of settings) (stop_answers false signals) w.
Proof.
  intros Hq. unfold agent_main, mbind, AM_bind. rewrite build_scheduler_run.
  by rewrite (init_done _ _ _ q).
Qed.

(** What the executor of an Agent may remove. *)
Definition may_clear (settings : AgentSettings) (k : Place) : Prop :=
  agent_remediation_enabled settings = true /\
  clearable (remediation_allowed_directory_set settings) k.

(** The place [k] is as it was, or is a directory above [p] that was missing. *)
Definition left_alone (p k : Place) (w w' : AgentWorld) : Prop :=
  aw_disk w' !! k = aw_disk w !! k \/
  (k ∈ above p /\ aw_disk w !! k = None /\ aw_disk w' !! k = Some Directory).

#[local] Instance left_alone_preorder p k : PreOrder (left_alone p k).
Proof.
  split; [by left|]. intros w1 w2 w3 [E1|(?&?&?)] [E2|(?&?&?)]; unfold left_alone;
    rewrite ?E2, ?E1 in *; auto; congruence.
Qed.

Lemma same_left_alone p k w w' : aw_disk w' = aw_disk w -> left_alone p k w w'.
Proof. intros Hd. left. by rewrite Hd. Qed.

(** C21: whatever the Collector sends, however the network and the disk behave, a run of the
    Agent's process changes nothing on the disk but what is below a directory of its own
    allowlist, and nothing there unless remediation is enabled on the Agent itself; the buffer
    file and its temporary file; and directories above the buffer file that were missing, which
    it creates.  Links are followed on the way to the configured paths and nowhere else. *)
Theorem agent_confined_to_allowlist settings signals w k :
  let p := settings_place settings in
  ~ may_clear settings k -> k <> p -> with_suffix_tmp p <> Some k ->
  let w' := snd (agent_main settings signals w) in
  aw_disk w' !! k = aw_disk w !! k \/
  (k ∈ above p /\ aw_disk w !! k = None /\ aw_disk w' !! k = Some Directory).
Proof.
  intros p Hno Hp Ht.
  revert w. change (keeps (left_alone p k) (agent_main settings signals)).
  apply keeps_agent_main; [apply _| |split].
  - intros w0. destruct (init_creates (buffer_path settings) (buffer_max_entries settings) w0) as [_ Hc].
    destruct (Hc k) as [?|(Hn & [[Ha Hd]|[-> _]])]; [by left|right; done|done].
  - intros w0. by apply same_left_alone.
  - intros entries w0. left. apply write_all_changes. intros [->|Hk]; done.
  - intros r w0. by apply same_left_alone.
  - intros x w0. by apply same_left_alone.
  - intros id res w0. by apply same_left_alone.
  - intros allowed action Hex w0. unfold scheduler_of, scheduler_with in Hex. simpl in Hex.
    destruct (agent_remediation_enabled settings) eqn:Een; [|done]. injection Hex as <-.
    destruct (execute_removes (remediation_allowed_directory_set settings) action w0)
      as (res & w1 & -> & [_ Hdisk] & _). left. apply Hdisk. intros Hin. by apply Hno.
  - apply default_collectors_frame. intros w0. by apply same_left_alone.
Qed.

(** After the first signal no cycle is begun. *)
Lemma no_cycle_after_signal settings n signals w :
  agent_main settings (replicate n false ++ true :: signals) w =
  agent_main settings (replicate n false) w.
Proof.
  unfold agent_main, mbind, AM_bind. rewrite build_scheduler_run.
  destruct (FileBuffer_init _ _ w) as [[b|e] w1]; [|done]. clear w b.
  revert w1. induction n as [|n IH]; intros w; [done|]. simpl. unfold mbind, AM_bind.
  destruct (run_once _ w) as [[u|e] w1]; [|done].
  destruct (time_sleep _ w1) as [[v|e] w2]; [apply IH|done].
Qed.

(** Settings are not validated: a negative interval ends the process after its first cycle. *)
Lemma negative_interval_ends_agent settings w signals :
  flt (collection_interval_seconds settings) (float_of_Z 0) = true ->
  exists e w', agent_main settings (false :: signals) w = (Raise e, w').
Proof.
  intros Hneg. unfold agent_main, mbind, AM_bind. rewrite build_scheduler_run.
  destruct (FileBuffer_init _ _ w) as [[b|e] w1]; [|by eauto]. simpl. unfold mbind, AM_bind.
  destruct (run_once _ w1) as [[u|e] w2]; [|by eauto]. unfold time_sleep.
  change (_interval_seconds (scheduler_of settings)) with (collection_interval_seconds settings).
  destruct (is_nan _); [by eauto|]. destruct (negb _); [by eauto|]. rewrite Hneg. by eauto.
Qed.

End main_properties.
