(* ===== verification/Delivery.v ===== *)
(** * Delivery over many cycles

    Against a Collector that acknowledges or fails temporarily, and with room in the buffer,
    the Agent loses nothing: over any number of cycles, what was buffered and what was
    collected is what was accepted and what is still buffered. *)

From S2P Require Import Prelude PyFloat PyTime PyStr Domain Schema Runtime Disk AgentRuntime Files.
From S2P Require Import Buffer Transport Executor Settings AgentConfig Agent AgentMain.

Local Open Scope Z_scope.

(** The disk and the traffic are the same. *)
Definition same_all (w w' : AgentWorld) : Prop := aw_disk w' = aw_disk w /\ same_traffic w w'.

#[export] Instance same_all_preorder : PreOrder same_all.
Proof. split; [by intros w|]. intros w1 w2 w3 [H1 ?] [H2 ?]. split; [congruence|by etrans]. Qed.

Section delivery.
Context `{AgentEnv} (s : AgentScheduler).

(** The collectors only read. *)
Definition reading_only : Prop := Forall (fun c => keeps same_all c.2) (_collectors s).

Lemma collect_reads w :
  reading_only -> exists p w', _collect s w = (Ok p, w') /\ np_node_id p = _node_id s /\
    same_all w w'.
Proof.
  intros Hc. rewrite collect_isolates.
  assert (same_all w (collected (_collectors s) w).2) as Hw.
  { induction Hc as [|[name f] l Hf Hl IH] in w |- *; [done|]. simpl.
    specialize (Hf w). simpl in Hf. destruct (f w) as [[more|e] w1]; simpl in Hf;
      specialize (IH w1); destruct (collected l w1) as [[ss es] w2]; simpl in *; by etrans. }
  destruct (collected (_collectors s) w) as [[ss es] w1]. eexists _, _. split; [done|].
  split; [done|]. exact Hw.
Qed.

(** The answers: nothing but acknowledgements and temporary failures for pushes, and no
    error outside the transport's classes. *)
Record calm : Prop := {
  calm_sound : forall log name, classify (http log) <> Crash name;
  calm_push : forall log p, let o := http (log ++ [push_request (_transport s) p]) in
    classify o = Retry \/ exists ack, classify o = Accepted (Some ack);
}.

Context (Hcalm : calm).

(** From the [m]-th request on, pushes are acknowledged. *)
Definition prompt (m : nat) : Prop := forall log p, (m <= length log)%nat ->
  exists ack, classify (http (log ++ [push_request (_transport s) p])) = Accepted (Some ack).

(** Requests were sent, and none forgotten. *)
Definition sends (w w' : AgentWorld) : Prop := (length (aw_sent w) <= length (aw_sent w'))%nat.

#[local] Instance sends_preorder : PreOrder sends.
Proof. unfold sends. split; [by intros w|]. intros w1 w2 w3. lia. Qed.

Lemma same_sends w w' : aw_sent w' = aw_sent w -> sends w w'.
Proof. unfold sends. by intros ->. Qed.

Lemma prompt_sends w w' : sends w w' -> prompt (length (aw_sent w)) -> prompt (length (aw_sent w')).
Proof. intros Hs Hp log p Hl. apply Hp. unfold sends in Hs. lia. Qed.

(** A send either ends in an acknowledgement or in a retryable failure. *)
Lemma calm_send p w :
  exists w', aw_disk w' = aw_disk w /\ sends w w' /\
  ((exists ack, send (_transport s) p w = (Ok ack, w') /\ aw_accepted w' = aw_accepted w ++ [p]) \/
   (exists m, send (_transport s) p w = (Raise (RetryableTransportError m), w') /\
      aw_accepted w' = aw_accepted w /\ ~ prompt (length (aw_sent w)))).
Proof.
  pose proof (send_spec (_transport s) p w) as Hs. destruct (send (_transport s) p w) as [r w'].
  pose proof Hs as (k & _ & _ & Hk). apply send_outcome_frame in Hs as (Hf & _ & _ & Hacc).
  unfold attempt_verdict in Hk. replace (S k) with (k + 1)%nat in Hk by lia.
  rewrite replicate_add, app_assoc in Hk. simpl in Hk. exists w'. split; [done|]. split.
  { destruct Hacc as (k' & Hsent & _). unfold sends. rewrite Hsent, length_app. lia. }
  set (log := aw_sent w ++ replicate k (push_request (_transport s) p)) in *.
  destruct (calm_push Hcalm log p) as [Hv|[ack Hv]]; cbn zeta in Hv; rewrite Hv in Hk.
  - right. destruct Hk as ([m ->] & _). exists m. split; [done|]. split.
    + destruct Hacc as (k' & _ & _ & [(_ & _ & [=])|[_ Ha]]). done.
    + intros Hp. destruct (Hp log p) as [ack Hack]; [|congruence].
      unfold log. rewrite length_app. lia.
  - left. destruct Hk as [-> _]. exists ack. split; [done|].
    by destruct Hacc as (k' & _ & _ & _ & Ha).
Qed.

Lemma retrying_result {A} (P : Res A -> Prop) n (f : AM A) w :
  (forall w, P (fst (f w))) -> P (fst (retrying A n f w)).
Proof.
  intros Hf. remember (Z.to_nat n) as k eqn:Ek. revert n w Ek.
  induction k as [k IH] using lt_wf_ind. intros n w ->.
  rewrite retrying_spec. specialize (Hf w). destruct (f w) as [[a|e] w1]; [done|].
  destruct e; try done. destruct (Z.leb_spec n 1); [done|].
  by apply (IH (Z.to_nat (n - 1))); [lia|].
Qed.

(** Reporting a result never fails the cycle. *)
Lemma calm_report id res w : fst (_report_action_result s id res w) = Ok tt.
Proof.
  unfold _report_action_result, a_try.
  assert (match fst (report_action_result (_transport s) id res w) with
          | Ok _ => True | Raise e => is_transport e = true end) as Hr.
  { apply (retrying_result (fun r => match r with Ok _ => True | Raise e => is_transport e = true end)).
    intros w0. unfold _report_action_result_once, _post, mbind, AM_bind.
    match goal with |- context [http ?l] => pose proof (calm_sound Hcalm l) as Hc end.
    destruct (http _) as [st body| | |name]; try done; [|by destruct (Hc name)].
    destruct (_ <=? st); [done|]. by destruct (_ <=? st). }
  destruct (report_action_result _ id res w) as [[[]|e] w1]; [done|]. simpl in Hr. by rewrite Hr.
Qed.

Lemma calm_pending ack w :
  buffer_apart s ->
  exists w', _execute_pending_actions s ack w = (Ok tt, w') /\ spares (buffer_of s) w w' /\
    aw_accepted w' = aw_accepted w /\ sends w w'.
Proof.
  intros Hap. pose proof (pending_spares s ack Hap w) as Hf.
  destruct (pending_acted s ack w) as (ids & _ & Ha & _ & reqs & Hs & _).
  assert (fst (_execute_pending_actions s ack w) = Ok tt) as Hok.
  { unfold _execute_pending_actions. destruct (_executor s) as [allowed|]; [|done].
    clear Hf Ha Hs. revert w. induction (ack_pending_actions ack) as [|a l IH]; intros w; [done|].
    simpl. unfold mbind, AM_bind.
    destruct (execute_total_data allowed a w) as (res & w1 & -> & _).
    pose proof (calm_report (pa_action_id a) res w1) as Hr.
    destruct (_report_action_result s (pa_action_id a) res w1) as [r w2]. simpl in Hr.
    subst r. apply IH. }
  destruct (_execute_pending_actions s ack w) as [r w']. simpl in *. subst r. exists w'. split; [done|].
  split; [done|]. split; [done|]. unfold sends. rewrite Hs, length_app. lia.
Qed.

Section healthy_disk.
Context (fs_always : forall n, fs_ok n = true).

Context (Hapart : buffer_apart s).
Abbreviation place := (buffer_of s).

(** A redelivery accepts a prefix of the batch and puts the rest back; all of it when pushes
    are acknowledged. *)
Lemma calm_redeliver batch q w :
  holds place w q -> Forall storable batch -> Z.of_nat (length (q ++ batch)) <= room s ->
  exists k w', redeliver s batch w = (Ok tt, w') /\ holds place w' (q ++ drop k batch) /\
    aw_accepted w' = aw_accepted w ++ take k batch /\ sends w w' /\
    (prompt (length (aw_sent w)) -> drop k batch = []).
Proof.
  intros Hq Hb. revert w Hq. induction Hb as [|p batch Hp Hb IH]; intros w Hq Hroom.
  { exists 0%nat, w. cbn. by rewrite !app_nil_r. }
  rewrite length_app in Hroom. simpl in Hroom. cbn [redeliver].
  destruct (calm_send p w) as (w1 & Hf & Hs & [(ack & -> & Ha)|(m & -> & Ha & Hno)]).
  - destruct (IH w1) as (k & w' & Hr & Hh & Hacc & Hs' & Hp'); [by eapply holds_same|rewrite length_app; lia|].
    exists (S k), w'. split; [done|]. split; [done|]. simpl. split; [by rewrite Hacc, Ha, <- app_assoc|].
    split; [by etrans|]. intros Hpr. by apply Hp', (prompt_sends w).
  - pose proof (holds_same _ _ _ _ Hf Hq) as Hq1. cbn [is_fatal is_transport is_retryable orb].
    destruct (enqueue_all_holds (_buffer s) fs_always (p :: batch) q w1 Hq1)
      as (w2 & Hi & (Hsent & Hacc & _) & Hh); [by constructor|].
    rewrite Hi. exists 0%nat, w2. split; [done|].
    rewrite push_room in Hh by (rewrite length_app; simpl; lia). split; [done|].
    simpl. split; [by rewrite Hacc, Ha, app_nil_r|]. split; [|by intros ?%Hno].
    etrans; [exact Hs|by apply same_sends].
Qed.

(** One cycle. *)
Lemma cycle_conserves q w :
  reading_only -> (forall w p w', _collect s w = (Ok p, w') -> storable p) ->
  holds place w q -> Z.of_nat (length q) + 1 <= room s ->
  exists p acc q' w', run_once s w = (Ok tt, w') /\ np_node_id p = _node_id s /\ holds place w' q' /\
    aw_accepted w' = aw_accepted w ++ acc /\ q ++ [p] ≡ₚ acc ++ q' /\
    (length q' <= S (length q))%nat /\ sends w w' /\
    (prompt (length (aw_sent w)) -> q' = drop 50 q).
Proof.
  intros Hc Hst Hq Hroom. unfold run_once, _drain_buffer, mbind, AM_bind.
  destruct (drain_holds fs_always (_buffer s) q w Hq) as (w1 & -> & (Hs1 & Ha1 & _) & Hq1).
  apply same_sends in Hs1.
  destruct (calm_redeliver (take 50 q) (drop 50 q) w1 Hq1) as (k & w2 & Hr & Hq2 & Ha2 & Hs2 & Hp2).
  { apply Forall_take, (holds_storable _ _ _ Hq). }
  { rewrite length_app, length_drop, length_take. lia. }
  rewrite Hr. destruct (collect_reads w2 Hc) as (p & w3 & Hcol & Hn & Hf3 & Hs3 & Ha3 & _).
  apply same_sends in Hs3.
  rewrite Hcol. pose proof (Hst _ _ _ Hcol) as Hp. pose proof (holds_same _ _ _ _ Hf3 Hq2) as Hq3.
  assert (q ≡ₚ take k (take 50 q) ++ (drop 50 q ++ drop k (take 50 q))) as Hperm.
  { rewrite (Permutation_app_comm (drop 50 q)), app_assoc, take_drop. by rewrite take_drop. }
  pose proof (Permutation_length Hperm) as Hlen. rewrite length_app in Hlen.
  assert (prompt (length (aw_sent w)) -> drop 50 q ++ drop k (take 50 q) = drop 50 q) as Hall.
  { intros Hpr. rewrite Hp2, app_nil_r; [done|by apply (prompt_sends w)]. }
  set (q2 := drop 50 q ++ drop k (take 50 q)) in *.
  assert (sends w w3) as Hs by (etrans; [exact Hs1|by etrans]).
  unfold _deliver. destruct (calm_send p w3) as (w4 & Hf4 & Hs4 & [(ack & -> & Ha4)|(m & -> & Ha4 & Hno)]).
  - destruct (calm_pending ack w4 Hapart) as (w5 & -> & Hf5 & Ha5 & Hs5).
    exists p, (take k (take 50 q) ++ [p]), q2, w5. split; [done|]. split; [done|].
    split; [by apply (holds_spares _ _ _ _ Hf5), (holds_same _ _ _ _ Hf4)|]. split.
    { by rewrite Ha5, Ha4, Ha3, Ha2, Ha1, app_assoc. }
    split; [by rewrite <- app_assoc, (Permutation_app_comm [p]), app_assoc, <- Hperm|].
    split; [lia|]. split; [|done]. etrans; [exact Hs|by etrans].
  - cbn [is_fatal is_transport is_retryable orb].
    destruct (enqueue_holds (_buffer s) fs_always q2 p w4) as (w5 & -> & (Hs5 & Hacc & _) & Hq5);
      [by apply (holds_same _ _ _ _ Hf4)|done|].
    pose proof (push_room (room s) q2 [p]) as Hpush. simpl in Hpush.
    rewrite Hpush in Hq5 by (rewrite length_app; simpl; lia).
    exists p, (take k (take 50 q)), (q2 ++ [p]), w5. split; [done|]. split; [done|]. split; [done|].
    split; [by rewrite Hacc, Ha4, Ha3, Ha2, Ha1|]. split; [by rewrite app_assoc, <- Hperm|].
    split; [rewrite length_app; simpl; lia|].
    split; [etrans; [exact Hs|]; etrans; [exact Hs4|by apply same_sends]|].
    intros Hpr. destruct Hno. by apply (prompt_sends w).
Qed.

(** Any number of cycles.  Once pushes are acknowledged, each cycle clears a batch. *)
Lemma cycles_conserve n q w :
  reading_only -> (forall w p w', _collect s w = (Ok p, w') -> storable p) ->
  (forall w, time_sleep (_interval_seconds s) w = (Ok tt, tick w)) ->
  holds place w q -> Z.of_nat (length q) + Z.of_nat n <= room s ->
  exists fresh acc q' w', run_forever s (replicate n false) w = (Ok tt, w') /\
    length fresh = n /\ Forall (fun p => np_node_id p = _node_id s) fresh /\ holds place w' q' /\
    aw_accepted w' = aw_accepted w ++ acc /\ q ++ fresh ≡ₚ acc ++ q' /\
    forall m, (m <= n)%nat ->
      prompt (length (aw_sent (snd (run_forever s (replicate m false) w)))) ->
      (length q + m <= 50 * (n - m))%nat -> q' = [].
Proof.
  intros Hc Hst Hsleep. revert q w. induction n as [|n IH]; intros q w Hq Hroom.
  { exists [], [], q, w. rewrite !app_nil_r. split_and!; try done.
    intros m Hm _ Hl. destruct q; simpl in *; [done|lia]. }
  destruct (cycle_conserves q w Hc Hst Hq ltac:(lia))
    as (p & acc & q1 & w1 & Hrun & Hn & Hq1 & Ha & Hperm & Hlen & Hs & Hp).
  simpl. unfold mbind, AM_bind. rewrite Hrun, Hsleep.
  destruct (IH q1 (tick w1)) as (fresh & acc' & q' & w' & -> & Hfl & Hfn & Hq' & Ha' & Hperm' & Hheal);
    [by apply holds_tick|lia|].
  exists (p :: fresh), (acc ++ acc'), q', w'. split; [done|]. split; [by rewrite <- Hfl|].
  split; [by constructor|]. split; [done|]. split; [by rewrite Ha', app_assoc; simpl; rewrite Ha|].
  split.
  - rewrite <- app_assoc, <- Hperm'. change (p :: fresh) with ([p] ++ fresh).
    by rewrite !app_assoc, Hperm.
  - intros [|m] Hm Hpr Hl.
    + apply (Hheal 0%nat); [lia|by apply (prompt_sends w)|].
      rewrite (Hp Hpr), length_drop. lia.
    + apply (Hheal m); [lia| |lia]. simpl in Hpr. unfold mbind, AM_bind in Hpr.
      by rewrite Hrun, Hsleep in Hpr.
Qed.

End healthy_disk.
End delivery.
