(* ===== verification/AgentScenario.v ===== *)
(** * Concrete runs of the Agent

    The Agent's properties on the reference environment: a buffer of sixty payloads, a
    Collector that answers, times out or drops the connection, and a file that cannot be
    read.  The witnesses of those properties evaluate them. *)

From S2P Require Import Prelude PyFloat PyTime PyStr Domain Schema Runtime Disk AgentRuntime Files.
From S2P Require Import Buffer Transport Executor AgentConfig RefAgent Agent AgentMain.

Local Open Scope Z_scope.

Definition answering : AgentEnv :=
  RefAgent (fun _ => true) (fun _ => HttpResponse 200 (Some {| ack_accepted := true;
    ack_received_at := 0; ack_message := None; ack_pending_actions := [] |})).
Definition unreachable : AgentEnv := RefAgent (fun _ => true) (fun _ => HttpConnectError).
Definition dropping : AgentEnv := RefAgent (fun _ => true) (fun _ => HttpOtherError "ReadError").
(** The first interaction, a read, fails. *)
Definition unreadable : AgentEnv := RefAgent (fun n => negb (n =? 0)%nat) (fun _ => HttpTimeout).

Definition demo_buffer : FileBuffer := {| _path := "/var/buffer.jsonl"; _max_entries := 100 |}.
Definition demo_place : Place := ["var"; "buffer.jsonl"].

Definition demo_queue : list NodeMetricsPayload := (fun n => demo_payload (Z.of_nat n)) <$> seq 0 60.

Definition demo_scheduler (e : AgentEnv) : AgentScheduler :=
  {| _node_id := "n1"; _collectors := @default_collectors e; _transport := HttpTransport_init (Some "secret") 3;
     _buffer := demo_buffer; _interval_seconds := float_of_Z 30; _executor := Some {["/tmp/cache"]} |}.

Lemma demo_storable disk network t : @storable (RefAgent disk network) (demo_payload t).
Proof. split; [constructor|apply ref_dump_plain]. Qed.

Lemma demo_queue_storable disk network : Forall (@storable (RefAgent disk network)) demo_queue.
Proof. apply Forall_fmap, Forall_true. intros n. apply demo_storable. Qed.

(** The Agent whose file holds the sixty payloads. *)
Definition demo_agent (e : AgentEnv) : AgentWorld := agent_world (@content e demo_queue).

Lemma demo_world_holds disk network q :
  let e := RefAgent disk network in
  Forall (@storable e) q -> @holds e demo_place (agent_world (@content e q)) q.
Proof.
  intros e Hq. split; [| | |done].
  - apply Forall_forall. intros k Hk. vm_compute in Hk. apply list_elem_of_singleton in Hk as ->.
    reflexivity.
  - exists ["var"; "buffer.jsonl.tmp"]%string. split; [reflexivity|left; reflexivity].
  - exists (@content e q). split; [reflexivity|by apply content_read].
Qed.

Lemma demo_holds disk network :
  let e := RefAgent disk network in @holds e demo_place (demo_agent e) demo_queue.
Proof. intros e. apply demo_world_holds, demo_queue_storable. Qed.

(** The buffer is not in the cache. *)
Lemma demo_buffer_apart disk network :
  @buffer_apart (RefAgent disk network) (demo_scheduler (RefAgent disk network)).
Proof.
  intros k (path & Hpath & Hk) Hpre. simpl in Hpath. apply elem_of_singleton in Hpath as ->.
  destruct Hk as (x & rest & ->), Hpre as [more Hmore]. vm_compute in Hmore. discriminate Hmore.
Qed.

Definition demo_calls : list BufferCall :=
  [Enqueue (demo_payload 60); Drain 7; Len; Enqueue (demo_payload 61); Drain (-1); Drain 50].

Definition small_buffer : FileBuffer := {| _path := "/var/buffer.jsonl"; _max_entries := 50 |}.

(** With room for fifty, the eleven oldest of the sixty-one are evicted. *)
Lemma buffer_refines_queue_witness :
  exists answers q' w', queue_calls 50 demo_queue demo_calls = (answers, q') /\
    calls (@FileBuffer_methods answering small_buffer) demo_calls (demo_agent answering) =
      (Ok answers, w') /\ length (handed_out answers) = 51%nat /\ q' = [].
Proof.
  destruct (@buffer_refines_queue answering small_buffer demo_calls (demo_agent answering) demo_queue)
    as (answers & q' & w' & Hc & Hrun & _); [simpl; lia|done| |apply demo_holds|].
  - repeat (apply Forall_cons; split; [first [apply demo_storable|exact I]|]). constructor.
  - exists answers, q', w'. split; [exact Hc|]. split; [exact Hrun|].
    vm_compute in Hc. injection Hc as <- <-. split; reflexivity.
Defined.


Lemma unreadable_buffer_is_lost_witness :
  let e := unreadable in
  @holds e demo_place (snd (@enqueue e demo_buffer (demo_payload 60) (demo_agent e))) [demo_payload 60].
Proof.
  apply (@unreadable_buffer_is_lost unreadable demo_buffer (demo_agent unreadable) demo_queue);
    [simpl; lia|apply demo_storable|apply demo_holds|done..].
Defined.

(** ** A document with a line boundary in it

    U+2028 is a character like any other to JSON, which need not escape it, and a line boundary
    to [str.splitlines]. *)

Definition separating_dump (p : NodeMetricsPayload) : text := 123%N :: 8232%N :: tail (ref_dump p).
Definition separating_parse (t : text) : option NodeMetricsPayload :=
  match t with 123%N :: 8232%N :: l => ref_parse (123%N :: l) | _ => None end.

Lemma separating_parse_dump p : separating_parse (separating_dump p) = Some p.
Proof. apply ref_parse_dump. Qed.

Lemma separating_printable p : Forall (fun c => 32 <= c)%N (separating_dump p).
Proof.
  pose proof (ref_dump_printable p) as Hp. apply Forall_cons in Hp as [H1 Hp].
  constructor; [exact H1|]. by constructor.
Qed.

Definition separating : AgentEnv :=
  {| dump := separating_dump; parse := separating_parse;
     parse_dump := fun p _ => separating_parse_dump p;
     dump_object := fun _ => eq_refl; dump_printable := separating_printable;
     fs_ok := @fs_ok answering; torn_write := @torn_write answering;
     realpath := @realpath answering;
     listdir_order := @listdir_order answering; listdir_permutes := @listdir_permutes answering;
     rmtree_order := @rmtree_order answering; rmtree_permutes := @rmtree_permutes answering;
     rmtree_children_first := @rmtree_children_first answering;
     http := @http answering; retrying := @retrying answering;
     retrying_spec := @retrying_spec answering;
     cpu_percent := @cpu_percent answering; virtual_memory := @virtual_memory answering;
     disk_usage := @disk_usage answering; net_io_counters := @net_io_counters answering;
     agent_clock := @agent_clock answering; exc_text := @exc_text answering |}.

(** The payload is written to the file and read back as two corrupt lines: it is lost although
    no call failed. *)
Example separated_payload_is_lost :
  let e := separating in
  fst ((_ ← @enqueue e demo_buffer (demo_payload 60); @drain e demo_buffer 50) (agent_world [])) = Ok [].
Proof. vm_compute. reflexivity. Qed.

(** The disk of these environments never fails. *)
Lemma disk_ok network n : @fs_ok (RefAgent (fun _ => true) network) n = true.
Proof. done. Qed.

Lemma deliver_never_loses_on_outage_witness :
  let e := unreachable in let s := demo_scheduler e in
  let '(r, w') := @_deliver e s (demo_payload 60) (demo_agent e) in
  match fst (@send e (_transport s) (demo_payload 60) (demo_agent e)) with
  | Ok _ => aw_accepted w' = [demo_payload 60] /\ @holds e demo_place w' demo_queue
  | Raise ex =>
      if is_fatal ex then r = Ok tt /\ @holds e demo_place w' demo_queue
      else if is_retryable ex then r = Ok tt /\ @holds e demo_place w' (push 100 demo_queue (demo_payload 60))
      else r = Raise ex /\ @holds e demo_place w' demo_queue
  end.
Proof.
  apply (@deliver_never_loses_on_outage unreachable (demo_scheduler unreachable));
    [apply disk_ok|apply demo_buffer_apart|apply demo_holds|apply demo_storable].
Defined.

Lemma redelivery_outcome_witness :
  let e := answering in
  let '(r, w') := @_drain_buffer e (demo_scheduler e) (demo_agent e) in
  match r with
  | Ok _ => exists k, (k <= length (take 50 demo_queue))%nat /\
      @holds e demo_place w' (foldl (push 100) (drop 50 demo_queue) (drop k (take 50 demo_queue)))
  | Raise ex => is_transport ex = false /\ @holds e demo_place w' (drop 50 demo_queue)
  end.
Proof.
  apply (@redelivery_outcome answering (demo_scheduler answering)); [apply disk_ok|apply demo_holds].
Defined.

Lemma outage_rotates_buffer_witness :
  let e := unreachable in
  exists w', @_drain_buffer e (demo_scheduler e) (demo_agent e) = (Ok tt, w') /\
    @holds e demo_place w' (drop 50 demo_queue ++ take 50 demo_queue).
Proof.
  apply (@outage_rotates_buffer unreachable (demo_scheduler unreachable));
    [apply disk_ok|apply demo_holds|by vm_compute|done].
Defined.

Lemma lost_connection_loses_batch_witness :
  let e := dropping in
  exists w', @run_once e (demo_scheduler e) (demo_agent e) = (Raise (OtherException "ReadError"), w') /\
    @holds e demo_place w' (drop 50 demo_queue).
Proof.
  apply (@lost_connection_loses_batch dropping (demo_scheduler dropping) demo_queue
           (demo_payload 0) (tail (take 50 demo_queue)));
    [apply disk_ok|apply demo_holds|by vm_compute|done].
Defined.

(** An Agent that may clear [/tmp/cache], and a path that is not in its allowlist. *)
Definition confined_settings : AgentSettings :=
  let s := default_agent_settings "n1" in
  {| as_environment := as_environment s; as_service_name := as_service_name s;
     as_log_level := as_log_level s; node_id := node_id s;
     collector_base_url := collector_base_url s;
     collection_interval_seconds := collection_interval_seconds s;
     auth_token := Some "secret"; http_timeout_seconds := http_timeout_seconds s;
     http_retry_attempts := http_retry_attempts s;
     http_retry_min_wait_seconds := http_retry_min_wait_seconds s;
     http_retry_max_wait_seconds := http_retry_max_wait_seconds s;
     buffer_path := "/var/lib/buffer.jsonl"; buffer_max_entries := buffer_max_entries s;
     agent_remediation_enabled := true; remediation_allowed_directories := "/tmp/cache" |}.

(** A Collector that has the Agent clear its cache and [/var]. *)
Definition clear_action (id : Z) (path : string) : PendingAction :=
  {| pa_action_id := id; pa_action_type := CLEAR_DIRECTORY; pa_parameters := {["path" := path]} |}.

Definition dispatching : AgentEnv :=
  RefAgent (fun _ => true) (fun _ => HttpResponse 200 (Some {| ack_accepted := true;
    ack_received_at := 0; ack_message := None;
    ack_pending_actions := [clear_action 1 "/var"; clear_action 2 "/tmp/cache"] |})).

(** The cache is emptied, a directory in it with it; the link it holds is removed, not followed;
    the buffer's directory is created; the cache itself and [/var/buffer.jsonl] stay. *)
Lemma agent_confined_to_allowlist_witness :
  let e := dispatching in
  let w := agent_world [] in
  let w' := snd (@agent_main e confined_settings [false; true] w) in
  @children (aw_disk w') ["tmp"; "cache"]%string = [] /\
  aw_disk w' !! ["tmp"; "cache"; "b"; "c"]%string = None /\
  aw_disk w' !! ["var"; "lib"]%string = Some Directory /\
  (aw_disk w' !! demo_place = aw_disk w !! demo_place \/
   (demo_place ∈ above (@settings_place e confined_settings) /\
    aw_disk w !! demo_place = None /\ aw_disk w' !! demo_place = Some Directory)).
Proof.
  split; [vm_compute; reflexivity|]. split; [vm_compute; reflexivity|].
  split; [vm_compute; reflexivity|].
  apply (@agent_confined_to_allowlist dispatching confined_settings [false; true] (agent_world [])
    demo_place); [|vm_compute; discriminate|vm_compute; discriminate].
  intros [_ (path & Hpath & x & rest & Hk)].
  assert (path = "/tmp/cache"%string) as ->.
  { assert (remediation_allowed_directory_set confined_settings = {["/tmp/cache"]})%string as Hset
      by (apply (bool_decide_unpack _); vm_compute; exact I).
    rewrite Hset in Hpath. by apply elem_of_singleton in Hpath. }
  vm_compute in Hk. discriminate Hk.
Defined.

(** The same cache cleared by the executor alone. *)
Lemma execute_total_witness :
  let e := dispatching in
  exists res w', @execute e {["/tmp/cache"%string]} (clear_action 2 "/tmp/cache") (agent_world []) =
      (Ok res, w') /\
    res_status res = RESULT_EXECUTED /\
    @children (aw_disk w') ["tmp"; "cache"]%string = [].
Proof.
  destruct (@execute_total dispatching {["/tmp/cache"%string]} (clear_action 2 "/tmp/cache")
    (agent_world [])) as (res & w' & Hx & Hs).
  cbn beta iota zeta delta [clear_action pa_action_type] in Hs.
  rewrite bool_decide_true in Hs; [destruct Hs as (_ & Hempty & Hdone)|].
  - assert (res_status res = RESULT_EXECUTED) as Hok by (apply Hdone; [intros n; reflexivity|reflexivity]).
    exists res, w'. split; [exact Hx|]. split; [exact Hok|]. exact (proj1 (Hempty Hok)).
  - split; [discriminate|]. apply (bool_decide_unpack _). vm_compute. exact I.
Defined.
