(* ===== verification/System.v ===== *)
(** * The Agent and the Collector over a network that loses messages

    One Agent's process talking to one Collector: each request the Agent makes reaches the
    Collector or not, and its answer comes back or not; between two requests the Collector
    serves other clients and runs its jobs.  The network is a function from the number of
    the request to its fate, the Collector's answer the one its model computes from all the
    requests that reached it. *)

From S2P Require Import Prelude PyFloat PyTime PyStr Domain Schema Runtime Protocols Tables.
From S2P Require Import SqlNodeRepository SqlAlertRepository SqlMetricsRepository.
From S2P Require Import SqlActionRepository Rules Remediation Notifications.
From S2P Require Import Lifecycle Invariants Conformance Settings NodeRegistry.
From S2P Require Import RemediationService Alerting Ingestion Dispatch Reconciliation.
From S2P Require Import Staleness Retention JobScheduler Routes Api Collector Keeping.
From S2P Require Import Disk AgentRuntime Files Buffer Transport Executor AgentConfig Agent AgentMain.
From S2P Require Import Delivery.

Local Open Scope Z_scope.

(** ** The network *)

Inductive NetworkFailure :=
| NoAnswer                   (* httpx.TimeoutException *)
| NoConnection               (* httpx.ConnectError *)
| Broken (name : string).    (* any other error of httpx *)

Definition failure_outcome (f : NetworkFailure) : HttpOutcome :=
  match f with
  | NoAnswer => HttpTimeout
  | NoConnection => HttpConnectError
  | Broken name => HttpOtherError name
  end.

Inductive Fate :=
| Answered                                (* the answer came back *)
| Unanswered (f : NetworkFailure)         (* the request arrived, its answer was lost *)
| Undelivered (f : NetworkFailure).       (* the request never arrived *)

(** The failure a client sees, if it sees one. *)
Definition fate_failure (f : Fate) : option NetworkFailure :=
  match f with Answered => None | Unanswered f | Undelivered f => Some f end.

(** The request a POST of the Agent is for the Collector's router: the route whose path it
    has, with the body parsed as that route's model. *)
Definition routed (r : ClientRequest) : option Request :=
  match cr_body r with
  | PostMetrics payload =>
      if bool_decide (cr_endpoint r = receive_metrics_path)
      then Some (ReceiveMetrics payload) else None
  | PostResult action_id result =>
      if bool_decide (cr_endpoint r = report_remediation_action_result_path action_id)
      then Some (ReportResult action_id result) else None
  end.

(** The response as the Agent reads it. *)
Definition wire_response (r : Response) : HttpOutcome :=
  HttpResponse (rs_status r) (match rs_body r with BAck ack => Some ack | _ => None end).

Section system.
Context `{E : Env} (token_order : gset string -> list string) (app : App).
(** [HTTPBearer]'s reading of the [Authorization] header. *)
Context (bearer : option string -> option string).
Context (fate : nat -> Fate) (background : nat -> list Event).

(** A request that arrives; one for no route is answered 404. *)
Definition arrive (r : ClientRequest) (p : Process) : Process * HttpOutcome :=
  match routed r with
  | None => (p, HttpResponse 404 None)
  | Some request =>
      let '(res, w) := collector_handle token_order app (bearer (cr_authorization r)) request
                         (p_world p) in
      ({| p_world := w; p_entries := p_entries p |},
       match res with Ok resp => wire_response resp | Raise _ => HttpResponse 500 None end)
  end.

(** The [i]-th request, after whatever the Collector did in the meantime. *)
Definition serve (i : nat) (r : ClientRequest) (p : Process) : Process * HttpOutcome :=
  let p := run_events token_order app (background i) p in
  match fate i with
  | Answered => arrive r p
  | Unanswered f => (fst (arrive r p), failure_outcome f)
  | Undelivered f => (p, failure_outcome f)
  end.

Fixpoint serve_all (i : nat) (log : list ClientRequest) (p : Process) : Process :=
  match log with
  | [] => p
  | r :: log => serve_all (S i) log (fst (serve i r p))
  end.

(** The Collector after the Agent's requests [log]. *)
Definition collector_after (log : list ClientRequest) : Process :=
  serve_all 0 log (Collector.start app).

(** What the last request of [log] ends in. *)
Definition network_answer (log : list ClientRequest) : HttpOutcome :=
  match last log with
  | Some r => snd (serve (pred (length log)) r (collector_after (removelast log)))
  | None => HttpConnectError
  end.

(** The Agent's environment with this network in place of its own. *)
Definition networked (A : AgentEnv) : AgentEnv :=
  {| dump := @dump A; parse := @parse A; parse_dump := @parse_dump A;
     dump_object := @dump_object A; dump_printable := @dump_printable A;
     fs_ok := @fs_ok A; torn_write := @torn_write A; realpath := @realpath A;
     listdir_order := @listdir_order A; listdir_permutes := @listdir_permutes A;
     rmtree_order := @rmtree_order A; rmtree_permutes := @rmtree_permutes A;
     rmtree_children_first := @rmtree_children_first A; http := network_answer;
     retrying := @retrying A; retrying_spec := @retrying_spec A;
     cpu_percent := @cpu_percent A; virtual_memory := @virtual_memory A;
     disk_usage := @disk_usage A; net_io_counters := @net_io_counters A;
     agent_clock := @agent_clock A; exc_text := @exc_text A |}.

(** The Collector's database after the Agent's requests. *)
Definition db_of (log : list ClientRequest) : Db := w_db (p_world (collector_after log)).

(** ** The Collector along the log *)

Lemma serve_all_snoc i log r p :
  serve_all i (log ++ [r]) p = fst (serve (i + length log) r (serve_all i log p)).
Proof.
  revert i p. induction log as [|r' log IH]; intros i p; simpl; [by rewrite Nat.add_0_r|].
  rewrite IH. by rewrite Nat.add_succ_r.
Qed.

Lemma collector_after_snoc log r :
  collector_after (log ++ [r]) = fst (serve (length log) r (collector_after log)).
Proof. apply serve_all_snoc. Qed.

Lemma network_answer_snoc log r :
  network_answer (log ++ [r]) = snd (serve (length log) r (collector_after log)).
Proof.
  unfold network_answer. rewrite last_snoc, removelast_last, length_app. simpl.
  by rewrite Nat.add_1_r.
Qed.

(** The process is one a run of the Collector can be in. *)
Definition healthy_process (p : Process) : Prop :=
  entries_allowed app p /\ sound (w_db (p_world p)).

Notation moves := (rtc (Lifecycle.step (app_lifecycle app) (~ Healthy))).

Lemma healthy_events events p :
  healthy_process p -> healthy_process (run_events token_order app events p) /\
  moves (w_db (p_world p)) (w_db (p_world (run_events token_order app events p))).
Proof.
  revert p. induction events as [|ev events IH]; intros p [Ha Hs]; simpl; [done|].
  destruct (run_event_steps token_order app p ev Ha Hs) as [Ha1 Hst].
  destruct (IH (run_event token_order app p ev)) as [Hh Hst'].
  { split; [done|]. eapply stable_rtc; [apply sound_stable|done|done]. }
  split; [done|by etrans].
Qed.

Lemma healthy_arrive r p :
  healthy_process p -> healthy_process (fst (arrive r p)) /\
  moves (w_db (p_world p)) (w_db (p_world (fst (arrive r p)))).
Proof.
  intros Hp. unfold arrive. destruct (routed r) as [request|]; [|done].
  pose proof (healthy_events [HttpRequest (bearer (cr_authorization r)) request] p Hp) as H.
  simpl in H. by destruct (collector_handle _ _ _ _ _).
Qed.

Lemma healthy_serve i r p :
  healthy_process p -> healthy_process (fst (serve i r p)) /\
  moves (w_db (p_world p)) (w_db (p_world (fst (serve i r p)))).
Proof.
  intros Hp. unfold serve. destruct (healthy_events (background i) p Hp) as [Hp1 Hs1].
  destruct (healthy_arrive r _ Hp1) as [Hp2 Hs2].
  destruct (fate i); simpl; (split; [done|]); [by etrans..|done].
Qed.

Lemma healthy_start : healthy_process (Collector.start app).
Proof. split; [apply start_allowed|]. rewrite start_db. apply sound_empty. Qed.

Lemma healthy_log log : healthy_process (collector_after log).
Proof.
  induction log as [|r log IH] using rev_ind; [apply healthy_start|].
  rewrite collector_after_snoc. by apply healthy_serve.
Qed.

Lemma log_moves log log' : moves (db_of log) (db_of (log ++ log')).
Proof.
  unfold db_of. induction log' as [|r log' IH] using rev_ind; [by rewrite app_nil_r|].
  rewrite app_assoc, collector_after_snoc. etrans; [exact IH|].
  apply healthy_serve, healthy_log.
Qed.

(** ** What an answer below 400 means *)

Lemma error_status e : HTTP_CLIENT_ERROR_THRESHOLD <= rs_status (error_response e).
Proof. by destruct e. Qed.

Lemma error_verdict e :
  classify (wire_response (error_response e)) = Retry \/
  classify (wire_response (error_response e)) = Reject.
Proof.
  unfold classify, wire_response. pose proof (error_status e) as He.
  destruct (_ <=? _); [by left|]. destruct (Z.leb_spec HTTP_CLIENT_ERROR_THRESHOLD
    (rs_status (error_response e))); [by right|lia].
Qed.

(** The database a request finds: after the log and what happened in the meantime. *)
Definition db_before (log : list ClientRequest) : Db :=
  w_db (p_world (run_events token_order app (background (length log)) (collector_after log))).

Lemma routed_push r p : cr_body r = PostMetrics p ->
  routed r = None \/ routed r = Some (ReceiveMetrics p).
Proof. intros Hb. unfold routed. rewrite Hb. destruct (bool_decide _); auto. Qed.

(** How a push that arrives ends: acknowledged with the samples stored and new actions, or
    with an error. *)
Lemma arrive_push r p pr :
  cr_body r = PostMetrics p -> healthy_process pr ->
  let '(pr', o) := arrive r pr in
  (exists ack db1, o = HttpResponse 200 (Some ack) /\
     persisted p (ack_received_at ack) (w_db (p_world pr)) db1 /\
     (exists k, ack_received_at ack = clock k) /\
     metric_samples db1 ⊆ metric_samples (w_db (p_world pr')) /\
     fresh_actions (np_node_id p) (w_db (p_world pr)) (w_db (p_world pr')) ack) \/
  (classify o = Retry /\
   (~ Healthy \/ verify_api_token (token_order (token_set (app_settings app)))
                  (bearer (cr_authorization r)) <> Ok tt)) \/
  (classify o = Reject /\
   (routed r = None \/ verify_api_token (token_order (token_set (app_settings app)))
                         (bearer (cr_authorization r)) <> Ok tt)).
Proof.
  intros Hbody [_ Hs]. unfold arrive.
  destruct (routed_push r p Hbody) as [-> | ->]; [right; right; by split; [|left]|].
  destruct (collector_handle token_order app (bearer (cr_authorization r)) (ReceiveMetrics p)
    (p_world pr)) as [res w] eqn:Eh. simpl.
  pose proof (handle_spec (app_settings app) (get_alert_evaluation_service app)
    (token_order (token_set (app_settings app))) (bearer (cr_authorization r)) (ReceiveMetrics p)
    (p_world pr)) as Hh. apply (wp_run _ _ _ _ _ Eh) in Hh. simpl in Hh.
  destruct (verify_api_token _ _) as [[]|e] eqn:Ev.
  2: { destruct Hh as [-> _]. right.
       destruct (error_verdict e) as [?|?]; [left|right]; (split; [done|by right]). }
  unfold fmap, M_fmap, receive_metrics, mbind, M_bind in Hh.
  pose proof (ingest_spec (heartbeat_stale_after_seconds (app_settings app))
    (Some (get_alert_evaluation_service app)) p (p_world pr) (proj1 Hs)) as Hi.
  pose proof (ingest_dispatches (heartbeat_stale_after_seconds (app_settings app))
    (get_alert_evaluation_service app) p (p_world pr) (proj1 Hs)) as Hd.
  unfold wp in Hi, Hd. destruct (ingest _ _ p (p_world pr)) as [[ack|e] w1] eqn:Ei; simpl in *.
  - destruct Hh as [-> ->]. left. destruct Hi as (_ & _ & db1 & Hper & Hst).
    exists ack, db1. split; [done|]. split; [done|].
    split; [eexists; by eapply ingest_received|]. split; [|done].
    by eapply samples_last, Hst.
  - destruct Hh as [_ ->]. right. left. destruct Hi as (_ & [msg ->] & Hno). split; [done|by left].
Qed.

(** A result that arrives and is answered below 400 has completed its action. *)
Lemma arrive_report r id res pr body :
  cr_body r = PostResult id res -> healthy_process pr ->
  classify (snd (arrive r pr)) = Accepted body ->
  exists row, remediation_actions (w_db (p_world (fst (arrive r pr)))) !! id = Some row /\
    rm_status row = _RESULT_STATUS_TO_ACTION_STATUS (res_status res) /\
    rm_reason row = res_message res.
Proof.
  intros Hbody [_ Hs]. unfold arrive, routed. rewrite Hbody.
  destruct (bool_decide _); [|done].
  destruct (collector_handle token_order app (bearer (cr_authorization r)) (ReportResult id res)
    (p_world pr)) as [resp w] eqn:Eh. simpl.
  pose proof (handle_spec (app_settings app) (get_alert_evaluation_service app)
    (token_order (token_set (app_settings app))) (bearer (cr_authorization r)) (ReportResult id res)
    (p_world pr)) as Hh. apply (wp_run _ _ _ _ _ Eh) in Hh. simpl in Hh.
  assert (forall e, classify (wire_response (error_response e)) <> Accepted body) as Herr
    by (intros e; destruct (error_verdict e) as [-> | ->]; done).
  destruct (verify_api_token _ _) as [[]|e]; [|destruct Hh as [-> _]; intros H; by destruct (Herr e)].
  unfold fmap, M_fmap, report_remediation_action_result, mbind, M_bind in Hh.
  pose proof (report_result_spec_wp id res (p_world pr) (proj2 (proj1 Hs))) as Hr. unfold wp in Hr.
  destruct (report_result id res (p_world pr)) as [[rec|e] w1]; simpl in *;
    destruct Hh as [-> ->]; [intros _|intros H; by destruct (Herr e)].
  destruct Hr as [Ho|(e & [=] & _)]. unfold report_outcome in Ho.
  destruct (remediation_actions (w_db (p_world pr)) !! id) as [a|]; [|by destruct Ho as [[=] _]].
  destruct (decide _); [|by destruct Ho as [[=] _]]. destruct Ho as (now & _ & _ & ->).
  simpl. rewrite lookup_insert_eq. by eexists.
Qed.

(** A push answered below 400: it arrived, its samples are stored and the actions of its
    acknowledgement are new rows. *)
Lemma answered_push log r p body :
  cr_body r = PostMetrics p -> classify (network_answer (log ++ [r])) = Accepted body ->
  exists ack db1, body = Some ack /\
    persisted p (ack_received_at ack) (db_before log) db1 /\
    (exists k, ack_received_at ack = clock k) /\
    metric_samples db1 ⊆ metric_samples (db_of (log ++ [r])) /\
    fresh_actions (np_node_id p) (db_before log) (db_of (log ++ [r])) ack.
Proof.
  intros Hbody. unfold db_of. rewrite network_answer_snoc, collector_after_snoc. unfold serve.
  destruct (healthy_events (background (length log)) _ (healthy_log log)) as [Hp _].
  unfold db_before. set (pr := run_events _ _ _ _) in *.
  destruct (fate (length log)) as [|f|f]; simpl; [|by destruct f..].
  pose proof (arrive_push r p pr Hbody Hp) as Ha. destruct (arrive r pr) as [pr' o]. simpl.
  intros Hc. destruct Ha as [(ack & db1 & -> & Hper & Hk & Hm & Hf)|[[Hr _]|[Hr _]]]; [|congruence..].
  exists ack, db1. cbn in Hc. injection Hc as <-. done.
Qed.

Lemma before_moves log : moves (db_of log) (db_before log).
Proof. by apply healthy_events, healthy_log. Qed.

(** ** Samples that are not deleted *)

Lemma arrive_keeps r p :
  keeps_young (app_settings app) (w_db (p_world p)) (w_db (p_world (fst (arrive r p)))).
Proof.
  unfold arrive. destruct (routed r) as [request|]; [|reflexivity].
  pose proof (event_keeps token_order app p (HttpRequest (bearer (cr_authorization r)) request)) as H.
  simpl in H. by destruct (collector_handle _ _ _ _ _).
Qed.

Lemma log_keeps log log' : keeps_young (app_settings app) (db_of log) (db_of (log ++ log')).
Proof.
  unfold db_of. induction log' as [|r log' IH] using rev_ind; [by rewrite app_nil_r|].
  rewrite app_assoc, collector_after_snoc. etrans; [exact IH|]. unfold serve.
  set (p := collector_after (log ++ log')). set (i := length (log ++ log')).
  pose proof (events_keep token_order app (background i) p) as Hb.
  pose proof (arrive_keeps r (run_events token_order app (background i) p)) as Ha.
  destruct (fate i); simpl; [by etrans..|done].
Qed.

Section sparing.
Context (Hspares : spares_samples app).

(** Stored, and never due for deletion. *)
Definition settled (p : NodeMetricsPayload) (x : MetricSample) (db : Db) : Prop :=
  exists t, (app_prunes app = false \/ young (app_settings app) t) /\ stored_at p x t db.

Lemma settled_later p x log log' : settled p x (db_of log) -> settled p x (db_of (log ++ log')).
Proof.
  intros (t & Ht & id & Hid). exists t. split; [done|]. exists id. destruct Ht as [Hret|Hy].
  - assert (lc_retention (app_lifecycle app) = false) as Hlc by exact Hret.
    exact (lookup_weaken _ _ _ _ Hid (samples_last _ _ _ _ Hlc (log_moves log log'))).
  - by apply (log_keeps log log').
Qed.

Lemma answered_push_settled log r p body x :
  cr_body r = PostMetrics p -> classify (network_answer (log ++ [r])) = Accepted body ->
  x ∈ np_samples p -> settled p x (db_of (log ++ [r])).
Proof.
  intros Hb Hc Hx.
  destruct (answered_push log r p body Hb Hc) as (ack & db1 & _ & Hper & [k Hk] & Hm & _).
  destruct (persisted_stored _ _ _ _ _ Hper Hx) as (id & Hid). exists (ack_received_at ack).
  split; [|by exists id; eapply lookup_weaken].
  destruct Hspares as [?|Hs]; [by left|]. right. rewrite Hk. apply Hs.
Qed.

Lemma settled_stored p x db : settled p x db -> stored p x db.
Proof. intros (t & _ & id & Hid). by exists id, t. Qed.

End sparing.

(** ** Without a retention job *)

Section no_retention.
Context (Hretention : app_prunes app = false).

Lemma never_prunes : lc_retention (app_lifecycle app) = false.
Proof. exact Hretention. Qed.

Lemma answered_report log log' r id res body :
  cr_body r = PostResult id res -> classify (network_answer (log ++ [r])) = Accepted body ->
  exists row, remediation_actions (db_of ((log ++ [r]) ++ log')) !! id = Some row /\
    rm_status row = _RESULT_STATUS_TO_ACTION_STATUS (res_status res) /\
    rm_reason row = res_message res.
Proof.
  intros Hb Hc. assert (exists row, remediation_actions (db_of (log ++ [r])) !! id = Some row /\
    rm_status row = _RESULT_STATUS_TO_ACTION_STATUS (res_status res) /\
    rm_reason row = res_message res) as (row & Hrow & Hst & Hre).
  { unfold db_of. rewrite network_answer_snoc in Hc. rewrite collector_after_snoc.
    unfold serve in *. destruct (healthy_events (background (length log)) _ (healthy_log log))
      as [Hp _].
    destruct (fate (length log)) as [|f|f]; simpl in *; [|by destruct f..].
    by eapply arrive_report. }
  exists row. split; [|done].
  apply (completed_lasts _ _ _ _ _ _ never_prunes (log_moves (log ++ [r]) log') Hrow).
  rewrite Hst. by destruct (res_status res).
Qed.

(** The ids handed to the node [n] by the answers along a log. *)
Definition push_ids (n : string) (log : list ClientRequest) (r : ClientRequest) : list Z :=
  match cr_body r, classify (network_answer (log ++ [r])) with
  | PostMetrics p, Accepted (Some ack) =>
      if bool_decide (np_node_id p = n) then pa_action_id <$> ack_pending_actions ack else []
  | _, _ => []
  end.

Fixpoint handed_from (n : string) (done log : list ClientRequest) : list Z :=
  match log with
  | [] => []
  | r :: log => push_ids n done r ++ handed_from n (done ++ [r]) log
  end.

Definition handed (n : string) (log : list ClientRequest) : list Z := handed_from n [] log.

Lemma handed_from_app n done l l' :
  handed_from n done (l ++ l') = handed_from n done l ++ handed_from n (done ++ l) l'.
Proof.
  revert done. induction l as [|r l IH]; intros done; simpl; [by rewrite app_nil_r|].
  rewrite IH, <- !app_assoc. done.
Qed.

Lemma handed_app n l l' : handed n (l ++ l') = handed n l ++ handed_from n l l'.
Proof. apply (handed_from_app n []). Qed.

(** Every id handed out is that of a row of the node, and no id is handed out twice. *)
Lemma handed_rows n log :
  NoDup (handed n log) /\
  Forall (fun id => exists row, remediation_actions (db_of log) !! id = Some row /\
            rm_node_id row = n) (handed n log).
Proof.
  induction log as [|r log [Hnd Hrows] IH] using rev_ind; [by split; constructor|].
  rewrite handed_app. simpl. rewrite app_nil_r.
  assert (Forall (fun id => exists row, remediation_actions (db_of (log ++ [r])) !! id = Some row /\
            rm_node_id row = n) (handed n log)) as Hrows'.
  { eapply Forall_impl; [exact Hrows|]. intros id (row & Hrow & Hn).
    destruct (action_lasts _ _ _ _ _ _ never_prunes (log_moves log [r]) Hrow) as (row' & ? & Ho).
    exists row'. split; [done|]. rewrite (proj1 Ho). done. }
  unfold push_ids. destruct (cr_body r) as [p|] eqn:Eb; [|by rewrite app_nil_r].
  destruct (classify _) as [[ack|]| | |] eqn:Ec; try (by rewrite app_nil_r).
  destruct (bool_decide (np_node_id p = n)) eqn:En; [|by rewrite app_nil_r].
  apply bool_decide_eq_true in En as <-.
  destruct (answered_push log r p _ Eb Ec) as (ack' & db1 & [= <-] & _ & _ & _ & Hnd' & Hf).
  split.
  - apply NoDup_app. split; [done|]. split; [|done]. intros id Hid Hin.
    apply list_elem_of_fmap in Hin as (a & -> & Ha).
    rewrite Forall_forall in Hf. destruct (Hf a Ha) as [Hnew _].
    rewrite Forall_forall in Hrows. destruct (Hrows _ Hid) as (row & Hrow & _).
    destruct (action_lasts _ _ _ _ _ _ never_prunes (before_moves log) Hrow) as (row' & Hrow' & _).
    congruence.
  - apply Forall_app. split; [done|]. apply Forall_fmap. eapply Forall_impl; [exact Hf|].
    intros a (_ & row & Hrow & Hn & _). by exists row.
Qed.

End no_retention.

(** ** The Agent on this network *)

Section composed.
Context (A : AgentEnv).

#[local] Instance on_network : AgentEnv := networked A.

(** What the Agent knows is so: a payload counted as accepted was a push answered below 400,
    and the actions executed were handed to the node [n], in this order. *)
Definition told (n : string) (w : AgentWorld) : Prop :=
  Forall (fun p => exists log r body, (log ++ [r]) `prefix_of` aw_sent w /\
    cr_body r = PostMetrics p /\ classify (network_answer (log ++ [r])) = Accepted body)
    (aw_accepted w) /\
  aw_executed w `sublist_of` handed n (aw_sent w).

Lemma told_accepted n w reqs p w' :
  told n w -> aw_sent w' = aw_sent w ++ reqs ->
  aw_accepted w' = aw_accepted w ++ option_list p ->
  match p with
  | Some p => exists log r body, log ++ [r] = aw_sent w' /\ cr_body r = PostMetrics p /\
      classify (network_answer (log ++ [r])) = Accepted body
  | None => True
  end ->
  aw_executed w' = aw_executed w -> told n w'.
Proof.
  intros [Ha He] Hs Hacc Hp Hex. split.
  - rewrite Hacc. apply Forall_app. split.
    + eapply Forall_impl; [exact Ha|]. intros x (log & r & body & Hpre & Hx).
      exists log, r, body. split; [|done]. rewrite Hs. by apply prefix_app_r.
    + destruct p as [p|]; [|constructor]. constructor; [|constructor].
      destruct Hp as (log & r & body & Hl & Hx). exists log, r, body. split; [by rewrite Hl|done].
  - rewrite Hex, Hs, handed_app. by apply sublist_inserts_r.
Qed.

Lemma told_same n w w' : told n w -> same_traffic w w' -> told n w'.
Proof.
  intros Ht (Hs & Ha & _ & He). apply (told_accepted n w [] None); try done.
  - by rewrite app_nil_r.
  - by rewrite app_nil_r.
Qed.

(** A run of equal requests hands out what its last answer carries. *)
Lemma handed_attempts n log r k :
  (forall i, (i < k)%nat -> classify (network_answer (log ++ replicate (S i) r)) = Retry) ->
  handed n (log ++ replicate (S k) r) = handed n log ++ push_ids n (log ++ replicate k r) r.
Proof.
  intros Hk. replace (S k) with (k + 1)%nat by lia. rewrite replicate_add, app_assoc, handed_app.
  simpl. rewrite app_nil_r. f_equal.
  clear -Hk. induction k as [|k IH]; [by rewrite app_nil_r|].
  replace (S k) with (k + 1)%nat at 1 by lia. rewrite replicate_add, app_assoc, handed_app. simpl.
  rewrite IH by (intros i Hi; apply Hk; lia). unfold push_ids at 1.
  rewrite <- app_assoc, <- replicate_S_end, (Hk k) by lia.
  destruct (cr_body r); by rewrite !app_nil_r.
Qed.

(** A send: what it accepted was answered, and the ids of its acknowledgement were handed out. *)
Lemma told_send t n p w :
  told n w ->
  let '(res, w') := send t p w in
  told n w' /\
  match res with
  | Ok ack => np_node_id p = n -> exists log, handed n (aw_sent w') =
      log ++ (pa_action_id <$> ack_pending_actions ack) /\ aw_executed w' `sublist_of` log
  | Raise _ => True
  end.
Proof.
  intros Ht. pose proof (send_spec t p w) as Hs. destruct (send t p w) as [res w'].
  apply send_outcome_frame in Hs as (_ & Hex & _ & k & Hsent & Hretry & Hres).
  set (r := push_request t p) in *.
  assert (aw_sent w ++ replicate (S k) r = (aw_sent w ++ replicate k r) ++ [r]) as Hlast.
  { by rewrite replicate_S_end, app_assoc. }
  unfold attempt_verdict in Hretry, Hres. cbn [http on_network networked] in Hretry, Hres. split.
  - destruct res as [ack|e].
    + destruct Hres as [Hv Hacc]. apply (told_accepted n w _ (Some p) w' Ht Hsent Hacc); [|done].
      exists (aw_sent w ++ replicate k r), r, (Some ack). rewrite <- Hlast. done.
    + destruct Hres as [(Hv & Hacc & _)|[_ Hacc]].
      * apply (told_accepted n w _ (Some p) w' Ht Hsent Hacc); [|done].
        exists (aw_sent w ++ replicate k r), r, None. rewrite <- Hlast. done.
      * apply (told_accepted n w _ None w' Ht Hsent); [by rewrite app_nil_r|done|done].
  - destruct res as [ack|e]; [|done]. intros <-. destruct Hres as [Hv _].
    exists (handed (np_node_id p) (aw_sent w)). rewrite Hex, Hsent. split; [|apply Ht].
    rewrite handed_attempts by done. unfold push_ids. rewrite <- Hlast, Hv.
    change (cr_body r) with (PostMetrics p). cbn iota beta. by rewrite bool_decide_true.
Qed.

Lemma handed_reports n log reqs :
  Forall (fun r => is_report r = true) reqs -> handed n (log ++ reqs) = handed n log.
Proof.
  intros Hr. rewrite handed_app. rewrite <- (app_nil_r (handed n log)) at 2. f_equal.
  revert log. induction Hr as [|r l Hr Hl IH]; intros log; [done|]. simpl. rewrite IH, app_nil_r.
  unfold push_ids. unfold is_report in Hr. by destruct (cr_body r).
Qed.

(** Acting on the acknowledgement of a push of the node. *)
Lemma told_acted n w w' log ids l :
  told n w -> acted ids w w' -> ids `prefix_of` l ->
  handed n (aw_sent w) = log ++ l -> aw_executed w `sublist_of` log -> told n w'.
Proof.
  intros [Ha _] (Hacc & Hex & reqs & Hs & Hr) Hp Hh Hsub. split.
  - rewrite Hacc. eapply Forall_impl; [exact Ha|]. intros x (lg & r & body & Hpre & Hx).
    exists lg, r, body. split; [|done]. rewrite Hs. by apply prefix_app_r.
  - rewrite Hex, Hs, handed_reports, Hh by done. apply sublist_app; [done|].
    destruct Hp as [rest ->]. apply sublist_inserts_r. done.
Qed.

Section scheduler.
Context (s : AgentScheduler) (Hreads : reading_only s).
Notation n := (_node_id s).

Lemma told_enqueue b l w : told n w -> told n (snd (a_iter (enqueue b) l w)).
Proof. intros Ht. eapply told_same; [exact Ht|apply enqueue_all_traffic]. Qed.

Lemma told_redeliver batch w : told n w -> told n (snd (redeliver s batch w)).
Proof.
  revert w. induction batch as [|p batch IH]; intros w Ht; [done|]. cbn [redeliver].
  pose proof (told_send (_transport s) n p w Ht) as Hs.
  destruct (send (_transport s) p w) as [[ack|e] w1]; destruct Hs as [Hs _]; [by apply IH|].
  destruct (is_fatal e); [by apply IH|]. destruct (is_transport e); [|done].
  by apply (told_enqueue _ (p :: batch)).
Qed.

Lemma told_deliver p w : told n w -> np_node_id p = n -> told n (snd (_deliver s p w)).
Proof.
  intros Ht Hp. unfold _deliver. pose proof (told_send (_transport s) n p w Ht) as Hs.
  destruct (send (_transport s) p w) as [[ack|e] w1]; destruct Hs as [Ht1 Hs].
  - destruct (Hs Hp) as (log & Hh & Hsub). destruct (pending_acted s ack w1) as (ids & Hpre & Hact).
    by eapply told_acted.
  - destruct (is_fatal e); [done|]. destruct (is_transport e); [|done].
    exact (told_same _ _ _ Ht1 (enqueue_traffic (_buffer s) p w1)).
Qed.

Lemma told_run_once w : told n w -> told n (snd (run_once s w)).
Proof.
  intros Ht. unfold run_once, mbind, AM_bind.
  assert (told n (snd (_drain_buffer s w))) as H1.
  { unfold _drain_buffer, mbind, AM_bind.
    pose proof (told_same n _ _ Ht (drain_traffic (_buffer s) DEFAULT_BUFFER_DRAIN_BATCH_SIZE w)) as H1.
    destruct (drain _ _ w) as [[batch|e] w1]; [by apply told_redeliver|done]. }
  destruct (_drain_buffer s w) as [[u|e] w1]; [|done].
  destruct (collect_reads s w1 Hreads) as (p & w2 & -> & Hn & _ & Hsame).
  apply told_deliver; [|done]. by eapply told_same.
Qed.

Lemma told_run stops w : told n w -> told n (snd (run_forever s stops w)).
Proof.
  revert w. induction stops as [|[] stops IH]; intros w Ht; [done..|]. simpl.
  unfold mbind, AM_bind. pose proof (told_run_once w Ht) as H1.
  destruct (run_once s w) as [[u|e] w1]; [|done]. unfold time_sleep.
  destruct (is_nan _); [done|]. destruct (negb _); [done|]. destruct (flt _ _); [done|].
  apply IH. by eapply told_same.
Qed.

End scheduler.

(** ** The results reported *)

(** A result counted as accepted was a report answered below 400. *)
Definition reported (w : AgentWorld) : Prop :=
  Forall (fun ir => exists log r body, (log ++ [r]) `prefix_of` aw_sent w /\
    cr_body r = PostResult ir.1 ir.2 /\ classify (network_answer (log ++ [r])) = Accepted body)
    (aw_reports w).

Lemma reported_later w w' reqs :
  reported w -> aw_sent w' = aw_sent w ++ reqs -> aw_reports w' = aw_reports w -> reported w'.
Proof.
  intros Hr Hs He. unfold reported. rewrite He. eapply Forall_impl; [exact Hr|].
  intros ir (log & r & body & Hpre & Hx). exists log, r, body. split; [|done]. rewrite Hs.
  by apply prefix_app_r.
Qed.

Lemma reported_same w w' : reported w -> same_traffic w w' -> reported w'.
Proof. intros Hr (Hs & _ & He & _). apply (reported_later w w' []); [done|by rewrite app_nil_r|done]. Qed.

Lemma reported_once t id res w : reported w -> reported (snd (_report_action_result_once t id res w)).
Proof.
  intros Hr. unfold _report_action_result_once, _post, mbind, AM_bind.
  set (r := request_to t _ (PostResult id res)).
  assert (reported (posted r w)) as Hp by by apply (reported_later w _ [r]).
  cbn [http on_network networked]. destruct (network_answer (aw_sent (posted r w)))
    as [st body| | |name] eqn:Ea; [|done..].
  destruct (HTTP_SERVER_ERROR_THRESHOLD <=? st) eqn:E5; [done|].
  destruct (HTTP_CLIENT_ERROR_THRESHOLD <=? st) eqn:E4; [done|].
  apply Forall_app. split; [exact Hp|]. constructor; [|constructor].
  exists (aw_sent w), r, body. split; [done|]. split; [done|].
  change (aw_sent w ++ [r]) with (aw_sent (posted r w)). rewrite Ea. simpl. by rewrite E5, E4.
Qed.

Lemma reported_send t p w : reported w -> reported (snd (send t p w)).
Proof.
  intros Hr. pose proof (send_spec t p w) as Hs. destruct (send t p w) as [res w'].
  apply send_outcome_frame in Hs as (_ & _ & He & k & Hs & _).
  by apply (reported_later w w' (replicate (S k) (push_request t p))).
Qed.

Section reporting.
Context (s : AgentScheduler) (Hreads : reading_only s).

Lemma reported_enqueue b l w : reported w -> reported (snd (a_iter (enqueue b) l w)).
Proof. intros Hr. eapply reported_same; [exact Hr|apply enqueue_all_traffic]. Qed.

Lemma reported_redeliver batch w : reported w -> reported (snd (redeliver s batch w)).
Proof.
  revert w. induction batch as [|p batch IH]; intros w Hr; [done|]. cbn [redeliver].
  pose proof (reported_send (_transport s) p w Hr) as Hs.
  destruct (send (_transport s) p w) as [[ack|e] w1]; [by apply IH|].
  destruct (is_fatal e); [by apply IH|]. destruct (is_transport e); [|done].
  by apply (reported_enqueue _ (p :: batch)).
Qed.

Lemma reported_pending ack w : reported w -> reported (snd (_execute_pending_actions s ack w)).
Proof.
  unfold _execute_pending_actions. destruct (_executor s) as [allowed|]; [|done].
  revert w. induction (ack_pending_actions ack) as [|a l IH]; intros w Hr; [done|].
  simpl. unfold mbind, AM_bind.
  destruct (execute_total_data allowed a w) as (res & w1 & -> & Hsame).
  assert (reported w1) as Hr1.
  { apply (reported_same (note_executed (pa_action_id a) w) w1); [exact Hr|done]. }
  assert (reported (snd (_report_action_result s (pa_action_id a) res w1))) as Hr2.
  { unfold _report_action_result, a_try, report_action_result.
    pose proof (retrying_keeps reported (_retry_attempts (_transport s))
      (_report_action_result_once (_transport s) (pa_action_id a) res) w1
      (reported_once (_transport s) (pa_action_id a) res) Hr1) as Hk.
    destruct (retrying unit _ _ w1) as [[u|e] w2]; [done|by destruct (is_transport e)]. }
  destruct (_report_action_result s (pa_action_id a) res w1) as [[u|e] w2]; [by apply IH|done].
Qed.

Lemma reported_run stops w : reported w -> reported (snd (run_forever s stops w)).
Proof.
  revert w. induction stops as [|[] stops IH]; intros w Hr; [done..|]. simpl.
  unfold mbind, AM_bind.
  assert (reported (snd (run_once s w))) as Hr1.
  { unfold run_once, mbind, AM_bind.
    assert (reported (snd (_drain_buffer s w))) as H1.
    { unfold _drain_buffer, mbind, AM_bind.
      pose proof (reported_same _ _ Hr (drain_traffic (_buffer s) DEFAULT_BUFFER_DRAIN_BATCH_SIZE w)) as H1.
      destruct (drain _ _ w) as [[batch|e] w1]; [by apply reported_redeliver|done]. }
    destruct (_drain_buffer s w) as [[u|e] w1]; [|done].
    destruct (collect_reads s w1 Hreads) as (p & w2 & -> & _ & _ & Hsame).
    pose proof (reported_same _ _ H1 Hsame) as H2. unfold _deliver.
    pose proof (reported_send (_transport s) p w2 H2) as H3.
    destruct (send (_transport s) p w2) as [[ack|e] w3]; [by apply reported_pending|].
    destruct (is_fatal e); [done|]. destruct (is_transport e); [|done].
    exact (reported_same _ _ H3 (enqueue_traffic (_buffer s) p w3)). }
  destruct (run_once s w) as [[u|e] w1]; [|done]. unfold time_sleep.
  destruct (is_nan _); [done|]. destruct (negb _); [done|]. destruct (flt _ _); [done|].
  apply IH. by eapply reported_same.
Qed.

End reporting.

(** An Agent's process that starts: nothing sent yet, whatever its disk holds. *)
Definition fresh_agent (w : AgentWorld) : Prop :=
  aw_sent w = [] /\ aw_accepted w = [] /\ aw_reports w = [] /\ aw_executed w = [].

Lemma fresh_told n w : fresh_agent w -> told n w.
Proof.
  intros (Hs & Ha & _ & He). split; [rewrite Ha; constructor|]. rewrite He.
  apply sublist_nil_l.
Qed.

Lemma built_reads settings : reading_only (scheduler_of settings).
Proof. apply default_collectors_frame. by intros w. Qed.

(** Building the buffer sends nothing. *)
Lemma init_traffic path m w : same_traffic w (snd (FileBuffer_init path m w)).
Proof. apply init_creates. Qed.

Lemma told_main settings signals w :
  told (node_id settings) w -> told (node_id settings) (snd (agent_main settings signals w)).
Proof.
  intros Ht. unfold agent_main, mbind, AM_bind. rewrite build_scheduler_run.
  pose proof (told_same _ _ _ Ht (init_traffic (buffer_path settings) (buffer_max_entries settings) w))
    as H1.
  destruct (FileBuffer_init _ _ w) as [[b|e] w1]; [|done].
  exact (told_run (scheduler_of settings) (built_reads settings) (stop_answers false signals) w1 H1).
Qed.

Lemma told_lives n lives w : of_node n lives -> told n w -> told n (agent_lives lives w).
Proof.
  intros Hn. revert w. induction Hn as [|[settings signals] lives Hs Hn IH]; intros w Ht; [done|].
  simpl in Hs. subst n. apply IH. by apply told_main.
Qed.

Lemma reported_main settings signals w :
  reported w -> reported (snd (agent_main settings signals w)).
Proof.
  intros Hr. unfold agent_main, mbind, AM_bind. rewrite build_scheduler_run.
  pose proof (reported_same _ _ Hr (init_traffic (buffer_path settings) (buffer_max_entries settings) w))
    as H1.
  destruct (FileBuffer_init _ _ w) as [[b|e] w1]; [|done].
  exact (reported_run (scheduler_of settings) (built_reads settings) (stop_answers false signals) w1 H1).
Qed.

Lemma reported_lives lives w : reported w -> reported (agent_lives lives w).
Proof.
  revert w. induction lives as [|[settings signals] lives IH]; intros w Hr; [done|]. apply IH.
  by apply reported_main.
Qed.

(** ** A network that only delays *)

Lemma report_routed t id res :
  routed (report_request t id res) = Some (ReportResult id res).
Proof.
  unfold routed, report_request, request_to. cbn [cr_body cr_endpoint]. rewrite bool_decide_true; [done|].
  unfold report_remediation_action_result_path, _REMEDIATION_ACTIONS_ENDPOINT.
  generalize (pretty id). intros x. reflexivity.
Qed.

Lemma push_routed t p : routed (push_request t p) = Some (ReceiveMetrics p).
Proof. done. Qed.

(** No failure outside time-outs and refused connections. *)
Definition only_delays : Prop := forall i name, fate_failure (fate i) <> Some (Broken name).

Lemma arrive_no_crash r p name : classify (snd (arrive r p)) <> Crash name.
Proof.
  unfold arrive. destruct (routed r) as [request|]; [|done].
  destruct (collector_handle _ _ _ _ _) as [[resp|e] w]; [|done]. simpl.
  destruct (_ <=? _); [done|]. by destruct (_ <=? _).
Qed.

(** With a token the Collector knows, the network is calm for the Agent. *)
Lemma network_calm s :
  only_delays ->
  verify_api_token (token_order (token_set (app_settings app)))
    (bearer (_authorization (_transport s))) = Ok tt ->
  calm s.
Proof.
  intros Hd Htok. split; cbn [http on_network networked].
  - intros log name. destruct log as [|r log _] using rev_ind; [done|].
    rewrite network_answer_snoc. unfold serve. pose proof (Hd (length log) name) as Hf.
    destruct (fate (length log)) as [|f|f]; simpl; [apply arrive_no_crash|..];
      destruct f; simpl; try done; intros [= ->]; by apply Hf.
  - intros log p. rewrite network_answer_snoc. unfold serve.
    destruct (healthy_events (background (length log)) _ (healthy_log log)) as [Hp _].
    pose proof (arrive_push (push_request (_transport s) p) p _ eq_refl Hp) as Ha.
    destruct (fate (length log)) as [|f|f] eqn:Ef; simpl.
    + destruct (arrive _ _) as [pr' o]. simpl.
      destruct Ha as [(ack & db1 & -> & _)|[[Hr _]|[_ [Hr|Hr]]]]; [right; by exists ack|by left|done|].
      by destruct (Hr Htok).
    + destruct f as [| |name]; [by left..|]. destruct (Hd (length log) name). by rewrite Ef.
    + destruct f as [| |name]; [by left..|]. destruct (Hd (length log) name). by rewrite Ef.
Qed.

(** Once every message arrives at a Collector whose database answers, pushes are
    acknowledged. *)
Lemma network_prompt s m :
  Healthy -> (forall i, (m <= i)%nat -> fate i = Answered) ->
  verify_api_token (token_order (token_set (app_settings app)))
    (bearer (_authorization (_transport s))) = Ok tt ->
  prompt s m.
Proof.
  intros Hh Hf Htok log p Hl. cbn [http on_network networked]. rewrite network_answer_snoc.
  unfold serve. rewrite (Hf (length log) Hl).
  destruct (healthy_events (background (length log)) _ (healthy_log log)) as [Hp _].
  pose proof (arrive_push (push_request (_transport s) p) p _ eq_refl Hp) as Ha.
  destruct (arrive _ _) as [pr' o].
  destruct Ha as [(ack & db1 & -> & _)|[(_ & [Hno|Hr])|[_ [Hr|Hr]]]]; [by exists ack|done| |done|];
    by destruct (Hr Htok).
Qed.

Lemma accepted_stored n w :
  spares_samples app -> told n w ->
  Forall (fun p => Forall (fun x => stored p x (db_of (aw_sent w))) (np_samples p))
    (aw_accepted w).
Proof.
  intros Hret [Ha _]. eapply Forall_impl; [exact Ha|].
  intros p (log & r & body & [rest Hpre] & Hb & Hc). apply Forall_forall. intros x Hx.
  rewrite Hpre. by eapply settled_stored, settled_later, answered_push_settled.
Qed.

End composed.
End system.

(** ** Properties *)

Section system_properties.
Context `{E : Env} (token_order : gset string -> list string) (app : App).
Context (bearer : option string -> option string).
Context (fate : nat -> Fate) (background : nat -> list Event) (A : AgentEnv).

Abbreviation network := (on_network token_order app bearer fate background A).
Abbreviation database := (db_of token_order app bearer fate background).

(** C13: what the Agent counts as delivered is in the Collector's database: over any number of
    runs of the Agent's process on its node, each ended by a signal between two cycles or by an
    exception, whatever requests and answers the network loses and whatever else the Collector
    serves meanwhile, every sample of every payload that was answered below 400 is stored as it
    was collected, as long as no retention job is scheduled or the run is shorter than the time
    samples are retained. *)
Theorem accepted_payloads_are_stored n lives w :
  spares_samples app -> of_node n lives -> fresh_agent w ->
  let w' := @agent_lives network lives w in
  Forall (fun p => Forall (fun x => stored p x (database (aw_sent w'))) (np_samples p))
    (aw_accepted w').
Proof.
  intros Hret Hn Hfresh. apply (accepted_stored _ _ _ _ _ n); [done|].
  apply (told_lives token_order app bearer fate background A n lives w Hn), fresh_told, Hfresh.
Qed.

(** C12: an action is executed at most once.  Over any number of runs of the Agent's process on
    its node, each ended by a signal between two cycles or by an exception, on a network that
    may lose any request or answer, so that the Agent repeats requests the Collector has
    handled: as long as no retention job is scheduled, no action is handed to the executor
    twice, and each that was is a row of the Collector's database, for this node. *)
Theorem actions_execute_at_most_once n lives w :
  app_prunes app = false -> of_node n lives -> fresh_agent w ->
  let w' := @agent_lives network lives w in
  NoDup (aw_executed w') /\
  Forall (fun id => exists row, remediation_actions (database (aw_sent w')) !! id = Some row /\
    rm_node_id row = n) (aw_executed w').
Proof.
  intros Hret Hn Hfresh w'.
  destruct (told_lives token_order app bearer fate background A n lives w Hn
    (fresh_told _ _ _ _ _ _ w Hfresh)) as [_ Hsub]. fold w' in Hsub.
  destruct (handed_rows token_order app bearer fate background Hret n (aw_sent w')) as [Hnd Hrows].
  split; [by eapply sublist_NoDup|]. rewrite Forall_forall in Hrows. apply Forall_forall.
  intros id Hid. apply Hrows. eapply elem_of_submseteq; [exact Hid|by apply sublist_submseteq].
Qed.

(** C15: results that were acknowledged are recorded: as long as no retention job is scheduled,
    over any number of runs of the Agent's process on this network, every result whose report
    was answered below 400 is the final outcome of its action in the Collector's database. *)
Theorem accepted_results_are_recorded lives w :
  app_prunes app = false -> fresh_agent w ->
  let w' := @agent_lives network lives w in
  Forall (fun ir => exists row,
    remediation_actions (database (aw_sent w')) !! ir.1 = Some row /\
    rm_status row = _RESULT_STATUS_TO_ACTION_STATUS (res_status ir.2) /\
    rm_reason row = res_message ir.2) (aw_reports w').
Proof.
  intros Hret (_ & _ & Hrep & _) w'.
  assert (reported token_order app bearer fate background w') as Hr.
  { apply (reported_lives token_order app bearer fate background A). unfold reported. rewrite Hrep.
    constructor. }
  eapply Forall_impl; [exact Hr|].
  intros ir (log & rq & body & [rest Hpre] & Hb & Hc). rewrite Hpre. by eapply answered_report.
Qed.

(** C14: nothing is lost.  When the network fails by time-outs and refused connections only,
    the Agent's token is one the Collector knows, its disk always works and the wait between
    two cycles never fails, every payload it collects is one the buffer file preserves, its
    buffer has room and lies outside the directories it may clear, and no retention job is
    scheduled or the run is shorter than the time samples are retained, then any number of
    cycles end normally, and the payloads buffered at the start and the ones collected since
    are exactly those the Collector accepted, whose samples it has stored, and those still
    buffered, each as often as it was.  A partition that heals is made up for: when the
    database answers and every message arrives after the first [m] cycles, the buffer is empty
    as soon as the other cycles suffice, fifty payloads each, for all that was in it or was
    collected in the meantime. *)
Theorem nothing_is_lost settings n q w :
  spares_samples app -> fresh_agent w -> only_delays fate ->
  verify_api_token (token_order (token_set (app_settings app)))
    (bearer (_authorization (_transport (@scheduler_of network settings)))) = Ok tt ->
  (forall n, @fs_ok A n = true) -> @buffer_apart network (@scheduler_of network settings) ->
  (forall w p w', _collect (@scheduler_of network settings) w = (Ok p, w') ->
     @storable network p) ->
  (forall w, time_sleep (collection_interval_seconds settings) w = (Ok tt, tick w)) ->
  @holds network (@settings_place network settings) w q ->
  Z.of_nat (length q) + Z.of_nat n <= buffer_max_entries settings ->
  exists fresh q' w', @agent_main network settings (replicate n false) w = (Ok tt, w') /\
    length fresh = n /\ Forall (fun p => np_node_id p = node_id settings) fresh /\
    @holds network (@settings_place network settings) w' q' /\ q ++ fresh ≡ₚ aw_accepted w' ++ q' /\
    Forall (fun p => Forall (fun x => stored p x (database (aw_sent w'))) (np_samples p))
      (aw_accepted w') /\
    forall m, (m <= n)%nat -> Healthy ->
      let before := snd (@agent_main network settings (replicate m false) w) in
      (forall i, (length (aw_sent before) <= i)%nat -> fate i = Answered) ->
      (length q + m <= 50 * (n - m))%nat -> q' = [].
Proof.
  intros Hret Hfresh Hdelays Htoken Hfs Hap Hst Hsleep Hq Hroom.
  set (s := @scheduler_of network settings).
  pose proof (network_calm token_order app bearer fate background A s Hdelays Htoken) as Hcalm.
  destruct (cycles_conserve s Hcalm Hfs Hap n q w (built_reads _ _ _ _ _ A settings) Hst Hsleep Hq Hroom)
    as (fresh & acc & q' & w' & Hrun & Hlen & Hn & Hq' & Ha & Hperm & Hheal).
  pose proof (told_run token_order app bearer fate background A s (built_reads _ _ _ _ _ A settings)
    (replicate n false) w (fresh_told _ _ _ _ _ _ w Hfresh)) as Ht.
  rewrite Hrun in Ht. destruct Hfresh as (_ & Hacc0 & _). rewrite Hacc0 in Ha. simpl in Ha.
  exists fresh, q', w'. rewrite Ha. split.
  { by rewrite (agent_main_starts _ _ _ q), no_signal. }
  split; [done|]. split; [done|]. split; [done|]. split; [done|]. rewrite <- Ha.
  split; [by apply (accepted_stored _ _ _ _ _ (node_id settings))|].
  intros m Hm Hh before Hf Hl. apply (Hheal m Hm); [|done].
  unfold before in Hf. rewrite (agent_main_starts _ _ _ q), no_signal in Hf by done. fold s in Hf.
  by apply (network_prompt token_order app bearer fate background A s).
Qed.

End system_properties.
