(* ===== verification/Settlement.v ===== *)
(** * The closed loop of remediation

    A dispatched action leaves the Collector in the acknowledgement of a push, is executed by
    the node's Agent, and comes back as a result.  When every message arrives and the
    database answers, the loop closes within the cycle that opened it: the acknowledgement
    names every action the push dispatched, the Agent executes each of them once, and each
    report finds its action and completes it. *)

From S2P Require Import Prelude PyFloat PyTime PyStr Domain Schema Runtime Protocols Tables.
From S2P Require Import SqlNodeRepository SqlAlertRepository SqlMetricsRepository.
From S2P Require Import SqlActionRepository Rules Remediation Notifications.
From S2P Require Import Lifecycle Invariants Conformance Settings NodeRegistry.
From S2P Require Import RemediationService Alerting Ingestion Dispatch Progress.
From S2P Require Import Interference Guarantees JobScheduler Routes Api Collector Concurrent.
From S2P Require Import Disk AgentRuntime Files Buffer Transport Executor AgentConfig Agent AgentMain.
From S2P Require Import Delivery System.

Local Open Scope Z_scope.

(** ** The acknowledgement names every action dispatched *)

(** An action of [db'] is one of [db], or blocked, or among [ids]. *)
Definition announced (ids : list Z) (db db' : Db) : Prop :=
  forall k r, remediation_actions db' !! k = Some r ->
    remediation_actions db !! k = Some r \/ rm_status r = BLOCKED_BY_SAFETY_LIMIT \/ k ∈ ids.

Lemma announced_same ids db db' :
  remediation_actions db' = remediation_actions db -> announced ids db db'.
Proof. intros Hr k r. rewrite Hr. auto. Qed.

Lemma announced_trans ids ids' db db1 db2 :
  announced ids db db1 -> announced ids' db1 db2 -> announced (ids ++ ids') db db2.
Proof.
  intros H1 H2 k r Hk. destruct (H2 k r Hk) as [Hk1|[?|?]]; [|by auto|by right; right; set_solver].
  destruct (H1 k r Hk1) as [?|[?|?]]; [by auto..|right; right; set_solver].
Qed.

Section announcing.
Context `{E : Env, !NodeRepository, !MetricsRepository, !AlertRepository,
          !RemediationActionRepository}.
Context (s : AlertEvaluationService) (Hhealthy : Healthy).

Lemma remediate_announces node_id key id a t db rec d db' :
  remediate_outcome s node_id key id a t db (Ok (rec, d)) db' ->
  announced (rr_id <$> option_list d) db db'.
Proof.
  unfold remediate_outcome. destruct (_remediation_engine s) as [e|];
    [|intros [_ ->]; by apply announced_same].
  destruct (negb _); [intros [_ ->]; by apply announced_same|].
  case_match; [|intros [_ ->]; by apply announced_same].
  intros (action & db1 & (k & reason & _ & _ & -> & -> & _) & -> & _ & ->) k' r'. simpl.
  intros [[<- <-]|[_ ?]]%lookup_insert_Some; [right|by left].
  destruct reason as [x|]; simpl; [by left|right; set_solver].
Qed.

Lemma apply_announces node_id result t w view d w' :
  apply_outcome s node_id result t w view d w' ->
  announced (rr_id <$> option_list d) (w_db w) (w_db w').
Proof.
  intros (o & _ & Ho). destruct o as [[id a]|]; destruct (breached result).
  - destruct Ho as (rec & Hr & _). by eapply remediate_announces in Hr.
  - destruct Ho as [-> _]. by apply announced_same.
  - destruct Ho as (id & _ & -> & _). by apply announced_same.
  - destruct Ho as [-> _]. by apply announced_same.
Qed.

Lemma fold_announces node_id t db0 results acc w :
  base (w_db w) -> is_Some (nodes (w_db w) !! node_id) ->
  (exists h, datetime_sub t (hours 1) = inl h) ->
  announced (rr_id <$> dispatched_actions acc) db0 (w_db w) ->
  wp (m_fold (apply_result s node_id t) acc results) (fun r w' => exists o, r = Ok o /\
    announced (rr_id <$> dispatched_actions o) db0 (w_db w')) w.
Proof.
  intros Hb Hn Hh. revert acc w Hb Hn.
  induction results as [|result results IH]; intros acc w Hb Hn Hacc; simpl; [apply wp_ret; eauto|].
  apply wp_bind. unfold apply_result. wp_step (apply_total s Hhealthy); [done..|].
  intros res w1 (view & d & -> & Hout & Hb1 & Hn1). apply wp_ret. apply IH; [done..|].
  simpl. rewrite fmap_app. eapply announced_trans; [exact Hacc|by eapply apply_announces].
Qed.

(** With a database that answers, a push is acknowledged, and the acknowledgement names all
    it dispatched. *)
Lemma ingest_announces stale_after payload w :
  base (w_db w) -> (exists h, datetime_sub (np_collected_at payload) (hours 1) = inl h) ->
  wp (ingest stale_after (Some s) payload) (fun r w' => exists ack, r = Ok ack /\
    announced (pa_action_id <$> ack_pending_actions ack) (w_db w) (w_db w')) w.
Proof.
  intros Hb Hh. unfold ingest. apply wp_bind. unfold wp at 1. simpl. wp_step record_seen_spec.
  intros [v|e] w1 [_ Hr1]; [|destruct Hr1 as (_ & _ & []); split; [done|apply Hb]].
  destruct Hr1 as (now & Hdb1 & _). simpl in Hdb1.
  assert (base (w_db w1)) as Hb1.
  { rewrite Hdb1. eapply (base_stable (lifecycle_config s) False); [exact Hb|apply step_seen]. }
  assert (is_Some (nodes (w_db w1) !! np_node_id payload)) as Hn1.
  { rewrite Hdb1. apply lookup_insert_is_Some'. by left. }
  wp_step bulk_insert_writes.
  intros [u|e] w2 [_ Hr2]; [|destruct Hr2 as (_ & _ & []); split; [done|]; split; [apply Hb1|done]].
  destruct Hr2 as (ids & Hl & Hnd & Hfresh & Hdb2).
  assert (base (w_db w2) /\ is_Some (nodes (w_db w2) !! np_node_id payload)) as [Hb2 Hn2].
  { rewrite Hdb2. split; [|done].
    eapply (base_stable (lifecycle_config s) False); [exact Hb1|by apply step_samples]. }
  assert (forall ids, announced ids (w_db w) (w_db w2)) as Hnone.
  { intros l. apply announced_same. rewrite Hdb2. simpl. by rewrite Hdb1. }
  apply wp_bind. unfold _evaluate_rules_best_effort. apply wp_try, wp_bind.
  unfold evaluate_and_apply. wp_step evaluate_same. intros [results|e] w3 [Hdb3 _].
  2: { apply wp_ret. apply wp_ret. eexists. split; [done|]. rewrite Hdb3. apply Hnone. }
  rewrite <- Hdb3 in Hb2, Hn2, Hnone. eapply wp_mono; [by apply (fold_announces _ _ (w_db w))|].
  intros r w4 (o & -> & Ho). do 2 apply wp_ret. eexists. split; [done|]. simpl.
  rewrite <- list_fmap_compose. exact Ho.
Qed.

End announcing.

(** ** What others leave of a node's actions *)

(** No action of the node [n] is new, and those there are persist. *)
Definition undisturbed (n : string) (db db' : Db) : Prop :=
  forall k r', remediation_actions db' !! k = Some r' -> rm_node_id r' = n ->
    exists r, remediation_actions db !! k = Some r /\ action_persists r r'.

#[export] Instance undisturbed_preorder n : PreOrder (undisturbed n).
Proof.
  split; [intros db k r' Hk _; exists r'; split; [done|reflexivity]|].
  intros db1 db2 db3 H12 H23 k r3 Hk Hn. destruct (H23 k r3 Hk Hn) as (r2 & Hk2 & Hp2).
  destruct (H12 k r2 Hk2) as (r1 & Hk1 & Hp1); [by rewrite <- (proj1 (proj1 Hp2))|].
  exists r1. split; [done|by etrans].
Qed.

Lemma rely_undisturbed `{E : Env} c n db db' :
  lc_retention c = false -> rely c (PushOf n) db db' -> undisturbed n db db'.
Proof.
  intros Hret (Hm & _ & _ & Hacts) k r' Hk Hn.
  destruct (Hacts k r' Hk) as (r & Hr & _); [by rewrite Hn|].
  destruct (moves_action c Hret _ _ _ _ Hm Hr) as (r'' & Hr'' & Hp). exists r. by simplify_eq.
Qed.

(** Every action of [n] is blocked, or still to be executed ([ids]), or was executed and has
    its outcome. *)
Definition accounted (n : string) (executed ids : list Z) (db : Db) : Prop :=
  forall k r, remediation_actions db !! k = Some r -> rm_node_id r = n ->
    rm_status r = BLOCKED_BY_SAFETY_LIMIT \/ k ∈ ids \/
    (k ∈ executed /\ rm_status r <> DISPATCHED).

Lemma accounted_undisturbed n executed ids db db' :
  accounted n executed ids db -> undisturbed n db db' -> accounted n executed ids db'.
Proof.
  intros Ha Hu k r' Hk Hn. destruct (Hu k r' Hk Hn) as (r & Hr & (Hnode & _) & Hb & Hd).
  destruct (Ha k r Hr) as [?|[?|[? ?]]]; [congruence|left; by apply Hb|auto..].
Qed.

Lemma accounted_announced n executed ids db db' :
  accounted n executed [] db -> announced ids db db' -> accounted n executed ids db'.
Proof.
  intros Ha Hu k r Hk Hn. destruct (Hu k r Hk) as [Hr|[?|?]]; [|by auto..].
  destruct (Ha k r Hr Hn) as [?|[[]%not_elem_of_nil|?]]; auto.
Qed.

Lemma accounted_more n executed executed' ids db :
  accounted n executed ids db -> executed ⊆ executed' -> accounted n executed' ids db.
Proof. intros Ha Hsub k r Hk Hn. destruct (Ha k r Hk Hn) as [?|[?|[? ?]]]; auto. Qed.

(** What a healthy Collector's database always is. *)
Definition lawful (db : Db) : Prop := sound db /\ matched db /\ attempted_once db.

Section collector_side.
Context `{E : Env} (Hhealthy : Healthy) (token_order : gset string -> list string) (app : App).
Context (Hretention : app_prunes app = false).

Abbreviation c := (lifecycle_config (get_alert_evaluation_service app)).

Lemma lawful_stable c' : stable c' (~ Healthy) lawful.
Proof.
  intros db db' (Hs & Hm & Ho) Hst. split; [by eapply sound_stable|].
  pose proof (proj2 (proj1 Hs)) as Hfk. split; [by eapply matched_step|].
  eapply attempted_once_step; [done..|]. destruct Hst; try (by econstructor); done.
Qed.

Lemma lawful_empty : lawful empty_db.
Proof.
  split; [apply sound_empty|]. split; [|apply attempted_once_empty].
  intros k r a Hk. simpl in Hk. by rewrite lookup_empty in Hk.
Qed.

Lemma lawful_consistent db : lawful db -> consistent db.
Proof. intros (Hs & Hm & _). split; [apply Hs|done]. Qed.

Lemma lawful_tok κ db : lawful db -> tok κ db.
Proof.
  intros Hl. split; [by apply lawful_consistent|]. destruct κ as [m| |]; [|done..].
  intros _ id a Ha _ Hrem _. by apply (proj1 (proj2 (proj2 Hl)) _ _ Ha).
Qed.

Lemma job_guaranteed job w :
  job <> RetentionJob -> consistent (w_db w) ->
  guar c Scheduler (w_db w)
    (w_db (snd (_run_contained (app_settings app) (app_notifier app) job w))).
Proof.
  intros Hj Hc. assert (forall work, work_kind work = Scheduler ->
    guar c Scheduler (w_db w) (w_db (snd (handled token_order app work w)))) as Hw.
  { intros work Hk. rewrite <- Hk. apply handled_guaranteed. by rewrite Hk. }
  rewrite run_contained_run. destruct job as [|first|]; [done|..].
  - specialize (Hw (SweepStaleness first) eq_refl). cbn [handled] in Hw.
    unfold mbind, M_bind in Hw. rewrite run_contained_run in Hw.
    unfold get_settings, get_notifier in Hw. by destruct (run_job _ _ _ w).
  - specialize (Hw SweepReconciliation eq_refl). cbn [handled] in Hw.
    unfold mbind, M_bind in Hw. rewrite run_contained_run in Hw.
    unfold get_settings, get_notifier in Hw. by destruct (run_job _ _ _ w).
Qed.

Lemma due_guaranteed now entries w :
  Forall (fun e => js_job (en_schedule e) <> RetentionJob) entries -> consistent (w_db w) ->
  guar c Scheduler (w_db w)
    (w_db (snd (run_due (app_settings app) (app_notifier app) now entries w))).
Proof.
  intros Hall. revert w. induction Hall as [|e rest He Hall IH]; intros w Hc; [reflexivity|].
  simpl. unfold mbind, M_bind. destruct (fle (en_next_due e) now).
  - pose proof (job_guaranteed _ w He Hc) as Hg.
    destruct (_run_contained _ _ _ w) as [[job|ex] w1]; [|exact Hg]. simpl in *.
    specialize (IH (bump w1) (consistent_moves _ _ _ _ Hc (proj1 Hg))).
    destruct (run_due _ _ now rest (bump w1)) as [[rest'|ex] w2]; by etrans.
  - simpl. specialize (IH w Hc). by destruct (run_due _ _ now rest w) as [[rest'|ex] w2].
Qed.

Lemma once_guaranteed schedules w :
  Forall (fun s => js_job s <> RetentionJob) schedules -> consistent (w_db w) ->
  guar c Scheduler (w_db w)
    (w_db (snd (run_all_once (app_settings app) (app_notifier app) schedules w))).
Proof.
  intros Hall. revert w. induction Hall as [|s rest Hs Hall IH]; intros w Hc; [reflexivity|].
  simpl. unfold mbind, M_bind. pose proof (job_guaranteed _ w Hs Hc) as Hg.
  destruct (_run_contained _ _ _ w) as [[job|ex] w1]; [|exact Hg]. simpl in *.
  specialize (IH w1 (consistent_moves _ _ _ _ Hc (proj1 Hg))).
  destruct (run_all_once _ _ rest w1) as [[rest'|ex] w2]; by etrans.
Qed.

(** The event is no push of [n]. *)
Definition other_than (n : string) (ev : Event) : Prop :=
  match ev with
  | HttpRequest _ (ReceiveMetrics payload) => np_node_id payload <> n
  | _ => True
  end.

Lemma event_rely n ev p :
  other_than n ev -> healthy_process app p -> lawful (w_db (p_world p)) ->
  rely c (PushOf n) (w_db (p_world p)) (w_db (p_world (run_event token_order app p ev))).
Proof.
  intros Hev [Hall _] Hl. pose proof (lawful_consistent _ Hl) as Hc.
  assert (Forall (fun e => js_job (en_schedule e) <> RetentionJob) (p_entries p)) as Hno.
  { eapply Forall_impl; [exact Hall|]. intros e He Hj. specialize (He Hj).
    simpl in He. congruence. }
  destruct ev as [cr rq| | |]; simpl.
  - pose proof (handled_guaranteed token_order app (HandleRequest cr rq) (p_world p)
      (lawful_tok _ _ Hl)) as Hg.
    cbn [handled] in Hg. unfold mbind, M_bind in Hg.
    destruct (collector_handle token_order app cr rq (p_world p)) as [r w].
    eapply guar_rely; [left|destruct r; exact Hg].
    destruct rq; simpl in *; congruence.
  - unfold scheduler_pass. simpl. unfold mbind, M_bind. simpl.
    pose proof (due_guaranteed (monotonic (S (w_tick (p_world p)))) (p_entries p)
      (bump (bump (p_world p))) Hno Hc) as Hg. simpl in Hg.
    apply (guar_rely c (PushOf n)) in Hg; [|by left].
    by destruct (run_due _ _ _ (p_entries p) _) as [[es|ex] w].
  - pose proof (once_guaranteed (en_schedule <$> p_entries p) (p_world p)
      ltac:(by apply Forall_fmap) Hc) as Hg.
    apply (guar_rely c (PushOf n)) in Hg; [|by left]. by destruct (run_all_once _ _ _ _) as [r w].
  - by rewrite boot_db.
Qed.

Lemma events_rely n events p :
  Forall (other_than n) events -> healthy_process app p -> lawful (w_db (p_world p)) ->
  rely c (PushOf n) (w_db (p_world p)) (w_db (p_world (run_events token_order app events p))).
Proof.
  intros Hall. revert p. induction Hall as [|ev events Hev Hall IH]; intros p Hp Hl; [reflexivity|].
  simpl. etrans; [by apply (event_rely n ev)|].
  destruct (healthy_events token_order app [ev] p Hp) as [Hp1 Hs1]. simpl in Hp1, Hs1.
  apply IH; [done|]. by eapply stable_rtc; [apply lawful_stable|done|].
Qed.

End collector_side.

(** ** A network that always answers *)

Section answering.
Context `{E : Env} (Hhealthy : Healthy) (token_order : gset string -> list string) (app : App).
Context (Hretention : app_prunes app = false).
Context (bearer : option string -> option string).
Context (fate : nat -> Fate) (background : nat -> list Event).
Context (Hanswered : forall i, fate i = Answered).
Context (n : string) (Hbackground : forall i, Forall (other_than n) (background i)).
Context (t : HttpTransport).
Context (Htoken : verify_api_token (token_order (token_set (app_settings app)))
                    (bearer (_authorization t)) = Ok tt).

Abbreviation database := (db_of token_order app bearer fate background).
Abbreviation before := (db_before token_order app bearer fate background).
Abbreviation answer := (network_answer token_order app bearer fate background).
Abbreviation process := (collector_after token_order app bearer fate background).
Abbreviation c := (lifecycle_config (get_alert_evaluation_service app)).

Lemma lawful_log log : lawful (database log).
Proof.
  eapply (stable_rtc _ _ _ _ _ (lawful_stable Hhealthy _)); [|exact (log_moves _ _ _ _ _ [] log)].
  unfold db_of. cbn. rewrite start_db. apply lawful_empty.
Qed.

Lemma lawful_before log : lawful (before log).
Proof.
  eapply (stable_rtc _ _ _ _ _ (lawful_stable Hhealthy _)); [apply lawful_log|apply before_moves].
Qed.

Lemma before_rely log : rely c (PushOf n) (database log) (before log).
Proof. by apply events_rely; [..|apply healthy_log|apply lawful_log]. Qed.

(** What the Collector makes of a request that arrives. *)
Lemma answered_routed log r request :
  routed r = Some request ->
  let p := run_events token_order app (background (length log)) (process log) in
  let '(res, w) := collector_handle token_order app (bearer (cr_authorization r)) request
                     (p_world p) in
  database (log ++ [r]) = w_db w /\
  answer (log ++ [r]) = match res with Ok resp => wire_response resp | Raise _ => HttpResponse 500 None end.
Proof.
  intros Hr p. unfold db_of. rewrite network_answer_snoc, collector_after_snoc. unfold serve.
  rewrite Hanswered. fold p. unfold arrive. rewrite Hr. by destruct (collector_handle _ _ _ _ _).
Qed.

(** A push does to the database what [ingest] does, and its acknowledgement comes back. *)
Lemma push_served p log (Q : Ack -> Db -> Prop) :
  (forall w, w_db w = before log ->
    wp (ingest (heartbeat_stale_after_seconds (app_settings app))
         (Some (get_alert_evaluation_service app)) p)
       (fun r w' => exists ack, r = Ok ack /\ Q ack (w_db w')) w) ->
  exists ack, answer (log ++ [push_request t p]) = HttpResponse 200 (Some ack) /\
    Q ack (database (log ++ [push_request t p])).
Proof.
  intros HQ. pose proof (answered_routed log (push_request t p) _ (push_routed t p)) as Ha.
  cbn zeta in Ha. unfold db_before in *. set (pr := run_events _ _ _ _) in *.
  destruct (collector_handle _ _ _ _ _) as [res w] eqn:Eh. destruct Ha as [-> ->].
  pose proof (handle_spec (app_settings app) (get_alert_evaluation_service app)
    (token_order (token_set (app_settings app))) (bearer (_authorization t)) (ReceiveMetrics p)
    (p_world pr)) as Hs. apply (wp_run _ _ _ _ _ Eh) in Hs. simpl in Hs. rewrite Htoken in Hs.
  unfold fmap, M_fmap, receive_metrics, mbind, M_bind in Hs.
  specialize (HQ (p_world pr) eq_refl). unfold wp in HQ.
  destruct (ingest _ _ p (p_world pr)) as [r w1]. destruct HQ as (ack & Hr & Hi).
  simpl in Hr, Hi. subst r. simpl in Hs. destruct Hs as [-> ->]. by exists ack.
Qed.

Lemma push_answered p log :
  (exists h, datetime_sub (np_collected_at p) (hours 1) = inl h) ->
  exists ack, answer (log ++ [push_request t p]) = HttpResponse 200 (Some ack) /\
    announced (pa_action_id <$> ack_pending_actions ack) (before log)
      (database (log ++ [push_request t p])).
Proof.
  intros Hh. pose proof (lawful_before log) as [[Hb _] _].
  apply (push_served p log (fun ack => announced (pa_action_id <$> ack_pending_actions ack) (before log))).
  intros w Hw. rewrite <- Hw in *. by apply ingest_announces.
Qed.

(** A report leaves its action with an outcome, its own or an earlier one, and the other
    actions of the node as they are; it is never to be repeated. *)
Lemma report_answered id res log :
  let log' := log ++ [report_request t id res] in
  (classify (answer log') = Reject \/ exists body, classify (answer log') = Accepted body) /\
  rely c (PushOf n) (database log) (database log') /\
  (forall row, remediation_actions (database log') !! id = Some row -> rm_status row <> DISPATCHED).
Proof.
  intros log'. pose proof (answered_routed log (report_request t id res) _ (report_routed t id res)) as Ha.
  cbn zeta in Ha. fold log' in Ha. pose proof (lawful_before log) as Hl.
  pose proof (before_rely log) as Hu. unfold db_before in *.
  destruct (healthy_events token_order app (background (length log)) _
    (healthy_log token_order app bearer fate background log)) as [Hp _].
  set (pr := run_events _ _ _ _) in *.
  pose proof (event_rely token_order app Hretention n
    (HttpRequest (bearer (_authorization t)) (ReportResult id res)) pr I Hp Hl) as He.
  simpl in He. simpl in Ha. destruct (collector_handle _ _ _ _ _) as [r w] eqn:Eh. simpl in He.
  destruct Ha as [-> ->]. assert (rely c (PushOf n) (database log) (w_db w)) as Hd by by etrans.
  pose proof (handle_spec (app_settings app) (get_alert_evaluation_service app)
    (token_order (token_set (app_settings app))) (bearer (_authorization t)) (ReportResult id res)
    (p_world pr)) as Hs. apply (wp_run _ _ _ _ _ Eh) in Hs. simpl in Hs. rewrite Htoken in Hs.
  unfold fmap, M_fmap, report_remediation_action_result, mbind, M_bind in Hs.
  pose proof (report_result_spec_wp id res (p_world pr) (proj2 (proj1 (proj1 Hl)))) as Hr. unfold wp in Hr.
  destruct (report_result id res (p_world pr)) as [r1 w1].
  destruct Hr as [Ho|(e & _ & _ & [] & _)]; [|done]. unfold report_outcome in Ho. cbn [fst snd] in Ho.
  destruct (remediation_actions (w_db (p_world pr)) !! id) as [a|] eqn:Ea.
  - destruct (decide (rm_status a = DISPATCHED)) as [Est|Est].
    + destruct Ho as (now & -> & _ & Hdb). simpl in Hs. destruct Hs as [-> ->].
      split; [right; by eexists|]. split; [done|]. rewrite Hdb. simpl. rewrite lookup_insert_eq.
      intros row [= <-]. by destruct (res_status res).
    + destruct Ho as [-> [Hdb _]]. simpl in Hs. destruct Hs as [-> ->].
      split; [by left|]. split; [done|]. rewrite Hdb, Ea. by intros row [= <-].
  - destruct Ho as [-> [Hdb _]]. simpl in Hs. destruct Hs as [-> ->].
    split; [by left|]. split; [done|]. by rewrite Hdb, Ea.
Qed.

End answering.

(** ** The Agent's part *)

Section agent_side.
Context `{E : Env} (Hhealthy : Healthy) (token_order : gset string -> list string) (app : App).
Context (Hretention : app_prunes app = false).
Context (bearer : option string -> option string).
Context (fate : nat -> Fate) (background : nat -> list Event) (A : AgentEnv).
Context (Hanswered : forall i, fate i = Answered).

Abbreviation database := (db_of token_order app bearer fate background).
Abbreviation c := (lifecycle_config (get_alert_evaluation_service app)).

#[local] Instance answering_network : AgentEnv :=
  on_network token_order app bearer fate background A.

Context (s : AgentScheduler) (Hreads : reading_only s) (allowed : gset string).
Context (Hexecutor : _executor s = Some allowed) (Hapart : buffer_apart s).
Context (Hclock : forall k, exists h, datetime_sub (agent_clock k) (hours 1) = inl h).
Abbreviation n := (_node_id s).
Context (Hbackground : forall i, Forall (other_than n) (background i)).
Context (Htoken : verify_api_token (token_order (token_set (app_settings app)))
                    (bearer (_authorization (_transport s))) = Ok tt).

(** The node's actions are accounted for, but for the [ids] that are still to be executed. *)
Definition squared (ids : list Z) (w : AgentWorld) : Prop :=
  accounted n (aw_executed w) ids (database (aw_sent w)).

Lemma squared_same ids w w' : squared ids w -> same_traffic w w' -> squared ids w'.
Proof. intros Hq (Hs & _ & _ & He). unfold squared. by rewrite Hs, He. Qed.

(** Between [w] and [w'] reports were sent and the Collector served others. *)
Definition others_only (w w' : AgentWorld) : Prop :=
  rely c (PushOf n) (database (aw_sent w)) (database (aw_sent w')) /\
  aw_accepted w' = aw_accepted w.

#[local] Instance others_only_preorder : PreOrder others_only.
Proof.
  split; [by intros w|]. intros w1 w2 w3 [H1 A1] [H2 A2]. split; [by etrans|congruence].
Qed.

Lemma same_others w w' : aw_sent w' = aw_sent w -> aw_accepted w' = aw_accepted w -> others_only w w'.
Proof. unfold others_only. by intros -> ->. Qed.

Lemma squared_send p w :
  (exists h, datetime_sub (np_collected_at p) (hours 1) = inl h) -> squared [] w ->
  exists ack w', send (_transport s) p w = (Ok ack, w') /\ aw_disk w' = aw_disk w /\
    squared (pa_action_id <$> ack_pending_actions ack) w' /\
    aw_sent w' = aw_sent w ++ [push_request (_transport s) p] /\
    aw_accepted w' = aw_accepted w ++ [p].
Proof.
  intros Hp Hq. set (r := push_request (_transport s) p).
  destruct (push_answered Hhealthy token_order app bearer fate background Hanswered
    (_transport s) Htoken p (aw_sent w) Hp) as (ack & Ha & Hann). fold r in Ha, Hann.
  pose proof (send_once_spec (_transport s) p w) as Hs. cbn zeta in Hs. fold r in Hs.
  unfold attempt_verdict in Hs. cbn [http answering_network on_network networked replicate] in Hs.
  rewrite Ha in Hs. cbn in Hs. exists ack, (accept p (posted r w)). unfold send.
  rewrite retrying_spec, Hs. split; [done|]. split; [done|]. split; [|done].
  eapply accounted_announced; [|exact Hann]. eapply accounted_undisturbed; [exact Hq|].
  by eapply rely_undisturbed, before_rely.
Qed.

Lemma squared_report id res ids w :
  squared (id :: ids) w -> id ∈ aw_executed w ->
  exists w', _report_action_result s id res w = (Ok tt, w') /\
    aw_executed w' = aw_executed w /\ squared ids w' /\ others_only w w'.
Proof.
  intros Hq Hid. set (r := report_request (_transport s) id res).
  pose proof (report_answered Hhealthy token_order app Hretention bearer fate background Hanswered
    n Hbackground (_transport s) Htoken id res (aw_sent w)) as (Hc & Hr & Hdone). fold r in Hc, Hr, Hdone.
  assert (squared ids (posted r w)) as Hq'.
  { intros k row Hk Hn. change (aw_executed (posted r w)) with (aw_executed w).
    pose proof (rely_undisturbed c n _ _ eq_refl Hr) as Hu.
    destruct (accounted_undisturbed _ _ _ _ _ Hq Hu k row Hk Hn) as [?|[Hin|?]]; [by auto| |by auto].
    apply elem_of_cons in Hin as [->|?]; [|by auto]. right. right. split; [done|by apply Hdone]. }
  pose proof (report_once_spec (_transport s) id res w) as Hs. cbn zeta in Hs. fold r in Hs.
  unfold attempt_verdict in Hs. cbn [http answering_network on_network networked replicate] in Hs.
  unfold _report_action_result, report_action_result, a_try. rewrite retrying_spec.
  destruct Hc as [Hc|[body Hc]]; rewrite Hc in Hs.
  - destruct Hs as [m ->]. by exists (posted r w).
  - rewrite Hs. by exists (accept_report id res (posted r w)).
Qed.

Lemma squared_pending ack w :
  squared (pa_action_id <$> ack_pending_actions ack) w ->
  exists w', _execute_pending_actions s ack w = (Ok tt, w') /\
    squared [] w' /\ others_only w w'.
Proof.
  unfold _execute_pending_actions. rewrite Hexecutor. revert w.
  induction (ack_pending_actions ack) as [|a l IH]; intros w Hq; [by exists w|].
  cbn. unfold mbind, AM_bind.
  destruct (execute_total_data allowed a w) as (res & w1 & -> & Hsame).
  assert (squared (pa_action_id <$> a :: l) w1) as Hq1.
  { apply (squared_same _ (note_executed (pa_action_id a) w)); [|done].
    eapply accounted_more; [exact Hq|]. simpl. set_solver. }
  destruct Hsame as (Hsent & Hacc & _ & Hex).
  assert (pa_action_id a ∈ aw_executed w1) as Hin by (rewrite Hex; simpl; set_solver).
  destruct (squared_report (pa_action_id a) res _ w1 Hq1 Hin) as (w2 & -> & _ & Hq2 & Ho2).
  destruct (IH w2 Hq2) as (w3 & Hrun & Hq3 & Ho3). exists w3.
  unfold mbind, AM_bind in Hrun. simpl. rewrite Hrun.
  split; [done|]. split; [done|]. etrans; [by apply (same_others w w1)|]. by etrans.
Qed.

Abbreviation place := (buffer_of s).

Lemma drained_empty w :
  holds place w [] ->
  exists w', _drain_buffer s w = (Ok tt, w') /\ holds place w' [] /\ same_traffic w w'.
Proof.
  intros Hb. unfold _drain_buffer, mbind, AM_bind.
  destruct (drain_run (_buffer s) DEFAULT_BUFFER_DRAIN_BATCH_SIZE w [] Hb) as (w' & -> & Ht & Ho & _).
  assert (read_entries w [] = []) as He by (unfold read_entries; by destruct (fs_ok _)).
  rewrite He in *. rewrite drop_nil in Ho. rewrite take_nil. exists w'.
  split; [done|]. split; [by destruct Ho|done].
Qed.

(** A cycle ends normally, with an empty buffer and every action accounted for; it delivered
    one payload, and the rest of it is reports. *)
Lemma squared_cycle w :
  holds place w [] -> squared [] w ->
  exists w1 p w2 w', run_once s w = (Ok tt, w') /\ holds place w' [] /\ squared [] w' /\
    _collect s w1 = (Ok p, w2) /\ aw_accepted w' = aw_accepted w ++ [p] /\
    rely c (PushOf n) (database (aw_sent w ++ [push_request (_transport s) p]))
      (database (aw_sent w')).
Proof.
  intros Hb Hq. unfold run_once, mbind, AM_bind.
  destruct (drained_empty w Hb) as (w1 & -> & Hb1 & Hs1).
  pose proof (squared_same _ _ _ Hq Hs1) as Hq1.
  destruct (collect_reads s w1 Hreads) as (p & w2 & Hcol & _ & Hf2 & Hs2). rewrite Hcol.
  exists w1, p, w2. pose proof Hcol as Hcol'.
  rewrite collect_isolates in Hcol. destruct (collected _ w1) as [[samples errors] w2'].
  injection Hcol as Hp _. unfold _deliver.
  destruct (squared_send p w2) as (ack & w3 & -> & Hf3 & Hq3 & Hl3 & Ha3).
  { rewrite <- Hp. apply Hclock. }
  { exact (squared_same _ _ _ Hq1 Hs2). }
  pose proof (pending_spares s ack Hapart w3) as Hf4.
  destruct (squared_pending ack w3 Hq3) as (w4 & Hpend & Hq4 & Hr4 & Ha4). rewrite Hpend in *.
  exists w4.
  destruct Hs1 as (Hl1 & Ha1 & _), Hs2 as (Hl2 & Ha2 & _).
  split; [done|]. split; [apply (holds_spares _ _ _ _ Hf4), (holds_same _ w1); [congruence|done]|]. split; [done|].
  split; [done|]. split; [congruence|]. by rewrite Hl3, Hl2, Hl1 in Hr4.
Qed.

Lemma squared_run stops w :
  holds place w [] -> squared [] w ->
  holds place (snd (run_forever s stops w)) [] /\ squared [] (snd (run_forever s stops w)).
Proof.
  revert w. induction stops as [|[] stops IH]; intros w Hb Hq; [done..|]. simpl.
  unfold mbind, AM_bind. destruct (squared_cycle w Hb Hq) as (_ & _ & _ & w1 & -> & Hb1 & Hq1 & _).
  unfold time_sleep. destruct (is_nan _); [done|]. destruct (negb _); [done|].
  destruct (flt _ _); [done|]. apply IH; [by apply holds_tick|done].
Qed.

End agent_side.

(** ** Properties *)

Section settlement_properties.
Context `{E : Env} (token_order : gset string -> list string) (app : App).
Context (bearer : option string -> option string).
Context (fate : nat -> Fate) (background : nat -> list Event) (A : AgentEnv).

Abbreviation network := (on_network token_order app bearer fate background A).
Abbreviation database := (db_of token_order app bearer fate background).

(** An Agent of the node [n] that may remediate, with a token the Collector knows, and its buffer
    at [p], outside the directories it may clear. *)
Definition remediating (n : string) (p : Place) (settings : AgentSettings) : Prop :=
  node_id settings = n /\ agent_remediation_enabled settings = true /\
  @settings_place network settings = p /\
  @buffer_apart network (@scheduler_of network settings) /\
  verify_api_token (token_order (token_set (app_settings app)))
    (bearer (_authorization (_transport (@scheduler_of network settings)))) = Ok tt.

Lemma settled_lives n p lives w :
  Healthy -> app_prunes app = false -> (forall i, fate i = Answered) ->
  (forall i, Forall (other_than n) (background i)) ->
  (forall k, exists h, datetime_sub (@agent_clock A k) (hours 1) = inl h) ->
  Forall (fun life => remediating n p life.1) lives ->
  @holds network p w [] -> accounted n (aw_executed w) [] (database (aw_sent w)) ->
  let w' := @agent_lives network lives w in
  accounted n (aw_executed w') [] (database (aw_sent w')).
Proof.
  intros Hh Hret Hans Hbg Hclock Hall. revert w.
  induction Hall as [|[settings signals] lives (Hn & Hon & Hp & Hap & Htok) Hall IH]; intros w Hb Hq; [done|].
  simpl in Hn, Hon, Hp, Hap, Htok. subst n p.
  set (s := @scheduler_of network settings).
  assert (_executor s = Some (remediation_allowed_directory_set settings)) as Hex.
  { unfold s, scheduler_of, scheduler_with. simpl. by rewrite Hon. }
  destruct (squared_run Hh token_order app Hret bearer fate background A Hans s
    (built_reads _ _ _ _ _ A settings) _ Hex Hap Hclock Hbg Htok (stop_answers false signals) w Hb Hq)
    as [Hb' Hq'].
  apply IH; by rewrite (agent_main_starts _ _ _ []).
Qed.

(** C10: the loop of remediation closes.  When every message arrives, the Collector's database
    answers and no retention job is scheduled, the Agent's token is one it knows and its clock
    is within the calendar, then over any number of runs of an Agent that may remediate,
    started with an empty buffer outside the directories it may clear, whatever else the
    Collector serves meanwhile: every action of the node was blocked by a Safety Limit, or was
    handed to the Agent's executor exactly once and is no longer dispatched. *)
Theorem dispatched_actions_settle n p lives w :
  Healthy -> app_prunes app = false -> (forall i, fate i = Answered) ->
  (forall i, Forall (other_than n) (background i)) ->
  (forall k, exists h, datetime_sub (@agent_clock A k) (hours 1) = inl h) ->
  Forall (fun life => remediating n p life.1) lives ->
  fresh_agent w -> @holds network p w [] ->
  let w' := @agent_lives network lives w in
  NoDup (aw_executed w') /\
  forall k row, remediation_actions (database (aw_sent w')) !! k = Some row -> rm_node_id row = n ->
    rm_status row = BLOCKED_BY_SAFETY_LIMIT \/
    (k ∈ aw_executed w' /\ rm_status row <> DISPATCHED).
Proof.
  intros Hh Hret Hans Hbg Hclock Hall Hfresh Hb w'.
  assert (of_node n lives) as Hn by (eapply Forall_impl; [exact Hall|by intros life [? _]]).
  destruct (told_lives token_order app bearer fate background A n lives w Hn
    (fresh_told _ _ _ _ _ _ w Hfresh)) as [_ Hsub]. split.
  - eapply sublist_NoDup; [|exact Hsub]. apply handed_rows. exact Hret.
  - intros k row Hk Hnode.
    destruct (settled_lives n p lives w Hh Hret Hans Hbg Hclock Hall Hb) with (k := k) (r := row)
      as [?|[[]%not_elem_of_nil|?]]; auto.
    destruct Hfresh as (Hsent & _). intros k0 r0. rewrite Hsent. unfold db_of. cbn.
    rewrite start_db. cbn. by rewrite lookup_empty.
Qed.

End settlement_properties.
