(* ===== verification/Silence.v ===== *)
(** * A node that falls silent

    The dead-man switch end to end: while nothing is heard from a node, every request and
    job leaves the row of its last contact alone, the scheduler's sweeps open a staleness
    alert once the silence has lasted, exactly one, and resolve it when the node is heard of
    again. *)

From S2P Require Import Prelude PyFloat PyTime PyStr Domain Schema Runtime Protocols Tables.
From S2P Require Import SqlNodeRepository SqlAlertRepository SqlMetricsRepository.
From S2P Require Import SqlActionRepository Rules Remediation Notifications.
From S2P Require Import Lifecycle Invariants Conformance Races Settings NodeRegistry.
From S2P Require Import RemediationService Alerting Ingestion Reconciliation Staleness.
From S2P Require Import Retention Interference Guarantees JobScheduler Upkeep Routes Api Frames.
From S2P Require Import Collector Concurrent System Settlement.

Local Open Scope Z_scope.
Local Open Scope pulse_scope.

(** ** Nothing is heard of the node *)

(** The row of the node [n] is the same, and time has not gone back. *)
Definition unseen (n : string) (w w' : World) : Prop :=
  (w_tick w <= w_tick w')%nat /\ nodes (w_db w') !! n = nodes (w_db w) !! n.

#[export] Instance unseen_preorder n : PreOrder (unseen n).
Proof.
  split; [by intros w|]. intros w1 w2 w3 [H1 E1] [H2 E2]. split; [lia|congruence].
Qed.

Section unseen.
Context `{E : Env} (n : string).

Lemma unseen_bump w : unseen n w (bump w).
Proof. split; [simpl; lia|done]. Qed.

Lemma unseen_select A (q : Db -> list A) : framed (unseen n) (sql_select q).
Proof. intros w. unfold sql_select. case_match; apply unseen_bump. Qed.

Lemma unseen_get R (q : Db -> option R) : framed (unseen n) (sql_get q).
Proof. unfold sql_get. framing; apply unseen_select. Qed.

Lemma unseen_commit f :
  (forall db, nodes (f db) !! n = nodes db !! n) -> framed (unseen n) (sql_commit f).
Proof.
  intros Hf w. unfold sql_commit. case_match; [|apply unseen_bump]. split; [simpl; lia|apply Hf].
Qed.

Lemma unseen_insert used f :
  (forall id db, nodes (f id db) !! n = nodes db !! n) -> framed (unseen n) (sql_insert used f).
Proof.
  intros Hf w. unfold sql_insert. pose proof (unseen_commit _ (Hf (eng_fresh (w_tick w) (used (w_db w)))) w) as Hc.
  by destruct (sql_commit _ w) as [[]].
Qed.

Lemma unseen_insert_many k used f :
  (forall ids db, nodes (f ids db) !! n = nodes db !! n) ->
  framed (unseen n) (sql_insert_many k used f).
Proof. intros Hf w. exact (unseen_commit _ (Hf _) w). Qed.

Lemma unseen_delete q k del :
  (forall ids db, nodes (del ids db) !! n = nodes db !! n) ->
  framed (unseen n) (sql_delete_limit q k del).
Proof.
  intros Hd. unfold sql_delete_limit. framing; [apply unseen_select|by apply unseen_commit].
Qed.

Lemma unseen_notify (notifier : Notifier) message : framed (unseen n) (notify notifier message).
Proof. intros w. destruct (notify_total notifier message w) as (_ & Hdb & _ & Ht). split; [done|by rewrite Hdb]. Qed.

Lemma unseen_get_or_raise id message : framed (unseen n) (get_or_raise id message).
Proof. unfold get_or_raise. framing. apply framed_persistence, unseen_get. apply _. Qed.

#[local] Hint Resolve unseen_select unseen_get unseen_get_or_raise : frames.
#[local] Hint Resolve unseen_commit unseen_insert unseen_insert_many unseen_delete : frames.

#[export] Instance unseen_jobs : FramedJobs (unseen n) (fun _ => True).
Proof.
  split; [apply unseen_bump|intros..]; simpl;
    unfold sql_prune_terminal_before, sql_prune_resolved_before, sql_prune_samples_before,
      sql_list_dispatched_before, sql_mark_result, get_action_or_raise; framing.
Qed.

(** Every call but [upsert_seen] of [n] itself. *)
#[export] Instance unseen_calls : FramedCalls (unseen n) (fun _ => True) (fun m => m <> n).
Proof.
  split; [apply _|apply unseen_notify|apply unseen_select|intros..]; simpl;
    unfold sql_upsert_seen, find_node, sql_node_get, sql_list_all, sql_bulk_insert,
      sql_find_previous_sample, sql_find_open_alert, sql_create_alert, sql_update_last_fired,
      sql_resolve_alert, sql_acknowledge_alert, sql_escalate_alert, sql_mark_remediated,
      commit_and_return, sql_alert_get, sql_list_alerts, sql_create_action,
      sql_count_recent_actions, sql_find_last_action, sql_action_get, sql_list_actions; framing.
  apply framed_persistence; [apply _|]. framing. apply unseen_commit.
  intros db. simpl. by rewrite lookup_insert_ne.
Qed.

End unseen.

(** ** The jobs that do not look at silence *)

(** The same alerts fire, the rows as they were. *)
Definition same_firing (db db' : Db) : Prop :=
  forall k a, am_status a = FIRING -> alerts db' !! k = Some a <-> alerts db !! k = Some a.

#[export] Instance same_firing_preorder : PreOrder same_firing.
Proof. split; [done|]. intros x y z H1 H2 k a Hf. by rewrite (H2 k a Hf), (H1 k a Hf). Qed.

#[export] Instance same_firing_jobs `{E : Env} : FramedJobs (on_db same_firing) (fun _ => True).
Proof.
  split; intros.
  - done.
  - eapply framed_writes; [apply _|apply prune_terminal_before_writes|].
    by intros db k db' (ids & _ & _ & ->).
  - eapply framed_writes; [apply _|apply prune_resolved_before_writes|].
    intros db k db' (ids & _ & (_ & Hids & _) & -> & _) id a Hf. simpl. rewrite lookup_without.
    split; [by intros []|]. intros Ha. split; [done|]. intros Hin.
    destruct (Hids id Hin) as (a' & Ha' & Hst & _). simpl in Hst. congruence.
  - eapply framed_writes; [apply _|apply prune_samples_before_writes|].
    by intros db k db' (ids & _ & _ & ->).
  - eapply framed_reads; [apply _|apply list_dispatched_before_reads].
  - eapply framed_writes; [apply _|apply mark_result_writes|]. by intros db rec db' (r & _ & _ & ->).
Qed.

Lemma same_firing_open db db' n : same_firing db db' -> has_open db' n <-> has_open db n.
Proof.
  intros Hs. unfold has_open. split; intros (k & a & Ha & Ho); exists k, a;
    (split; [apply (Hs k a); [apply Ho|done]|done]).
Qed.

(** ** One job *)

Section job.
Context `{E : Env} (Hhealthy : Healthy) (app : App) (n : string) (node : NodeModel) (b : bool).

Abbreviation stale_after := (heartbeat_stale_after_seconds (app_settings app)).

(** From here on, the clock's verdict on the node's silence is [b]. *)
Definition silence_is (w : World) : Prop :=
  job_ready (w_db w) /\ nodes (w_db w) !! n = Some node /\
  forall k, (w_tick w <= k)%nat ->
    fge (total_seconds (clock k - nm_last_seen_at node)) stale_after = b.

(** The node has an open staleness alert exactly when it is silent. *)
Definition told_so (w : World) : Prop := has_open (w_db w) n <-> b = true.

Lemma silence_unseen w w' :
  silence_is w -> job_ready (w_db w') -> unseen n w w' -> silence_is w'.
Proof.
  intros (_ & Hn & Hc) Hr [Ht He]. split; [done|]. split; [congruence|].
  intros k Hk. apply Hc. lia.
Qed.

Lemma job_unseen job w : unseen n w (snd (run_job (app_settings app) (app_notifier app) job w)).
Proof. by apply (framed_job (unseen n) (fun _ => True) (fun m => m <> n)). Qed.

Lemma job_silence job w :
  silence_is w -> let '(r, w') := run_job (app_settings app) (app_notifier app) job w in
  silence_is w' /\ (told_so w -> told_so w') /\ (job = StalenessJob true -> r = Ok job /\ told_so w').
Proof.
  intros Hs. pose proof Hs as (Hr & Hn & Hc). pose proof (job_unseen job w) as Hu.
  destruct (run_job _ _ job w) as [r w'] eqn:Ej. simpl in Hu.
  pose proof (wp_run _ _ _ _ _ Ej (run_job_steps _ _ pruning job w (fun _ => eq_refl) Hr)) as Hst.
  assert (job_ready (w_db w')) as Hr' by exact (stable_rtc _ _ _ _ _ (job_ready_stable _ _) Hr Hst).
  split; [by eapply silence_unseen|]. destruct job as [|first|]; simpl in Ej.
  - split; [|done]. unfold told_so. rewrite (same_firing_open (w_db w) (w_db w')); [done|].
    pose proof (framed_retention (on_db same_firing) (fun _ => True) (app_settings app) (fun _ _ => I) w) as Hf.
    unfold mbind, M_bind in Ej. destruct (retention_run _ w) as [[]]; by injection Ej as _ <-.
  - pose proof (staleness_run_spec stale_after (app_notifier app) pruning first w (proj1 Hr) (proj2 Hr)) as Hsp.
    unfold mbind, M_bind in Ej. unfold wp in Hsp.
    destruct (staleness_run _ _ first w) as [[counts|e] w1]; cbn [fst snd] in Hsp;
      injection Ej as <- <-; [|by destruct Hsp as (_ & _ & [])].
    destruct Hsp as [_ Hopen]. specialize (Hopen n node Hn). unfold silent in Hopen.
    rewrite Hc in Hopen by done. unfold told_so. split; [|intros [= ->]; split; [done|]]; rewrite Hopen.
    + intros ->. naive_solver.
    + naive_solver.
  - split; [|done]. unfold told_so. rewrite (same_firing_open (w_db w) (w_db w')); [done|].
    pose proof (framed_reconciliation (on_db same_firing) (fun _ => True)
      (remediation_dispatch_timeout_seconds (app_settings app)) w) as Hf.
    unfold mbind, M_bind in Ej. destruct (reconciliation_run _ w) as [[]]; by injection Ej as _ <-.
Qed.


(** ** The scheduler *)

Lemma silence_bump w : silence_is w -> silence_is (bump w).
Proof. intros Hs. apply (silence_unseen w); [done|apply Hs|apply unseen_bump]. Qed.

Lemma contained_silence job w :
  silence_is w ->
  let '(_, w') := _run_contained (app_settings app) (app_notifier app) job w in
  silence_is w' /\ (told_so w -> told_so w') /\ (job = StalenessJob true -> told_so w').
Proof.
  intros Hs. pose proof (job_silence job w Hs) as Hj. rewrite run_contained_run.
  destruct (run_job _ _ job w) as [r w']. destruct Hj as (Hs' & Ht & Hd). split; [done|].
  split; [done|]. intros Hj. by destruct (Hd Hj).
Qed.

(** The entry of a staleness job that has swept before, at or past its time. *)
Definition sweep_due (now : float) (e : Entry) : Prop :=
  js_job (en_schedule e) = StalenessJob true /\ en_next_due e <=. now.

#[export] Instance sweep_due_dec now e : Decision (sweep_due now e).
Proof. unfold sweep_due. apply _. Defined.

Lemma due_silence now entries w :
  silence_is w ->
  let '(_, w') := run_due (app_settings app) (app_notifier app) now entries w in
  silence_is w' /\ (told_so w -> told_so w') /\ (Exists (sweep_due now) entries -> told_so w').
Proof.
  revert w. induction entries as [|e rest IH]; intros w Hs; simpl.
  { split; [done|]. split; [done|]. by intros ?%Exists_nil. }
  unfold mbind, M_bind. destruct (fle (en_next_due e) now) eqn:Ed.
  - pose proof (contained_silence (js_job (en_schedule e)) w Hs) as Hj.
    destruct (_run_contained _ _ _ w) as [[job|ex] w1] eqn:Ec.
    2: { rewrite run_contained_run in Ec. by destruct (run_job _ _ _ w). }
    destruct Hj as (Hs1 & Ht1 & Hd1). simpl. specialize (IH (bump w1) (silence_bump _ Hs1)).
    destruct (run_due _ _ now rest (bump w1)) as [[rest'|ex] w2];
      destruct IH as (Hs2 & Ht2 & Hd2); (split; [done|]); (split; [intros Ht; apply Ht2, Ht1, Ht|]);
      (intros [[Hj _]|Hr]%Exists_cons; [apply Ht2, Hd1, Hj|apply Hd2, Hr]).
  - simpl. specialize (IH w Hs).
    destruct (run_due _ _ now rest w) as [[rest'|ex] w2]; destruct IH as (Hs2 & Ht2 & Hd2);
      (split; [done|]); (split; [done|]); (intros [[_ Hd]|Hr]%Exists_cons; [congruence|auto]).
Qed.

Lemma once_silence schedules w :
  silence_is w ->
  let '(_, w') := run_all_once (app_settings app) (app_notifier app) schedules w in
  silence_is w' /\ (told_so w -> told_so w').
Proof.
  revert w. induction schedules as [|s rest IH]; intros w Hs; simpl; [done|].
  unfold mbind, M_bind. pose proof (contained_silence (js_job s) w Hs) as Hj.
  destruct (_run_contained _ _ _ w) as [[job|ex] w1]; destruct Hj as (Hs1 & Ht1 & _); [|done].
  specialize (IH w1 Hs1). destruct (run_all_once _ _ rest w1) as [[rest'|ex] w2];
    destruct IH as (Hs2 & Ht2); (split; [done|]); intros Ht; apply Ht2, Ht1, Ht.
Qed.

(** ** The requests *)

(** Anything but a message of [n]. *)
Definition quiet (ev : Event) : Prop :=
  match ev with HttpRequest _ request => sender request <> Some n | _ => True end.

Lemma rely_open db db' :
  lawful db -> rely (lifecycle_config (get_alert_evaluation_service app)) Scheduler db db' ->
  has_open db' n <-> has_open db n.
Proof.
  intros Hl Hr. split.
  - intros (k & a & Ha & Ho). destruct Hr as (_ & _ & Hsp & _).
    destruct (Hsp k a Ha (proj1 (proj2 Ho))) as (a0 & Ha0 & Hu). exists k, a0. split; [done|].
    rewrite Hu in Ho. exact Ho.
  - intros (k & a & Ha & Ho). pose proof Ho as (Hn & Hk & Hf).
    destruct (held_rely (lifecycle_config (get_alert_evaluation_service app)) eq_refl Scheduler k a db db') as (_ & _ & a' & Ha' & Hu);
      [by split; [|split; [|exists a; split]]|done|].
    exists k, a'. split; [done|]. rewrite Hu. exact Ho.
Qed.

(** ** Events *)

Context (token_order : gset string -> list string).

Lemma request_silence credentials request w :
  lawful (w_db w) -> sender request <> Some n -> silence_is w ->
  let w' := snd (collector_handle token_order app credentials request w) in
  silence_is w' /\ (told_so w -> told_so w').
Proof.
  intros Hl Hq Hs w'.
  assert (rely (lifecycle_config (get_alert_evaluation_service app)) Scheduler (w_db w) (w_db w')) as Hr.
  { pose proof (handled_guaranteed token_order app (HandleRequest credentials request) w
      (lawful_tok _ _ Hl)) as Hg.
    cbn [handled] in Hg. unfold mbind, M_bind in Hg. unfold w'.
    destruct (collector_handle token_order app credentials request w) as [r w1].
    eapply guar_rely; [left|destruct r; exact Hg]. by destruct request. }
  split; [|unfold told_so; by rewrite (rely_open _ _ Hl Hr)].
  eapply silence_unseen; [done| |].
  - pose proof (handle_conforms (app_settings app) (get_alert_evaluation_service app)
      (token_order (token_set (app_settings app))) credentials request w (proj1 (proj1 Hl))) as Hc.
    eapply (stable_rtc _ _ _ _ _ (job_ready_stable _ _)); [apply Hs|].
    unfold w', collector_handle. unfold wp in Hc. by destruct (handle _ _ _ _ _ w).
  - apply (framed_handle (unseen n) (fun _ => True) (fun m => m <> n)). intros m Hm ->. done.
Qed.

Lemma boot_silence w : silence_is w -> silence_is (p_world (boot app w)).
Proof.
  intros Hs. eapply silence_unseen; [exact Hs|rewrite boot_db; apply Hs|].
  pose proof (framed_first_entries (unseen n) (fun _ => True) (fun m => m <> n) (default [] (app_scheduler app)) w) as Hf.
  unfold boot. by destruct (first_entries _ w).
Qed.

Lemma pass_silence p :
  silence_is (p_world p) ->
  let p' := run_event token_order app p SchedulerPass in
  silence_is (p_world p') /\ (told_so (p_world p) -> told_so (p_world p')) /\
  (Exists (sweep_due (monotonic (S (w_tick (p_world p))))) (p_entries p) -> told_so (p_world p')).
Proof.
  intros Hs. simpl. unfold scheduler_pass. simpl. unfold mbind, M_bind. simpl.
  pose proof (due_silence (monotonic (S (w_tick (p_world p)))) (p_entries p)
    (bump (bump (p_world p))) (silence_bump _ (silence_bump _ Hs))) as Hd.
  by destruct (run_due _ _ _ (p_entries p) _) as [[es|ex] w].
Qed.

Lemma event_silence ev p :
  lawful (w_db (p_world p)) -> quiet ev -> silence_is (p_world p) ->
  let p' := run_event token_order app p ev in
  silence_is (p_world p') /\ (told_so (p_world p) -> told_so (p_world p')).
Proof.
  intros Hl Hq Hs. destruct ev as [cr rq| | |].
  - pose proof (request_silence cr rq (p_world p) Hl Hq Hs) as Hr. simpl in *.
    by destruct (collector_handle _ _ _ _ _).
  - destruct (pass_silence p Hs) as (? & ? & _). by split.
  - pose proof (once_silence (en_schedule <$> p_entries p) (p_world p) Hs) as Ho. simpl.
    by destruct (run_all_once _ _ _ _).
  - simpl. split; [by apply boot_silence|]. unfold told_so. by rewrite boot_db.
Qed.

Lemma events_silence events p :
  healthy_process app p -> lawful (w_db (p_world p)) -> Forall quiet events ->
  silence_is (p_world p) -> told_so (p_world p) ->
  told_so (p_world (run_events token_order app events p)).
Proof.
  intros Hp Hl Hq. revert p Hp Hl. induction Hq as [|ev events Hev Hq IH]; intros p Hp Hl Hs Ht; [done|].
  destruct (event_silence ev p Hl Hev Hs) as [Hs1 Ht1].
  destruct (healthy_events token_order app [ev] p Hp) as [Hp1 Hst]. simpl in *.
  apply IH; [done| |done|auto]. by eapply stable_rtc; [apply lawful_stable|done|].
Qed.

End job.

(** ** Property *)

(** C11: the dead-man switch: when the database answers and nothing more is heard of a node, and
    from some time on its silence has reached the threshold for good, or never does, then
    the next pass in which the staleness job, past its first run, is due settles the matter:
    from then on, whatever else the Collector serves and however often it is restarted, the
    node has exactly one firing staleness alert if it is silent, and none if it is not. *)
Theorem staleness_follows_silence `{E : Env} token_order app events after n node b :
  Healthy ->
  let p := run_events token_order app events (Collector.start app) in
  nodes (w_db (p_world p)) !! n = Some node ->
  (forall k, (w_tick (p_world p) <= k)%nat ->
     fge (total_seconds (clock k - nm_last_seen_at node))
       (heartbeat_stale_after_seconds (app_settings app)) = b) ->
  Exists (sweep_due (monotonic (S (w_tick (p_world p))))) (p_entries p) ->
  Forall (quiet n) after ->
  let db := db_after token_order app (events ++ SchedulerPass :: after) in
  if b then exists id a, alerts db !! id = Some a /\ is_open n STALENESS_RULE_KEY a /\
    forall id' a', alerts db !! id' = Some a' -> is_open n STALENESS_RULE_KEY a' -> id' = id
  else forall id a, alerts db !! id = Some a -> ~ is_open n STALENESS_RULE_KEY a.
Proof.
  intros Hh p Hn Hc Hd Hq db.
  destruct (healthy_events token_order app events _ (healthy_start app)) as [Hp Hst]. fold p in Hp, Hst.
  assert (lawful (w_db (p_world p))) as Hl.
  { eapply (stable_rtc _ _ _ _ _ (lawful_stable Hh _)); [|exact Hst].
    rewrite start_db. apply lawful_empty. }
  assert (silence_is app n node b (p_world p)) as Hs.
  { split; [apply sound_ready, Hp|]. by split. }
  destruct (pass_silence Hh app n node b token_order p Hs) as (Hs1 & _ & Ht1). specialize (Ht1 Hd).
  destruct (healthy_events token_order app [SchedulerPass] p Hp) as [Hp1 Hst1].
  pose proof (events_silence Hh app n node b token_order after (run_event token_order app p SchedulerPass)
    Hp1 (stable_rtc _ _ _ _ _ (lawful_stable Hh _) Hl Hst1) Hq Hs1 Ht1) as Ht.
  assert (sound db) as (_ & Hone & _).
  { apply db_after_invariant; [apply sound_stable|apply sound_empty]. }
  unfold told_so in Ht. unfold db, db_after, run_events in Hone |- *. rewrite foldl_app in Hone |- *.
  fold (run_events token_order app events (Collector.start app)) in Hone |- *. fold p in Hone |- *.
  cbn [foldl] in Hone |- *. fold (run_events token_order app after (run_event token_order app p SchedulerPass)) in Hone |- *.
  set (d := w_db (p_world (run_events token_order app after (run_event token_order app p SchedulerPass)))) in *.
  destruct b.
  - destruct (proj2 Ht eq_refl) as (id & a & Ha & Ho). exists id, a. split; [done|]. split; [done|].
    intros id' a' Ha' Ho'. destruct Ho as (? & ? & ?), Ho' as (? & ? & ?).
    eapply (Hone id' a' id a); done || congruence.
  - intros id a Ha Ho. assert (false = true) by (apply Ht; by exists id, a). done.
Qed.
