(* ===== verification/Response.v ===== *)
(** * The response to a breach that lasts

    The whole path of the program, from the reading of a sensor to the outcome of a
    remediation: while every sample a node takes breaches its rule, the first push opens an
    alert, the pushes that follow keep it open, and once the configured delays have passed it
    has escalated and its playbook was run on the node, or a Safety Limit refused it. *)

From S2P Require Import Prelude PyFloat PyTime PyStr Domain Schema Runtime Protocols Tables.
From S2P Require Import SqlNodeRepository SqlAlertRepository SqlMetricsRepository.
From S2P Require Import SqlActionRepository Rules Remediation Notifications.
From S2P Require Import Lifecycle Invariants Conformance Races Settings NodeRegistry.
From S2P Require Import RemediationService Alerting Ingestion Dispatch Progress Staleness.
From S2P Require Import Interference Guarantees JobScheduler Routes Api Collector.
From S2P Require Import Disk AgentRuntime Files Buffer Transport Executor AgentConfig Agent AgentMain.
From S2P Require Import Delivery System Settlement.

Local Open Scope Z_scope.

(** The key of the alerts on CPU usage. *)
Definition cpu_key : string := rule_key_of THRESHOLD CPU_USAGE_PERCENT.

(** ** An open alert between two pushes of its node *)

Lemma open_rely `{E : Env} c n id a db db' :
  lc_retention c = false -> alerts db !! id = Some a -> is_open n cpu_key a ->
  rely c (PushOf n) db db' ->
  exists a', alerts db' !! id = Some a' /\ is_open n cpu_key a' /\ alert_persists a a'.
Proof.
  intros Hret Ha (Hn & Hk & Hf) Hr. pose proof Hr as (Hm & _ & _).
  destruct (moves_alert c Hret _ _ _ _ Hm Ha) as (a' & Ha' & Hp). exists a'. split; [done|].
  split; [|done]. assert (held (PushOf n) id a db) as Hh.
  { split; [by split; [|rewrite Hk]|]. split; [done|]. exists a. by split. }
  destruct (held_rely c Hret _ _ _ _ _ Hh Hr) as (_ & _ & a1 & Ha1 & Hu). simplify_eq.
  rewrite Hu. by split.
Qed.

(** An alert of the node on its CPU fires since [t]. *)
Definition standing (n : string) (t : datetime) (db : Db) : Prop :=
  exists id a, alerts db !! id = Some a /\ is_open n cpu_key a /\ am_first_fired_at a = t.

(** It was acknowledged, or has escalated and was handed to remediation. *)
Definition attended (n : string) (t : datetime) (db : Db) : Prop :=
  exists id a, alerts db !! id = Some a /\ is_open n cpu_key a /\ am_first_fired_at a = t /\
    (is_Some (am_acknowledged_at a) \/
     (is_Some (am_escalated_at a) /\ is_Some (am_remediated_at a))).

Lemma standing_rely `{E : Env} c n t db db' :
  lc_retention c = false -> standing n t db -> rely c (PushOf n) db db' -> standing n t db'.
Proof.
  intros Hret (id & a & Ha & Ho & Hf) Hr.
  destruct (open_rely c n id a _ _ Hret Ha Ho Hr) as (a' & Ha' & Ho' & _ & _ & _ & Hf' & _).
  exists id, a'. split; [done|]. split; [done|congruence].
Qed.

Lemma attended_rely `{E : Env} c n t db db' :
  lc_retention c = false -> attended n t db -> rely c (PushOf n) db db' -> attended n t db'.
Proof.
  intros Hret (id & a & Ha & Ho & Hf & Hat) Hr.
  destruct (open_rely c n id a _ _ Hret Ha Ho Hr) as
    (a' & Ha' & Ho' & _ & _ & _ & Hf' & _ & Hesc & Hrem & Hack).
  exists id, a'. split; [done|]. split; [done|]. split; [congruence|].
  destruct Hat as [?|[[t1 He] [t2 Hr2]]]; [left; auto|right]. by rewrite (Hesc _ He), (Hrem _ Hr2).
Qed.

(** ** What the node's samples say *)

Section samples.
Context `{AgentEnv}.

(** The first sample of a collection is the CPU's, and the only one of its metric. *)
Lemma cpu_first w x :
  cpu_percent (aw_tick w) = Ok x -> exists rest,
    (collected default_collectors w).1.1 = sample CPU_USAGE_PERCENT x "percent" ∅ :: rest /\
    Forall (fun y => ms_metric_type y <> CPU_USAGE_PERCENT) rest.
Proof.
  intros Hx. unfold default_collectors, collected, reading. rewrite Hx. cbn [aw_tick tick].
  destruct (virtual_memory _) as [[[? ?] ?]|e1], (disk_usage _ _) as [[[? ?] ?]|e2],
    (net_io_counters _) as [[? ?]|e3]; eexists; (split; [reflexivity|repeat constructor; done]).
Qed.

End samples.

(** ** One cycle *)

Section response.
Context `{E : Env} (Hhealthy : Healthy) (token_order : gset string -> list string) (app : App).
Context (Hretention : app_prunes app = false).
Context (bearer : option string -> option string).
Context (fate : nat -> Fate) (background : nat -> list Event) (A : AgentEnv).
Context (Hanswered : forall i, fate i = Answered).

Abbreviation database := (db_of token_order app bearer fate background).
Abbreviation before := (db_before token_order app bearer fate background).
Abbreviation service := (get_alert_evaluation_service app).
Abbreviation c := (lifecycle_config service).

#[local] Instance response_network : AgentEnv :=
  on_network token_order app bearer fate background A.

Context (s : AgentScheduler) (Hcollectors : _collectors s = default_collectors).
Context (allowed : gset string) (Hexecutor : _executor s = Some allowed).
Context (Hapart : buffer_apart s).
Abbreviation n := (_node_id s).
Context (Hbackground : forall i, Forall (other_than n) (background i)).
Context (Htoken : verify_api_token (token_order (token_set (app_settings app)))
                    (bearer (_authorization (_transport s))) = Ok tt).
Context (Hclock : forall k, exists h, datetime_sub (@agent_clock A k) (hours 1) = inl h).
Context (Hwindows : forall k, windows_ok (get_rule_engine app) (@agent_clock A k)).

Context (rule : ThresholdRuleDefinition).
Context (Hrule : re_threshold_rules (get_rule_engine app) !! CPU_USAGE_PERCENT = Some rule).
Context (Hbreach : forall k, exists x, @cpu_percent A k = Ok x /\
                     evaluate_comparison (tr_comparison rule) x (tr_threshold rule) = true).

Lemma default_reads : reading_only s.
Proof. unfold reading_only. rewrite Hcollectors. apply default_collectors_frame. by intros w. Qed.

(** A push of what a cycle collects breaches the rule. *)
Lemma push_handles w1 p w2 log :
  _collect s w1 = (Ok p, w2) ->
  breach_handled service n cpu_key (np_collected_at p) (before log)
    (database (log ++ [push_request (_transport s) p])).
Proof.
  intros Hc. rewrite collect_isolates, Hcollectors in Hc.
  destruct (Hbreach (aw_tick w1)) as (x & Hx & Hbr).
  destruct (cpu_first w1 x Hx) as (rest & Hs & Hrest).
  destruct (collected _ w1) as [[samples errors] w3]. simpl in Hs. subst samples.
  injection Hc as <- _. set (p := {| np_node_id := _ |}).
  pose proof (lawful_before Hhealthy token_order app bearer fate background log) as [[Hb [Hone _]] _].
  destruct (push_served token_order app bearer fate background Hanswered (_transport s) Htoken p log
    (fun _ db' => breach_handled service n cpu_key (np_collected_at p) (before log) db'))
    as (ack & _ & Hh); [|exact Hh].
  intros w Hw. rewrite <- Hw in *.
  eapply wp_mono; [apply wp_and; [apply (ingest_announces service Hhealthy _ p); [done|apply Hclock]|
    apply (ingest_handles service Hhealthy _ p (sample CPU_USAGE_PERCENT x "percent" ∅) rest rule);
      try done; [apply RuleEngine_init_keyed|apply Hwindows|apply Hclock]]|].
  intros r w' [(ack & -> & _) [_ Hh]]. by exists ack.
Qed.

Lemma push_moves r log : rtc (move c (~ Healthy)) (before log) (database (log ++ [r])).
Proof.
  apply (rtc_subrel (Lifecycle.step (app_lifecycle app) (~ Healthy))).
  - intros x y Hs. left. unfold app_lifecycle in Hs. by rewrite Hretention in Hs.
  - unfold db_of. rewrite collector_after_snoc. unfold serve. rewrite Hanswered.
    apply healthy_arrive, healthy_events, healthy_log.
Qed.

(** A push keeps the node's alert, and attends to it once the delays have passed. *)
Lemma push_standing t p log :
  breach_handled service n cpu_key (np_collected_at p) (before log)
    (database (log ++ [push_request (_transport s) p])) ->
  standing n t (database log) ->
  standing n t (database (log ++ [push_request (_transport s) p])).
Proof.
  intros [Hk _ _] Hs.
  pose proof (before_rely Hhealthy token_order app Hretention bearer fate background n Hbackground log) as Hr.
  destruct (standing_rely c n t _ _ eq_refl Hs Hr) as (id & a & Ha & Ho & Hf).
  destruct (Hk id a Ha Ho) as (a' & Ha' & Ho' & Hf'). exists id, a'.
  split; [done|]. split; [done|congruence].
Qed.

(** The delays have passed between two readings of the clock. *)
Definition overdue (t t' : datetime) : Prop :=
  fge (total_seconds (t' - t)) (_escalation_after_seconds service) = true /\
  fge (total_seconds (t' - t)) (_remediation_after_seconds service) = true.

Context (Hon : _enabled (get_remediation_engine app) = true).
Context (Hplaybook : is_Some (_by_rule_key (get_remediation_engine app) !! cpu_key)).

Lemma push_attends t p log :
  breach_handled service n cpu_key (np_collected_at p) (before log)
    (database (log ++ [push_request (_transport s) p])) ->
  standing n t (database log) -> overdue t (np_collected_at p) ->
  attended n t (database (log ++ [push_request (_transport s) p])).
Proof.
  intros [Hk _ Hp] Hs [He Hd]. set (log' := log ++ _) in *.
  pose proof (before_rely Hhealthy token_order app Hretention bearer fate background n Hbackground log) as Hr.
  destruct (standing_rely c n t _ _ eq_refl Hs Hr) as (id & a & Ha & Ho & Hf).
  destruct (Hk id a Ha Ho) as (a' & Ha' & Ho' & Hf'). exists id, a'.
  split; [done|]. split; [done|]. split; [congruence|].
  assert (alert_persists a a') as (_ & _ & _ & _ & _ & _ & Hrem & Hack).
  { destruct (moves_alert c eq_refl _ _ _ _ (push_moves (push_request (_transport s) p) log) Ha)
      as (a1 & Ha1 & Hpers). fold log' in Ha1. by simplify_eq. }
  destruct (am_acknowledged_at a) as [t1|] eqn:Eack; [left; apply Hack; by eexists|right].
  unfold aged in Hp. rewrite <- Hf in He, Hd.
  destruct (Hp id a Ha Ho Eack He) as (a1 & Ha1 & _ & _ & Hesc & Hdue). simplify_eq.
  split; [done|]. destruct (am_remediated_at a) as [t1|] eqn:Erem; [by rewrite (Hrem t1)|].
  apply Hdue. destruct Hplaybook as [pb Hpb]. by exists (get_remediation_engine app), pb.
Qed.

(** Between two cycles: an empty buffer, and every action of the node accounted for. *)
Definition settled (w : AgentWorld) : Prop :=
  holds (buffer_of s) w [] /\ squared token_order app bearer fate background s [] w.

Lemma settled_tick w : settled w -> settled (tick w).
Proof. intros [Hb Hq]. split; [by apply holds_tick|done]. Qed.

(** A cycle delivers one payload, whose push breaches the rule; after the push only others
    move the database. *)
Lemma response_cycle w :
  settled w -> exists p w', run_once s w = (Ok tt, w') /\ settled w' /\
    aw_accepted w' = aw_accepted w ++ [p] /\
    let pushed := database (aw_sent w ++ [push_request (_transport s) p]) in
    breach_handled service n cpu_key (np_collected_at p) (before (aw_sent w)) pushed /\
    rely c (PushOf n) pushed (database (aw_sent w')).
Proof.
  intros [Hb Hq].
  destruct (squared_cycle Hhealthy token_order app Hretention bearer fate background A Hanswered s
    default_reads allowed Hexecutor Hapart Hclock Hbackground Htoken w Hb Hq)
    as (w1 & p & w2 & w' & Hrun & Hb' & Hq' & Hcol & Hacc & Hr).
  exists p, w'. split; [done|]. split; [by split|]. split; [done|]. split; [|done].
  by apply (push_handles w1 p w2).
Qed.

Lemma first_cycle w :
  settled w -> absent n cpu_key (database (aw_sent w)) ->
  exists p w', run_once s w = (Ok tt, w') /\ settled w' /\ aw_accepted w' = aw_accepted w ++ [p] /\
    standing n (np_collected_at p) (database (aw_sent w')).
Proof.
  intros Hset Habs. destruct (response_cycle w Hset) as (p & w' & Hrun & Hset' & Hacc & [_ Ho _] & Hr).
  exists p, w'. split; [done|]. split; [done|]. split; [done|].
  eapply (standing_rely c n); [done| |exact Hr]. apply Ho.
  refine (absent_rely c (PushOf n) n cpu_key _ _ _ Habs _); [|by apply before_rely].
  intros a Hn Hk. split; [done|by rewrite Hk].
Qed.

Lemma next_cycle t w :
  settled w -> standing n t (database (aw_sent w)) ->
  exists p w', run_once s w = (Ok tt, w') /\ settled w' /\ aw_accepted w' = aw_accepted w ++ [p] /\
    standing n t (database (aw_sent w')) /\
    (overdue t (np_collected_at p) -> attended n t (database (aw_sent w'))).
Proof.
  intros Hset Hs. destruct (response_cycle w Hset) as (p & w' & Hrun & Hset' & Hacc & Hh & Hr).
  exists p, w'. split; [done|]. split; [done|]. split; [done|]. split.
  - eapply (standing_rely c n); [done| |exact Hr]. by apply push_standing.
  - intros Hover. eapply (attended_rely c n); [done| |exact Hr]. by apply push_attends.
Qed.

Context (Hsleep : forall w, time_sleep (_interval_seconds s) w = (Ok tt, tick w)).

(** Any number of cycles after the one that opened the alert. *)
Lemma next_cycles t m w :
  settled w -> standing n t (database (aw_sent w)) ->
  exists ps w', run_forever s (replicate m false) w = (Ok tt, w') /\ settled w' /\
    aw_accepted w' = aw_accepted w ++ ps /\ length ps = m /\
    (forall p, last ps = Some p -> overdue t (np_collected_at p) ->
       attended n t (database (aw_sent w'))).
Proof.
  revert w. induction m as [|m IH]; intros w Hset Hs.
  { exists [], w. by rewrite app_nil_r. }
  destruct (next_cycle t w Hset Hs) as (p & w1 & Hrun & Hset1 & Hacc1 & Hs1 & Hat1).
  destruct (IH (tick w1) (settled_tick _ Hset1) Hs1) as (ps & w' & Hruns & Hset' & Hacc & Hlen & Hat).
  exists (p :: ps), w'. simpl. unfold mbind, AM_bind. rewrite Hrun, Hsleep.
  split; [done|]. split; [done|]. split; [by rewrite Hacc; simpl; rewrite Hacc1, <- app_assoc|].
  split; [by rewrite Hlen|]. intros q Hq Hover. destruct ps as [|p' ps].
  - injection Hq as <-. destruct m as [|m]; [|done]. injection Hruns as <-. by apply Hat1.
  - by apply (Hat q).
Qed.

End response.

(** ** Properties *)

Section response_properties.
Context `{E : Env} (token_order : gset string -> list string) (app : App).
Context (bearer : option string -> option string).
Context (fate : nat -> Fate) (background : nat -> list Event) (A : AgentEnv).

Abbreviation network := (on_network token_order app bearer fate background A).
Abbreviation database := (db_of token_order app bearer fate background).

Lemma log_stamped log : app_prunes app = false -> stamped_referenced (database log).
Proof.
  intros Hret. eapply (stable_rtc _ _ _ _ _ (stamped_referenced_stable (app_lifecycle app) (~ Healthy) Hret));
    [|exact (log_moves _ _ _ _ _ [] log)].
  unfold db_of. cbn. rewrite start_db. intros id a Ha. simpl in Ha. by rewrite lookup_empty in Ha.
Qed.

(** An alert that was attended to and not acknowledged has an action, which is accounted for. *)
Lemma attended_action n t executed db :
  lawful db -> stamped_referenced db -> accounted n executed [] db -> attended n t db ->
  exists id a, alerts db !! id = Some a /\ is_open n cpu_key a /\ am_first_fired_at a = t /\
    (is_Some (am_acknowledged_at a) \/
     (is_Some (am_escalated_at a) /\ exists k row, remediation_actions db !! k = Some row /\
        rm_alert_id row = id /\
        (rm_status row = BLOCKED_BY_SAFETY_LIMIT \/
         (k ∈ executed /\ rm_status row <> DISPATCHED)))).
Proof.
  intros (_ & Hm & _) Hst Hacc (id & a & Ha & Ho & Hf & Hat). exists id, a.
  split; [done|]. split; [done|]. split; [done|].
  destruct Hat as [?|[Hesc Hrem]]; [by left|right]. split; [done|].
  destruct (proj1 (referenced_spec _ _) (Hst _ _ Ha Hrem)) as (k & row & Hk & Hid).
  exists k, row. split; [done|]. split; [done|].
  destruct (Hacc k row Hk) as [?|[[]%not_elem_of_nil|?]]; [|by left|by right].
  rewrite (Hm k row a Hk); [apply Ho|by rewrite Hid].
Qed.


End response_properties.
