(* ===== verification/SystemScenario.v ===== *)
(** * Concrete runs of the whole system

    A busy node's Agent and the demonstration's Collector: a run in which every message
    arrives, one in which the network delays, and one in which the answer that carried an
    action is lost.  The witnesses of the system's properties evaluate them. *)

From Stdlib Require Import SpecFloat.
From S2P Require Import Prelude PyFloat PyTime PyStr Domain Schema Runtime RefEnv Protocols Tables.
From S2P Require Import SqlNodeRepository SqlAlertRepository SqlMetricsRepository.
From S2P Require Import SqlActionRepository Rules Remediation Notifications.
From S2P Require Import Lifecycle Invariants Conformance Settings NodeRegistry.
From S2P Require Import RemediationService Alerting Ingestion Dispatch Reconciliation.
From S2P Require Import Staleness Retention JobScheduler Routes Api Frames Collector Keeping Scenario.
From S2P Require Import Disk AgentRuntime Files Buffer Transport Executor AgentConfig RefAgent.
From S2P Require Import Agent AgentMain Delivery System Settlement Silence Response.

Local Open Scope Z_scope.

#[local] Existing Instance ref_env.

(** The reference Agent on a node whose CPU is at 95 percent; its clock advances by five
    minutes with every interaction, of which it counts a thousand. *)
Definition busy_agent : AgentEnv :=
  let A := RefAgent (fun _ => true) (fun _ => HttpTimeout) in
  {| dump := @dump A; parse := @parse A; parse_dump := @parse_dump A;
     dump_object := @dump_object A; dump_printable := @dump_printable A;
     fs_ok := @fs_ok A; torn_write := @torn_write A; realpath := @realpath A;
     listdir_order := @listdir_order A; listdir_permutes := @listdir_permutes A;
     rmtree_order := @rmtree_order A; rmtree_permutes := @rmtree_permutes A;
     rmtree_children_first := @rmtree_children_first A; http := @http A;
     retrying := @retrying A; retrying_spec := @retrying_spec A;
     cpu_percent := fun _ => Ok (float_of_Z 95); virtual_memory := @virtual_memory A;
     disk_usage := @disk_usage A; net_io_counters := @net_io_counters A;
     agent_clock := fun n => ref_start + minutes (5 * Z.of_nat (Nat.min n 1000));
     exc_text := @exc_text A |}.

Definition demo_agent_settings : AgentSettings :=
  {| as_environment := DEV; as_service_name := "clusterpulse"; as_log_level := "INFO";
     node_id := "n1"; collector_base_url := "http://localhost:8000";
     collection_interval_seconds := DEFAULT_COLLECTION_INTERVAL_SECONDS;
     auth_token := Some "secret";
     http_timeout_seconds := DEFAULT_HTTP_TIMEOUT_SECONDS;
     http_retry_attempts := DEFAULT_HTTP_RETRY_ATTEMPTS;
     http_retry_min_wait_seconds := DEFAULT_HTTP_RETRY_MIN_WAIT_SECONDS;
     http_retry_max_wait_seconds := DEFAULT_HTTP_RETRY_MAX_WAIT_SECONDS;
     buffer_path := "/var/buffer.jsonl";
     buffer_max_entries := DEFAULT_BUFFER_MAX_ENTRIES;
     agent_remediation_enabled := true;
     remediation_allowed_directories := " /tmp/cache, " |}.

(** The credentials of a [Bearer] header. *)
Definition demo_bearer (header : option string) : option string :=
  match header with
  | Some h => if String.prefix "Bearer " h then Some (String.substring 7 (String.length h) h) else None
  | None => None
  end.

Definition no_background (_ : nat) : list Event := [].

Section runs.
Context (fate : nat -> Fate).

Definition demo_network : AgentEnv :=
  on_network demo_order demo_app demo_bearer fate no_background busy_agent.
Definition demo_database : list ClientRequest -> Db :=
  db_of demo_order demo_app demo_bearer fate no_background.

(** The Agent with an empty buffer, after [n] cycles. *)
Definition demo_run (n : nat) : Res unit * AgentWorld :=
  @agent_main demo_network demo_agent_settings (replicate n false) (agent_world []).

End runs.

(** ** Every message arrives *)

Definition perfect : nat -> Fate := fun _ => Answered.

(** In the second cycle the alert escalates and its action is executed: the directory is
    emptied, and the Collector knows. *)
Example perfect_run :
  let '(r, w) := demo_run perfect 2 in
  r = Ok tt /\ length (aw_accepted w) = 2%nat /\ aw_executed w = [1] /\
  children (aw_disk w) ["tmp"; "cache"]%string = [] /\
  rm_status <$> remediation_actions (demo_database perfect (aw_sent w)) !! 1 = Some EXECUTED.
Proof. by vm_compute. Qed.

(** ** An answer is lost *)

(** The second push arrives, but its answer does not. *)
Definition lossy : nat -> Fate := fun i => if Nat.eqb i 1 then Unanswered NoAnswer else Answered.

(** The retry delivers the payload a second time, its samples stored twice; the action that
    the lost answer carried is never executed and stays dispatched. *)
Lemma lost_answer_duplicates_and_strands :
  let '(r, w) := demo_run lossy 2 in
  r = Ok tt /\ length (aw_accepted w) = 2%nat /\ aw_executed w = [] /\
  size (metric_samples (demo_database lossy (aw_sent w))) = 27%nat /\
  rm_status <$> remediation_actions (demo_database lossy (aw_sent w)) !! 1 = Some DISPATCHED.
Proof. by vm_compute. Qed.

(** ** Witnesses *)

Lemma demo_fresh : fresh_agent (agent_world []).
Proof. done. Qed.

(** The empty buffer of the demonstration, which is not in the cache. *)
Lemma demo_empty e : @holds e ["var"; "buffer.jsonl"]%string (agent_world []) [].
Proof.
  split; [| | |constructor].
  - apply Forall_forall. intros k Hk. vm_compute in Hk. apply list_elem_of_singleton in Hk as ->.
    reflexivity.
  - exists ["var"; "buffer.jsonl.tmp"]%string. split; [reflexivity|left; reflexivity].
  - exists []. split; reflexivity.
Qed.

Lemma demo_apart e :
  @realpath e = ref_realpath -> @buffer_apart e (@scheduler_of e demo_agent_settings).
Proof.
  intros He k (path & Hpath & x & rest & ->) [more Hmore].
  assert (remediation_allowed_directory_set demo_agent_settings = {["/tmp/cache"]})%string as Hset
    by (apply (bool_decide_unpack _); vm_compute; exact I).
  rewrite Hset in Hpath. apply elem_of_singleton in Hpath as ->.
  unfold buffer_place in Hmore. rewrite He in Hmore. vm_compute in Hmore. discriminate Hmore.
Qed.

(** The Agent is stopped after its second cycle and started again, remediation now off. *)
Definition two_lives : list (AgentSettings * list bool) :=
  [(demo_agent_settings, [false; false; true]);
   ({| as_environment := DEV; as_service_name := "clusterpulse"; as_log_level := "INFO";
       node_id := "n1"; collector_base_url := "http://localhost:8000";
       collection_interval_seconds := DEFAULT_COLLECTION_INTERVAL_SECONDS;
       auth_token := Some "secret"%string;
       http_timeout_seconds := DEFAULT_HTTP_TIMEOUT_SECONDS;
       http_retry_attempts := 1;
       http_retry_min_wait_seconds := DEFAULT_HTTP_RETRY_MIN_WAIT_SECONDS;
       http_retry_max_wait_seconds := DEFAULT_HTTP_RETRY_MAX_WAIT_SECONDS;
       buffer_path := "/var/buffer.jsonl";
       buffer_max_entries := DEFAULT_BUFFER_MAX_ENTRIES;
       agent_remediation_enabled := false;
       remediation_allowed_directories := EmptyString |}, [false; true])].

Definition demo_lives (fate : nat -> Fate) : AgentWorld :=
  @agent_lives (demo_network fate) two_lives (agent_world []).

(** The demonstration with the retention job, which runs before each request. *)
Definition retaining_app : App :=
  {| app_settings := demo_settings; app_notifier := app_notifier demo_app;
     app_scheduler := Some [{| js_job := RetentionJob;
                               js_interval_seconds := retention_interval_seconds demo_settings |}];
     app_rules := app_rules demo_app; app_policy := app_policy demo_app |}.

Definition retention_background (_ : nat) : list Event := [RunAllOnce].

(** The clock of the reference environment advances by a second at most. *)
Lemma retaining_short : short_run retaining_app.
Proof.
  intros k cutoff (j & w & w' & Hc). unfold days_before, mbind, M_bind, lift in Hc.
  change (timedelta_of_days (metrics_retention_days (app_settings retaining_app)))
    with (timedelta_of_days DEFAULT_METRICS_RETENTION_DAYS) in Hc. vm_compute (timedelta_of_days _) in Hc.
  cbn [of_time] in Hc. unfold datetime_sub in Hc. destruct (_ && _); [|discriminate Hc].
  injection Hc as <- _. cbn [clock ref_env RefEnv]. lia.
Qed.

Definition retaining_lives : AgentWorld :=
  @agent_lives (on_network demo_order retaining_app demo_bearer lossy retention_background busy_agent)
    two_lives (agent_world []).

Lemma accepted_payloads_are_stored_witness :
  length (aw_accepted retaining_lives) = 3%nat /\
  Forall (fun p => Forall (fun x => stored p x
    (db_of demo_order retaining_app demo_bearer lossy retention_background (aw_sent retaining_lives)))
    (np_samples p)) (aw_accepted retaining_lives).
Proof.
  split; [vm_compute; reflexivity|].
  apply (accepted_payloads_are_stored demo_order retaining_app demo_bearer lossy retention_background
    busy_agent "n1" two_lives); [right; exact retaining_short|repeat constructor|apply demo_fresh].
Defined.

Lemma actions_execute_at_most_once_witness :
  aw_executed (demo_lives perfect) = [1] /\
  NoDup (aw_executed (demo_lives perfect)) /\
  Forall (fun id => exists row,
    remediation_actions (demo_database perfect (aw_sent (demo_lives perfect))) !! id = Some row /\
    rm_node_id row = "n1"%string) (aw_executed (demo_lives perfect)).
Proof.
  split; [vm_compute; reflexivity|].
  apply (actions_execute_at_most_once demo_order demo_app demo_bearer perfect no_background
    busy_agent "n1" two_lives); [reflexivity|repeat constructor|apply demo_fresh].
Defined.

Lemma accepted_results_are_recorded_witness :
  length (aw_reports (demo_lives perfect)) = 1%nat /\
  Forall (fun ir => exists row,
    remediation_actions (demo_database perfect (aw_sent (demo_lives perfect))) !! ir.1 = Some row /\
    rm_status row = _RESULT_STATUS_TO_ACTION_STATUS (res_status ir.2) /\
    rm_reason row = res_message ir.2) (aw_reports (demo_lives perfect)).
Proof.
  split; [vm_compute; reflexivity|].
  apply (accepted_results_are_recorded demo_order demo_app demo_bearer perfect no_background
    busy_agent two_lives); [reflexivity|apply demo_fresh].
Defined.

(** What the busy node collects can be stored. *)
Lemma busy_storable fate w p w' :
  @_collect (demo_network fate) (@scheduler_of (demo_network fate) demo_agent_settings) w =
    (Ok p, w') -> @storable (demo_network fate) p.
Proof.
  intros Hc. split; [|apply ref_dump_plain]. rewrite collect_isolates in Hc.
  cbn in Hc. injection Hc as <- _. unfold finite_payload. cbn [np_samples].
  apply (bool_decide_unpack _). by vm_compute.
Qed.

(** The Collector cannot be reached in the first cycle; the payload waits in the buffer and
    the second cycle delivers it. *)
Definition partition : nat -> Fate :=
  fun i => if Nat.ltb i 3 then Undelivered NoConnection else Answered.

Lemma nothing_is_lost_witness :
  exists fresh w', demo_run partition 2 = (Ok tt, w') /\
    length fresh = 2%nat /\ Forall (fun p => np_node_id p = "n1"%string) fresh /\
    fresh ≡ₚ aw_accepted w' /\
    Forall (fun p => Forall (fun x => stored p x (demo_database partition (aw_sent w')))
      (np_samples p)) (aw_accepted w').
Proof.
  destruct (nothing_is_lost demo_order demo_app demo_bearer partition no_background busy_agent
    demo_agent_settings 2 [] (agent_world [])) as (fresh & q' & w' & Hrun & Hlen & Hn & _ & Hperm & Hst & Hheal);
    [left; reflexivity|apply demo_fresh| |vm_compute; reflexivity
    |reflexivity|apply demo_apart; reflexivity|apply busy_storable|intros w; vm_compute; reflexivity
    |apply demo_empty|vm_compute; discriminate|].
  - intros i name. unfold partition. by destruct (Nat.ltb i 3).
  - assert (q' = []) as ->.
    { apply (Hheal 1%nat); [lia|apply ref_env_healthy| |simpl; lia].
      intros i Hi. assert (3 <= i)%nat as Hi'.
      { etrans; [|exact Hi]. apply (bool_decide_unpack _). vm_compute. exact I. }
      unfold partition. by rewrite (proj2 (Nat.ltb_ge i 3) Hi'). }
    exists fresh, w'. rewrite app_nil_r in Hperm.
    exact (conj Hrun (conj Hlen (conj Hn (conj Hperm Hst)))).
Defined.

(** The Collector has other work before each request: its jobs, and the operator's reads. *)
Definition some_background (_ : nat) : list Event :=
  [SchedulerPass; Restart; HttpRequest (Some "secret"%string) (ListAlerts None)].

Lemma busy_clock k : exists h, datetime_sub (@agent_clock busy_agent k) (hours 1) = inl h.
Proof.
  exists (@agent_clock busy_agent k - hours 1). unfold datetime_sub.
  assert (0 <= Z.of_nat (Nat.min k 1000) <= 1000) as Hk by lia.
  cbn [agent_clock busy_agent]. revert Hk. generalize (Z.of_nat (Nat.min k 1000)). intros z Hz.
  unfold ref_start, minutes, hours, min_datetime, max_datetime, seconds, us_per_second in *.
  rewrite (proj2 (Z.leb_le _ _)) by lia. by rewrite (proj2 (Z.leb_le _ _)) by lia.
Qed.

(** The demonstration with the scheduler's two sweeps. *)
Definition sweeping_app : App :=
  {| app_settings := demo_settings; app_notifier := app_notifier demo_app;
     app_scheduler := Some
       [{| js_job := StalenessJob false;
           js_interval_seconds := staleness_check_interval_seconds demo_settings |};
        {| js_job := ReconciliationJob;
           js_interval_seconds := reconciliation_interval_seconds demo_settings |}];
     app_rules := app_rules demo_app; app_policy := app_policy demo_app |}.

(** The Agent is restarted after its first cycle; the action comes in the second. *)
Definition restarted_agent : list (AgentSettings * list bool) :=
  [(demo_agent_settings, [false; true]); (demo_agent_settings, [false; false; true])].

Definition swept_network : AgentEnv :=
  on_network demo_order sweeping_app demo_bearer perfect some_background busy_agent.

Lemma dispatched_actions_settle_witness :
  let w' := @agent_lives swept_network restarted_agent (agent_world []) in
  aw_executed w' = [1] /\ NoDup (aw_executed w') /\
  forall k row, remediation_actions (db_of demo_order sweeping_app demo_bearer perfect some_background
      (aw_sent w')) !! k = Some row -> rm_node_id row = "n1"%string ->
    rm_status row = BLOCKED_BY_SAFETY_LIMIT \/
    (k ∈ aw_executed w' /\ rm_status row <> DISPATCHED).
Proof.
  split; [vm_compute; reflexivity|].
  apply (dispatched_actions_settle demo_order sweeping_app demo_bearer perfect some_background busy_agent
    "n1" ["var"; "buffer.jsonl"]%string restarted_agent); [apply ref_env_healthy|reflexivity|reflexivity
    |intros i; repeat constructor|apply busy_clock| |apply demo_fresh|apply demo_empty].
  repeat (apply Forall_cons; split; [split; [reflexivity|split; [reflexivity|split; [reflexivity|
    split; [apply demo_apart; reflexivity|vm_compute; reflexivity]]]]|]).
  constructor.
Defined.


(** ** A node falls silent *)

(** The clocks advance by a minute with every interaction, the calendar one for twelve. *)
Definition minute_env : Env :=
  {| eng_select := @eng_select ref_env; eng_select_perm := @eng_select_perm ref_env;
     eng_commit := @eng_commit ref_env; eng_fresh := @eng_fresh ref_env;
     eng_fresh_spec := @eng_fresh_spec ref_env;
     clock := fun k => ref_start + minutes (Z.of_nat (Nat.min k 12));
     monotonic := fun k => float_of_Z (60 * Z.of_nat k);
     telegram := @telegram ref_env; float_repr := @float_repr ref_env |}.

Lemma minute_healthy : @Healthy minute_env.
Proof. split; apply ref_env_healthy. Qed.

Definition minute_app : @App minute_env :=
  {| app_settings := demo_settings; app_notifier := _build_notifier demo_settings;
     app_scheduler := app_scheduler sweeping_app;
     app_rules := demo_rules; app_policy := [demo_playbook] |}.

Definition heartbeat (n : string) (m : Z) : Event :=
  HttpRequest (Some "secret"%string)
    (ReceiveHeartbeat {| hb_node_id := n; hb_sent_at := ref_start + minutes m |}).

(** [n1] is last heard of in minute four, [n2] in minute eleven; the first sweep opens no alert. *)
Definition before_silence : list Event :=
  [heartbeat "n1" 4; heartbeat "n2" 5; SchedulerPass; heartbeat "n2" 11].

Definition during_silence : list Event :=
  [heartbeat "n2" 12; Restart; SchedulerPass; RunAllOnce; SchedulerPass].

Lemma staleness_follows_silence_witness :
  let db := db_after demo_order minute_app (before_silence ++ SchedulerPass :: during_silence) in
  exists id a, alerts db !! id = Some a /\ is_open "n1" STALENESS_RULE_KEY a /\
    forall id' a', alerts db !! id' = Some a' -> is_open "n1" STALENESS_RULE_KEY a' -> id' = id.
Proof.
  apply (staleness_follows_silence demo_order minute_app before_silence during_silence "n1"
    {| nm_node_id := "n1"; nm_first_seen_at := ref_start + minutes 4;
       nm_last_seen_at := ref_start + minutes 4 |} true).
  - exact minute_healthy.
  - vm_compute. reflexivity.
  - intros k Hk. assert (12 <= k)%nat as Hk'.
    { etrans; [|exact Hk]. apply (bool_decide_unpack _). vm_compute. exact I. }
    cbn [clock minute_env]. rewrite (Nat.min_r k 12 Hk'). vm_compute. reflexivity.
  - apply (bool_decide_unpack _). vm_compute. exact I.
  - repeat constructor; discriminate.
Defined.
